(* ===== verification/_CoqProject ===== *)
-Q . S2P
Prelude.v
Types.v
Endpoint.v
Copy.v
Kernel.v
Utils.v
IpcCommon.v
Send.v
Receive.v
Sendrec.v
Notify.v
Sproxy.v
Unbind.v
Rproxy.v
Hyper.v
Bind.v
Proxies.v
Wait.v
Vcopy.v
Migrate.v
Exit.v
Hoare.v
Locks.v
IpcLocks.v
Queues.v
QueueLogic.v
IpcQueues.v
ReceiveQueues.v
SproxyQueues.v
Tables.v
RproxyQueues.v
System.v
Exec.v
Rendezvous.v
NotifyFlow.v
RemoteExec.v
RemoteFlow.v
Scenario.v
Members.v
Reach.v
HyperFlow.v
BindFlow.v
HyperScenario.v
ExitFlow.v
MigrateFlow.v
VcopyFlow.v
MigrateScenario.v
VcopyScenario.v
Timers.v
Clock.v
Slots.v
StatFile.v
Systask.v
SlotsLogic.v
SystaskLogic.v
SlotToken.v
SlotsGroup.v
SlotsTyped.v
SlotsFlow.v
SlotsFaults.v
SystaskFlow.v
SystaskInfo.v
SlotsScenario.v
SystaskScenario.v
PmData.v
SysLib.v
Pm.v
PmFork.v
PmMain.v
PmStart.v
PmLogic.v
PmIds.v
PmFlow.v
PmWait.v
PmErrors.v
PmSystask.v
PmScenario.v
TcpProxy.v
TcpFlow.v
TcpScenario.v
