(* ===== verification/Prelude.v ===== *)
(** * Verification of the MOL-IPC kernel module, its system task and its process manager

    MOL-IPC runs MINIX-like operating systems in user space, spread over the
    nodes of a cluster.  A Linux kernel module ([src/mol-module], with the
    headers of [src/kernel] and [src/kernel/minix]) gives the processes of a
    _data container_ (DC) the rendezvous primitives of MINIX.  A process of
    another node has a descriptor here too; what is sent to it is queued on the
    _sender proxy_ of its node, whose program fetches the commands with
    [mm_get2rmt] and carries them over the network to the _receiver proxy_ of
    the other node, which hands them over with [mm_put2lcl]; one of these programs is
    the proxy over TCP ([src/proxy/tcp_proxy.c]).  The _hypervisor
    calls_ configure all this, and processes can migrate.  In user space, the
    _system task_ of each node ([src/tasks/systask]) binds and unbinds the
    processes; the system tasks of a DC share its process table by a replicated
    _slot table_, which tells the node that owns each slot, kept equal with
    messages multicast in a total order.  The _process manager_ of a DC
    ([src/servers/pm]) serves the calls of its processes - [fork], [exit], [wait],
    alarms, identities - by requests to the system tasks ([src/lib/syslib]).  The
    system task and the process manager share a library of watchdog timers.

    ** How the module is modelled

    The state of the module is the record [Kernel.kstate]: the tables of DCs,
    nodes, pairs of proxies and process descriptors ([mol-glo.h]), the Linux
    tasks with their binding [task_proc], the message buffers and pages of user
    space, and the mutexes the running handler holds.  A handler is a program of
    the monad [Kernel.M]: it ends with a [return] statement ([X_RET]), by
    sleeping at a program point with its local variables ([X_SLEEP]), by waiting
    for a condition of a hypervisor call ([X_WAIT]), or with a fault
    ([X_FAULT]: a wild pointer, a mutex locked twice by its owner, an unlock of
    a mutex that is not held, a loop that does not end).  All locks of the
    configuration are mutexes ([config.h]), so the read and write variants of a
    lock operation are the same.  A system call runs as one step up to its end
    or its next sleep, and the rest of it is another step ([resume_*]); the
    transition systems interleave these steps in any order.  Intrusive lists are
    modelled with both sides: the list of the head and the back pointer of each
    member.  Machine integers are [Z]; counters wrap at 32 bits, bitmaps are
    read and written bit by bit.

    ** How the system task is modelled

    Its globals ([glo.h]) are the record [Slots.sys]; the kernel, whose process
    table the task has mapped, and the group communication of Spread are the
    classes [Slots.Host] and [Systask.TaskHost], whose laws ([Reliable],
    [HostLaws], [TaskLaws], [BindLaws], [ExitLaws], [CopyLaws], [Memory]) are hypotheses
    of the theorems that need them and hold of the hosts of [SlotsScenario] and
    [SystaskScenario].  [SystaskFlow.BindLaws], what the binding of a child does, is the
    outcome of every branch of [mm_bind] ([BindFlow.bind_keeps_endpoint]);
    [SystaskScenario.kernel_host] is a host made of the handlers of the module, and
    [kernel_bind] derives the law for it.  A handler returns ([Ok]), or stops ([Stop]): the process
    exits, an assertion fails, a pointer is used that was never set, or the
    thread waits for its own message.  [SlotsGroup.gstep] is the group: every
    member takes the messages at its own pace, its other thread serves requests,
    and its kernel runs.

    ** How the process manager is modelled

    Its globals ([glo.h]), with the table of processes ([mproc.h]), are the record
    [PmData.pmg].  A handler ends with a result or with a crash ([PmData.pout]): the
    process exits, an assertion fails, or memory outside of the tables is used.  The
    system tasks, reached by [mnx_sendrec], the copy of the process table of the
    kernel and the calls of the kernel are the classes [PmData.PmHost] and
    [PmStart.PmKernel]; its alarm is the class [Clock.AlarmService].  The requests
    are those of [Systask], so that [PmSystask] can run the process manager over the
    handlers of the system task.  What a variable that is not set holds is given by
    [junk], which depends on the variable and on the whole state, and of which nothing
    is known.

    ** How the proxies are modelled

    The two processes of [tcp_proxy.c] are programs of a monad over the globals
    [TcpProxy.proxy]; headers and payloads are bytes, and the calls of Linux and of the
    module are the class [TcpProxy.Net], which may take or give any part of what is to
    be sent or received.

    ** The files

    - [Prelude]: record update, machine integers, bits, lists, automation.
    - [Types], [Endpoint]: constants and structures ([minix/*.h]), endpoint
      arithmetic ([minix/endpoint.h]).
    - [Copy]: copies between address spaces page by page ([mm_utils.c]).
    - [Kernel]: state, monad, mutexes, lists, sleeping and waking
      ([mol-macros.h], [mm_utils.c]).
    - [Utils]: [check_caller], acknowledges ([mm_acks.c]), the proxy queue,
      bitmaps of notifications, [BUILD_NOTIFY_MSG].
    - [IpcCommon], [Send], [Receive], [Sendrec], [Notify]: [mm_ipc.c].
    - [Sproxy], [Rproxy]: [mm_sproxy.c], [mm_rproxy.c].
    - [Unbind], [Hyper], [Bind], [Proxies], [Wait], [Exit]: [mm_hyper.c] and the
      routines of [mm_utils.c] it uses.
    - [Vcopy]: [mm_vcopy] of [mm_ipc.c] and [sleep_proc3]; [Migrate]:
      [mm_migrate.c].
    - [Hoare], [Locks], [IpcLocks]: weakest preconditions; which locks the IPC
      handlers hold when they end.
    - [Queues], [QueueLogic], [IpcQueues], [ReceiveQueues],
      [SproxyQueues], [Tables], [RproxyQueues], [System]: the invariant of the
      queues, handler by handler, and the transition system of calls, sleeps and
      wake-ups in which it is proved.
    - [Exec], [Rendezvous], [NotifyFlow], [RemoteExec], [RemoteFlow], [Scenario]:
      handlers run on symbolic states; message and notification delivery; the
      proxies, and a message from the kernel of one node to that of another;
      concrete kernels.
    - [Members], [Reach], [HyperFlow], [BindFlow], [HyperScenario]: the
      membership of nodes in DCs, its transition system, the functional
      behaviour of the hypervisor calls; a concrete configuration.
    - [ExitFlow], [MigrateFlow], [VcopyFlow], [MigrateScenario],
      [VcopyScenario]: exits, migrations and copies of data run.
    - [Timers], [Clock]: [lib/timers/timers.c]; [tasks/systask/clock.c] and
      [do_setalarm.c], [servers/pm/timers.c], with the interface [AlarmService]
      between the process manager and the clock.
    - [Slots]: [tasks/systask/slots.c]; [StatFile]: the file of Linux that
      [do_times.c] reads; [Systask]: the requests and the start of the system
      task ([do_*.c], [system.c]).
    - [SlotsLogic], [SystaskLogic]: rules for the handlers; what a request leaves
      of the slot table.  [SlotToken]: a slot as a token that moves between the
      members.  [SlotsGroup]: the group and its refinement of the token.
    - [SlotsTyped], [SlotsFlow], [SlotsFaults], [SystaskFlow], [SystaskInfo],
      [SlotsScenario], [SystaskScenario]: the form of the globals, donations, the
      paths that fail, forks and exits, the other requests; a group of three
      nodes.
    - [PmData], [SysLib]: the data of the process manager and its monad; the part of
      [lib/syslib] it calls.
    - [Pm], [PmFork], [PmMain], [PmStart]: tables, pids, signals and alarms
      ([utility.c], [signal.c], [timers.c]); [forkexit.c]; the other calls, the table
      of calls and the loop ([getset.c], [misc.c], [time.c], [rexec.c], [table.c],
      [pm.c]); [pm_init].
    - [PmLogic]: rules for handlers and for what they keep of the table.  [PmIds],
      [PmFlow], [PmWait], [PmErrors]: identities; pids, replies and orphans; exits
      and waits; the paths that fail.  [PmSystask]: the process manager over the
      system task.  [PmScenario]: a DC of twenty processes, and one on a system task.
    - [TcpProxy]: [proxy/tcp_proxy.c].  [TcpFlow], [TcpScenario]: commands through two
      proxies, the end of a connection; a slow line.

    ** What the theorems show

    - Queues: in every state that the IPC calls and those of the proxies lead to, the
      sender queues and the back pointers
      agree, without duplicates, and every member has a reason to be there
      ([System.queues_well_formed], [System.queued_senders_pass]).
    - Delivery: send and receive deliver a message exactly once in either order;
      the queue is first in, first out; a notification comes before queued messages,
      and in either order with the receive, but is lost when an interrupt ends the wait
      of the receiver it woke; a send that gives up leaves no trace
      ([Rendezvous], [NotifyFlow]).
    - Delivery across nodes: a send to a process of another node and its receive, in
      either order, run through the two kernels and their four proxies to the same
      end, with one message and one acknowledge ([RemoteFlow.remote_rendezvous]).
    - Locks: which handlers release every mutex on every branch ([IpcLocks]), and the
      single error of each of the others that may keep one, and does
      ([Scenario.ipc_keeps_at_most_one_lock]).
    - Configuration: the two tables of memberships agree under the calls that
      [Reach.hyper_ok] admits, and under any calls a DC has no more nodes than it was
      created for, or one ([Reach]); adding and deleting a node, and binding and finding
      a process, are round trips ([HyperFlow], [BindFlow]); binding never changes the
      endpoint of a slot ([BindFlow.bind_keeps_endpoint]).
    - Timers: the chain of timers refines an ordered list; the expiration loop
      ends, and calls the right watchdogs in order; the signal handler of the clock
      runs the expired ones and arms the timer of Linux for the rest; the process
      manager's alarm always covers its first timer ([Timers], [Clock]).
    - Copies: exactly the requested bytes, at any offsets ([Copy]), also across
      nodes ([VcopyFlow]).
    - Migration: what start, commit and rollback leave on the old node, the new
      one and the others ([MigrateFlow]).
    - Slots: in a stable membership every user slot has exactly one owner, a
      member or a message on its way, and members that have taken the same
      messages agree ([SlotsGroup]); a donation is exact, and the member next to a
      requester answers it or, if it counts no other member, stops ([SlotsFlow]); the globals keep their form under every event
      ([SlotsTyped]).
    - Requests: a fork takes a free slot but is answered as an error, with the old
      endpoint, and is not counted, so that forks end in an assertion and exits make the
      counter too high ([SystaskFlow.forks_stop_task], [fork_exit_miscounts]); the
      limits of the start are consistent; a pattern is written whole; the process table and the times reach the caller as they
      are ([SystaskInfo]).
    - Process manager: a new pid is the next free one in turn, and the search for it
      ends; an exit and the wait for it commute; a process that exits leaves its
      children to INIT; each pending reply is sent once when the sends do not fail
      ([PmFlow], [PmWait]); a fork through the requests of the system task makes one
      child in both tables, with the endpoint that the system task returned as an error
      ([PmSystask]).
    - Proxies: the commands of one kernel reach the other exactly and in order, in
      whatever pieces TCP carries them ([TcpFlow.tunnel_delivers]).
    - Where the code does not do what it means to, a theorem says what it does
      instead: [Clock.clock_goes_silent], [Clock.do_setalarm_drops_timers],
      [HyperFlow.node_down_no_effect], [HyperFlow.node_down_keeps_dcs],
      [BindFlow.bind_keeps_endpoint], [BindFlow.proxies_unbind_deadlocks],
      [BindFlow.wait4bind_untimed], [HyperScenario.dc_init_ignores_checks],
      [Scenario.ipc_keeps_at_most_one_lock], [Copy.copy_krn2usr_double_offset],
      [ExitFlow.exit_proxy_deadlocks], [VcopyFlow.third_party_error_hangs], the
      theorems of [SlotsFaults], [SlotsScenario.departure_two_owners],
      [SystaskFlow.forks_stop_task], [SystaskFlow.fork_exit_miscounts],
      [SystaskFlow.system_exit_miscounts], [SystaskInfo.rexec_miscounts],
      [SystaskInfo.nice_minus_one], [SystaskInfo.proctab_leaks],
      [PmIds.nobody_forever], the theorems of [PmErrors],
      [TcpFlow.receiver_never_leaves], [TcpFlow.sender_never_reconnects].

    ** Fuel

    The loops that wait for a migration or replay a call ([check_dst],
    [send_replay] and the like), and the loop of the sender proxy, take a fuel;
    running out of it is the fault [F_DIVERGES], never a result.  The functional
    theorems hold for any positive fuel, or state the amount.  The loops over
    timers have a fuel that [Timers.timers_refine] and [Timers.exptimers_ends]
    show to be enough, and so has the loop of [do_memset]
    ([SystaskFlow.memset_fills]).  The wait of an exit for a killed process has a
    number of time outs it may see; when they are used up it is still waiting.  The
    search of [get_free_pid] has one turn more than twice the entries of the table,
    which each take two pids at most ([PmFlow.get_free_pid_fresh]).  A loop of the
    proxies over [recv] has a turn more than bytes to receive, which is always enough;
    their loops that go on for ever end with [X_MORE] when the fuel is used up.

    ** Bounds of the model

    The union [c_u] of the header of a command ([cmd.h]) is two fields of
    [Types.cmd_t], of which the code fills and reads the one that [c_cmd] names; that
    one view overwrites the other is not modelled.  The copy of a message between two
    address spaces ([Kernel.copy_usr2usr_msg]) is one step on a cell, where the code
    runs [copy_usr2usr], whose exactness byte by byte is [Copy.copy_usr2usr_exact].
    Addresses are pointers, taken as integers without a bound: a block that runs past
    the end of the address space is outside of the model.  The transition system of
    [System] has the IPC calls and those of the proxies; the calls that bind, unbind,
    copy, migrate and exit are handlers with theorems of their own, not steps of it.
    The tasks of Linux have a reference count ([t_usage]), which [get_task_struct] and
    [mm_put_task_struct] change; what Linux does with the last reference is not
    modelled.

    ** Not modelled

    Proxies that are kernel threads end in the fault [F_KTHREAD] in
    [mm_get2rmt] and [mm_put2lcl].  CPU masks, names, [/proc] and debugfs
    ([mm_procfs.c], [mm_debugfs.c]), system call patching ([mol_replace.c]), code
    under [MOL_AUTOBIND] and [MOLAUTOFORK], which the build does not define, and
    [mm_wakeup_ep.c], which does not compile, are left out.  Of the system task,
    the child that [do_rexec] makes, between its [fork] and its [exec], is left
    out, since it is another process, and so are the errors of [SP_receive], on
    which the task exits.  The group theorems are for a
    stable membership; joins, departures, partitions and merges are modelled, and
    [SlotsScenario.departure_two_owners] shows that they do not keep a single
    owner.  Of the process manager, the delivery of signals and the messages to the file
    system only trace in the code, and what is between [#ifdef ANULADO] or [TEMPORAL]
    is not compiled; [sys_rbindproc] reads the name of a task from [/proc], which is
    left out.  The other servers, the other tasks, the other libraries and the
    proxies over other transports than TCP are not modelled.  *)

From Stdlib Require Export ZArith Lia.
From stdpp Require Export base gmap list fin_maps numbers.

#[global] Open Scope Z_scope.

(** ** Functional record update

    [r <| f := v |>] is the record [r] with field [f] replaced by [v], the
    model of the C assignment [r.f = v]; [r <| f ::= g |>] applies [g].  A
    record type takes part by declaring its eta-expansion. *)

Class Eta (R : Type) := eta_of : R -> R.

Class Setter {R T : Type} (proj : R -> T) := upd_field : (T -> T) -> R -> R.

Arguments upd_field {R T} proj {_} f r /.

Ltac solve_setter :=
  lazymatch goal with
  | |- @Setter ?R _ ?proj =>
      let e := constr:(_ : Eta R) in
      let e := eval unfold eta_of in e in
      let e := eval hnf in e in
      lazymatch eval pattern proj in e with
      | ?abs _ => exact (fun g => abs (fun r => g (proj r)))
      end
  end.

#[export] Hint Extern 0 (Setter _) => solve_setter : typeclass_instances.

Declare Scope rec_scope.
#[global] Open Scope rec_scope.

Notation "r <| f := v |>" := (upd_field f (fun _ => v) r)
  (at level 1, f at level 8, v at level 99, left associativity) : rec_scope.
Notation "r <| f ::= g |>" := (upd_field f g r)
  (at level 1, f at level 8, g at level 99, left associativity) : rec_scope.

(** ** Machine integers

    [int] is 32 bits wide on the i386 target, and so is [unsigned long]. *)

Definition ULONG_MOD : Z := 2 ^ 32.
Definition INT_MAX : Z := 2 ^ 31 - 1.

(** [x++] on an [unsigned long]. *)
Definition ulong_inc (x : Z) : Z := (x + 1) mod ULONG_MOD.

(** Conversion of an [unsigned long] to [int]. *)
Definition to_int (x : Z) : Z :=
  let y := x mod ULONG_MOD in if y <=? INT_MAX then y else y - ULONG_MOD.

(** The kernel's bit operations on an [unsigned long]. *)
Definition test_bit (nr flags : Z) : bool := Z.testbit flags nr.
Definition set_bit (nr flags : Z) : Z := Z.setbit flags nr.
Definition clear_bit (nr flags : Z) : Z := Z.clearbit flags nr.
Arguments test_bit : simpl never.
Arguments set_bit : simpl never.
Arguments clear_bit : simpl never.

(** ** Lists

    [del x l] is [l] without [x]; the queues of the kernel hold a process at
    most once, so this is what unlinking a list node does. *)

Definition del `{EqDecision A} (x : A) (l : list A) : list A :=
  filter (fun y => y <> x) l.

(** ** Lemmas on bits *)

Section Bits.
Implicit Types n m f : Z.

Lemma test_set_same n f : 0 <= n -> test_bit n (set_bit n f) = true.
Proof. intros. apply Z.setbit_eq; lia. Qed.

Lemma test_set_other n m f :
  0 <= n -> n <> m -> test_bit m (set_bit n f) = test_bit m f.
Proof. intros. apply Z.setbit_neq; lia. Qed.

Lemma test_clear_same n f : test_bit n (clear_bit n f) = false.
Proof. apply Z.clearbit_eq. Qed.

Lemma test_clear_other n m f :
  n <> m -> test_bit m (clear_bit n f) = test_bit m f.
Proof. intros. apply Z.clearbit_neq; lia. Qed.

Lemma test_bit_0 n : test_bit n 0 = false.
Proof. apply Z.bits_0. Qed.

(** A bit that is set makes the whole word non zero: the tests
    [p_rts_flags == 0] of the kernel rely on it. *)
Lemma test_bit_nonzero n f : test_bit n f = true -> f <> 0.
Proof. intros H ->. by rewrite test_bit_0 in H. Qed.

Lemma set_bit_nonzero n f : 0 <= n -> set_bit n f <> 0.
Proof. intros. apply (test_bit_nonzero n). by apply test_set_same. Qed.
End Bits.

Section Del.
Context `{EqDecision A}.
Implicit Types (x y : A) (l : list A).

Lemma elem_of_del x y l : y ∈ del x l <-> y ∈ l /\ y <> x.
Proof. unfold del. rewrite list_elem_of_filter. tauto. Qed.

Lemma NoDup_del x l : NoDup l -> NoDup (del x l).
Proof. apply list.NoDup_filter. Qed.

Lemma del_notin x l : x ∉ l -> del x l = l.
Proof.
  unfold del. induction l as [|y l IH]; [done|]; intros Hx.
  rewrite filter_cons_True; [|set_solver]. f_equal. apply IH. set_solver.
Qed.

Lemma NoDup_snoc x l : NoDup l -> x ∉ l -> NoDup (l ++ [x]).
Proof.
  intros Hl Hx. apply list.NoDup_app. split_and!; [done| |apply NoDup_singleton].
  intros y Hy ->%list_elem_of_singleton. done.
Qed.
End Del.

Create HintDb mol.
#[export] Hint Resolve test_set_same test_clear_same NoDup_del NoDup_snoc : mol.
Create Rewrite HintDb molrw.
#[export] Hint Rewrite test_clear_same test_bit_0 : molrw.

(** Case analysis on the innermost test of a conditional or match. *)
Ltac split_case :=
  match goal with
  | |- context [ match ?x with _ => _ end ] =>
      lazymatch x with
      | context [ match _ with _ => _ end ] => fail
      | _ => destruct x eqn:?
      end
  end.
