(* ===== verification/Types.v ===== *)
(** * Constants and data structures of the MOL-IPC kernel

    The error codes, process status bits and magic process numbers of
    [src/kernel/minix/*.h], and the structures the kernel module keeps:
    [message], [cmd_t], [struct proc], the descriptors of data containers
    (DCs), nodes and proxy pairs, and the Linux tasks they are bound to.

    Conventions.  The nested structs [p_usr], [p_priv] and [p_priv.s_usr] of
    [struct proc] are flattened into one record.  A pointer to a [struct proc]
    is a value of [ptr]: a slot of the process table of a DC, or the sender or
    receiver process of a proxy pair.  An intrusive list head ([p_list],
    [p_mlist], [p_ulist]) is the list of the processes enqueued on it and a
    list link ([p_link], [p_mlink], [p_ulink]) records the head it is on, if
    any.  The two members of the union of [cmd_t] are separate fields. *)

From S2P Require Import Prelude.

(** ** Error codes ([molerrno.h]) *)

Definition OK : Z := 0.
Definition EPERM : Z := 1.
Definition ERESTARTSYS : Z := 512.
Definition EMOLPERM : Z := -1.
Definition EMOL2BIG : Z := -7.
Definition EMOLAGAIN : Z := -11.
Definition EMOLBUSY : Z := -16.
Definition EMOLINVAL : Z := -22.
Definition EMOLRANGE : Z := -34.
Definition EMOLNOSYS : Z := -38.
Definition EMOLTIMEDOUT : Z := -61.
Definition EMOLNOTCONN : Z := -64.
Definition EMOLSHUTDOWN : Z := -65.
Definition EMOLADDRNOTAVAIL : Z := -71.
Definition EMOLMSGSIZE : Z := -73.
Definition EMOLDEADSRCDST : Z := -105.
Definition EMOLNOTREADY : Z := -106.
Definition EMOLBADREQUEST : Z := -107.
Definition EMOLSRCDIED : Z := -108.
Definition EMOLDSTDIED : Z := -109.
Definition EMOLBADNODEID : Z := -301.
Definition EMOLBADDCID : Z := -302.
Definition EMOLDCNOTRUN : Z := -303.
Definition EMOLBADPROC : Z := -304.
Definition EMOLBADPID : Z := -305.
Definition EMOLENDPOINT : Z := -306.
Definition EMOLNOPROXY : Z := -307.
Definition EMOLRMTPROC : Z := -308.
Definition EMOLLCLPROC : Z := -309.
Definition EMOLNOTBIND : Z := -310.
Definition EMOLACKDST : Z := -312.
Definition EMOLACKSRC : Z := -313.
Definition EMOLNONODE : Z := -316.
Definition EMOLDVSINIT : Z := -318.
Definition EMOLNODCNODE : Z := -319.
Definition EMOLPROCRUN : Z := -320.
Definition EMOLPROCSTS : Z := -324.
Definition EMOLDCNODE : Z := -326.
Definition EMOLBADPROXY : Z := -327.
Definition EMOLONCOPY : Z := -328.
Definition EMOLENQUEUED : Z := -329.
Definition EMOLOVERRUN : Z := -330.
Definition EMOLMIGRATE : Z := -332.
Definition EMOLPROXYFREE : Z := -333.
Definition EMOLGRPLEADER : Z := -334.
Definition EMOLPRIVILEGES : Z := -335.
Definition EMOLBINDTYPE : Z := -336.
Definition EMOLSLOTUSED : Z := -337.
Definition EMOLPROXYID : Z := -345.
Definition EMOLALIGN : Z := -347.
Definition EMOLWOKENUP : Z := -348.

(** ** Sizes and magic numbers ([sys_config.h], [com.h], [const.h]) *)

Definition NR_NODES : Z := 32.
Definition NR_FIXED_TASKS : Z := 3.
Definition NR_SYSTASKS : Z := NR_NODES.
Definition NR_TASKS : Z := NR_FIXED_TASKS + NR_SYSTASKS.
Definition NR_PROCS : Z := 256 - NR_TASKS.
Definition NR_SERVERS : Z := 32 - NR_FIXED_TASKS.
Definition NR_SYS_PROCS : Z := NR_SERVERS + NR_TASKS.
Definition NR_DCS : Z := 32.

Definition TIMEOUT_NOWAIT : Z := 0.
Definition TIMEOUT_FOREVER : Z := -1.
Definition TIMEOUT_MOLCALL : Z := 30000.

Definition ANY : Z := 0x7ace.
Definition NONE : Z := 0x6ace.
Definition SELF : Z := 0x8ace.
Definition MAX_MAGIC_PROC : Z := SELF.
Definition LOCALNODE : Z := -1.
Definition DVS_NO_INIT : Z := -1.
Definition PROC_NO_PID : Z := -1.
Definition PROXY_NO_DC : Z := -1.
Definition NO_PROXIES : Z := -1.
Definition USER_ROOT : Z := 0.

Definition HARDWARE : Z := -1.
Definition SYSTEM : Z := -2.
Definition SLOTS : Z := SYSTEM - NR_SYSTASKS.
Definition NOTIFY_MESSAGE : Z := 0x1000.
Definition NOTIFY_FROM (p : Z) : Z := Z.lor NOTIFY_MESSAGE p.

Definition MAXCOPYBUF : Z := 65536.
Definition MAXCOPYLEN : Z := 16 * MAXCOPYBUF.
(** [sizeof(message)] on the i386 target: two words and a 28-byte union. *)
Definition SIZEOF_MESSAGE : Z := 36.
(** [sizeof(update_t) * 8]. *)
Definition UPDATE_BITS : Z := 32.

(** ** Process status bits ([proc_sts.h]) *)

Definition PROC_RUNNING : Z := 0.
Definition BIT_SLOT_FREE : Z := 0.
Definition BIT_NO_MAP : Z := 1.
Definition BIT_SENDING : Z := 2.
Definition BIT_RECEIVING : Z := 3.
Definition BIT_SIGNALED : Z := 4.
Definition BIT_NO_ENDPOINT : Z := 9.
Definition BIT_ONCOPY : Z := 10.
Definition BIT_MIGRATE : Z := 11.
Definition BIT_REMOTE : Z := 12.
Definition BIT_RMTOPER : Z := 13.
Definition BIT_WAITMIGR : Z := 15.
Definition BIT_WAITUNBIND : Z := 17.
Definition BIT_WAITBIND : Z := 18.

Definition SLOT_FREE : Z := Z.shiftl 1 BIT_SLOT_FREE.
Definition ONCOPY : Z := Z.shiftl 1 BIT_ONCOPY.
Definition REMOTE : Z := Z.shiftl 1 BIT_REMOTE.

(** ** Miscellaneous flags ([proxy_usr.h]) *)

Definition GENERIC_PROC : Z := 0.
Definition MIS_BIT_PROXY : Z := 0.
Definition MIS_BIT_CONNECTED : Z := 1.
Definition MIS_BIT_NOTIFY : Z := 2.
Definition MIS_BIT_NEEDMIGR : Z := 3.
Definition MIS_BIT_RMTBACKUP : Z := 4.
Definition MIS_BIT_GRPLEADER : Z := 5.
Definition MIS_BIT_KTHREAD : Z := 6.
Definition MIS_BIT_REPLICATED : Z := 7.
Definition MIS_BIT_KILLED : Z := 8.
Definition MIS_BIT_WOKENUP : Z := 9.
Definition MIS_RMTBACKUP : Z := Z.shiftl 1 MIS_BIT_RMTBACKUP.
Definition MIS_GRPLEADER : Z := Z.shiftl 1 MIS_BIT_GRPLEADER.
Definition MIS_REPLICATED : Z := Z.shiftl 1 MIS_BIT_REPLICATED.
Definition PROXIES_FREE : Z := 0.
Definition NODE_FREE : Z := 0.

(** ** Proxy commands ([cmd.h]) *)

Definition CMD_NONE : Z := 0.
Definition CMD_SEND_MSG : Z := 1.
Definition CMD_NTFY_MSG : Z := 2.
Definition CMD_SNDREC_MSG : Z := 3.
Definition CMD_REPLY_MSG : Z := 4.
Definition CMD_COPYIN_DATA : Z := 5.
Definition CMD_COPYOUT_RQST : Z := 6.
Definition CMD_COPYLCL_RQST : Z := 7.
Definition CMD_COPYRMT_RQST : Z := 8.
Definition CMD_COPYIN_RQST : Z := 9.
Definition BIT_ACKNOWLEDGE : Z := 13.
Definition CMD_ACKNOWLEDGE : Z := Z.shiftl 1 BIT_ACKNOWLEDGE.
Definition CMD_SEND_ACK : Z := Z.lor CMD_SEND_MSG CMD_ACKNOWLEDGE.
Definition CMD_SNDREC_ACK : Z := Z.lor CMD_SNDREC_MSG CMD_ACKNOWLEDGE.
Definition CMD_COPYIN_ACK : Z := Z.lor CMD_COPYIN_DATA CMD_ACKNOWLEDGE.
Definition CMD_COPYOUT_DATA : Z := Z.lor CMD_COPYOUT_RQST CMD_ACKNOWLEDGE.
Definition CMD_COPYLCL_ACK : Z := Z.lor CMD_COPYLCL_RQST CMD_ACKNOWLEDGE.
Definition CMD_COPYRMT_ACK : Z := Z.lor CMD_COPYRMT_RQST CMD_ACKNOWLEDGE.

(** ** Pointers to process descriptors *)

Inductive ptr :=
| PROC (dcid index : Z)       (* DC_PROC(&dc[dcid], index) *)
| SPROXY (px : Z)             (* &proxies[px].px_sproxy *)
| RPROXY (px : Z).            (* &proxies[px].px_rproxy *)

#[export] Instance ptr_eq_dec : EqDecision ptr.
Proof. solve_decision. Defined.

#[export] Instance ptr_countable : Countable ptr.
Proof.
  apply (inj_countable'
    (fun p => match p with
              | PROC d i => inl (d, i)
              | SPROXY n => inr (inl n)
              | RPROXY n => inr (inr n)
              end)
    (fun e => match e with
              | inl (d, i) => PROC d i
              | inr (inl n) => SPROXY n
              | inr (inr n) => RPROXY n
              end)).
  by intros [].
Defined.

(** ** Messages ([ipc.h])

    [m_source] and [m_type], the two fields of the notify view of the union
    that the kernel writes, and the rest of the payload. *)

Record message := mk_message {
  m_source : Z;
  m_type : Z;
  m9_l1 : Z;
  m9_t1 : Z;
  m_body : list Z;
}.

#[export] Instance eta_message : Eta message := fun r =>
  mk_message (m_source r) (m_type r) (m9_l1 r) (m9_t1 r) (m_body r).

#[export] Instance message_eq_dec : EqDecision message.
Proof. solve_decision. Defined.

Definition message0 : message := mk_message 0 0 0 0 [].

(** ** Remote commands ([cmd.h]) *)

Record vcopy_t := mk_vcopy {
  v_src : Z; v_dst : Z; v_rqtr : Z;
  v_saddr : Z; v_daddr : Z; v_bytes : Z;
}.

#[export] Instance eta_vcopy : Eta vcopy_t := fun r =>
  mk_vcopy (v_src r) (v_dst r) (v_rqtr r) (v_saddr r) (v_daddr r) (v_bytes r).

(** The header of a command.  The union [c_u] is two fields: the code fills and reads
    [cu_msg] for the messages and notifications and [cu_vcopy] for the copies, as
    [c_cmd] or [BIT_ONCOPY] says; that one overwrites the other is not modelled. *)
Record cmd_t := mk_cmd {
  c_cmd : Z; c_dcid : Z; c_src : Z; c_dst : Z;
  c_snode : Z; c_dnode : Z; c_rcode : Z; c_len : Z;
  c_timestamp : Z;
  cu_vcopy : vcopy_t;
  cu_msg : message;
}.

#[export] Instance eta_cmd : Eta cmd_t := fun r =>
  mk_cmd (c_cmd r) (c_dcid r) (c_src r) (c_dst r) (c_snode r) (c_dnode r)
         (c_rcode r) (c_len r) (c_timestamp r) (cu_vcopy r) (cu_msg r).

(** ** The process descriptor ([proc.h], [proc_usr.h], [priv.h]) *)

Record proc := mk_proc {
  p_nr : Z; p_endpoint : Z; p_dcid : Z; p_rts_flags : Z; p_lpid : Z;
  p_nodeid : Z; p_nodemap : Z; p_misc_flags : Z;
  p_getfrom : Z; p_sendto : Z; p_waitmigr : Z; p_waitunbind : Z; p_proxy : Z;
  p_lclsent : Z; p_rmtsent : Z; p_lclcopy : Z; p_rmtcopy : Z;
  p_rcode : Z;
  s_id : Z; s_warn : Z; s_level : Z;
  s_notify_pending : list Z;
  s_int_pending : Z; s_sig_pending : Z; s_updt_pending : Z;
  p_list : list ptr; p_link : option ptr;
  p_mlist : list ptr; p_mlink : option ptr;
  p_ulist : list ptr; p_ulink : option ptr;
  p_message : message;
  p_umsg : Z;
  p_pseudosem : Z;
  p_rmtcmd : cmd_t;
  p_task : option Z;
}.

#[export] Instance eta_proc : Eta proc := fun r =>
  mk_proc (p_nr r) (p_endpoint r) (p_dcid r) (p_rts_flags r) (p_lpid r)
    (p_nodeid r) (p_nodemap r) (p_misc_flags r)
    (p_getfrom r) (p_sendto r) (p_waitmigr r) (p_waitunbind r) (p_proxy r)
    (p_lclsent r) (p_rmtsent r) (p_lclcopy r) (p_rmtcopy r)
    (p_rcode r) (s_id r) (s_warn r) (s_level r) (s_notify_pending r)
    (s_int_pending r) (s_sig_pending r) (s_updt_pending r)
    (p_list r) (p_link r) (p_mlist r) (p_mlink r) (p_ulist r) (p_ulink r)
    (p_message r) (p_umsg r) (p_pseudosem r) (p_rmtcmd r) (p_task r).

(** ** Data containers, nodes and proxy pairs *)

Record dc_t := mk_dc {
  dc_dcid : Z; dc_flags : Z;
  dc_nr_procs : Z; dc_nr_tasks : Z; dc_nr_sysprocs : Z;
  dc_nodes : Z;
  dc_refcount : Z;             (* dc_kref *)
  dc_nr_nodes : Z;
  dc_name : list Z;
  dc_warn2proc : Z; dc_warnmsg : Z;
}.

#[export] Instance eta_dc : Eta dc_t := fun r =>
  mk_dc (dc_dcid r) (dc_flags r) (dc_nr_procs r) (dc_nr_tasks r)
    (dc_nr_sysprocs r) (dc_nodes r) (dc_refcount r) (dc_nr_nodes r) (dc_name r)
    (dc_warn2proc r) (dc_warnmsg r).

Record node_t := mk_node {
  n_nodeid : Z; n_flags : Z; n_proxies : Z; n_dcs : Z;
  n_stimestamp : Z; n_rtimestamp : Z; n_pxsent : Z; n_pxrcvd : Z;
}.

#[export] Instance eta_node : Eta node_t := fun r =>
  mk_node (n_nodeid r) (n_flags r) (n_proxies r) (n_dcs r)
    (n_stimestamp r) (n_rtimestamp r) (n_pxsent r) (n_pxrcvd r).

Record proxies_t := mk_proxies {
  px_id : Z; px_flags : Z; px_maxbytes : Z; px_maxbcmds : Z;
}.

#[export] Instance eta_proxies : Eta proxies_t := fun r =>
  mk_proxies (px_id r) (px_flags r) (px_maxbytes r) (px_maxbcmds r).

(** ** Linux tasks

    What the module uses of [struct task_struct]: the thread group, the group
    leader, the address space, the effective uid, the reference count and the
    binding [task_proc] to a process descriptor. *)

Record task_t := mk_task {
  t_tgid : Z;
  t_leader : option Z;
  t_mm : Z;
  t_euid : Z;
  t_usage : Z;
  task_proc : option ptr;
}.

#[export] Instance eta_task : Eta task_t := fun r =>
  mk_task (t_tgid r) (t_leader r) (t_mm r) (t_euid r) (t_usage r) (task_proc r).

(** ** Flag predicates on descriptors ([mol-macros.h]) *)

Definition rts (b : Z) (p : proc) : bool := test_bit b (p_rts_flags p).
Definition misc (b : Z) (p : proc) : bool := test_bit b (p_misc_flags p).
Definition IT_IS_REMOTE (p : proc) : bool := rts BIT_REMOTE p.
Definition IT_IS_LOCAL (p : proc) : bool := negb (rts BIT_REMOTE p).

Definition rts_set (b : Z) (p : proc) : proc := p <| p_rts_flags ::= set_bit b |>.
Definition rts_clear (b : Z) (p : proc) : proc := p <| p_rts_flags ::= clear_bit b |>.
Definition misc_set (b : Z) (p : proc) : proc := p <| p_misc_flags ::= set_bit b |>.
Definition misc_clear (b : Z) (p : proc) : proc := p <| p_misc_flags ::= clear_bit b |>.
