(* ===== verification/Endpoint.v ===== *)
(** * Endpoints ([src/kernel/minix/endpoint.h])

    An endpoint packs a process slot number and a generation number.  The
    division and remainder are those of C, which truncate towards zero. *)

From S2P Require Import Prelude Types.

Definition ENDPOINT_GENERATION_SIZE : Z := NR_TASKS + MAX_MAGIC_PROC + 1.
Definition ENDPOINT_MAX_GENERATION : Z := Z.quot INT_MAX ENDPOINT_GENERATION_SIZE - 1.

Definition ENDPOINT (g p : Z) : Z := g * ENDPOINT_GENERATION_SIZE + p.
Definition ENDPOINT_G (e : Z) : Z := Z.quot (e + NR_TASKS) ENDPOINT_GENERATION_SIZE.
Definition ENDPOINT_P (e : Z) : Z :=
  Z.rem (e + NR_TASKS) ENDPOINT_GENERATION_SIZE - NR_TASKS.

(** The generation step of [kernel_lclbind]: increase the generation, and
    wrap around to 1. *)
Definition next_generation (e : Z) : Z :=
  let g := ENDPOINT_G e + 1 in
  if g >=? ENDPOINT_MAX_GENERATION then 1 else g.

(** Numbers a process slot can have: the tasks have negative numbers. *)
Definition slot_number (p : Z) : Prop := - NR_TASKS <= p < NR_PROCS.

Ltac endpoint_consts :=
  change ENDPOINT_GENERATION_SIZE with 35570 in *;
  change ENDPOINT_MAX_GENERATION with 60372 in *;
  change NR_TASKS with 35 in *; change NR_PROCS with 221 in *;
  change ANY with 31438 in *; change NONE with 27342 in *;
  change SELF with 35534 in *; change INT_MAX with 2147483647 in *.

Lemma endpoint_split g p :
  0 <= g -> - NR_TASKS <= p <= MAX_MAGIC_PROC ->
  (ENDPOINT g p + NR_TASKS) = ENDPOINT_GENERATION_SIZE * g + (p + NR_TASKS) /\
  0 <= p + NR_TASKS < ENDPOINT_GENERATION_SIZE.
Proof.
  unfold ENDPOINT, MAX_MAGIC_PROC. endpoint_consts. lia.
Qed.

Lemma ENDPOINT_P_ENDPOINT g p :
  0 <= g -> - NR_TASKS <= p <= MAX_MAGIC_PROC -> ENDPOINT_P (ENDPOINT g p) = p.
Proof.
  intros Hg Hp. destruct (endpoint_split g p Hg Hp) as [E B].
  unfold ENDPOINT_P. rewrite E.
  rewrite Z.rem_mod_nonneg by (endpoint_consts; lia).
  rewrite Z.add_comm, Z.mul_comm, Z.mod_add by (endpoint_consts; lia).
  rewrite Z.mod_small by done. lia.
Qed.

Lemma ENDPOINT_G_ENDPOINT g p :
  0 <= g -> - NR_TASKS <= p <= MAX_MAGIC_PROC -> ENDPOINT_G (ENDPOINT g p) = g.
Proof.
  intros Hg Hp. destruct (endpoint_split g p Hg Hp) as [E B].
  unfold ENDPOINT_G. rewrite E.
  rewrite Z.quot_div_nonneg by (endpoint_consts; lia).
  rewrite Z.add_comm, Z.mul_comm, Z.div_add by (endpoint_consts; lia).
  rewrite Z.div_small by done. lia.
Qed.

Lemma slot_number_magic p : slot_number p -> - NR_TASKS <= p <= MAX_MAGIC_PROC.
Proof. unfold slot_number, MAX_MAGIC_PROC. endpoint_consts. lia. Qed.

(** generation and slot number are recovered from an endpoint: packing a
    slot number of the process table and a generation with [_ENDPOINT] and
    taking them apart with [_ENDPOINT_P] and [_ENDPOINT_G] gives both back,
    and the endpoint still fits in an [int] for every generation the kernel
    assigns. *)
Theorem endpoint_roundtrip g p :
  0 <= g < ENDPOINT_MAX_GENERATION -> slot_number p ->
  ENDPOINT_P (ENDPOINT g p) = p /\ ENDPOINT_G (ENDPOINT g p) = g /\
  - INT_MAX - 1 <= ENDPOINT g p <= INT_MAX.
Proof.
  intros Hg Hp. pose proof (slot_number_magic p Hp) as Hm. split_and!.
  - apply ENDPOINT_P_ENDPOINT; lia.
  - apply ENDPOINT_G_ENDPOINT; lia.
  - unfold ENDPOINT, slot_number in *. endpoint_consts. lia.
  - unfold ENDPOINT, slot_number in *. endpoint_consts. lia.
Qed.

Lemma endpoint_roundtrip_witness :
  (0 <= 7 < ENDPOINT_MAX_GENERATION) /\ ENDPOINT_P (ENDPOINT 7 (-35)) = -35.
Proof.
  assert (H : 0 <= 7 < ENDPOINT_MAX_GENERATION) by (vm_compute; split; congruence).
  split; [exact H|].
  apply (endpoint_roundtrip 7 (-35) H). unfold slot_number. endpoint_consts. lia.
Defined.

(** the magic process numbers are never endpoints: no generation of no
    slot of the process table has the endpoint [ANY], [NONE] or [SELF], and
    the slot number each of them decodes to is outside the process table, so
    that every handler that range-checks [_ENDPOINT_P] refuses them. *)
Theorem magic_not_endpoint g p :
  0 <= g -> slot_number p ->
  ENDPOINT g p <> ANY /\ ENDPOINT g p <> NONE /\ ENDPOINT g p <> SELF /\
  ~ slot_number (ENDPOINT_P ANY) /\ ~ slot_number (ENDPOINT_P NONE) /\
  ~ slot_number (ENDPOINT_P SELF).
Proof.
  intros Hg Hp. unfold ENDPOINT, slot_number in *.
  change (ENDPOINT_P ANY) with ANY. change (ENDPOINT_P NONE) with NONE.
  change (ENDPOINT_P SELF) with SELF. endpoint_consts. lia.
Qed.

Lemma magic_not_endpoint_witness : slot_number 5 /\ ENDPOINT 3 5 <> ANY.
Proof.
  assert (H : slot_number 5) by (unfold slot_number; endpoint_consts; lia).
  split; [exact H|]. apply (magic_not_endpoint 3 5); [lia|exact H].
Defined.

Lemma next_generation_range e : 0 <= e + NR_TASKS -> 1 <= next_generation e < ENDPOINT_MAX_GENERATION.
Proof.
  intros He. unfold next_generation.
  assert (0 <= ENDPOINT_G e) by (apply Z.quot_pos; endpoint_consts; lia).
  destruct (Z.geb_spec (ENDPOINT_G e + 1) ENDPOINT_MAX_GENERATION); endpoint_consts; lia.
Qed.
