(* ===== verification/Copy.v ===== *)
(** * Copies between address spaces ([mm_utils.c])

    [copy_usr2usr] moves a block between two user address spaces page by page:
    each round pins one source and one destination page and copies up to the
    nearest end of page.  [copy_krn2usr] and [copy_usr2krn] do the same with a
    kernel buffer at one end.  User memory is a map from (address space, page
    number) to the contents of the page; a page that is not mapped makes
    [get_user_pages] fail.  Two address spaces do not share pages. *)

From S2P Require Import Prelude Types.

Definition PAGE_SIZE : Z := 4096.

Notation "'pages'" := (gmap (Z * Z) (list Z)).

(** [addr & ~PAGE_MASK] and the page of an address. *)
Definition page_off (a : Z) : Z := a mod PAGE_SIZE.
Definition page_nr (a : Z) : Z := a / PAGE_SIZE.

(** The four bytes of an [int], little endian: the field [m_source]. *)
Definition le32 (v : Z) : list Z :=
  [v mod 256; (v / 256) mod 256; (v / 65536) mod 256; (v / 16777216) mod 256].

(** [memcpy(page + off, data, len)]. *)
Definition page_write (off : Z) (data p : list Z) : list Z :=
  list_inserts (Z.to_nat off) data p.

Definition page_read (off len : Z) (p : list Z) : list Z :=
  take (Z.to_nat len) (drop (Z.to_nat off) p).

(** [len = min(min(slen, dlen), bytes)]. *)
Definition chunk_len (soff doff bytes : Z) : Z :=
  Z.min (Z.min (PAGE_SIZE - soff) (PAGE_SIZE - doff)) bytes.

(** Filling the sender of a message, in the round that copies its first byte. *)
Definition fill_source (source bytes doff : Z) (p : list Z) : list Z :=
  if negb (source =? NONE) && (bytes =? SIZEOF_MESSAGE)
  then page_write doff (le32 source) p else p.

(** The loop [while (bytes > 0)]; every round copies at least one byte. *)
Fixpoint usr2usr_loop (fuel : nat) (source smm saddr dmm daddr bytes : Z) (m : pages)
    : Z * pages :=
  match fuel with
  | O => (OK, m)
  | S fuel =>
      if bytes <=? 0 then (OK, m)
      else
        match m !! (smm, page_nr saddr) with
        | None => (EMOLADDRNOTAVAIL, m)
        | Some sp =>
            match m !! (dmm, page_nr daddr) with
            | None => (EMOLADDRNOTAVAIL, m)
            | Some dp =>
                let len := chunk_len (page_off saddr) (page_off daddr) bytes in
                let dp1 := page_write (page_off daddr) (page_read (page_off saddr) len sp) dp in
                let dp2 := fill_source source bytes (page_off daddr) dp1 in
                usr2usr_loop fuel source smm (saddr + len) dmm (daddr + len) (bytes - len)
                  (<[(dmm, page_nr daddr) := dp2]> m)
            end
        end
  end.

Definition copy_usr2usr (source smm saddr dmm daddr bytes : Z) (m : pages) : Z * pages :=
  if (bytes <? 0) || (bytes >? MAXCOPYLEN) then (EMOLRANGE, m)
  else usr2usr_loop (Z.to_nat bytes) source smm saddr dmm daddr bytes m.

(** ** Kernel buffers: kernel memory is a function from addresses to bytes *)

Definition kread (k : Z -> Z) (a len : Z) : list Z :=
  map (fun i => k (a + Z.of_nat i)) (seq 0 (Z.to_nat len)).

Definition kwrite (a : Z) (data : list Z) (k : Z -> Z) : Z -> Z := fun b =>
  if (a <=? b) && (b <? a + Z.of_nat (length data))
  then default (k b) (data !! Z.to_nat (b - a)) else k b.

Definition npages (off bytes : Z) : Z := (off + bytes + PAGE_SIZE - 1) / PAGE_SIZE.

(** The source of a partial page is [src_addr + src_off], as the code has it:
    the offset in the page is added to the full address. *)
Fixpoint krn2usr_loop (fuel : nat) (source : Z) (k : Z -> Z) (saddr dmm daddr bytes : Z)
    (m : pages) : Z * pages :=
  match fuel with
  | O => (OK, m)
  | S fuel =>
      if bytes <=? 0 then (OK, m)
      else
        match m !! (dmm, page_nr daddr) with
        | None => (EMOLADDRNOTAVAIL, m)
        | Some dp =>
            let soff := page_off saddr in
            let len := chunk_len soff (page_off daddr) bytes in
            let data := if len =? PAGE_SIZE then kread k saddr len
                        else kread k (saddr + soff) len in
            let dp1 := page_write (page_off daddr) data dp in
            let dp2 := fill_source source bytes (page_off daddr) dp1 in
            krn2usr_loop fuel source k (saddr + len) dmm (daddr + len) (bytes - len)
              (<[(dmm, page_nr daddr) := dp2]> m)
        end
  end.

Definition copy_krn2usr (source : Z) (k : Z -> Z) (saddr dmm daddr bytes : Z) (m : pages)
    : Z * pages :=
  let snp := npages (page_off saddr) bytes in
  let dnp := npages (page_off daddr) bytes in
  if (bytes <? 0) || (bytes >? MAXCOPYLEN) then (EMOLRANGE, m)
  else if negb (snp =? dnp) then (EMOLALIGN, m)
  else if negb (snp =? 1) && negb (page_off saddr =? page_off daddr)
          && negb (bytes =? SIZEOF_MESSAGE) then (EMOLALIGN, m)
  else krn2usr_loop (Z.to_nat bytes) source k saddr dmm daddr bytes m.

Fixpoint usr2krn_loop (fuel : nat) (source : Z) (m : pages) (smm saddr daddr bytes : Z)
    (k : Z -> Z) : Z * (Z -> Z) :=
  match fuel with
  | O => (OK, k)
  | S fuel =>
      if bytes <=? 0 then (OK, k)
      else
        match m !! (smm, page_nr saddr) with
        | None => (EMOLADDRNOTAVAIL, k)
        | Some sp =>
            let soff := page_off saddr in
            let doff := page_off daddr in
            let len := chunk_len soff doff bytes in
            let k1 := if len =? PAGE_SIZE then kwrite daddr (page_read 0 len sp) k
                      else kwrite (daddr + doff) (page_read soff len sp) k in
            let k2 := if negb (source =? NONE) && (bytes =? SIZEOF_MESSAGE)
                      then kwrite (daddr + doff) (le32 source) k1 else k1 in
            usr2krn_loop fuel source m smm (saddr + len) (daddr + len) (bytes - len) k2
        end
  end.

Definition copy_usr2krn (source : Z) (m : pages) (smm saddr daddr bytes : Z) (k : Z -> Z)
    : Z * (Z -> Z) :=
  if (bytes <? 0) || (bytes >? MAXCOPYLEN) then (EMOLRANGE, k)
  else if negb (page_off saddr =? page_off daddr) then (EMOLALIGN, k)
  else usr2krn_loop (Z.to_nat bytes) source m smm saddr daddr bytes k.

(** ** Reading memory byte by byte *)

Definition byte (m : pages) (mm a : Z) : option Z :=
  p ← m !! (mm, page_nr a); p !! Z.to_nat (page_off a).

Definition wf_pages (m : pages) : Prop :=
  forall mm n p, m !! (mm, n) = Some p -> length p = Z.to_nat PAGE_SIZE.

(** The pages under a range of addresses are mapped. *)
Definition mapped (m : pages) (mm a bytes : Z) : Prop :=
  forall b, a <= b < a + bytes -> is_Some (m !! (mm, page_nr b)).

(** ** Lemmas *)

Lemma page_split a j :
  0 <= j -> page_off a + j < PAGE_SIZE ->
  page_nr (a + j) = page_nr a /\ page_off (a + j) = page_off a + j.
Proof.
  unfold page_nr, page_off, PAGE_SIZE. intros Hj Hlt.
  pose proof (Z.div_mod a 4096 ltac:(lia)). pose proof (Z.mod_pos_bound a 4096 ltac:(lia)).
  assert (E : a + j = a mod 4096 + j + (a / 4096) * 4096) by lia.
  rewrite E, Z.div_add, Z.mod_add, Z.div_small, Z.mod_small by lia. lia.
Qed.

Lemma page_off_bound a : 0 <= page_off a < PAGE_SIZE.
Proof. apply Z.mod_pos_bound. unfold PAGE_SIZE. lia. Qed.

(** An address on the page of [a] but outside [a, a + len). *)
Lemma page_same a b : page_nr b = page_nr a -> b - a = page_off b - page_off a.
Proof.
  unfold page_nr, page_off, PAGE_SIZE. intros E.
  pose proof (Z.div_mod a 4096 ltac:(lia)). pose proof (Z.div_mod b 4096 ltac:(lia)). lia.
Qed.

Lemma length_page_read off len p :
  0 <= off -> 0 <= len -> off + len <= Z.of_nat (length p) ->
  length (page_read off len p) = Z.to_nat len.
Proof. intros. unfold page_read. rewrite length_take, length_drop. lia. Qed.

Lemma page_read_byte m mm a len p j :
  m !! (mm, page_nr a) = Some p -> 0 <= j < len -> page_off a + len <= PAGE_SIZE ->
  page_read (page_off a) len p !! Z.to_nat j = byte m mm (a + j).
Proof.
  intros Hp Hj Hlen. destruct (page_split a j) as [En Eo]; [lia..|].
  pose proof (page_off_bound a).
  unfold page_read, byte. rewrite En, Hp, Eo. cbn.
  rewrite lookup_take_lt by lia. rewrite lookup_drop. f_equal. lia.
Qed.

(** One round of the loop, byte by byte. *)
Lemma byte_page_write m dmm daddr dp data mm a :
  wf_pages m -> m !! (dmm, page_nr daddr) = Some dp ->
  page_off daddr + Z.of_nat (length data) <= PAGE_SIZE ->
  byte (<[(dmm, page_nr daddr) := page_write (page_off daddr) data dp]> m) mm a =
  if bool_decide (mm = dmm /\ daddr <= a < daddr + Z.of_nat (length data))
  then data !! Z.to_nat (a - daddr) else byte m mm a.
Proof.
  intros Hwf Hdp Hlen. pose proof (Hwf _ _ _ Hdp) as Hl. pose proof (page_off_bound daddr) as Hb.
  pose proof (page_off_bound a) as Ha.
  unfold byte at 1. destruct (decide ((mm, page_nr a) = (dmm, page_nr daddr))) as [E|E].
  - injection E as -> En. rewrite En, lookup_insert_eq. cbn.
    pose proof (page_same daddr a En) as Hd. unfold page_write.
    case_bool_decide as Hin.
    + rewrite list_lookup_inserts by lia. f_equal. lia.
    + unfold byte. rewrite En, Hdp. cbn.
      destruct (decide (a < daddr)).
      * rewrite list_lookup_inserts_lt by lia. done.
      * rewrite list_lookup_inserts_ge by lia. done.
  - rewrite lookup_insert_ne by congruence. case_bool_decide as Hin; [|done].
    destruct Hin as [-> Hin]. destruct (page_split daddr (a - daddr)) as [En _]; [lia..|].
    exfalso. apply E. rewrite <- En. do 2 f_equal. lia.
Qed.

Lemma wf_page_write m dmm n off data dp :
  wf_pages m -> m !! (dmm, n) = Some dp ->
  wf_pages (<[(dmm, n) := page_write off data dp]> m).
Proof.
  intros Hwf Hdp mm k p Hp. apply lookup_insert_Some in Hp as [[_ <-]|[_ Hp]]; [|eauto].
  unfold page_write. rewrite length_inserts. eauto.
Qed.

Lemma chunk_len_bounds saddr daddr bytes :
  0 < bytes ->
  let len := chunk_len (page_off saddr) (page_off daddr) bytes in
  0 < len <= bytes /\ page_off saddr + len <= PAGE_SIZE /\ page_off daddr + len <= PAGE_SIZE.
Proof.
  intros Hb. cbv zeta. unfold chunk_len.
  pose proof (page_off_bound saddr). pose proof (page_off_bound daddr). lia.
Qed.

Lemma mapped_mono m m' mm a b bytes bytes' :
  mapped m mm a bytes -> (forall k, is_Some (m !! k) -> is_Some (m' !! k)) ->
  a <= b -> b + bytes' <= a + bytes -> mapped m' mm b bytes'.
Proof. intros Hm Hk Hb He c Hc. apply Hk, Hm. lia. Qed.

(** What the copy of a block does to memory: the destination range holds the
    source range, every other byte of every address space is unchanged. *)
Definition copied (m m' : pages) (smm saddr dmm daddr bytes : Z) : Prop :=
  forall mm a, byte m' mm a =
    if bool_decide (mm = dmm /\ daddr <= a < daddr + bytes)
    then byte m smm (saddr + (a - daddr)) else byte m mm a.

Lemma usr2usr_loop_ok fuel smm saddr dmm daddr bytes m :
  smm <> dmm -> wf_pages m -> 0 <= bytes <= Z.of_nat fuel ->
  mapped m smm saddr bytes -> mapped m dmm daddr bytes ->
  exists m', usr2usr_loop fuel NONE smm saddr dmm daddr bytes m = (OK, m') /\
    copied m m' smm saddr dmm daddr bytes.
Proof.
  intros Hne. revert saddr daddr bytes m.
  induction fuel as [|fuel IH]; intros saddr daddr bytes m Hwf Hb Hs Hd.
  { exists m. split; [done|]. intros mm a. case_bool_decide; [lia|done]. }
  cbn [usr2usr_loop]. destruct (Z.leb_spec bytes 0) as [H0|H0].
  { exists m. split; [done|]. intros mm a. case_bool_decide; [lia|done]. }
  destruct (Hs saddr) as [sp Hsp]; [lia|]. destruct (Hd daddr) as [dp Hdp]; [lia|].
  rewrite Hsp, Hdp. pose proof (chunk_len_bounds saddr daddr bytes H0) as Hlen.
  set (len := chunk_len _ _ _) in *. cbv zeta in Hlen. clearbody len.
  cbn [fill_source negb andb Z.eqb NONE]. unfold fill_source.
  rewrite Z.eqb_refl. cbn [negb andb].
  set (data := page_read _ _ _).
  assert (Hld : length data = Z.to_nat len).
  { apply length_page_read; [apply page_off_bound|lia|].
    rewrite (Hwf _ _ _ Hsp). pose proof (page_off_bound saddr). lia. }
  set (m1 := <[_ := _]> m).
  assert (Hk : forall k, is_Some (m !! k) -> is_Some (m1 !! k)).
  { intros k Hk. apply lookup_insert_is_Some'. by right. }
  destruct (IH (saddr + len) (daddr + len) (bytes - len) m1) as (m' & -> & HC).
  { by apply wf_page_write. }
  { lia. }
  { eapply mapped_mono; [exact Hs|done|lia..]. }
  { eapply mapped_mono; [exact Hd|done|lia..]. }
  exists m'. split; [done|]. intros mm a. rewrite HC.
  assert (HB : forall mm a, byte m1 mm a =
    if bool_decide (mm = dmm /\ daddr <= a < daddr + len)
    then byte m smm (saddr + (a - daddr)) else byte m mm a).
  { intros mm0 a0. unfold m1. rewrite byte_page_write; [|done..|lia].
    rewrite Hld, Z2Nat.id by lia. case_bool_decide as Hin; [|done].
    apply (page_read_byte m smm saddr len sp); [done|lia|lia]. }
  rewrite !HB. repeat case_bool_decide; try (exfalso; lia); try done.
  f_equal. lia.
Qed.

Lemma usr2usr_loop_fault fuel source smm saddr dmm daddr bytes m b :
  0 <= bytes <= Z.of_nat fuel -> saddr <= b < saddr + bytes ->
  m !! (smm, page_nr b) = None -> smm <> dmm ->
  fst (usr2usr_loop fuel source smm saddr dmm daddr bytes m) = EMOLADDRNOTAVAIL.
Proof.
  intros Hb Hin Hnone Hne. revert saddr daddr bytes m Hb Hin Hnone.
  induction fuel as [|fuel IH]; intros saddr daddr bytes m Hb Hin Hnone; [lia|].
  cbn [usr2usr_loop]. destruct (Z.leb_spec bytes 0); [lia|].
  destruct (m !! (smm, page_nr saddr)) as [sp|] eqn:Hsp; [|done].
  destruct (m !! (dmm, page_nr daddr)) as [dp|] eqn:Hdp; [|done].
  pose proof (chunk_len_bounds saddr daddr bytes ltac:(lia)) as Hlen. cbv zeta in Hlen.
  set (len := chunk_len _ _ _) in *. clearbody len. cbv zeta.
  apply IH; [lia| |by rewrite lookup_insert_ne by congruence].
  split; [|lia]. destruct (decide (b < saddr + len)); [|lia].
  destruct (page_split saddr (b - saddr)) as [En _]; [lia..|].
  replace (saddr + (b - saddr)) with b in En by lia. congruence.
Qed.

(** C40. [copy_usr2usr] copies a block exactly.  For a block of legal size whose
    source and destination pages are mapped, in two different address spaces
    and at any alignment, the page by page loop ends with [OK] after at most as
    many rounds as there are bytes, the destination range then holds the source
    range byte for byte, and no other byte of any address space changes. *)
Theorem copy_usr2usr_exact smm saddr dmm daddr bytes m :
  smm <> dmm -> wf_pages m -> 0 <= bytes <= MAXCOPYLEN ->
  mapped m smm saddr bytes -> mapped m dmm daddr bytes ->
  exists m', copy_usr2usr NONE smm saddr dmm daddr bytes m = (OK, m') /\
    copied m m' smm saddr dmm daddr bytes.
Proof.
  intros Hne Hwf Hb Hs Hd. unfold copy_usr2usr.
  destruct (Z.ltb_spec bytes 0); [lia|]. destruct (Z.gtb_spec bytes MAXCOPYLEN); [lia|].
  apply usr2usr_loop_ok; [done..|lia|done|done].
Qed.

(** A block of 5000 bytes across a page border, between two address spaces of
    two pages. *)
Definition two_spaces : pages :=
  let p v := replicate 4096 v in
  <[(1, 0) := p 11]> (<[(1, 1) := p 12]> (<[(2, 0) := p 21]> (<[(2, 1) := p 22]> ∅))).

Lemma two_spaces_page mm a : (mm = 1 \/ mm = 2) -> 0 <= a < 8192 ->
  is_Some (two_spaces !! (mm, page_nr a)).
Proof.
  intros Hmm Ha. assert (page_nr a = 0 \/ page_nr a = 1) as Hn.
  { unfold page_nr, PAGE_SIZE. pose proof (Z.div_lt_upper_bound a 4096 2).
    pose proof (Z.div_pos a 4096). lia. }
  destruct Hmm as [-> | ->], Hn as [-> | ->]; by eexists.
Qed.

Lemma two_spaces_wf : wf_pages two_spaces.
Proof.
  intros mm n p Hp. unfold two_spaces in Hp.
  repeat (apply lookup_insert_Some in Hp as [[_ <-]|[_ Hp]]; [by rewrite length_replicate|]).
  by apply lookup_empty_Some in Hp.
Qed.

Lemma copy_usr2usr_exact_witness :
  exists m', copy_usr2usr NONE 1 100 2 3000 5000 two_spaces = (OK, m') /\
    copied two_spaces m' 1 100 2 3000 5000.
Proof.
  apply (copy_usr2usr_exact 1 100 2 3000 5000 two_spaces); [lia|exact two_spaces_wf| | |].
  - unfold MAXCOPYLEN, MAXCOPYBUF. lia.
  - intros b Hb. apply two_spaces_page; [by left|lia].
  - intros b Hb. apply two_spaces_page; [by right|lia].
Defined.

(** a page that is not mapped is reported: a block whose source touches an
    address outside the mapped pages ends with [EMOLADDRNOTAVAIL], wherever in
    the block the hole is, and a size out of range is refused with [EMOLRANGE]
    before anything is copied. *)
Theorem copy_usr2usr_errors source smm saddr dmm daddr bytes m :
  (bytes < 0 \/ MAXCOPYLEN < bytes ->
     copy_usr2usr source smm saddr dmm daddr bytes m = (EMOLRANGE, m)) /\
  (forall b, 0 <= bytes <= MAXCOPYLEN -> smm <> dmm -> saddr <= b < saddr + bytes ->
     m !! (smm, page_nr b) = None ->
     fst (copy_usr2usr source smm saddr dmm daddr bytes m) = EMOLADDRNOTAVAIL).
Proof.
  unfold copy_usr2usr. destruct (Z.ltb_spec bytes 0), (Z.gtb_spec bytes MAXCOPYLEN);
    cbn [orb]; split; try done; intros; try lia.
  eapply usr2usr_loop_fault; [|done..]. lia.
Qed.

Lemma copy_usr2usr_errors_witness :
  fst (copy_usr2usr NONE 1 100 2 3000 9000 two_spaces) = EMOLADDRNOTAVAIL.
Proof.
  apply (copy_usr2usr_errors NONE 1 100 2 3000 9000 two_spaces) with (b := 8200);
    [unfold MAXCOPYLEN, MAXCOPYBUF; lia|lia|lia|reflexivity].
Defined.


(** ** Kernel buffers *)

Lemma length_kread k a len : 0 <= len -> length (kread k a len) = Z.to_nat len.
Proof. intros. unfold kread. by rewrite length_map, length_seq. Qed.

Lemma kread_lookup k a len j :
  0 <= j < len -> kread k a len !! Z.to_nat j = Some (k (a + j)).
Proof.
  intros Hj. unfold kread. rewrite list_lookup_fmap, lookup_seq_lt by lia. cbn.
  do 2 f_equal. lia.
Qed.

Lemma npages_one off bytes :
  0 <= off -> 0 < bytes -> off + bytes <= PAGE_SIZE -> npages off bytes = 1.
Proof.
  unfold npages, PAGE_SIZE. intros. symmetry. apply Z.div_unique with (off + bytes - 1); lia.
Qed.

(** [copy_krn2usr] adds the page offset of its source twice.  For a block
    inside one page on both sides, shorter than a page, the copy succeeds and
    byte [j] of the destination is the kernel byte at
    [src_addr + (src_addr & ~PAGE_MASK) + j]: the requested bytes only when the
    kernel buffer starts at a page boundary. *)
Theorem copy_krn2usr_double_offset k saddr dmm daddr bytes m dp :
  wf_pages m -> m !! (dmm, page_nr daddr) = Some dp -> 0 < bytes < PAGE_SIZE ->
  page_off saddr + bytes <= PAGE_SIZE -> page_off daddr + bytes <= PAGE_SIZE ->
  exists m', copy_krn2usr NONE k saddr dmm daddr bytes m = (OK, m') /\
    forall j, 0 <= j < bytes ->
      byte m' dmm (daddr + j) = Some (k (saddr + page_off saddr + j)).
Proof.
  intros Hwf Hdp Hb Hs Hd. pose proof (page_off_bound saddr). pose proof (page_off_bound daddr).
  unfold copy_krn2usr. rewrite !npages_one by lia.
  destruct (Z.ltb_spec bytes 0); [lia|].
  destruct (Z.gtb_spec bytes MAXCOPYLEN); [unfold PAGE_SIZE, MAXCOPYLEN, MAXCOPYBUF in *; lia|].
  cbn [orb negb andb Z.eqb Pos.eqb].
  destruct (Z.to_nat bytes) as [|fuel] eqn:Hf; [lia|]. cbn [krn2usr_loop].
  destruct (Z.leb_spec bytes 0); [lia|]. rewrite Hdp.
  assert (chunk_len (page_off saddr) (page_off daddr) bytes = bytes) as ->
    by (unfold chunk_len; lia).
  destruct (Z.eqb_spec bytes PAGE_SIZE); [lia|]. unfold fill_source.
  rewrite Z.eqb_refl, Z.sub_diag. cbn [negb andb].
  eexists. split; [by destruct fuel|]. intros j Hj.
  rewrite byte_page_write, length_kread by (done || lia || (rewrite length_kread; lia)).
  rewrite bool_decide_true by lia. replace (daddr + j - daddr) with j by lia.
  by apply kread_lookup.
Qed.

Lemma copy_krn2usr_double_offset_witness :
  exists m', copy_krn2usr NONE (fun a => a mod 256) 4104 2 20 10 two_spaces = (OK, m') /\
    forall j, 0 <= j < 10 -> byte m' 2 (20 + j) = Some ((4104 + 8 + j) mod 256).
Proof.
  apply (copy_krn2usr_double_offset (fun a => a mod 256) 4104 2 20 10 two_spaces
           (replicate 4096 21));
    [exact two_spaces_wf|reflexivity|unfold PAGE_SIZE; lia|by vm_compute|by vm_compute].
Defined.
