(* ===== verification/Kernel.v ===== *)
(** * Kernel state and the execution monad

    The state of the module (its global tables, the Linux tasks bound to it,
    the message buffers of user space) and the monad in which every handler
    is written.  A handler runs in the context of a task [cur] and either
    produces a value or leaves: by a [return] statement, by going to sleep at
    a program point [kont] in a wait queue, or by a fault (a wild pointer, a
    mutex locked twice by its owner, an unlock of a mutex that is not held, a
    loop that does not end).

    All locks of the configured kernel are mutexes
    ([LOCK_*_TYPE = USE_*_MUTEX] in [config.h]), so the read and write
    variants of a lock operation are the same operation here.  [k_held] is the
    set of mutexes the running handler holds. *)

From S2P Require Import Prelude Types Endpoint Copy.

(** ** System calls and sleeping points *)

Inductive call :=
| C_SEND (dst_ep m_ptr timeout : Z)
| C_RECEIVE (src_ep m_ptr timeout : Z)
| C_SENDREC (srcdst_ep m_ptr timeout : Z)
| C_NOTIFY (src_nr dst_ep update_proc : Z)
| C_RCVRQST (m_ptr timeout : Z)
| C_REPLY (dst_ep m_ptr timeout : Z)
| C_GET2RMT (hdr_ptr pay_ptr timeout : Z)
| C_PUT2LCL (hdr_ptr pay_ptr : Z).

(** The local variables of a handler that outlive a sleep. *)
Record frame := mk_frame {
  f_c : ptr;                                (* caller_ptr *)
  f_dst : ptr;                              (* dst_ptr, srcdst_ptr *)
  f_dcid : Z;                               (* dcid *)
  f_caller_ep : Z;                          (* caller_ep *)
  f_dst_ep : Z;                             (* dst_ep, srcdst_ep *)
  f_m_ptr : Z;                              (* m_ptr *)
  f_timeout : Z;                            (* timeout_ms *)
}.

(** Where a blocked task continues. *)
Inductive kont :=
| K_CALLER (cl : call) (c : ptr) (pid dcid : Z)       (* check_caller, migrating *)
| K_SEND_MIGR (f : frame)
| K_SEND_REMOTE (f : frame)
| K_SEND_LOCAL (f : frame)
| K_RECEIVE (c : ptr) (timeout : Z)
| K_SENDREC_MIGR (f : frame)
| K_SENDREC_REMOTE (f : frame)
| K_SENDREC_REPLY (f : frame)
| K_SENDREC_QUEUED (f : frame)
| K_NOTIFY_REMOTE (f : frame) (src_nr src_ep update_proc : Z)
| K_RCVRQST (c : ptr) (timeout : Z)
| K_REPLY_MIGR (f : frame)
| K_REPLY_REMOTE (f : frame)
| K_GET2RMT (c : ptr) (hdr_ptr pay_ptr timeout : Z).

(** The local variables of [mm_vcopy], and the points where it sleeps: waiting
    for the source or the destination to migrate, or for the answer to a part of
    the copy to, from or between remote processes. *)
Record vframe := mk_vframe {
  vf_c : ptr;                               (* caller_ptr *)
  vf_src : ptr;                             (* src_ptr *)
  vf_dst : ptr;                             (* dst_ptr *)
  vf_dcid : Z;                              (* dcid *)
  vf_nr_tasks : Z;                          (* nr_tasks *)
  vf_caller_nr : Z;                         (* caller_nr *)
  vf_src_ep : Z;                            (* src_ep *)
  vf_dst_ep : Z;                            (* dst_ep *)
  vf_saddr : Z;                             (* src_addr *)
  vf_daddr : Z;                             (* dst_addr *)
  vf_bytes : Z;                             (* bytes *)
  vf_copylen : Z;                           (* copylen *)
}.

#[export] Instance eta_vframe : Eta vframe := fun r =>
  mk_vframe (vf_c r) (vf_src r) (vf_dst r) (vf_dcid r) (vf_nr_tasks r) (vf_caller_nr r)
    (vf_src_ep r) (vf_dst_ep r) (vf_saddr r) (vf_daddr r) (vf_bytes r) (vf_copylen r).

Inductive vpoint :=
| V_MIGR_SRC | V_MIGR_DST | V_COPYIN | V_COPYOUT | V_COPYRMT.

(** Where a task waits in a call of the hypervisor interface: for a process
    that was told to unbind, for the other process of a proxy pair to end, for
    the process of a slot of a DC that ends, or in [mm_wait4bind]; where a process
    that exits waits for the one it warned; and where a task
    sleeps in [mm_vcopy], or yields in the loop of [sleep_proc3]. *)
Inductive hwait :=
| W_WARN_ACK (d : Z) (c warn : ptr) (code : Z)
| W_WARN (d : Z) (c warn : ptr) (code : Z)
| W_VCOPY (v : vpoint) (f : vframe)
| W_VCOPY_ONCOPY (v : vpoint) (f : vframe)
| W_UNBIND (c : ptr) (timeout : Z)
| W_TARGET (c p : ptr) (other_pid : Z)
| W_PROXY (sender : bool) (px task other_pid : Z)
| W_DCEND (d i : Z)
| W_BIND (oper other_ep timeout : Z)
| W_WAITUNBIND (c other : ptr) (timeout : Z).

(** ** Locks *)

Inductive lock :=
| L_PROC (p : ptr)
| L_DC (dcid : Z)
| L_TASK (tid : Z)
| L_PROXY (px : Z)
| L_NODE (nodeid : Z)
| L_DVS.

#[export] Instance lock_eq_dec : EqDecision lock.
Proof. solve_decision. Defined.

(** ** The state *)

Record kstate := mk_kstate {
  k_local_nodeid : Z;                       (* local_nodeid *)
  k_nr_dcs : Z;                             (* dvs.d_nr_dcs *)
  k_nr_nodes : Z;                           (* dvs.d_nr_nodes *)
  k_nr_sysprocs : Z;                        (* dvs.d_nr_sysprocs *)
  k_nr_procs : Z;                           (* dvs.d_nr_procs *)
  k_nr_tasks : Z;                           (* dvs.d_nr_tasks *)
  k_max_copybuf : Z;                        (* dvs.d_max_copybuf *)
  k_max_copylen : Z;                        (* dvs.d_max_copylen *)
  k_dcs : gmap Z dc_t;                      (* dc[] *)
  k_nodes : gmap Z node_t;                  (* node[] *)
  k_proxies : gmap Z proxies_t;             (* proxies[] *)
  k_procs : gmap ptr proc;                  (* the process descriptors *)
  k_tasks : gmap Z task_t;                  (* Linux tasks by pid *)
  k_umem : gmap (Z * Z) message;            (* mapped message buffers, by (mm, address) *)
  k_uhdr : gmap (Z * Z) cmd_t;              (* mapped proxy header buffers *)
  k_pages : gmap (Z * Z) (list Z);          (* user pages, by (mm, page number) *)
  k_clock : Z;                              (* current_kernel_time() *)
  k_dvs_refs : Z;                           (* dvs_kref *)
  k_held : list lock;
}.

#[export] Instance eta_kstate : Eta kstate := fun r =>
  mk_kstate (k_local_nodeid r) (k_nr_dcs r) (k_nr_nodes r) (k_nr_sysprocs r)
    (k_nr_procs r) (k_nr_tasks r) (k_max_copybuf r) (k_max_copylen r) (k_dcs r) (k_nodes r)
    (k_proxies r) (k_procs r) (k_tasks r) (k_umem r) (k_uhdr r) (k_pages r)
    (k_clock r) (k_dvs_refs r) (k_held r).

(** ** The monad *)

Inductive fault :=
| F_WILD_POINTER (p : ptr)
| F_WILD_INDEX (i : Z)
| F_NULL_POINTER
| F_SELF_DEADLOCK (l : lock)
| F_BAD_UNLOCK (l : lock)
| F_KTHREAD                    (* the paths of kernel-thread proxies are not modelled *)
| F_DIVERGES.

Inductive exit :=
| X_RET (rcode : Z)
| X_SLEEP (k : kont)
| X_WAIT (w : hwait)
| X_FAULT (f : fault).

Inductive res (A : Type) :=
| Val (a : A) (s : kstate)
| Exit (x : exit) (s : kstate).
Arguments Val {A} a s.
Arguments Exit {A} x s.

Definition M (A : Type) : Type := kstate -> res A.

(** A handler always leaves. *)
Definition handler : Type := M Empty_set.

Definition mret {A} (a : A) : M A := fun s => Val a s.

Definition mbind {A B} (m : M A) (k : A -> M B) : M B := fun s =>
  match m s with
  | Val a s' => k a s'
  | Exit x s' => Exit x s'
  end.

Declare Scope m_scope.
Delimit Scope m_scope with M.
#[global] Open Scope m_scope.

Notation "x <- m ;; k" := (mbind m (fun x => k))
  (at level 100, m at next level, right associativity) : m_scope.
Notation "m ;; k" := (mbind m (fun _ => k))
  (at level 100, right associativity) : m_scope.

Definition leave {A} (x : exit) : M A := fun s => Exit x s.
Definition return_ {A} (r : Z) : M A := leave (X_RET r).
Definition faults {A} (f : fault) : M A := leave (X_FAULT f).
Definition get : M kstate := fun s => Val s s.
Definition modify (f : kstate -> kstate) : M unit := fun s => Val tt (f s).
Definition when (b : bool) (m : M unit) : M unit := if b then m else mret tt.

(** [if (b) ERROR_RETURN(r)]. *)
Definition error_if (b : bool) (r : Z) : M unit := when b (return_ r).

(** [ret = f(...)] where the caller goes on after an error. *)
Definition catch {A} (m : M A) : M (Z + A) := fun s =>
  match m s with
  | Val a s' => Val (inr a) s'
  | Exit (X_RET r) s' => Val (inl r) s'
  | Exit x s' => Exit x s'
  end.

(** ** Access to the tables *)

Definition rd (p : ptr) : M proc := fun s =>
  match k_procs s !! p with
  | Some x => Val x s
  | None => Exit (X_FAULT (F_WILD_POINTER p)) s
  end.

Definition set_proc (p : ptr) (x : proc) (s : kstate) : kstate :=
  s <| k_procs ::= <[p := x]> |>.

Definition wr (p : ptr) (f : proc -> proc) : M unit :=
  x <- rd p ;; modify (set_proc p (f x)).

Definition rd_dc (d : Z) : M dc_t := fun s =>
  match k_dcs s !! d with
  | Some x => Val x s
  | None => Exit (X_FAULT (F_WILD_INDEX d)) s
  end.

Definition wr_dc (d : Z) (f : dc_t -> dc_t) : M unit :=
  x <- rd_dc d ;; modify (fun s => s <| k_dcs ::= <[d := f x]> |>).

Definition rd_node (n : Z) : M node_t := fun s =>
  match k_nodes s !! n with
  | Some x => Val x s
  | None => Exit (X_FAULT (F_WILD_INDEX n)) s
  end.

Definition wr_node (n : Z) (f : node_t -> node_t) : M unit :=
  x <- rd_node n ;; modify (fun s => s <| k_nodes ::= <[n := f x]> |>).

Definition rd_task (t : Z) : M task_t := fun s =>
  match k_tasks s !! t with
  | Some x => Val x s
  | None => Exit (X_FAULT F_NULL_POINTER) s
  end.

Definition rd_proxies (n : Z) : M proxies_t := fun s =>
  match k_proxies s !! n with
  | Some x => Val x s
  | None => Exit (X_FAULT (F_WILD_INDEX n)) s
  end.

(** [NBR2PTR], [ENDPOINT2PTR], [NODE2SPROXY], [NODE2RPROXY], [NODE2MAXBYTES]. *)
Definition NBR2PTR (d : Z) (dc : dc_t) (nr : Z) : ptr := PROC d (nr + dc_nr_tasks dc).
Definition DC_PROC (d i : Z) : ptr := PROC d i.
Definition ENDPOINT2PTR (d : Z) (dc : dc_t) (ep : Z) : ptr := NBR2PTR d dc (ENDPOINT_P ep).
Definition NODE2SPROXY (n : Z) : M ptr := x <- rd_node n ;; mret (SPROXY (n_proxies x)).
Definition NODE2RPROXY (n : Z) : M ptr := x <- rd_node n ;; mret (RPROXY (n_proxies x)).
Definition NODE2MAXBYTES (n : Z) : M Z :=
  x <- rd_node n ;; px <- rd_proxies (n_proxies x) ;; mret (px_maxbytes px).

Definition DVS_NOT_INIT (s : kstate) : bool := k_local_nodeid s =? DVS_NO_INIT.

(** ** Mutexes *)

Definition lock_ (l : lock) : M unit := fun s =>
  if bool_decide (l ∈ k_held s) then Exit (X_FAULT (F_SELF_DEADLOCK l)) s
  else Val tt (s <| k_held ::= cons l |>).

Definition unlock_ (l : lock) : M unit := fun s =>
  if bool_decide (l ∈ k_held s) then Val tt (s <| k_held ::= del l |>)
  else Exit (X_FAULT (F_BAD_UNLOCK l)) s.

Definition WLOCK_PROC (p : ptr) : M unit := lock_ (L_PROC p).
Definition WUNLOCK_PROC (p : ptr) : M unit := unlock_ (L_PROC p).
Definition RLOCK_PROC (p : ptr) : M unit := lock_ (L_PROC p).
Definition RUNLOCK_PROC (p : ptr) : M unit := unlock_ (L_PROC p).
Definition RLOCK_DC (d : Z) : M unit := lock_ (L_DC d).
Definition RUNLOCK_DC (d : Z) : M unit := unlock_ (L_DC d).
Definition WLOCK_DC (d : Z) : M unit := lock_ (L_DC d).
Definition WUNLOCK_DC (d : Z) : M unit := unlock_ (L_DC d).

(** Errors that release one lock. *)
Definition ERROR_RUNLOCK_PROC {A} (p : ptr) (r : Z) : M A := RUNLOCK_PROC p ;; return_ r.
Definition ERROR_WUNLOCK_PROC {A} (p : ptr) (r : Z) : M A := WUNLOCK_PROC p ;; return_ r.
Definition ERROR_RUNLOCK_DC {A} (d : Z) (r : Z) : M A := RUNLOCK_DC d ;; return_ r.
Definition ERROR_WUNLOCK_DC {A} (d : Z) (r : Z) : M A := WUNLOCK_DC d ;; return_ r.

Definition RLOCK_PROXY (n : Z) : M unit := lock_ (L_PROXY n).
Definition RUNLOCK_PROXY (n : Z) : M unit := unlock_ (L_PROXY n).

(** Two and three locks, in ascending process number.  [WLOCK_ORDERED2] is
    entered with [p] locked. *)
Definition WLOCK_ORDERED2 (p q : ptr) : M unit :=
  a <- rd p ;; b <- rd q ;;
  if p_nr a <? p_nr b then WLOCK_PROC q
  else WUNLOCK_PROC p ;; WLOCK_PROC q ;; WLOCK_PROC p.

Definition WLOCK_PROC2 (p q : ptr) : M unit :=
  a <- rd p ;; b <- rd q ;;
  if p_nr a <? p_nr b then WLOCK_PROC p ;; WLOCK_PROC q
  else WLOCK_PROC q ;; WLOCK_PROC p.

Definition WUNLOCK_PROC2 (p q : ptr) : M unit := WUNLOCK_PROC p ;; WUNLOCK_PROC q.

Definition WLOCK_PROC3 (p q r : ptr) : M unit :=
  a <- rd p ;; b <- rd q ;; c <- rd r ;;
  if p_nr a <? p_nr b then
    if p_nr c <? p_nr b then WLOCK_PROC2 p r ;; WLOCK_PROC q
    else WLOCK_PROC2 p q ;; WLOCK_PROC r
  else
    if p_nr c <? p_nr a then WLOCK_PROC2 q r ;; WLOCK_PROC p
    else WLOCK_PROC2 q p ;; WLOCK_PROC r.

Definition WUNLOCK_PROC3 (p q r : ptr) : M unit :=
  WUNLOCK_PROC p ;; WUNLOCK_PROC q ;; WUNLOCK_PROC r.

(** ** Intrusive lists

    [LIST_ADD_TAIL(&x->p_link, &h->p_list)] and so on.  [INIT_LIST_HEAD] on a
    link forgets where it was; [LIST_DEL_INIT] unlinks it from the head it is
    on, and does nothing on an initialised link. *)

Definition INIT_P_LINK (x : ptr) : M unit := wr x (fun p => p <| p_link := None |>).
Definition INIT_P_MLINK (x : ptr) : M unit := wr x (fun p => p <| p_mlink := None |>).

Definition LIST_ADD_TAIL_P (x h : ptr) : M unit :=
  wr h (fun p => p <| p_list ::= fun l => l ++ [x] |>) ;;
  wr x (fun p => p <| p_link := Some h |>).

Definition LIST_DEL_P (x : ptr) : M unit :=
  a <- rd x ;;
  match p_link a with
  | Some h =>
      wr h (fun p => p <| p_list ::= del x |>) ;;
      wr x (fun p => p <| p_link := None |>)
  | None => mret tt
  end.

Definition LIST_ADD_TAIL_M (x h : ptr) : M unit :=
  wr h (fun p => p <| p_mlist ::= fun l => l ++ [x] |>) ;;
  wr x (fun p => p <| p_mlink := Some h |>).

Definition LIST_DEL_M (x : ptr) : M unit :=
  a <- rd x ;;
  match p_mlink a with
  | Some h =>
      wr h (fun p => p <| p_mlist ::= del x |>) ;;
      wr x (fun p => p <| p_mlink := None |>)
  | None => mret tt
  end.

(** ** User space message buffers

    A buffer that is not mapped makes [get_user_pages] and the copy functions
    of Linux fail. [copy_to_user] and [copy_from_user] return the number of
    bytes not copied. *)

Definition mm_of (p : ptr) : M Z :=
  a <- rd p ;;
  match p_task a with
  | None => faults F_NULL_POINTER
  | Some t => x <- rd_task t ;; mret (t_mm x)
  end.

(** One step on a cell of the memory; [Copy.copy_usr2usr] is the same page by page. *)
Definition copy_usr2usr_msg (source : Z) (src : ptr) (saddr : Z)
    (dst : ptr) (daddr : Z) : M Z :=
  smm <- mm_of src ;;
  s <- get ;;
  match k_umem s !! (smm, saddr) with
  | None => mret EMOLADDRNOTAVAIL
  | Some m =>
      dmm <- mm_of dst ;;
      match k_umem s !! (dmm, daddr) with
      | None => mret EMOLADDRNOTAVAIL
      | Some _ =>
          let m' := if source =? NONE then m else m <| m_source := source |> in
          modify (fun s => s <| k_umem ::= <[(dmm, daddr) := m']> |>) ;;
          mret OK
      end
  end.

(** [COPY_USR2USR_PROC] of a block of data. *)
Definition copy_block (src : ptr) (saddr : Z) (dst : ptr) (daddr bytes : Z) : M Z :=
  if (bytes <? 0) || (bytes >? MAXCOPYLEN) then mret EMOLRANGE
  else if bytes =? 0 then mret OK
  else
    smm <- mm_of src ;;
    dmm <- mm_of dst ;;
    s <- get ;;
    let r := copy_usr2usr NONE smm saddr dmm daddr bytes (k_pages s) in
    modify (fun s => s <| k_pages := snd r |>) ;;
    mret (fst r).

(** The header of a command, in the buffer of a proxy. *)
Definition copy_to_user_hdr (cur : Z) (h : cmd_t) (addr : Z) : M Z :=
  t <- rd_task cur ;;
  s <- get ;;
  match k_uhdr s !! (t_mm t, addr) with
  | None => mret 1
  | Some _ =>
      modify (fun s => s <| k_uhdr ::= <[(t_mm t, addr) := h]> |>) ;; mret OK
  end.

Definition copy_to_user_msg (cur : Z) (m : message) (addr : Z) : M Z :=
  t <- rd_task cur ;;
  s <- get ;;
  match k_umem s !! (t_mm t, addr) with
  | None => mret SIZEOF_MESSAGE
  | Some _ =>
      modify (fun s => s <| k_umem ::= <[(t_mm t, addr) := m]> |>) ;; mret OK
  end.

Definition copy_from_user_msg (cur : Z) (addr : Z) : M (Z * option message) :=
  t <- rd_task cur ;;
  s <- get ;;
  match k_umem s !! (t_mm t, addr) with
  | None => mret (SIZEOF_MESSAGE, None)
  | Some m => mret (OK, Some m)
  end.

(** ** Waking and sleeping ([LOCAL_PROC_UP], [sleep_proc] and variants) *)

Definition LOCAL_PROC_UP (p : ptr) (rcode : Z) : M unit :=
  wr p (fun x => x <| p_rcode := rcode |> <| p_pseudosem ::= Z.add 1 |>).

Definition READY_UP_RCODE (p : ptr) (rcode : Z) : M unit := LOCAL_PROC_UP p rcode.

(** A pending request to migrate takes effect when the process sleeps. *)
Definition need_migr (x : proc) : proc :=
  if misc MIS_BIT_NEEDMIGR x
  then rts_set BIT_MIGRATE (misc_clear MIS_BIT_NEEDMIGR x) else x.

(** Entering the sleep: [unlock] releases the locks the variant holds. *)
Definition sleep_enter (p : ptr) (unlock : M unit) (timeout : Z) (k : kont) : M unit :=
  if timeout =? TIMEOUT_NOWAIT then
    wr p (fun x => need_migr x <| p_rcode := EMOLAGAIN |>)
  else
    wr p (fun x => x <| p_pseudosem := -1 |> <| p_rcode := OK |>) ;;
    unlock ;;
    leave (X_SLEEP k).

Definition sleep_proc (p : ptr) (timeout : Z) (k : kont) : M unit :=
  sleep_enter p (WUNLOCK_PROC p) timeout k.

Definition sleep_proc2 (p other : ptr) (timeout : Z) (k : kont) : M unit :=
  sleep_enter p (WUNLOCK_PROC2 p other) timeout k.

(** Leaving the sleep with the result [w] of [wait_event_interruptible] or
    [wait_event_interruptible_timeout]: the code after the wait.  Gives the
    return code, and the descriptor it leaves. *)
Definition wake_rcode (rcode timeout w : Z) : Z :=
  if rcode <? 0 then rcode
  else if w <? 0 then w
  else if w =? 0 then (if 0 <=? timeout then EMOLTIMEDOUT else w)
  else OK.

Definition wake_desc (timeout w : Z) (x : proc) : proc :=
  let ret := wake_rcode (p_rcode x) timeout w in
  let x1 := x <| p_rcode := ret |> in
  let x2 := if (ret =? OK) then x1
            else if p_pseudosem x1 <? 0 then x1 <| p_pseudosem ::= Z.add 1 |> else x1 in
  need_migr x2.

Definition sleep_exit (p : ptr) (lock : M unit) (timeout w : Z) : M unit :=
  lock ;; wr p (wake_desc timeout w).

(** The loop of [sleep_proc] on [BIT_ONCOPY]: after an error, a process that
    sleeps without a timeout does not go on while a copy is in progress. *)
Definition wake_waits (timeout w : Z) (x : proc) : bool :=
  negb (wake_rcode (p_rcode x) timeout w =? OK) && (timeout <? 0) && rts BIT_ONCOPY x.

(** The values the two wait functions can return, for a process that is or is
    not signalled: the awaited condition is [p_pseudosem >= 0].  A time out does
    not tell about it, since the process may be signalled between the end of the
    wait and the lock of its descriptor. *)
Definition wait_result (timeout : Z) (x : proc) (w : Z) : Prop :=
  if timeout <? 0 then
    (w = 0 /\ 0 <= p_pseudosem x) \/ w = - ERESTARTSYS
  else
    (0 < w /\ 0 <= p_pseudosem x) \/ w = 0 \/ w = - ERESTARTSYS.
