(* ===== verification/Utils.v ===== *)
(** * Utilities of the module ([mm_utils.c], [mm_sproxy.c], [mm_acks.c])

    [check_caller], the status check of a sender proxy, the queue of the
    sender proxy, acknowledges to remote processes, the bitmaps of pending
    notifications and the construction of notify messages. *)

From S2P Require Import Prelude Types Endpoint Kernel.

(** ** [check_caller]

    The descriptor the calling task uses: its own binding, or the binding of
    its group leader when it is an unbound thread. Also gives the pid to check
    against the descriptor. *)

Definition caller_binding (cur : Z) : M (ptr * Z) :=
  t <- rd_task cur ;;
  if bool_decide (t_leader t = Some cur) then
    match task_proc t with
    | None => return_ EMOLNOTBIND
    | Some c => mret (c, cur)
    end
  else
    match task_proc t with
    | Some c => mret (c, cur)
    | None =>
        match t_leader t with
        | None => return_ EMOLNOTBIND
        | Some l =>
            lock_ (L_TASK l) ;;
            lt <- rd_task l ;;
            unlock_ (L_TASK l) ;;
            match task_proc lt with
            | None => return_ EMOLNOTBIND
            | Some c => mret (c, t_tgid lt)
            end
        end
    end.

(** The checks after the possible sleep of a migrating caller; entered with
    the caller locked.  The flag tested is bit number [MIS_RMTBACKUP], as the
    source has it. *)
Definition check_caller_tail (c : ptr) (pid dcid : Z) : M (ptr * Z) :=
  x <- rd c ;;
  when (negb (misc MIS_RMTBACKUP x) && negb (p_rts_flags x =? 0))
    (ERROR_WUNLOCK_PROC c EMOLNOTREADY) ;;
  WUNLOCK_PROC c ;;
  s <- get ;;
  when (negb (misc MIS_BIT_PROXY x))
    (error_if ((dcid <? 0) || (dcid >=? k_nr_dcs s)) EMOLBADDCID ;;
     RLOCK_DC dcid ;;
     dc <- rd_dc dcid ;;
     RUNLOCK_DC dcid ;;
     error_if (negb (dc_flags dc =? 0)) EMOLDCNOTRUN) ;;
  mret (c, pid).

Definition check_caller (cur : Z) (cl : call) : M (ptr * Z) :=
  cp <- caller_binding cur ;;
  let '(c, pid) := cp in
  WLOCK_PROC c ;;
  x <- rd c ;;
  wr c need_migr ;;
  y <- rd c ;;
  when (rts BIT_MIGRATE y)
    (sleep_proc c TIMEOUT_FOREVER (K_CALLER cl c pid (p_dcid x))) ;;
  check_caller_tail c pid (p_dcid x).

(** The part of [check_caller] after the sleep. *)
Definition check_caller_resume (c : ptr) (pid dcid w : Z) : M (ptr * Z) :=
  sleep_exit c (WLOCK_PROC c) TIMEOUT_FOREVER w ;;
  x <- rd c ;;
  when (negb (p_rcode x =? OK)) (ERROR_WUNLOCK_PROC c (p_rcode x)) ;;
  check_caller_tail c pid dcid.

(** ** Status of the sender proxy of a node

    The check every primitive makes before it queues a command for a remote
    process. *)
Definition sproxy_status (x : proc) : Z :=
  if p_lpid x =? PROC_NO_PID then EMOLNOPROXY
  else if rts BIT_SLOT_FREE x then EMOLNOPROXY
  else if negb (misc MIS_BIT_PROXY x) then EMOLNOPROXY
  else if negb (misc MIS_BIT_CONNECTED x) then EMOLNOTCONN
  else OK.

Definition check_sproxy (nodeid : Z) : M Z :=
  sp <- NODE2SPROXY nodeid ;;
  RLOCK_PROC sp ;;
  x <- rd sp ;;
  RUNLOCK_PROC sp ;;
  mret (sproxy_status x).

(** ** [sproxy_enqueue] *)
Definition sproxy_enqueue (p : ptr) : M Z :=
  x <- rd p ;;
  sp <- NODE2SPROXY (c_dnode (p_rmtcmd x)) ;;
  WLOCK_PROC sp ;;
  y <- rd sp ;;
  if p_rts_flags y =? SLOT_FREE then WUNLOCK_PROC sp ;; mret EMOLNOPROXY
  else
    wr p (fun x => x <| p_proxy := p_nr y |>) ;;
    LIST_ADD_TAIL_P p sp ;;
    z <- rd sp ;;
    when (rts BIT_RECEIVING z)
      (wr sp (rts_clear BIT_RECEIVING) ;;
       z' <- rd sp ;;
       when (p_rts_flags z' =? 0) (LOCAL_PROC_UP sp OK)) ;;
    WUNLOCK_PROC sp ;;
    mret OK.

(** ** Acknowledges from this node to a remote process *)

Definition fill_cmd (cmd dcid src dst snode dnode rcode len : Z) (c : cmd_t) : cmd_t :=
  c <| c_cmd := cmd |> <| c_dcid := dcid |> <| c_src := src |> <| c_dst := dst |>
    <| c_snode := snode |> <| c_dnode := dnode |> <| c_rcode := rcode |> <| c_len := len |>.

Definition generic_ack_lcl2rmt (ack : Z) (rmt lcl : ptr) (rcode : Z) : M Z :=
  wr rmt (rts_set BIT_RMTOPER) ;;
  l <- rd lcl ;;
  s <- get ;;
  wr rmt (fun r => r <| p_rmtcmd ::=
    fill_cmd ack (p_dcid r) (p_endpoint l) (p_endpoint r)
             (k_local_nodeid s) (p_nodeid r) rcode 0 |>) ;;
  sproxy_enqueue rmt.

Definition send_ack_lcl2rmt (rmt lcl : ptr) (rcode : Z) : M Z :=
  generic_ack_lcl2rmt CMD_SEND_ACK rmt lcl rcode.

Definition error_lcl2rmt (ack : Z) (rmt : ptr) (h : cmd_t) (rcode : Z) : M Z :=
  wr rmt (rts_set BIT_RMTOPER) ;;
  s <- get ;;
  wr rmt (fun r => r <| p_rmtcmd ::=
    fill_cmd ack (c_dcid h) (c_dst h) (p_endpoint r)
             (k_local_nodeid s) (p_nodeid r) rcode 0 |>) ;;
  sproxy_enqueue rmt.

(** The vcopy fields of [rmt] are those of the request. The destination of the
    command is the node of [rmt], as the source has it. *)
Definition copyin_rqst_lcl2rmt (rmt lcl : ptr) : M Z :=
  wr rmt (rts_set BIT_RMTOPER) ;;
  l <- rd lcl ;;
  s <- get ;;
  wr rmt (fun r => r <| p_rmtcmd ::= fun h =>
    fill_cmd CMD_COPYIN_RQST (p_dcid l) (p_endpoint l) (p_nodeid r)
             (k_local_nodeid s) (p_nodeid r) OK (v_bytes (cu_vcopy h)) h |>) ;;
  sproxy_enqueue rmt.

Definition copyout_data_lcl2rmt (rmt lcl : ptr) (rcode : Z) : M Z :=
  wr rmt (rts_set BIT_RMTOPER) ;;
  l <- rd lcl ;;
  s <- get ;;
  wr rmt (fun r => r <| p_rmtcmd ::= fun h =>
    fill_cmd CMD_COPYOUT_DATA (p_dcid r) (p_endpoint l) (p_endpoint r)
             (k_local_nodeid s) (p_nodeid r) rcode (v_bytes (cu_vcopy h)) h |>) ;;
  sproxy_enqueue rmt.

Definition copylcl_ack_lcl2rmt (rmt lcl : ptr) (rcode : Z) : M Z :=
  generic_ack_lcl2rmt CMD_COPYLCL_ACK rmt lcl rcode.
Definition copyin_ack_lcl2rmt (rmt lcl : ptr) (rcode : Z) : M Z :=
  generic_ack_lcl2rmt CMD_COPYIN_ACK rmt lcl rcode.
Definition copyrmt_ack_lcl2rmt (rmt lcl : ptr) (rcode : Z) : M Z :=
  generic_ack_lcl2rmt CMD_COPYRMT_ACK rmt lcl rcode.

(** ** Acknowledges from a remote process to a local one *)

Definition send_ack_rmt2lcl (rmt lcl : ptr) (rcode : Z) : M Z :=
  r <- rd rmt ;;
  l <- rd lcl ;;
  if rts BIT_SENDING r then mret EMOLPROCSTS
  else if negb (rts BIT_SENDING l) then mret EMOLACKDST
  else if negb (p_sendto l =? p_endpoint r) then mret EMOLACKSRC
  else
    wr lcl (rts_clear BIT_SENDING) ;;
    wr lcl (fun x => x <| p_sendto := NONE |>) ;;
    l' <- rd lcl ;;
    when (p_rts_flags l' =? 0) (READY_UP_RCODE lcl rcode) ;;
    mret OK.

Definition generic_ack_rmt2lcl (rmt lcl : ptr) (rcode : Z) : M Z :=
  r <- rd rmt ;;
  l <- rd lcl ;;
  if IT_IS_LOCAL r then mret EMOLLCLPROC
  else if p_rts_flags l =? PROC_RUNNING then mret EMOLPROCRUN
  else if negb (rts BIT_ONCOPY l) then mret EMOLPROCSTS
  else if negb (rts BIT_ONCOPY r) then mret EMOLPROCSTS
  else
    when (p_rts_flags l =? ONCOPY) (READY_UP_RCODE lcl rcode) ;;
    mret OK.

(** ** Bitmaps of system processes ([macros.h]): 16-bit chunks *)

Definition BITCHUNK_BITS : Z := 16.
Definition chunk_of (bit : Z) : nat := Z.to_nat (bit / BITCHUNK_BITS).

Definition get_sys_bit (map : list Z) (bit : Z) : bool :=
  match map !! chunk_of bit with
  | Some ch => Z.testbit ch (bit mod BITCHUNK_BITS)
  | None => false
  end.

Definition set_sys_bit (bit : Z) (map : list Z) : list Z :=
  match map !! chunk_of bit with
  | Some ch => <[chunk_of bit := Z.setbit ch (bit mod BITCHUNK_BITS)]> map
  | None => map
  end.

Definition unset_sys_bit (bit : Z) (map : list Z) : list Z :=
  match map !! chunk_of bit with
  | Some ch => <[chunk_of bit := Z.clearbit ch (bit mod BITCHUNK_BITS)]> map
  | None => map
  end.

(** An access outside the bitmap is outside the array. *)
Definition sys_bit_ok (map : list Z) (bit : Z) : bool :=
  (0 <=? bit) && bool_decide (chunk_of bit < length map)%nat.

Definition check_sys_bit (p : ptr) (bit : Z) : M unit :=
  x <- rd p ;;
  if sys_bit_ok (s_notify_pending x) bit then mret tt else faults (F_WILD_INDEX bit).

(** ** [BUILD_NOTIFY_MSG]

    [same] is [c_ptr == d_ptr].  The [SYSTEM] case has no [break]: it goes on
    with the [SLOTS] case. *)
Definition notify_slots (x : proc) : proc :=
  x <| p_message ::= (fun m => m <| m9_l1 := to_int (s_updt_pending x) |>) |>
    <| s_updt_pending := 0 |>.

Definition notify_arg (s_nr : Z) (x : proc) : proc :=
  if s_nr =? HARDWARE then
    x <| p_message ::= (fun m => m <| m9_l1 := to_int (s_int_pending x) |>) |>
      <| s_int_pending := 0 |>
  else if s_nr =? SYSTEM then
    notify_slots
      (x <| p_message ::= (fun m => m <| m9_l1 := to_int (s_sig_pending x) |>) |>
         <| s_sig_pending := 0 |>)
  else if s_nr =? SLOTS then notify_slots x
  else x.

Definition build_notify (same : bool) (s_ep s_nr now : Z) (x : proc) : proc :=
  notify_arg s_nr
    (x <| p_message ::= (fun m =>
       m <| m_source := (if same then HARDWARE else s_ep) |>
         <| m_type := NOTIFY_FROM s_nr |> <| m9_t1 := now |>) |>).

Definition BUILD_NOTIFY_MSG (c : ptr) (s_ep s_nr : Z) (d : ptr) : M unit :=
  s <- get ;;
  wr d (build_notify (bool_decide (c = d)) s_ep s_nr (k_clock s)).
