(* ===== verification/IpcCommon.v ===== *)
(** * Steps the IPC primitives share ([mm_ipc.c])

    [mm_mini_send], [mm_mini_sendrec] and [mm_mini_reply] start with the same
    checks of the caller and of the destination number, examine the
    destination in the same loop, and queue a command for a remote
    destination in the same way. *)

From S2P Require Import Prelude Types Endpoint Kernel Utils.

(** Checks of the caller's pid, its DC, and the destination number; gives the
    local variables of the handler. *)
Definition ipc_prologue (c : ptr) (pid dst_ep m_ptr timeout : Z) : M frame :=
  RLOCK_PROC c ;;
  x <- rd c ;;
  let caller_ep := p_endpoint x in
  let d := p_dcid x in
  when (negb (pid =? p_lpid x)) (ERROR_RUNLOCK_PROC c EMOLBADPID) ;;
  RUNLOCK_PROC c ;;
  s <- get ;;
  error_if ((d <? 0) || (d >=? k_nr_dcs s)) EMOLBADDCID ;;
  RLOCK_DC d ;;
  dc <- rd_dc d ;;
  when (negb (dc_flags dc =? 0)) (ERROR_RUNLOCK_DC d EMOLDCNOTRUN) ;;
  RUNLOCK_DC d ;;
  let dst_nr := ENDPOINT_P dst_ep in
  error_if ((dst_nr <? - dc_nr_tasks dc) || (dst_nr >=? dc_nr_procs dc)) EMOLRANGE ;;
  error_if (caller_ep =? dst_ep) EMOLENDPOINT ;;
  mret (mk_frame c (NBR2PTR d dc dst_nr) d caller_ep dst_ep m_ptr timeout).

(** The caller waits in the migration queue of [dst]. *)
Definition enqueue_migr (f : frame) : M unit :=
  wr (f_c f) (rts_set BIT_WAITMIGR) ;;
  wr (f_c f) (fun x => x <| p_waitmigr := f_dst_ep f |>) ;;
  INIT_P_MLINK (f_c f) ;;
  LIST_ADD_TAIL_M (f_c f) (f_dst f).

(** The last check of the loop: the node of the destination. *)
Definition check_dst_node (d : Z) (y : proc) : M Z :=
  s <- get ;;
  if (p_nodeid y <? 0) || (p_nodeid y >=? k_nr_nodes s) then mret EMOLBADNODEID
  else
    RLOCK_DC d ;;
    dc <- rd_dc d ;;
    RUNLOCK_DC d ;;
    mret (if test_bit (p_nodeid y) (dc_nodes dc) then OK else EMOLNODCNODE).

(** The loop [do { ... } while(retry)] on the destination status, both
    descriptors locked.  It goes round again after waiting for a migration,
    whatever the result of the wait.  [died] is the error for a free slot. *)
Fixpoint check_dst (fuel : nat) (f : frame) (died : Z) (k : kont) : M Z :=
  match fuel with
  | O => faults F_DIVERGES
  | S fuel =>
      y <- rd (f_dst f) ;;
      if negb (p_endpoint y =? f_dst_ep f) then mret EMOLENDPOINT
      else if rts BIT_SLOT_FREE y then mret died
      else if rts BIT_MIGRATE y then
        enqueue_migr f ;;
        sleep_proc2 (f_c f) (f_dst f) (f_timeout f) k ;;
        check_dst fuel f died k
      else check_dst_node (f_dcid f) y
  end.

(** The destination stops receiving from the caller, on this node. *)
Definition dst_stop_receiving (c dst : ptr) : M unit :=
  x <- rd c ;;
  wr dst (rts_clear BIT_RECEIVING) ;;
  wr dst (fun y => if p_getfrom y =? p_endpoint x then y <| p_getfrom := NONE |> else y).

(** Filling [p_rmtcmd] for a message command. *)
Definition fill_msg_cmd (cmd : Z) (f : frame) (rcode : Z) : M unit :=
  s <- get ;;
  y <- rd (f_dst f) ;;
  wr (f_c f) (fun x => x <| p_rmtcmd ::=
    fill_cmd cmd (p_dcid x) (f_caller_ep f) (f_dst_ep f)
             (k_local_nodeid s) (p_nodeid y) rcode 0 |>).

(** The jump to [unlock both, ERROR_RETURN(ret)]. *)
Definition fail2 {A} (f : frame) (ret : Z) : M A :=
  WUNLOCK_PROC2 (f_c f) (f_dst f) ;; return_ ret.

(** The end of a handler: only the caller is locked. *)
Definition finish (f : frame) (ret : Z) : handler :=
  WUNLOCK_PROC (f_c f) ;; return_ ret.

(** [caller_ptr->p_usr.p_lclsent++], [caller_ptr->p_usr.p_rmtsent++]. *)
Definition lclsent_inc (c : ptr) : M unit := wr c (fun x => x <| p_lclsent ::= ulong_inc |>).
Definition rmtsent_inc (c : ptr) : M unit := wr c (fun x => x <| p_rmtsent ::= ulong_inc |>).

(** [COPY_FROM_USER_PROC] into the command; the bytes that cannot be read are
    zero, and the result is not looked at. *)
Definition cmd_msg_from_user (cur : Z) (c : ptr) (m_ptr : Z) : M unit :=
  r <- copy_from_user_msg cur m_ptr ;;
  wr c (fun x => x <| p_rmtcmd ::=
    (fun h => h <| cu_msg := default message0 r.2 |>) |>).

(** After an error of a command to a remote process: the descriptor leaves the
    queue of the proxy and all its waiting state is cleared. *)
Definition rmt_cleanup (c : ptr) (also_receiving : bool) : M unit :=
  x <- rd c ;;
  when (rts BIT_SENDING x) (LIST_DEL_P c) ;;
  wr c (rts_clear BIT_SENDING) ;;
  when also_receiving (wr c (rts_clear BIT_RECEIVING)) ;;
  wr c (rts_clear BIT_RMTOPER) ;;
  wr c (fun x => x <| p_sendto := NONE |>) ;;
  when also_receiving (wr c (fun x => x <| p_getfrom := NONE |>)) ;;
  wr c (fun x => x <| p_proxy := NONE |>).

(** Is [y] blocked waiting for a message of [ep] (or of anybody)? *)
Definition receiving_only (y : proc) : bool :=
  rts BIT_RECEIVING y && negb (rts BIT_SENDING y).

Definition waits_for (y : proc) (ep : Z) : bool :=
  receiving_only y && ((p_getfrom y =? ANY) || (p_getfrom y =? ep)).

(** The receiver gets its message: it stops receiving, and runs when nothing
    else holds it. *)
Definition end_receiving (dst : ptr) (rcode : Z) : M unit :=
  wr dst (rts_clear BIT_RECEIVING) ;;
  wr dst (fun y => y <| p_getfrom := NONE |>) ;;
  y <- rd dst ;;
  when (p_rts_flags y =? 0) (LOCAL_PROC_UP dst rcode).
