(* ===== verification/Send.v ===== *)
(** * [mm_mini_send] ([mm_ipc.c], lines 28-249) *)

From S2P Require Import Prelude Types Endpoint Kernel Utils IpcCommon.

(** After the sleep of the remote case. [replay] is the jump to
    [send_replay]. *)
Definition send_remote_after (f : frame) (replay : handler) : handler :=
  x <- rd (f_c f) ;;
  let ret := p_rcode x in
  if ret =? OK then rmtsent_inc (f_c f) ;; finish f ret
  else
    rmt_cleanup (f_c f) false ;;
    if ret =? EMOLMIGRATE then replay else finish f ret.

(** The caller becomes the sender of its command, in the queue of the sender
    proxy of the destination node. *)
Definition start_remote (cur : Z) (f : frame) : M unit :=
  WUNLOCK_PROC (f_dst f) ;;
  cmd_msg_from_user cur (f_c f) (f_m_ptr f) ;;
  INIT_P_LINK (f_c f) ;;
  wr (f_c f) (rts_set BIT_SENDING) ;;
  wr (f_c f) (fun x => x <| p_sendto := f_dst_ep f |>) ;;
  wr (f_c f) (rts_set BIT_RMTOPER) ;;
  sproxy_enqueue (f_c f) ;;
  mret tt.

Definition send_remote (cur : Z) (f : frame) (replay : handler) : handler :=
  y <- rd (f_dst f) ;;
  ret <- check_sproxy (p_nodeid y) ;;
  if negb (ret =? OK) then fail2 f ret
  else
    dst_stop_receiving (f_c f) (f_dst f) ;;
    fill_msg_cmd CMD_SEND_MSG f OK ;;
    start_remote cur f ;;
    sleep_proc (f_c f) (f_timeout f) (K_SEND_REMOTE f) ;;
    send_remote_after f replay.

(** The destination waits for this message: it is copied from the caller's
    buffer to the destination's, which is woken up. *)
Definition deliver_waiting (f : frame) : handler :=
  y <- rd (f_dst f) ;;
  ret <- copy_usr2usr_msg (f_caller_ep f) (f_c f) (f_m_ptr f) (f_dst f) (p_umsg y) ;;
  if negb (ret =? OK) then fail2 f ret
  else
    end_receiving (f_dst f) ret ;;
    WUNLOCK_PROC (f_dst f) ;;
    lclsent_inc (f_c f) ;;
    finish f ret.

(** After the sleep in the queue of a local destination. *)
Definition send_local_after (f : frame) (replay : handler) : handler :=
  WUNLOCK_PROC (f_dst f) ;;
  x <- rd (f_c f) ;;
  let ret := p_rcode x in
  if ret =? OK then lclsent_inc (f_c f) ;; finish f ret
  else
    when (rts BIT_SENDING x) (LIST_DEL_P (f_c f)) ;;
    wr (f_c f) (rts_clear BIT_SENDING) ;;
    wr (f_c f) (fun x => x <| p_sendto := NONE |>) ;;
    if ret =? EMOLMIGRATE then replay else finish f ret.

Definition send_enqueue (f : frame) : M unit :=
  wr (f_c f) (rts_set BIT_SENDING) ;;
  wr (f_c f) (fun x => x <| p_sendto := f_dst_ep f |> <| p_umsg := f_m_ptr f |>) ;;
  INIT_P_LINK (f_c f) ;;
  LIST_ADD_TAIL_P (f_c f) (f_dst f).

Definition send_local (f : frame) (replay : handler) : handler :=
  y <- rd (f_dst f) ;;
  if waits_for y (f_caller_ep f) then deliver_waiting f
  else
    send_enqueue f ;;
    sleep_proc2 (f_c f) (f_dst f) (f_timeout f) (K_SEND_LOCAL f) ;;
    send_local_after f replay.

(** From the end of the status loop: the result of the loop is [ret]. *)
Definition send_dispatch (cur : Z) (f : frame) (ret : Z) (replay : handler) : handler :=
  if negb (ret =? OK) then fail2 f ret
  else
    wr (f_c f) (fun x => x <| p_rcode := OK |>) ;;
    y <- rd (f_dst f) ;;
    if IT_IS_REMOTE y then send_remote cur f replay else send_local f replay.

(** From the label [send_replay]; the caller is locked. *)
Fixpoint send_replay (fuel : nat) (cur : Z) (f : frame) : handler :=
  match fuel with
  | O => faults F_DIVERGES
  | S fuel =>
      WLOCK_ORDERED2 (f_c f) (f_dst f) ;;
      ret <- check_dst fuel f EMOLDSTDIED (K_SEND_MIGR f) ;;
      send_dispatch cur f ret (send_replay fuel cur f)
  end.

(** From the return of [check_caller]. *)
Definition send_body (fuel : nat) (cur : Z) (c : ptr) (pid dst_ep m_ptr timeout : Z)
    : handler :=
  f <- ipc_prologue c pid dst_ep m_ptr timeout ;;
  WLOCK_PROC (f_c f) ;;
  wr (f_c f) (fun x => x <| p_umsg := m_ptr |>) ;;
  send_replay fuel cur f.

Definition mm_mini_send (fuel : nat) (cur dst_ep m_ptr timeout : Z) : handler :=
  s <- get ;;
  error_if (DVS_NOT_INIT s) EMOLDVSINIT ;;
  cp <- check_caller cur (C_SEND dst_ep m_ptr timeout) ;;
  send_body fuel cur (fst cp) (snd cp) dst_ep m_ptr timeout.

(** ** Resuming a blocked send

    [w] is the result of the wait. *)

Definition resume_send_migr (fuel : nat) (cur : Z) (f : frame) (w : Z) : handler :=
  sleep_exit (f_c f) (WLOCK_PROC2 (f_c f) (f_dst f)) (f_timeout f) w ;;
  ret <- check_dst fuel f EMOLDSTDIED (K_SEND_MIGR f) ;;
  send_dispatch cur f ret (send_replay fuel cur f).

Definition resume_send_remote (fuel : nat) (cur : Z) (f : frame) (w : Z) : handler :=
  sleep_exit (f_c f) (WLOCK_PROC (f_c f)) (f_timeout f) w ;;
  send_remote_after f (send_replay fuel cur f).

Definition resume_send_local (fuel : nat) (cur : Z) (f : frame) (w : Z) : handler :=
  sleep_exit (f_c f) (WLOCK_PROC2 (f_c f) (f_dst f)) (f_timeout f) w ;;
  send_local_after f (send_replay fuel cur f).
