(* ===== verification/Receive.v ===== *)
(** * [mm_mini_receive] and [mm_mini_rcvrqst] ([mm_ipc.c])

    A receiver takes the first pending notification, or the first acceptable
    sender of its queue, or sleeps until a sender finds it waiting. *)

From S2P Require Import Prelude Types Endpoint Kernel Utils IpcCommon.

(** Checks of the caller's pid and of its DC. *)
Definition receive_prologue (c : ptr) (pid : Z) : M (Z * Z * dc_t) :=
  RLOCK_PROC c ;;
  x <- rd c ;;
  when (negb (pid =? p_lpid x)) (ERROR_RUNLOCK_PROC c EMOLBADPID) ;;
  let d := p_dcid x in
  s <- get ;;
  when ((d <? 0) || (d >=? k_nr_dcs s)) (ERROR_RUNLOCK_PROC c EMOLBADDCID) ;;
  RUNLOCK_PROC c ;;
  RLOCK_DC d ;;
  dc <- rd_dc d ;;
  when (negb (dc_flags dc =? 0)) (ERROR_WUNLOCK_DC d EMOLDCNOTRUN) ;;
  RUNLOCK_DC d ;;
  mret (p_endpoint x, d, dc).

(** Status of the receiver proxy of the node of a remote source. *)
Definition rproxy_status (dc : dc_t) (nodeid : Z) (x : proc) : Z :=
  if negb (test_bit nodeid (dc_nodes dc)) then EMOLNODCNODE
  else if p_lpid x =? PROC_NO_PID then EMOLNOPROXY
  else if rts BIT_SLOT_FREE x then EMOLNOPROXY
  else if negb (misc MIS_BIT_PROXY x) then EMOLNOPROXY
  else if negb (misc MIS_BIT_CONNECTED x) then EMOLNOTCONN
  else OK.

(** The checks on a source that is not [ANY].  The error on the node number
    returns with the source still locked, as the code does. *)
Definition check_source (c : ptr) (caller_ep d : Z) (dc : dc_t) (src_ep : Z) : M unit :=
  let src_nr := ENDPOINT_P src_ep in
  RLOCK_PROC c ;;
  when ((src_nr <? - dc_nr_tasks dc) || (src_nr >=? dc_nr_procs dc - dc_nr_tasks dc))
    (ERROR_RUNLOCK_PROC c EMOLRANGE) ;;
  when (caller_ep =? src_ep) (ERROR_RUNLOCK_PROC c EMOLENDPOINT) ;;
  RUNLOCK_PROC c ;;
  let src := NBR2PTR d dc src_nr in
  RLOCK_PROC src ;;
  y <- rd src ;;
  when (rts BIT_SLOT_FREE y) (ERROR_RUNLOCK_PROC src EMOLSRCDIED) ;;
  when (negb (p_endpoint y =? src_ep)) (ERROR_RUNLOCK_PROC src EMOLENDPOINT) ;;
  s <- get ;;
  error_if ((p_nodeid y <? 0) || (p_nodeid y >=? k_nr_nodes s)) EMOLBADNODEID ;;
  RUNLOCK_PROC src ;;
  when (IT_IS_REMOTE y)
    (rp <- NODE2RPROXY (p_nodeid y) ;;
     RLOCK_PROC rp ;;
     x <- rd rp ;;
     let ret := rproxy_status dc (p_nodeid y) x in
     when (negb (ret =? OK)) (ERROR_RUNLOCK_PROC rp ret) ;;
     RUNLOCK_PROC rp).

(** ** Pending notifications *)

(** [for (i=0; ! ( *chunk & (1<<i)); ++i) {}]: the lowest bit of a chunk that
    is not zero. *)
Fixpoint lowest_bit (n : nat) (i ch : Z) : Z :=
  match n with
  | O => i
  | S n => if Z.testbit ch i then i else lowest_bit n (i + 1) ch
  end.

(** The loop over the chunks of [s_notify_pending], from chunk number [n] on.
    Gives the value the variable [src_ep] is left with, and the system id and
    the process number of the notification that is found. *)
Fixpoint scan_notify (dc : dc_t) (chunks : list Z) (n src_ep : Z) : Z * option (Z * Z) :=
  match chunks with
  | [] => (src_ep, None)
  | ch :: rest =>
      if ch =? 0 then scan_notify dc rest (n + 1) src_ep
      else
        let sys_id := n * BITCHUNK_BITS + lowest_bit 16 0 ch in
        if sys_id >=? dc_nr_sysprocs dc then (src_ep, None)
        else
          let sys_nr := sys_id - dc_nr_tasks dc in
          let src_ep := sys_nr in
          if negb (src_ep =? ANY) && negb (ENDPOINT_P src_ep =? sys_nr)
          then scan_notify dc rest (n + 1) src_ep
          else (src_ep, Some (sys_id, sys_nr))
  end.

Definition receive_notify (cur d : Z) (dc : dc_t) (c : ptr) (src_ep sys_id sys_nr m_ptr : Z)
    : handler :=
  wr c (fun x => x <| s_notify_pending ::= unset_sys_bit sys_id |>) ;;
  BUILD_NOTIFY_MSG (NBR2PTR d dc sys_nr) src_ep sys_nr c ;;
  x <- rd c ;;
  ret <- copy_to_user_msg cur (p_message x) m_ptr ;;
  WUNLOCK_PROC c ;;
  error_if (negb (ret =? 0)) EMOLMSGSIZE ;;
  return_ OK.

(** ** The queue of senders *)

(** The status of the sender [x] for a receiver with endpoint [c_ep]. *)
Definition sender_status (src_ep c_ep : Z) (x : proc) : Z :=
  if rts BIT_SLOT_FREE x then EMOLSRCDIED
  else if negb (rts BIT_SENDING x) then EMOLPROCSTS
  else if negb (p_sendto x =? c_ep) then EMOLPROCSTS
  else if negb (src_ep =? ANY) && negb (p_endpoint x =? src_ep) then EMOLENDPOINT
  else OK.

(** The message of a sender in the queue is copied to the receiver: from the
    descriptor of a remote sender, which is acknowledged unless it waits for a
    reply, or from the buffer of a local one. *)
Definition take_message (cur : Z) (c xpp : ptr) (m_ptr : Z) : M Z :=
  x <- rd xpp ;;
  if IT_IS_REMOTE x then
    ret <- copy_to_user_msg cur (p_message x) m_ptr ;;
    when (negb (rts BIT_RECEIVING x)) (send_ack_lcl2rmt xpp c ret ;; mret tt) ;;
    mret ret
  else copy_usr2usr_msg (p_endpoint x) xpp (p_umsg x) c m_ptr.

(** The sender has sent: it runs when nothing else holds it. *)
Definition end_sending (xpp : ptr) (ret : Z) : M unit :=
  wr xpp (rts_clear BIT_SENDING) ;;
  wr xpp (fun x => x <| p_sendto := NONE |>) ;;
  x <- rd xpp ;;
  when (p_rts_flags x =? 0) (LOCAL_PROC_UP xpp ret).

(** An acceptable sender is found; both descriptors are locked. *)
Definition receive_from {A} (cur : Z) (c xpp : ptr) (src_ep m_ptr : Z) : M A :=
  LIST_DEL_P xpp ;;
  x <- rd xpp ;;
  y <- rd c ;;
  let st := sender_status src_ep (p_endpoint y) x in
  ret <- (if st =? OK then
            ret <- take_message cur c xpp m_ptr ;;
            end_sending xpp ret ;;
            mret ret
          else mret st) ;;
  WUNLOCK_PROC xpp ;;
  WUNLOCK_PROC c ;;
  return_ ret.

(** The loop over the queue of senders [l] of the caller. *)
Fixpoint receive_queue (cur : Z) (c : ptr) (src_ep m_ptr : Z) (l : list ptr) : M unit :=
  match l with
  | [] => mret tt
  | xpp :: l =>
      WLOCK_ORDERED2 c xpp ;;
      x <- rd xpp ;;
      if (src_ep =? p_endpoint x) || (src_ep =? ANY) then receive_from cur c xpp src_ep m_ptr
      else WUNLOCK_PROC xpp ;; receive_queue cur c src_ep m_ptr l
  end.

(** ** The whole handler *)

(** After the sleep. *)
Definition receive_after (cur : Z) (c : ptr) : handler :=
  x <- rd c ;;
  ret <- (if negb (p_rcode x =? OK) then
            wr c (rts_clear BIT_RECEIVING) ;;
            wr c (fun x => x <| p_getfrom := NONE |>) ;;
            mret (p_rcode x)
          else if misc MIS_BIT_NOTIFY x then copy_to_user_msg cur (p_message x) (p_umsg x)
          else mret (p_rcode x)) ;;
  wr c (misc_clear MIS_BIT_NOTIFY) ;;
  WUNLOCK_PROC c ;;
  return_ ret.

(** The caller blocks until a message arrives. *)
Definition receive_block (c : ptr) (src_ep : Z) : M unit :=
  wr c (rts_set BIT_RECEIVING) ;;
  wr c (misc_clear MIS_BIT_NOTIFY) ;;
  wr c (fun x => x <| p_getfrom := src_ep |> <| p_rcode := OK |>).

(** From the lock of the caller on. *)
Definition receive_locked (cur d : Z) (dc : dc_t) (c : ptr) (src_ep m_ptr timeout : Z)
    : handler :=
  x <- rd c ;;
  when (misc MIS_BIT_WOKENUP x && (src_ep =? ANY))
    (wr c (misc_clear MIS_BIT_WOKENUP) ;; ERROR_WUNLOCK_PROC c EMOLWOKENUP) ;;
  wr c (fun x => x <| p_umsg := m_ptr |>) ;;
  match scan_notify dc (s_notify_pending x) 0 src_ep with
  | (src_ep, Some (sys_id, sys_nr)) =>
      receive_notify cur d dc c src_ep sys_id sys_nr m_ptr
  | (src_ep, None) =>
      receive_queue cur c src_ep m_ptr (p_list x) ;;
      receive_block c src_ep ;;
      sleep_proc c timeout (K_RECEIVE c timeout) ;;
      receive_after cur c
  end.

Definition receive_body (cur : Z) (c : ptr) (pid src_ep m_ptr timeout : Z) : handler :=
  pr <- receive_prologue c pid ;;
  let '(caller_ep, d, dc) := pr in
  when (negb (src_ep =? ANY)) (check_source c caller_ep d dc src_ep) ;;
  WLOCK_PROC c ;;
  receive_locked cur d dc c src_ep m_ptr timeout.

Definition mm_mini_receive (cur src_ep m_ptr timeout : Z) : handler :=
  s <- get ;;
  error_if (DVS_NOT_INIT s) EMOLDVSINIT ;;
  cp <- check_caller cur (C_RECEIVE src_ep m_ptr timeout) ;;
  receive_body cur (fst cp) (snd cp) src_ep m_ptr timeout.

Definition resume_receive (cur : Z) (c : ptr) (timeout w : Z) : handler :=
  sleep_exit c (WLOCK_PROC c) timeout w ;;
  receive_after cur c.

(** ** [mm_mini_rcvrqst]

    No notifications and no source: the first sender of the queue, or sleep.
    With the source [ANY] the last test of [sender_status] is void. *)

Definition rcvrqst_after (c : ptr) : handler :=
  wr c (rts_clear BIT_RECEIVING) ;;
  wr c (fun x => x <| p_getfrom := NONE |>) ;;
  x <- rd c ;;
  WUNLOCK_PROC c ;;
  return_ (p_rcode x).

(** From the lock of the caller on. *)
Definition rcvrqst_locked (cur : Z) (c : ptr) (m_ptr timeout : Z) : handler :=
  x <- rd c ;;
  when (misc MIS_BIT_WOKENUP x)
    (wr c (misc_clear MIS_BIT_WOKENUP) ;; ERROR_WUNLOCK_PROC c EMOLWOKENUP) ;;
  wr c (fun x => x <| p_umsg := m_ptr |>) ;;
  match p_list x with
  | xpp :: _ => WLOCK_ORDERED2 c xpp ;; receive_from cur c xpp ANY m_ptr
  | [] =>
      receive_block c ANY ;;
      sleep_proc c timeout (K_RCVRQST c timeout) ;;
      rcvrqst_after c
  end.

Definition rcvrqst_body (cur : Z) (c : ptr) (pid m_ptr timeout : Z) : handler :=
  receive_prologue c pid ;;
  WLOCK_PROC c ;;
  rcvrqst_locked cur c m_ptr timeout.

Definition mm_mini_rcvrqst (cur m_ptr timeout : Z) : handler :=
  s <- get ;;
  error_if (DVS_NOT_INIT s) EMOLDVSINIT ;;
  cp <- check_caller cur (C_RCVRQST m_ptr timeout) ;;
  rcvrqst_body cur (fst cp) (snd cp) m_ptr timeout.

Definition resume_rcvrqst (c : ptr) (timeout w : Z) : handler :=
  sleep_exit c (WLOCK_PROC c) timeout w ;;
  rcvrqst_after c.
