(* ===== verification/Sendrec.v ===== *)
(** * [mm_mini_sendrec] and [mm_mini_reply] ([mm_ipc.c]) *)

From S2P Require Import Prelude Types Endpoint Kernel Utils IpcCommon Send.

(** ** [mm_mini_sendrec]: a request and its reply *)

(** After the sleep of the remote case. *)
Definition sendrec_remote_after (f : frame) (replay : handler) : handler :=
  x <- rd (f_c f) ;;
  let ret := p_rcode x in
  if ret =? OK then rmtsent_inc (f_c f) ;; finish f ret
  else
    rmt_cleanup (f_c f) true ;;
    if ret =? EMOLMIGRATE then replay else finish f ret.

Definition check_sendrec_sproxy (d nodeid : Z) : M Z :=
  sp <- NODE2SPROXY nodeid ;;
  RLOCK_PROC sp ;;
  dc <- rd_dc d ;;
  x <- rd sp ;;
  RUNLOCK_PROC sp ;;
  mret (if negb (test_bit nodeid (dc_nodes dc)) then EMOLNODCNODE else sproxy_status x).

Definition sendrec_remote (cur : Z) (f : frame) (replay : handler) : handler :=
  y <- rd (f_dst f) ;;
  ret <- check_sendrec_sproxy (f_dcid f) (p_nodeid y) ;;
  if negb (ret =? OK) then fail2 f ret
  else
    fill_msg_cmd CMD_SNDREC_MSG f OK ;;
    WUNLOCK_PROC (f_dst f) ;;
    cmd_msg_from_user cur (f_c f) (f_m_ptr f) ;;
    INIT_P_LINK (f_c f) ;;
    wr (f_c f) (rts_set BIT_SENDING) ;;
    wr (f_c f) (rts_set BIT_RECEIVING) ;;
    wr (f_c f) (rts_set BIT_RMTOPER) ;;
    wr (f_c f) (fun x => x <| p_sendto := f_dst_ep f |> <| p_getfrom := f_dst_ep f |>) ;;
    sproxy_enqueue (f_c f) ;;
    sleep_proc (f_c f) (f_timeout f) (K_SENDREC_REMOTE f) ;;
    sendrec_remote_after f replay.

Definition clear_waiting (c : ptr) : M unit :=
  wr c (rts_clear BIT_RECEIVING) ;;
  wr c (rts_clear BIT_SENDING) ;;
  wr c (fun x => x <| p_getfrom := NONE |> <| p_sendto := NONE |>).

(** After the sleep for the reply of a destination that was waiting. *)
Definition sendrec_reply_after (f : frame) : handler :=
  x <- rd (f_c f) ;;
  let ret := p_rcode x in
  if negb (ret =? OK) then clear_waiting (f_c f) ;; finish f ret
  else lclsent_inc (f_c f) ;; finish f ret.

(** The destination waits for this message. *)
Definition sendrec_waiting (f : frame) : handler :=
  wr (f_dst f) (rts_clear BIT_RECEIVING) ;;
  wr (f_dst f) (fun y => y <| p_getfrom := NONE |>) ;;
  y <- rd (f_dst f) ;;
  ret <- copy_usr2usr_msg (f_caller_ep f) (f_c f) (f_m_ptr f) (f_dst f) (p_umsg y) ;;
  when (p_rts_flags y =? 0) (LOCAL_PROC_UP (f_dst f) ret) ;;
  if negb (ret =? OK) then
    wr (f_c f) (fun x => x <| p_getfrom := NONE |> <| p_sendto := NONE |>) ;;
    fail2 f ret
  else
    wr (f_c f) (rts_set BIT_RECEIVING) ;;
    WUNLOCK_PROC (f_dst f) ;;
    sleep_proc (f_c f) (f_timeout f) (K_SENDREC_REPLY f) ;;
    sendrec_reply_after f.

(** After the sleep in the queue of the destination. *)
Definition sendrec_queued_after (f : frame) (replay : handler) : handler :=
  x <- rd (f_c f) ;;
  let ret := p_rcode x in
  WUNLOCK_PROC (f_dst f) ;;
  if negb (ret =? OK) then
    (if rts BIT_SENDING x then LIST_DEL_P (f_c f) else lclsent_inc (f_c f)) ;;
    clear_waiting (f_c f) ;;
    if ret =? EMOLMIGRATE then replay else finish f ret
  else lclsent_inc (f_c f) ;; finish f ret.

Definition sendrec_enqueue (f : frame) : M unit :=
  wr (f_c f) (fun x => x <| p_message ::= (fun m => m <| m_source := p_endpoint x |>) |>) ;;
  wr (f_c f) (rts_set BIT_RECEIVING) ;;
  wr (f_c f) (rts_set BIT_SENDING) ;;
  wr (f_c f) (fun x => x <| p_sendto := f_dst_ep f |>) ;;
  INIT_P_LINK (f_c f) ;;
  LIST_ADD_TAIL_P (f_c f) (f_dst f).

Definition sendrec_local (f : frame) (replay : handler) : handler :=
  y <- rd (f_dst f) ;;
  if waits_for y (f_caller_ep f) then sendrec_waiting f
  else
    sendrec_enqueue f ;;
    sleep_proc2 (f_c f) (f_dst f) (f_timeout f) (K_SENDREC_QUEUED f) ;;
    sendrec_queued_after f replay.

Definition sendrec_dispatch (cur : Z) (f : frame) (ret : Z) (replay : handler) : handler :=
  if negb (ret =? OK) then fail2 f ret
  else
    wr (f_c f) (fun x => x <| p_rcode := OK |> <| p_getfrom := f_dst_ep f |>) ;;
    y <- rd (f_dst f) ;;
    if IT_IS_REMOTE y then sendrec_remote cur f replay else sendrec_local f replay.

(** From the label [sendrec_replay]. *)
Fixpoint sendrec_replay (fuel : nat) (cur : Z) (f : frame) : handler :=
  match fuel with
  | O => faults F_DIVERGES
  | S fuel =>
      WLOCK_ORDERED2 (f_c f) (f_dst f) ;;
      ret <- check_dst fuel f EMOLDEADSRCDST (K_SENDREC_MIGR f) ;;
      sendrec_dispatch cur f ret (sendrec_replay fuel cur f)
  end.

Definition sendrec_body (fuel : nat) (cur : Z) (c : ptr) (pid srcdst_ep m_ptr timeout : Z)
    : handler :=
  f <- ipc_prologue c pid srcdst_ep m_ptr timeout ;;
  WLOCK_PROC (f_c f) ;;
  wr (f_c f) (fun x => x <| p_umsg := m_ptr |>) ;;
  sendrec_replay fuel cur f.

Definition mm_mini_sendrec (fuel : nat) (cur srcdst_ep m_ptr timeout : Z) : handler :=
  s <- get ;;
  error_if (DVS_NOT_INIT s) EMOLDVSINIT ;;
  cp <- check_caller cur (C_SENDREC srcdst_ep m_ptr timeout) ;;
  sendrec_body fuel cur (fst cp) (snd cp) srcdst_ep m_ptr timeout.

Definition resume_sendrec_migr (fuel : nat) (cur : Z) (f : frame) (w : Z) : handler :=
  sleep_exit (f_c f) (WLOCK_PROC2 (f_c f) (f_dst f)) (f_timeout f) w ;;
  ret <- check_dst fuel f EMOLDEADSRCDST (K_SENDREC_MIGR f) ;;
  sendrec_dispatch cur f ret (sendrec_replay fuel cur f).

Definition resume_sendrec_remote (fuel : nat) (cur : Z) (f : frame) (w : Z) : handler :=
  sleep_exit (f_c f) (WLOCK_PROC (f_c f)) (f_timeout f) w ;;
  sendrec_remote_after f (sendrec_replay fuel cur f).

Definition resume_sendrec_reply (f : frame) (w : Z) : handler :=
  sleep_exit (f_c f) (WLOCK_PROC (f_c f)) (f_timeout f) w ;;
  sendrec_reply_after f.

Definition resume_sendrec_queued (fuel : nat) (cur : Z) (f : frame) (w : Z) : handler :=
  sleep_exit (f_c f) (WLOCK_PROC2 (f_c f) (f_dst f)) (f_timeout f) w ;;
  sendrec_queued_after f (sendrec_replay fuel cur f).

(** ** [mm_mini_reply]: only to a destination that waits for the caller *)

Definition replies_to (y : proc) (ep : Z) : bool :=
  receiving_only y && (p_getfrom y =? ep).

Definition reply_remote (cur : Z) (f : frame) (replay : handler) : handler :=
  y <- rd (f_dst f) ;;
  ret <- check_sproxy (p_nodeid y) ;;
  if negb (ret =? OK) then fail2 f ret
  else
    dst_stop_receiving (f_c f) (f_dst f) ;;
    fill_msg_cmd CMD_REPLY_MSG f OK ;;
    start_remote cur f ;;
    sleep_proc (f_c f) (f_timeout f) (K_REPLY_REMOTE f) ;;
    send_remote_after f replay.

(** When the destination does not wait, the code leaves it locked. *)
Definition reply_local (f : frame) : handler :=
  y <- rd (f_dst f) ;;
  if replies_to y (f_caller_ep f) then deliver_waiting f
  else finish f EMOLPROCSTS.

Definition reply_dispatch (cur : Z) (f : frame) (ret : Z) (replay : handler) : handler :=
  if negb (ret =? OK) then fail2 f ret
  else
    wr (f_c f) (fun x => x <| p_rcode := OK |>) ;;
    y <- rd (f_dst f) ;;
    if IT_IS_REMOTE y then reply_remote cur f replay else reply_local f.

(** From the label [reply_replay]. *)
Fixpoint reply_replay (fuel : nat) (cur : Z) (f : frame) : handler :=
  match fuel with
  | O => faults F_DIVERGES
  | S fuel =>
      WLOCK_ORDERED2 (f_c f) (f_dst f) ;;
      ret <- check_dst fuel f EMOLDSTDIED (K_REPLY_MIGR f) ;;
      reply_dispatch cur f ret (reply_replay fuel cur f)
  end.

Definition reply_body (fuel : nat) (cur : Z) (c : ptr) (pid dst_ep m_ptr timeout : Z)
    : handler :=
  f <- ipc_prologue c pid dst_ep m_ptr timeout ;;
  WLOCK_PROC (f_c f) ;;
  wr (f_c f) (fun x => x <| p_umsg := m_ptr |>) ;;
  reply_replay fuel cur f.

Definition mm_mini_reply (fuel : nat) (cur dst_ep m_ptr timeout : Z) : handler :=
  s <- get ;;
  error_if (DVS_NOT_INIT s) EMOLDVSINIT ;;
  cp <- check_caller cur (C_REPLY dst_ep m_ptr timeout) ;;
  reply_body fuel cur (fst cp) (snd cp) dst_ep m_ptr timeout.

Definition resume_reply_migr (fuel : nat) (cur : Z) (f : frame) (w : Z) : handler :=
  sleep_exit (f_c f) (WLOCK_PROC2 (f_c f) (f_dst f)) (f_timeout f) w ;;
  ret <- check_dst fuel f EMOLDSTDIED (K_REPLY_MIGR f) ;;
  reply_dispatch cur f ret (reply_replay fuel cur f).

Definition resume_reply_remote (fuel : nat) (cur : Z) (f : frame) (w : Z) : handler :=
  sleep_exit (f_c f) (WLOCK_PROC (f_c f)) (f_timeout f) w ;;
  send_remote_after f (reply_replay fuel cur f).
