(* ===== verification/Notify.v ===== *)
(** * [mm_mini_notify] and [mm_hdw_notify] ([mm_ipc.c])

    A notification is a message without a sender: it is built in the
    descriptor of a destination that waits, or recorded as a bit of the
    destination's bitmap of pending notifications. *)

From S2P Require Import Prelude Types Endpoint Kernel Utils IpcCommon.

(** A pending notification of the system process [s_id]. *)
Definition set_notify_pending (dst : ptr) (s_id : Z) : M unit :=
  wr dst (fun y => y <| s_notify_pending ::= set_sys_bit s_id |>).

Definition valid_update (update_proc : Z) : bool :=
  (0 <=? update_proc) && (update_proc <? UPDATE_BITS).

(** [if (update_proc >= 0 && ...) set_bit(update_proc, &caller->s_updt_pending)] *)
Definition set_update (c : ptr) (update_proc : Z) : M unit :=
  when (valid_update update_proc)
    (wr c (fun x => x <| s_updt_pending ::= set_bit update_proc |>)).

(** The notification wakes a destination that waits for it. *)
Definition wake_notified (dst : ptr) : M unit :=
  wr dst (misc_set MIS_BIT_NOTIFY) ;;
  end_receiving dst OK.

(** ** [mm_hdw_notify]: a notification on behalf of the hardware *)

Definition hdw_notify_locked (d : Z) (dc : dc_t) (dst : ptr) (dst_ep dst_nr : Z) : M Z :=
  y <- rd dst ;;
  if waits_for y HARDWARE then
    BUILD_NOTIFY_MSG dst dst_ep dst_nr dst ;;
    wake_notified dst ;;
    mret OK
  else
    check_sys_bit dst (s_id y) ;;
    set_notify_pending dst (s_id y) ;;
    mret (if get_sys_bit (s_notify_pending y) (s_id y) then EMOLOVERRUN else OK).

Definition mm_hdw_notify (cur d dst_ep : Z) : handler :=
  s <- get ;;
  error_if (DVS_NOT_INIT s) EMOLDVSINIT ;;
  t <- rd_task cur ;;
  error_if (negb (t_euid t =? USER_ROOT)) EMOLPRIVILEGES ;;
  error_if ((d <? 0) || (d >=? k_nr_dcs s)) EMOLBADDCID ;;
  RLOCK_DC d ;;
  dc <- rd_dc d ;;
  when (negb (dc_flags dc =? 0)) (ERROR_RUNLOCK_DC d EMOLDCNOTRUN) ;;
  RUNLOCK_DC d ;;
  let dst_nr := ENDPOINT_P dst_ep in
  error_if ((dst_nr <? - dc_nr_tasks dc) || (dst_nr >=? dc_nr_procs dc)) EMOLRANGE ;;
  let dst := NBR2PTR d dc dst_nr in
  error_if (HARDWARE =? dst_ep) EMOLENDPOINT ;;
  WLOCK_PROC dst ;;
  y <- rd dst ;;
  when (rts BIT_SLOT_FREE y) (ERROR_WUNLOCK_PROC dst EMOLDSTDIED) ;;
  when ((p_nodeid y <? 0) || (p_nodeid y >=? k_nr_nodes s))
    (ERROR_WUNLOCK_PROC dst EMOLBADNODEID) ;;
  when (negb (test_bit (p_nodeid y) (dc_nodes dc))) (ERROR_WUNLOCK_PROC dst EMOLNODCNODE) ;;
  when (rts BIT_MIGRATE y) (ERROR_WUNLOCK_PROC dst EMOLMIGRATE) ;;
  when (s_id y >=? dc_nr_sysprocs dc) (ERROR_WUNLOCK_PROC dst EMOLPRIVILEGES) ;;
  when (IT_IS_REMOTE y) (ERROR_WUNLOCK_PROC dst EMOLRMTPROC) ;;
  let hdw := NBR2PTR d dc HARDWARE in
  RLOCK_PROC hdw ;;
  ret <- hdw_notify_locked d dc dst dst_ep dst_nr ;;
  RUNLOCK_PROC hdw ;;
  WUNLOCK_PROC dst ;;
  return_ ret.

(** ** [mm_mini_notify] *)

(** The end of the handler.  The return code of a remote notify is examined
    twice, so its counter is incremented twice. *)
Definition notify_end (f : frame) : handler :=
  x <- rd (f_c f) ;;
  y <- rd (f_dst f) ;;
  let ret := p_rcode x in
  (if ret =? OK then
     if IT_IS_REMOTE y then rmtsent_inc (f_c f) else lclsent_inc (f_c f)
   else
     wr (f_c f) (rts_clear BIT_SENDING) ;;
     wr (f_c f) (fun x => x <| p_sendto := NONE |>)) ;;
  finish f ret.

(** After the sleep of the remote case. *)
Definition notify_remote_after (f : frame) (replay : handler) : handler :=
  x <- rd (f_c f) ;;
  let ret := p_rcode x in
  if ret =? OK then rmtsent_inc (f_c f) ;; notify_end f
  else
    rmt_cleanup (f_c f) false ;;
    if ret =? EMOLMIGRATE then replay else notify_end f.

Definition notify_remote (f : frame) (src_nr src_ep update_proc : Z) (replay : handler)
    : handler :=
  y <- rd (f_dst f) ;;
  ret <- check_sproxy (p_nodeid y) ;;
  if negb (ret =? OK) then fail2 f ret
  else
    dst_stop_receiving (f_c f) (f_dst f) ;;
    fill_msg_cmd CMD_NTFY_MSG f (if valid_update update_proc then update_proc else -1) ;;
    BUILD_NOTIFY_MSG (f_c f) src_ep src_nr (f_dst f) ;;
    WUNLOCK_PROC (f_dst f) ;;
    y <- rd (f_dst f) ;;
    wr (f_c f) (fun x => x <| p_rmtcmd ::= (fun h => h <| cu_msg := p_message y |>) |>) ;;
    INIT_P_LINK (f_c f) ;;
    wr (f_c f) (rts_set BIT_SENDING) ;;
    wr (f_c f) (rts_set BIT_RMTOPER) ;;
    wr (f_c f) (fun x => x <| p_sendto := f_dst_ep f |>) ;;
    sproxy_enqueue (f_c f) ;;
    sleep_proc (f_c f) TIMEOUT_FOREVER (K_NOTIFY_REMOTE f src_nr src_ep update_proc) ;;
    notify_remote_after f replay.

(** When the privilege check of the destination fails, only the destination is
    unlocked, as the code does. *)
Definition notify_local (f : frame) (dc : dc_t) (src_nr src_ep update_proc : Z) : handler :=
  x <- rd (f_c f) ;;
  y <- rd (f_dst f) ;;
  (if waits_for y src_ep then
     set_update (f_c f) update_proc ;;
     BUILD_NOTIFY_MSG (f_c f) src_ep src_nr (f_dst f) ;;
     wake_notified (f_dst f)
   else
     when (s_id y >=? dc_nr_sysprocs dc) (ERROR_WUNLOCK_PROC (f_dst f) EMOLPRIVILEGES) ;;
     check_sys_bit (f_dst f) (s_id x) ;;
     set_notify_pending (f_dst f) (s_id x) ;;
     set_update (f_c f) update_proc) ;;
  WUNLOCK_PROC (f_dst f) ;;
  notify_end f.

(** A migrating destination: the notification becomes pending. *)
Definition notify_migrating (f : frame) : handler :=
  x <- rd (f_c f) ;;
  y <- rd (f_dst f) ;;
  check_sys_bit (f_dst f) (s_id x) ;;
  if get_sys_bit (s_notify_pending y) (s_id x) then fail2 f EMOLOVERRUN
  else
    set_notify_pending (f_dst f) (s_id x) ;;
    fail2 f OK.

(** From the label [notify_replay]. *)
Fixpoint notify_replay (fuel : nat) (f : frame) (src_nr src_ep update_proc : Z) : handler :=
  match fuel with
  | O => faults F_DIVERGES
  | S fuel =>
      WLOCK_ORDERED2 (f_c f) (f_dst f) ;;
      y <- rd (f_dst f) ;;
      dc <- rd_dc (f_dcid f) ;;
      s <- get ;;
      if negb (p_endpoint y =? f_dst_ep f) then fail2 f EMOLENDPOINT
      else if rts BIT_SLOT_FREE y then fail2 f EMOLDSTDIED
      else if (p_nodeid y <? 0) || (p_nodeid y >=? k_nr_nodes s) then fail2 f EMOLBADNODEID
      else if negb (test_bit (p_nodeid y) (dc_nodes dc)) then fail2 f EMOLNODCNODE
      else if rts BIT_MIGRATE y then notify_migrating f
      else
        wr (f_c f) (fun x => x <| p_rcode := OK |>) ;;
        if IT_IS_REMOTE y then
          notify_remote f src_nr src_ep update_proc
            (notify_replay fuel f src_nr src_ep update_proc)
        else notify_local f dc src_nr src_ep update_proc
  end.

(** The source of the notification: the caller for [SELF], or any process of
    the DC. *)
Definition notify_source (d : Z) (dc : dc_t) (x : proc) (src_nr : Z) : M (Z * Z) :=
  if src_nr =? SELF then mret (p_nr x, p_endpoint x)
  else
    let src := NBR2PTR d dc src_nr in
    RLOCK_PROC src ;;
    y <- rd src ;;
    RUNLOCK_PROC src ;;
    mret (src_nr, p_endpoint y).

(** From the return of [check_caller]. *)
Definition notify_body (fuel : nat) (c : ptr) (pid src_nr dst_ep update_proc : Z) : handler :=
  RLOCK_PROC c ;;
  x <- rd c ;;
  let d := p_dcid x in
  when (negb (pid =? p_lpid x)) (ERROR_RUNLOCK_PROC c EMOLBADPID) ;;
  RUNLOCK_PROC c ;;
  s <- get ;;
  error_if ((d <? 0) || (d >=? k_nr_dcs s)) EMOLBADDCID ;;
  RLOCK_DC d ;;
  dc <- rd_dc d ;;
  when (negb (dc_flags dc =? 0)) (ERROR_RUNLOCK_DC d EMOLDCNOTRUN) ;;
  src <- notify_source d dc x src_nr ;;
  RUNLOCK_DC d ;;
  let dst_nr := ENDPOINT_P dst_ep in
  error_if ((dst_nr <? - dc_nr_tasks dc) || (dst_nr >=? dc_nr_procs dc)) EMOLRANGE ;;
  error_if (p_endpoint x =? dst_ep) EMOLENDPOINT ;;
  WLOCK_PROC c ;;
  x' <- rd c ;;
  when (s_id x' >=? dc_nr_sysprocs dc) (ERROR_WUNLOCK_PROC c EMOLPRIVILEGES) ;;
  notify_replay fuel
    (mk_frame c (NBR2PTR d dc dst_nr) d (p_endpoint x) dst_ep 0 TIMEOUT_FOREVER)
    (fst src) (snd src) update_proc.

(** The result of [check_caller] is only looked at when the source is not the
    hardware; [update_proc] is then the DC. *)
Definition notify_called (fuel : nat) (cur src_nr dst_ep update_proc : Z)
    (r : Z + ptr * Z) : handler :=
  if src_nr =? HARDWARE then mm_hdw_notify cur update_proc dst_ep
  else
    match r with
    | inl ret => return_ ret
    | inr (c, pid) => notify_body fuel c pid src_nr dst_ep update_proc
    end.

Definition mm_mini_notify (fuel : nat) (cur src_nr dst_ep update_proc : Z) : handler :=
  s <- get ;;
  error_if (DVS_NOT_INIT s) EMOLDVSINIT ;;
  r <- catch (check_caller cur (C_NOTIFY src_nr dst_ep update_proc)) ;;
  notify_called fuel cur src_nr dst_ep update_proc r.

Definition resume_notify_remote (fuel : nat) (f : frame) (src_nr src_ep update_proc w : Z)
    : handler :=
  sleep_exit (f_c f) (WLOCK_PROC (f_c f)) TIMEOUT_FOREVER w ;;
  notify_remote_after f (notify_replay fuel f src_nr src_ep update_proc).
