(* ===== verification/Sproxy.v ===== *)
(** * The sender proxy ([mm_sproxy.c]): [mm_get2rmt]

    The sender proxy of a node takes the commands queued for that node, one at
    a time, and gives their headers (and payload) to the proxy program, which
    sends them over the network.  Local descriptors carry requests, remote
    descriptors carry acknowledges. *)

From S2P Require Import Prelude Types Endpoint Kernel Utils.

(** The status of a queued descriptor [x]. *)
Definition queued_status (nr_dcs : Z) (nd : node_t) (x sp : proc) : Z :=
  if rts BIT_SLOT_FREE x then EMOLNOTBIND
  else if negb (test_bit (p_dcid x) (n_dcs nd)) then EMOLNODCNODE
  else if (p_dcid x <? 0) || (p_dcid x >=? nr_dcs) then EMOLBADDCID
  else if rts BIT_MIGRATE x then EMOLMIGRATE
  else if negb (test_bit (c_dnode (p_rmtcmd x)) (p_nodemap sp)) then EMOLNONODE
  else OK.

(** Taking a descriptor off the queue and checking it; on entry and on exit
    nothing is locked but, at entry, the proxy. *)
Definition get2rmt_take (sproxy xpp : ptr) : M Z :=
  RUNLOCK_PROC sproxy ;;
  WLOCK_PROC xpp ;;
  WLOCK_PROC sproxy ;;
  LIST_DEL_P xpp ;;
  x <- rd xpp ;;
  sp <- rd sproxy ;;
  nd <- rd_node (c_dnode (p_rmtcmd x)) ;;
  s <- get ;;
  let ret := queued_status (k_nr_dcs s) nd x sp in
  WUNLOCK_PROC sproxy ;;
  WUNLOCK_PROC xpp ;;
  if negb (ret =? OK) then mret ret
  else
    RLOCK_DC (p_dcid x) ;;
    dc <- rd_dc (p_dcid x) ;;
    RUNLOCK_DC (p_dcid x) ;;
    if negb (dc_flags dc =? 0) then mret EMOLDCNOTRUN
    else
      WLOCK_PROC sproxy ;;
      wr sproxy (fun y => y <| p_dcid := dc_dcid dc |>) ;;
      WUNLOCK_PROC sproxy ;;
      mret OK.

(** [xpp->p_usr.p_rts_flags = 0; READY_UP_RCODE(xpp, ..., ret)]. *)
Definition wake_queued (xpp : ptr) (ret : Z) : M unit :=
  wr xpp (fun x => x <| p_rts_flags := 0 |>) ;;
  READY_UP_RCODE xpp ret.

(** [xpp->p_usr.p_rts_flags = 0; set_bit(BIT_REMOTE, ...)]. *)
Definition reset_remote (xpp : ptr) : M unit :=
  wr xpp (fun x => x <| p_rts_flags := set_bit BIT_REMOTE 0 |>).

Definition reset_proxy_dc (sproxy : ptr) : M unit :=
  WLOCK_PROC sproxy ;;
  wr sproxy (fun y => y <| p_dcid := -1 |>) ;;
  WUNLOCK_PROC sproxy.

(** The payload, from the address space of the source to the proxy's. *)
Definition get_payload (sproxy src : ptr) (v : vcopy_t) (pay : Z) : M Z :=
  RLOCK_PROC sproxy ;;
  sp <- rd sproxy ;;
  ret <- (if misc MIS_BIT_KTHREAD sp then faults F_KTHREAD
          else copy_block src (v_saddr v) sproxy pay (v_bytes v)) ;;
  RUNLOCK_PROC sproxy ;;
  mret ret.

(** The result [ret] of the size check is overwritten by the result of the
    copy, as in the code. *)
Definition get_data_checked (sproxy src : ptr) (h : cmd_t) (pay : Z) : M Z :=
  mb <- NODE2MAXBYTES (c_dnode h) ;;
  let ret := if v_bytes (cu_vcopy h) >? mb then EMOL2BIG else OK in
  if c_rcode h =? OK then get_payload sproxy src (cu_vcopy h) pay else mret ret.

Definition clear_oncopy (p : ptr) : M unit := wr p (rts_clear BIT_ONCOPY).

(** Acknowledges, carried by the descriptor [xpp] of a remote process. *)
Definition get2rmt_ack (sproxy xpp : ptr) (pay : Z) : M Z :=
  x <- rd xpp ;;
  dc <- rd_dc (p_dcid x) ;;
  let h := p_rmtcmd x in
  let src := ENDPOINT2PTR (p_dcid x) dc (v_src (cu_vcopy h)) in
  let dst := ENDPOINT2PTR (p_dcid x) dc (v_dst (cu_vcopy h)) in
  if c_cmd h =? CMD_SEND_ACK then mret OK
  else if c_cmd h =? CMD_SNDREC_ACK then mret OK
  else if c_cmd h =? CMD_COPYIN_ACK then
    WLOCK_ORDERED2 xpp dst ;;
    y <- rd dst ;;
    (if p_endpoint y =? c_src h then clear_oncopy dst else mret tt) ;;
    WUNLOCK_PROC dst ;;
    mret (if p_endpoint y =? c_src h then OK else EMOLBADPROC)
  else if c_cmd h =? CMD_COPYOUT_DATA then
    WLOCK_ORDERED2 xpp src ;;
    y <- rd src ;;
    ret <- (if p_endpoint y =? c_src h then
              ret <- get_data_checked sproxy src h pay ;; clear_oncopy src ;; mret ret
            else mret EMOLBADPROC) ;;
    WUNLOCK_PROC src ;;
    mret ret
  else if c_cmd h =? CMD_COPYIN_RQST then
    WLOCK_ORDERED2 xpp src ;;
    y <- rd src ;;
    ret <- (if p_endpoint y =? c_src h then
              ret <- get_data_checked sproxy src h pay ;;
              clear_oncopy src ;; clear_oncopy xpp ;; mret ret
            else mret EMOLBADPROC) ;;
    WUNLOCK_PROC src ;;
    mret ret
  else if c_cmd h =? CMD_COPYLCL_ACK then
    WLOCK_ORDERED2 xpp src ;;
    y <- rd src ;;
    (if p_endpoint y =? c_src h then clear_oncopy src ;; clear_oncopy xpp else mret tt) ;;
    WUNLOCK_PROC src ;;
    mret (if p_endpoint y =? c_src h then OK else EMOLBADPROC)
  else if c_cmd h =? CMD_COPYRMT_ACK then
    WUNLOCK_PROC xpp ;;
    WLOCK_PROC3 xpp src dst ;;
    y <- rd dst ;;
    let ok := (p_endpoint y =? c_src h) && (p_endpoint x =? v_rqtr (cu_vcopy h)) in
    (if ok then clear_oncopy src ;; clear_oncopy dst ;; clear_oncopy xpp else mret tt) ;;
    WUNLOCK_PROC2 src dst ;;
    mret (if ok then OK else EMOLBADPROC)
  else mret EMOLINVAL.

(** Requests, carried by the descriptor [xpp] of a local process. *)
Definition set_cmd_source (xpp : ptr) : M unit :=
  wr xpp (fun x => x <| p_rmtcmd ::= fun h =>
    h <| cu_msg ::= fun m => m <| m_source := p_endpoint x |> |> |>).

Definition get2rmt_request (sproxy xpp : ptr) (pay : Z) : M Z :=
  wr xpp (rts_clear BIT_RMTOPER) ;;
  x <- rd xpp ;;
  let h := p_rmtcmd x in
  if c_cmd h =? CMD_COPYIN_DATA then
    dc <- rd_dc (p_dcid x) ;;
    mb <- NODE2MAXBYTES (c_dnode h) ;;
    let src := ENDPOINT2PTR (p_dcid x) dc (v_src (cu_vcopy h)) in
    let copy := if v_bytes (cu_vcopy h) >? mb then mret EMOL2BIG
                else get_payload sproxy src (cu_vcopy h) pay in
    if bool_decide (src = xpp) then copy
    else
      WLOCK_ORDERED2 xpp src ;;
      ret <- copy ;;
      WUNLOCK_PROC src ;;
      mret ret
  else if (c_cmd h =? CMD_COPYOUT_RQST) || (c_cmd h =? CMD_COPYLCL_RQST)
          || (c_cmd h =? CMD_COPYRMT_RQST) then mret OK
  else if c_cmd h =? CMD_SNDREC_MSG then
    wr xpp (fun x => x <| p_sendto := NONE |>) ;;
    wr xpp (rts_clear BIT_SENDING) ;;
    set_cmd_source xpp ;;
    mret OK
  else if (c_cmd h =? CMD_SEND_MSG) || (c_cmd h =? CMD_REPLY_MSG) then
    set_cmd_source xpp ;; mret OK
  else if c_cmd h =? CMD_NTFY_MSG then
    wr xpp (fun x => x <| p_sendto := NONE |>) ;;
    set_cmd_source xpp ;;
    wr xpp (rts_clear BIT_SENDING) ;;
    wr xpp (rts_clear BIT_RMTOPER) ;;
    y <- rd xpp ;;
    when (p_rts_flags y =? 0) (LOCAL_PROC_UP xpp OK) ;;
    mret OK
  else mret EMOLINVAL.

(** The header is given to the proxy; the result of the copy is not looked at. *)
Definition get2rmt_deliver {A} (cur : Z) (sproxy xpp : ptr) (hdr : Z) : M A :=
  WLOCK_PROC sproxy ;;
  sp <- rd sproxy ;;
  x <- rd xpp ;;
  (if misc MIS_BIT_KTHREAD sp then faults F_KTHREAD
   else copy_to_user_hdr cur (p_rmtcmd x) hdr) ;;
  wr xpp (fun x => x <| p_rmtcmd ::= (fun h => h <| c_cmd := CMD_NONE |>) |>
                     <| p_proxy := NONE |>) ;;
  WUNLOCK_PROC xpp ;;
  wr sproxy (fun y => y <| p_getfrom := NONE |>) ;;
  s <- get ;;
  wr_node (c_dnode (p_rmtcmd x)) (fun nd =>
    nd <| n_stimestamp := k_clock s |> <| n_pxsent ::= ulong_inc |>) ;;
  wr sproxy (fun y => y <| p_rmtsent ::= ulong_inc |> <| p_dcid := -1 |>) ;;
  RUNLOCK_PROC sproxy ;;
  return_ OK.

(** A local sender whose destination has moved to another node plays its
    command again; tells whether that is the case. *)
Definition get2rmt_migrated (xpp : ptr) : M bool :=
  x <- rd xpp ;;
  dc <- rd_dc (p_dcid x) ;;
  let dst := ENDPOINT2PTR (p_dcid x) dc (c_dst (p_rmtcmd x)) in
  WLOCK_ORDERED2 xpp dst ;;
  y <- rd dst ;;
  WUNLOCK_PROC dst ;;
  mret (negb (c_dnode (p_rmtcmd x) =? p_nodeid y)).

(** A command in order: stamped, completed and delivered.  [x] is the
    descriptor as it was found. *)
Definition get2rmt_send (cur : Z) (sproxy xpp : ptr) (hdr pay : Z) (x : proc) : M unit :=
  s <- get ;;
  wr xpp (fun x => x <| p_rmtcmd ::= (fun h => h <| c_timestamp := k_clock s |>) |>) ;;
  (if IT_IS_REMOTE x then
     ret <- get2rmt_ack sproxy xpp pay ;;
     when (negb (ret =? OK))
       (reset_remote xpp ;; WUNLOCK_PROC xpp ;; reset_proxy_dc sproxy ;; return_ ret) ;;
     wr xpp (rts_clear BIT_SENDING) ;;
     wr xpp (rts_clear BIT_RMTOPER) ;;
     wr xpp (fun x => x <| p_sendto := NONE |>)
   else
     ret <- get2rmt_request sproxy xpp pay ;;
     wr xpp (fun x => x <| p_proxy := NONE |>) ;;
     when (negb (ret =? OK))
       (wake_queued xpp ret ;; WUNLOCK_PROC xpp ;; reset_proxy_dc sproxy ;; return_ ret)) ;;
  get2rmt_deliver cur sproxy xpp hdr.

(** One descriptor of the queue.  Ends normally, with only the proxy locked,
    when the loop goes on with the next descriptor. *)
Definition get2rmt_one (cur : Z) (sproxy xpp : ptr) (hdr pay : Z) : M unit :=
  ret <- get2rmt_take sproxy xpp ;;
  WLOCK_PROC xpp ;;
  x <- rd xpp ;;
  if negb (ret =? OK) then
    wr xpp (fun x => x <| p_proxy := NONE |>) ;;
    if IT_IS_LOCAL x then wake_queued xpp ret ;; ERROR_WUNLOCK_PROC xpp ret
    else reset_remote xpp ;; WUNLOCK_PROC xpp ;; RLOCK_PROC sproxy
  else
    migrated <- (if IT_IS_LOCAL x then get2rmt_migrated xpp else mret false) ;;
    if (migrated : bool) then
      wr xpp (fun x => x <| p_sendto := NONE |> <| p_proxy := NONE |>) ;;
      wake_queued xpp EMOLMIGRATE ;;
      WUNLOCK_PROC xpp ;;
      RLOCK_PROC sproxy
    else
      get2rmt_send cur sproxy xpp hdr pay x.

Fixpoint get2rmt_queue (cur : Z) (sproxy : ptr) (hdr pay : Z) (l : list ptr) : M unit :=
  match l with
  | [] => mret tt
  | xpp :: l => get2rmt_one cur sproxy xpp hdr pay ;; get2rmt_queue cur sproxy hdr pay l
  end.

(** After the sleep of the proxy. *)
Definition get2rmt_slept (sproxy : ptr) : M unit :=
  y <- rd sproxy ;;
  when (negb (p_rcode y =? OK))
    (wr sproxy (fun y => y <| p_rts_flags := PROC_RUNNING |>) ;;
     ERROR_RUNLOCK_PROC sproxy (p_rcode y)).

(** The loop [while (TRUE)]; the proxy is locked. *)
Fixpoint get2rmt_loop (fuel : nat) (cur : Z) (sproxy : ptr) (hdr pay timeout : Z) : handler :=
  match fuel with
  | O => faults F_DIVERGES
  | S fuel =>
      y <- rd sproxy ;;
      get2rmt_queue cur sproxy hdr pay (p_list y) ;;
      wr sproxy (fun y => y <| p_getfrom := ANY |>) ;;
      wr sproxy (rts_set BIT_RECEIVING) ;;
      sleep_proc sproxy timeout (K_GET2RMT sproxy hdr pay timeout) ;;
      get2rmt_slept sproxy ;;
      get2rmt_loop fuel cur sproxy hdr pay timeout
  end.

Definition get2rmt_body (fuel : nat) (cur : Z) (sproxy : ptr) (hdr pay timeout : Z) : handler :=
  WLOCK_PROC sproxy ;;
  y <- rd sproxy ;;
  when (negb (misc MIS_BIT_PROXY y)) (ERROR_WUNLOCK_PROC sproxy EMOLNOPROXY) ;;
  when (negb (misc MIS_BIT_CONNECTED y)) (ERROR_WUNLOCK_PROC sproxy EMOLNOTCONN) ;;
  wr sproxy (fun y => y <| p_umsg := pay |>) ;;
  WUNLOCK_PROC sproxy ;;
  RLOCK_PROXY (p_nr y) ;;
  RUNLOCK_PROXY (p_nr y) ;;
  error_if (bool_decide (sproxy <> SPROXY (p_nr y))) EMOLBADPROXY ;;
  RLOCK_PROC sproxy ;;
  get2rmt_loop fuel cur sproxy hdr pay timeout.

Definition mm_get2rmt (fuel : nat) (cur hdr pay timeout : Z) : handler :=
  t <- rd_task cur ;;
  error_if (negb (t_euid t =? USER_ROOT)) (- EPERM) ;;
  s <- get ;;
  error_if (DVS_NOT_INIT s) EMOLDVSINIT ;;
  cp <- check_caller cur (C_GET2RMT hdr pay timeout) ;;
  get2rmt_body fuel cur (fst cp) hdr pay timeout.

Definition resume_get2rmt (fuel : nat) (cur : Z) (sproxy : ptr) (hdr pay timeout w : Z)
    : handler :=
  sleep_exit sproxy (WLOCK_PROC sproxy) timeout w ;;
  get2rmt_slept sproxy ;;
  get2rmt_loop fuel cur sproxy hdr pay timeout.
