(* ===== verification/Unbind.v ===== *)
(** * Unbinding a process ([mm_hyper.c], [mm_utils.c])

    [init_proc_desc] resets a descriptor, [dc_release] frees a data container
    when its last reference goes away, and [do_unbind] detaches a process from
    everything that waits for it and frees its slot. *)

From S2P Require Import Prelude Types Endpoint Kernel Utils.

Definition DC_FREE : Z := 2.
Definition USER_PRIV : Z := 0.

(** [for (j=0; j < BITMAP_CHUNKS(n); j++) chunk[j] = 0]. *)
Definition zero_chunks (n : Z) (l : list Z) : list Z :=
  let k := Z.to_nat ((n + BITCHUNK_BITS - 1) / BITCHUNK_BITS) in
  replicate (k `min` length l) 0 ++ drop k l.

Definition vcopy0 : vcopy_t := mk_vcopy NONE NONE NONE 0 0 0.

(** The fields [init_proc_desc] sets.  The endpoint, the pending updates and
    the timestamp of the last command are left as they are. *)
Definition init_desc (nr dcid : Z) (pending : list Z) (x : proc) : proc :=
  x <| p_nr := nr |> <| s_notify_pending := pending |>
    <| s_id := 0 |> <| s_warn := NONE |> <| s_level := USER_PRIV |>
    <| s_int_pending := 0 |> <| s_sig_pending := 0 |>
    <| p_dcid := dcid |> <| p_lpid := PROC_NO_PID |> <| p_rts_flags := SLOT_FREE |>
    <| p_misc_flags := GENERIC_PROC |> <| p_nodeid := -1 |> <| p_nodemap := 0 |>
    <| p_rcode := OK |> <| p_message := message0 |> <| p_umsg := 0 |>
    <| p_getfrom := NONE |> <| p_sendto := NONE |> <| p_waitmigr := NONE |>
    <| p_waitunbind := NONE |> <| p_proxy := NONE |> <| p_pseudosem := 0 |>
    <| p_list := [] |> <| p_link := None |> <| p_mlist := [] |> <| p_mlink := None |>
    <| p_ulist := [] |> <| p_ulink := None |>
    <| p_rmtcmd ::= (fun h => h <| c_cmd := CMD_NONE |> <| c_dcid := dcid |>
         <| c_src := NONE |> <| c_dst := NONE |> <| c_snode := LOCALNODE |>
         <| c_dnode := LOCALNODE |> <| c_len := 0 |> <| c_rcode := OK |>
         <| cu_vcopy := vcopy0 |>) |>
    <| p_lclsent := 0 |> <| p_rmtsent := 0 |> <| p_lclcopy := 0 |> <| p_rmtcopy := 0 |>
    <| p_task := None |>.

Definition init_proc_desc (p : ptr) (dcid index : Z) : M unit :=
  s <- get ;;
  if dcid =? PROXY_NO_DC then wr p (fun x => init_desc index dcid (s_notify_pending x) x)
  else
    dc <- rd_dc dcid ;;
    wr p (fun x => init_desc (index - dc_nr_tasks dc) dcid
                     (zero_chunks (k_nr_sysprocs s) (s_notify_pending x)) x).

(** ** [dc_release] and [DC_DECREF] *)

Definition dc_of (p : ptr) : option Z := match p with PROC d _ => Some d | _ => None end.

Definition release_node (d : Z) (nd : node_t) : node_t :=
  if n_flags nd =? NODE_FREE then nd else nd <| n_dcs ::= clear_bit d |>.

Definition dc_release (d : Z) (s : kstate) : kstate :=
  s <| k_procs ::= filter (fun kv => dc_of kv.1 <> Some d) |>
    <| k_dcs ::= alter (fun dc => dc <| dc_nodes := 0 |> <| dc_flags := DC_FREE |>) d |>
    <| k_nodes ::= fmap (release_node d) |>.

Definition DC_DECREF (d : Z) : M unit :=
  dc <- rd_dc d ;;
  wr_dc d (fun dc => dc <| dc_refcount ::= Z.pred |>) ;;
  when (dc_refcount dc =? 1) (modify (dc_release d)).

(** ** [do_unbind]

    The process [p] to unbind is locked on entry and on exit.  [sig] is the
    result of [send_sig_info] of Linux. *)

(** The checks, and the slot of the process; [cur] is the running task. *)
Definition unbind_check (cur d : Z) (dc : dc_t) (x : proc) : M (option ptr) :=
  error_if (rts BIT_SLOT_FREE x) EMOLNOTBIND ;;
  error_if (rts BIT_NO_ENDPOINT x) EMOLENDPOINT ;;
  error_if (misc MIS_BIT_PROXY x) EMOLBADPROC ;;
  error_if (negb (p_dcid x =? dc_dcid dc)) EMOLBADDCID ;;
  error_if (negb (test_bit (p_nodeid x) (dc_nodes dc))) EMOLNODCNODE ;;
  t <- rd_task cur ;;
  match task_proc t with
  | None => mret None
  | Some c =>
      y <- rd c ;;
      error_if (negb (p_dcid y =? dc_dcid dc)) EMOLBADDCID ;;
      error_if (negb (cur =? p_lpid y)) EMOLBADPID ;;
      mret (Some c)
  end.

(** Unbinding another local process only signals it; the test
    [p_rts_flags && (BIT_SENDING | ...)] holds for any status but running. *)
Definition unbind_other {A} (sig : Z) (p : ptr) (x : proc) : M A :=
  if rts BIT_ONCOPY x then
    when (rts BIT_RMTOPER x) (wr p (rts_set BIT_SIGNALED)) ;;
    return_ OK
  else
    error_if (negb (sig =? OK)) sig ;;
    when (negb (p_rts_flags x =? 0)) (LOCAL_PROC_UP p EMOLSHUTDOWN) ;;
    return_ EMOLAGAIN.

(** Wake up the processes trying to send to [p]. *)
Fixpoint unbind_senders (p : ptr) (l : list ptr) : M unit :=
  match l with
  | [] => mret tt
  | src :: l =>
      WLOCK_ORDERED2 p src ;;
      LIST_DEL_P src ;;
      wr src (rts_clear BIT_SENDING) ;;
      y <- rd src ;;
      (if IT_IS_LOCAL y then LOCAL_PROC_UP src EMOLDSTDIED
       else send_ack_lcl2rmt src p EMOLDSTDIED ;; mret tt) ;;
      WUNLOCK_PROC src ;;
      unbind_senders p l
  end.

(** One slot of the loop over the processes of the DC: its pending notifies
    from [p], and its receive from [p]. *)
Definition unbind_slot (d : Z) (dc : dc_t) (p rp : ptr) (i : Z) : M unit :=
  x <- rd p ;;
  (if p_nr x <? i - dc_nr_tasks dc then WLOCK_PROC rp
   else WUNLOCK_PROC p ;; WLOCK_PROC rp ;; WLOCK_PROC p) ;;
  y <- rd rp ;;
  if rts BIT_SLOT_FREE y then WUNLOCK_PROC rp
  else
    when (s_id x <? dc_nr_sysprocs dc)
      (check_sys_bit rp (s_id x) ;;
       when (get_sys_bit (s_notify_pending y) (s_id x))
         (wr rp (fun y => y <| s_notify_pending ::= unset_sys_bit (s_id x) |>))) ;;
    when (negb (rts BIT_SENDING y) && rts BIT_RECEIVING y && (p_getfrom y =? p_endpoint x))
      (if IT_IS_LOCAL y then LOCAL_PROC_UP rp EMOLSRCDIED
       else
         wr rp (rts_clear BIT_RECEIVING) ;;
         generic_ack_lcl2rmt CMD_SNDREC_ACK rp p EMOLSRCDIED ;;
         mret tt) ;;
    WUNLOCK_PROC rp.

(** [FOR_EACH_PROC(dc_ptr, i)], from slot [i] on, [n] slots left. *)
Fixpoint unbind_slots (d : Z) (dc : dc_t) (p : ptr) (n : nat) (i : Z) : M unit :=
  match n with
  | O => mret tt
  | S n =>
      let rp := DC_PROC d i in
      (if bool_decide (rp = p) then mret tt else unbind_slot d dc p rp i) ;;
      unbind_slots d dc p n (i + 1)
  end.

(** Leaving the queue of the sender proxy. *)
Definition unbind_proxy (p : ptr) : M unit :=
  x <- rd p ;;
  when (rts BIT_RMTOPER x)
    ((if negb (p_proxy x =? NONE) then
        WLOCK_PROC (SPROXY (p_proxy x)) ;;
        LIST_DEL_P p ;;
        WUNLOCK_PROC (SPROXY (p_proxy x))
      else mret tt) ;;
     wr p (rts_clear BIT_RMTOPER) ;;
     wr p (fun x => x <| p_proxy := NONE |>)).

(** The slot the code computes for the head of the queue [p] is on: the number
    of tasks is subtracted from the process number. *)
Definition unbind_head (d : Z) (dc : dc_t) (ep : Z) : ptr :=
  DC_PROC d (ENDPOINT_P ep - dc_nr_tasks dc).

(** Leaving the queue of a destination; it stays locked when it is remote. *)
Definition unbind_sending (d : Z) (dc : dc_t) (p : ptr) : M unit :=
  x <- rd p ;;
  when (rts BIT_SENDING x)
    (let rp := unbind_head d dc (p_sendto x) in
     WLOCK_ORDERED2 p rp ;;
     y <- rd rp ;;
     when (IT_IS_LOCAL y) (LIST_DEL_P p ;; WUNLOCK_PROC rp) ;;
     wr p (rts_clear BIT_SENDING) ;;
     wr p (fun x => x <| p_sendto := NONE |>)).

Definition unbind_waitmigr (d : Z) (dc : dc_t) (p : ptr) : M unit :=
  x <- rd p ;;
  when (rts BIT_WAITMIGR x)
    (let rp := unbind_head d dc (p_waitmigr x) in
     WLOCK_ORDERED2 p rp ;;
     LIST_DEL_M p ;;
     WUNLOCK_PROC rp ;;
     wr p (rts_clear BIT_WAITMIGR) ;;
     wr p (fun x => x <| p_waitmigr := NONE |>)).

(** Wake up the processes waiting for the migration of [p]. *)
Fixpoint unbind_migrants (p : ptr) (l : list ptr) : M unit :=
  match l with
  | [] => mret tt
  | rp :: l =>
      WLOCK_ORDERED2 p rp ;;
      LIST_DEL_M rp ;;
      wr rp (rts_clear BIT_WAITMIGR) ;;
      wr rp (fun y => y <| p_waitmigr := NONE |>) ;;
      y <- rd rp ;;
      (if IT_IS_LOCAL y then LOCAL_PROC_UP rp EMOLNOTBIND
       else send_ack_lcl2rmt rp p EMOLNOTBIND ;; mret tt) ;;
      WUNLOCK_PROC rp ;;
      unbind_migrants p l
  end.

Definition LIST_DEL_U (x : ptr) : M unit :=
  a <- rd x ;;
  match p_ulink a with
  | Some h =>
      wr h (fun p => p <| p_ulist ::= del x |>) ;;
      wr x (fun p => p <| p_ulink := None |>)
  | None => mret tt
  end.

Definition unbind_waitunbind (d : Z) (dc : dc_t) (p : ptr) : M unit :=
  x <- rd p ;;
  when (rts BIT_WAITUNBIND x)
    (let rp := unbind_head d dc (p_waitunbind x) in
     WLOCK_ORDERED2 p rp ;;
     LIST_DEL_U p ;;
     WUNLOCK_PROC rp ;;
     wr p (rts_clear BIT_WAITUNBIND) ;;
     wr p (fun x => x <| p_waitunbind := NONE |>)).

(** Wake up the processes waiting for [p] to unbind. *)
Fixpoint unbind_waiters (p : ptr) (l : list ptr) : M unit :=
  match l with
  | [] => mret tt
  | rp :: l =>
      WLOCK_ORDERED2 p rp ;;
      LIST_DEL_U rp ;;
      wr rp (rts_clear BIT_WAITUNBIND) ;;
      wr rp (fun y => y <| p_waitunbind := NONE |>) ;;
      y <- rd rp ;;
      (if IT_IS_LOCAL y then LOCAL_PROC_UP rp OK
       else send_ack_lcl2rmt rp p OK ;; mret tt) ;;
      WUNLOCK_PROC rp ;;
      unbind_waiters p l
  end.

Definition do_unbind (sig cur d : Z) (p : ptr) : M unit :=
  x <- rd p ;;
  dc <- rd_dc d ;;
  c <- unbind_check cur d dc x ;;
  (if IT_IS_LOCAL x then
     when (bool_decide (c <> Some p)) (unbind_other sig p x)
   else
     when (misc MIS_BIT_RMTBACKUP x)
       (init_proc_desc p (p_dcid x) (p_nr x + dc_nr_tasks dc) ;;
        DC_DECREF d ;;
        return_ OK)) ;;
  unbind_senders p (p_list x) ;;
  unbind_slots d dc p (Z.to_nat (dc_nr_tasks dc + dc_nr_procs dc)) 0 ;;
  unbind_proxy p ;;
  unbind_sending d dc p ;;
  unbind_waitmigr d dc p ;;
  y <- rd p ;;
  unbind_migrants p (p_mlist y) ;;
  unbind_waitunbind d dc p ;;
  z <- rd p ;;
  unbind_waiters p (p_ulist z) ;;
  init_proc_desc p (p_dcid z) (p_nr z + dc_nr_tasks dc) ;;
  DC_DECREF d ;;
  return_ OK.
