(* ===== verification/Rproxy.v ===== *)
(** * The receiver proxy ([mm_rproxy.c]): [mm_put2lcl]

    The receiver proxy of a node hands the commands that arrive from the
    network to the local processes.  [rmt] is the descriptor of the remote
    process that sent the command, [lcl] that of the local one it is for, [h]
    the header, and [uh] the address of the header in the proxy's memory. *)

From S2P Require Import Prelude Types Endpoint Kernel Utils IpcCommon Notify Unbind.

Definition cmd0 : cmd_t :=
  mk_cmd 0 0 0 0 0 0 0 0 0 (mk_vcopy 0 0 0 0 0 0) message0.

(** [COPY_USR2USR_PROC(rcode, NONE, rproxy, &uh->c_u.cu_msg, dst, addr, sizeof(message))] *)
Definition copy_hdr_msg (rproxy : ptr) (uh : Z) (dst : ptr) (addr : Z) : M Z :=
  x <- rd rproxy ;;
  if misc MIS_BIT_KTHREAD x then faults F_KTHREAD
  else
    smm <- mm_of rproxy ;;
    s <- get ;;
    match k_uhdr s !! (smm, uh) with
    | None => mret EMOLADDRNOTAVAIL
    | Some h =>
        dmm <- mm_of dst ;;
        match k_umem s !! (dmm, addr) with
        | None => mret EMOLADDRNOTAVAIL
        | Some _ =>
            modify (fun s => s <| k_umem ::= <[(dmm, addr) := cu_msg h]> |>) ;;
            mret OK
        end
    end.

(** ** Messages *)

Definition rmt_receives (src dst : ptr) : M unit :=
  y <- rd dst ;;
  wr src (fun x => x <| p_getfrom := p_endpoint y |>) ;;
  wr src (rts_set BIT_RECEIVING).

Definition send_rmt2lcl (uh : Z) (h : cmd_t) (src dst : ptr) : M Z :=
  x <- rd src ;;
  rproxy <- NODE2RPROXY (p_nodeid x) ;;
  y <- rd dst ;;
  if waits_for y (p_endpoint x) then
    rcode <- copy_hdr_msg rproxy uh dst (p_umsg y) ;;
    if negb (rcode =? OK) then mret rcode
    else
      (if c_cmd h =? CMD_SNDREC_MSG then rmt_receives src dst
       else
         wr src (fun x => x <| p_rcode := OK |>) ;;
         send_ack_lcl2rmt src dst OK ;;
         mret tt) ;;
      end_receiving dst OK ;;
      mret OK
  else
    wr src (fun x => x <| p_message := cu_msg h |>) ;;
    wr src (rts_set BIT_SENDING) ;;
    when (c_cmd h =? CMD_SNDREC_MSG) (rmt_receives src dst) ;;
    wr src (fun x => x <| p_sendto := p_endpoint y |>) ;;
    INIT_P_LINK src ;;
    LIST_ADD_TAIL_P src dst ;;
    mret OK.

(** The system id of a remote notify, from the type of its message. *)
Definition notify_sid (dc : dc_t) (h : cmd_t) : Z :=
  ENDPOINT_P (Z.land (m_type (cu_msg h)) (Z.lnot NOTIFY_MESSAGE)) + dc_nr_tasks dc.

Definition notify_rmt2lcl (uh : Z) (h : cmd_t) (src dst : ptr) (update_proc : Z) : M Z :=
  x <- rd src ;;
  rproxy <- NODE2RPROXY (p_nodeid x) ;;
  y <- rd dst ;;
  dc <- rd_dc (p_dcid y) ;;
  let sid := notify_sid dc h in
  if sid >=? dc_nr_sysprocs dc then mret EMOLPRIVILEGES
  else if waits_for y (p_endpoint x) then
    set_update dst update_proc ;;
    copy_hdr_msg rproxy uh dst (p_umsg y) ;;
    end_receiving dst OK ;;
    mret OK
  else
    wr dst (misc_set MIS_BIT_NOTIFY) ;;
    check_sys_bit dst sid ;;
    set_notify_pending dst sid ;;
    set_update dst update_proc ;;
    mret OK.

(** ** Copies of data *)

Definition vbytes (h : cmd_t) : Z := v_bytes (cu_vcopy h).
Definition set_oncopy (p : ptr) : M unit := wr p (rts_set BIT_ONCOPY).
Definition clr_oncopy (p : ptr) : M unit := wr p (rts_clear BIT_ONCOPY).
Definition set_vcopy (p : ptr) (h : cmd_t) : M unit :=
  wr p (fun x => x <| p_rmtcmd ::= (fun c => c <| cu_vcopy := cu_vcopy h |>) |>).

(** From the proxy's payload to a local process. *)
Definition put_payload (rproxy : ptr) (pay : Z) (dst : ptr) (h : cmd_t) : M Z :=
  x <- rd rproxy ;;
  if misc MIS_BIT_KTHREAD x then faults F_KTHREAD
  else copy_block rproxy pay dst (v_daddr (cu_vcopy h)) (vbytes h).

(** The checks of a request to copy from the local process [y]; [lim] is the
    largest block. *)
Definition rqst_source_status (lim : Z) (dc : dc_t) (h : cmd_t) (y : proc) : Z :=
  let dst_nr := ENDPOINT_P (v_dst (cu_vcopy h)) in
  if (vbytes h <=? 0) || (vbytes h >? lim) then EMOLRANGE
  else if rts BIT_ONCOPY y then EMOLONCOPY
  else if negb (p_endpoint y =? v_src (cu_vcopy h)) then EMOLBADPROC
  else if (dst_nr <? - dc_nr_tasks dc) || (dst_nr >=? dc_nr_procs dc) then EMOLRANGE
  else OK.

(** The third descriptor is locked while [ONCOPY] protects the other two. *)
Definition lock_third (lcl rmt dst : ptr) : M unit :=
  set_oncopy lcl ;;
  set_oncopy rmt ;;
  WUNLOCK_PROC2 lcl rmt ;;
  WLOCK_PROC3 lcl rmt dst ;;
  clr_oncopy lcl ;;
  clr_oncopy rmt.

Definition copyrmt_dst_status (h : cmd_t) (z : proc) : Z :=
  if IT_IS_LOCAL z then EMOLLCLPROC
  else if rts BIT_SLOT_FREE z then EMOLDSTDIED
  else if negb (p_endpoint z =? v_dst (cu_vcopy h)) then EMOLENDPOINT
  else if rts BIT_ONCOPY z then EMOLONCOPY
  else if rts BIT_RMTOPER z then EMOLENQUEUED
  else if rts BIT_SENDING z then EMOLENQUEUED
  else OK.

Definition copyrmt_rqst_rmt2lcl (rmt lcl : ptr) (h : cmd_t) : M Z :=
  y <- rd lcl ;;
  dc <- rd_dc (p_dcid y) ;;
  let ret := rqst_source_status MAXCOPYLEN dc h y in
  if negb (ret =? OK) then mret ret
  else
    let dst := ENDPOINT2PTR (p_dcid y) dc (v_dst (cu_vcopy h)) in
    lock_third lcl rmt dst ;;
    z <- rd dst ;;
    let ret := copyrmt_dst_status h z in
    ret <- (if ret =? OK then
              set_vcopy dst h ;; set_oncopy dst ;; copyin_rqst_lcl2rmt dst lcl
            else if negb (ret =? EMOLENQUEUED) then copyrmt_ack_lcl2rmt rmt lcl ret
            else mret ret) ;;
    WUNLOCK_PROC dst ;;
    mret ret.

Definition copylcl_dst_status (h : cmd_t) (z : proc) : Z :=
  if IT_IS_REMOTE z then EMOLRMTPROC
  else if rts BIT_SLOT_FREE z then EMOLDSTDIED
  else if negb (p_endpoint z =? v_dst (cu_vcopy h)) then EMOLENDPOINT
  else if rts BIT_ONCOPY z then EMOLONCOPY
  else if rts BIT_SENDING z then EMOLENQUEUED
  else OK.

Definition copylcl_rqst_rmt2lcl (rmt lcl : ptr) (h : cmd_t) : M Z :=
  y <- rd lcl ;;
  dc <- rd_dc (p_dcid y) ;;
  let ret := rqst_source_status MAXCOPYLEN dc h y in
  if negb (ret =? OK) then mret ret
  else
    let dst := ENDPOINT2PTR (p_dcid y) dc (v_dst (cu_vcopy h)) in
    lock_third lcl rmt dst ;;
    z <- rd dst ;;
    let ret := copylcl_dst_status h z in
    ret <- (if ret =? OK then
              ret <- copy_block lcl (v_saddr (cu_vcopy h)) dst (v_daddr (cu_vcopy h)) (vbytes h) ;;
              set_vcopy rmt h ;; mret ret
            else mret ret) ;;
    ret <- copylcl_ack_lcl2rmt rmt lcl ret ;;
    WUNLOCK_PROC dst ;;
    mret ret.

Definition copyin_data_rmt2lcl (rproxy rmt lcl : ptr) (h : cmd_t) (pay : Z) : M Z :=
  y <- rd lcl ;;
  mb <- NODE2MAXBYTES (c_snode h) ;;
  ret <- (if (vbytes h <=? 0) || (vbytes h >? mb) then mret EMOLRANGE
          else if rts BIT_ONCOPY y then mret EMOLONCOPY
          else if rts BIT_SENDING y then mret EMOLENQUEUED
          else if negb (p_endpoint y =? v_dst (cu_vcopy h)) then mret EMOLBADPROC
          else put_payload rproxy pay lcl h) ;;
  set_vcopy rmt h ;;
  copyin_ack_lcl2rmt rmt lcl ret.

Definition copyin_rqst_rmt2lcl (rproxy rmt lcl : ptr) (h : cmd_t) (pay : Z) : M Z :=
  dc <- rd_dc (c_dcid h) ;;
  let rqtr := ENDPOINT2PTR (c_dcid h) dc (v_rqtr (cu_vcopy h)) in
  set_oncopy lcl ;;
  set_oncopy rmt ;;
  WUNLOCK_PROC2 rmt lcl ;;
  WLOCK_PROC3 rqtr rmt lcl ;;
  clr_oncopy lcl ;;
  clr_oncopy rmt ;;
  z <- rd rqtr ;;
  mb <- NODE2MAXBYTES (c_snode h) ;;
  ret <- (if IT_IS_LOCAL z then mret EMOLLCLPROC
          else if (vbytes h <=? 0) || (vbytes h >? mb) then mret EMOLRANGE
          else if rts BIT_ONCOPY z then mret EMOLONCOPY
          else if rts BIT_RMTOPER z then mret EMOLENQUEUED
          else if rts BIT_SENDING z then mret EMOLENQUEUED
          else put_payload rproxy pay lcl h) ;;
  set_vcopy rqtr h ;;
  (if negb (ret =? EMOLENQUEUED) then copyrmt_ack_lcl2rmt rqtr lcl ret ;; mret tt
   else mret tt) ;;
  WUNLOCK_PROC rqtr ;;
  mret ret.

Definition copyout_rqst_rmt2lcl (rmt lcl : ptr) (h : cmd_t) : M Z :=
  y <- rd lcl ;;
  mb <- NODE2MAXBYTES (c_snode h) ;;
  ret <- (if (vbytes h <=? 0) || (vbytes h >? mb) then mret EMOLRANGE
          else if p_rts_flags y =? PROC_RUNNING then mret EMOLPROCSTS
          else if rts BIT_ONCOPY y then mret EMOLONCOPY
          else if negb (p_endpoint y =? v_src (cu_vcopy h)) then mret EMOLBADPROC
          else set_vcopy rmt h ;; mret OK) ;;
  copyout_data_lcl2rmt rmt lcl ret.

Definition copyout_status (y z x : proc) : Z :=
  if p_rts_flags y =? PROC_RUNNING then EMOLPROCRUN
  else if p_rts_flags z =? PROC_RUNNING then EMOLPROCRUN
  else if negb (rts BIT_ONCOPY y) then EMOLPROCSTS
  else if negb (rts BIT_ONCOPY z) then EMOLPROCSTS
  else if negb (rts BIT_ONCOPY x) then EMOLPROCSTS
  else OK.

Definition copyout_data_rmt2lcl (rproxy rmt lcl : ptr) (h : cmd_t) (pay : Z) : M Z :=
  mb <- NODE2MAXBYTES (c_snode h) ;;
  if (vbytes h <=? 0) || (vbytes h >? mb) then mret EMOLRANGE
  else
    y <- rd lcl ;;
    dc <- rd_dc (p_dcid y) ;;
    let dst := ENDPOINT2PTR (p_dcid y) dc (v_dst (cu_vcopy h)) in
    z <- rd dst ;;
    let third := negb (p_endpoint z =? p_endpoint y) in
    when third (WUNLOCK_PROC2 rmt lcl ;; WLOCK_PROC3 rmt lcl dst) ;;
    x <- rd rmt ;;
    let ret := copyout_status y z x in
    ret <- (if ret =? OK then
              ret <- (if c_rcode h =? OK then put_payload rproxy pay dst h else mret ret) ;;
              when (p_rts_flags y =? ONCOPY) (READY_UP_RCODE lcl (c_rcode h)) ;;
              mret ret
            else mret ret) ;;
    when third (WUNLOCK_PROC dst) ;;
    mret ret.

(** ** [mm_put2lcl] *)

(** The checks of the two processes, both locked. *)
Definition put2lcl_status (local_nodeid : Z) (h : cmd_t) (x y : proc) : Z :=
  if rts BIT_SLOT_FREE x then EMOLNOTBIND
  else if IT_IS_REMOTE x && negb (p_endpoint x =? c_src h) then EMOLENDPOINT
  else if IT_IS_REMOTE x && negb (p_nodeid x =? c_snode h) then EMOLNONODE
  else if IT_IS_LOCAL x && negb (misc MIS_BIT_REPLICATED x) then EMOLLCLPROC
  else if rts BIT_RMTOPER x then EMOLENQUEUED
  else if rts BIT_SENDING x then EMOLENQUEUED
  else if IT_IS_REMOTE y then EMOLRMTPROC
  else if rts BIT_SLOT_FREE y then EMOLNOTBIND
  else if negb (p_endpoint y =? c_dst h) then EMOLENDPOINT
  else if rts BIT_MIGRATE y then EMOLMIGRATE
  else if negb (p_nodeid y =? local_nodeid) then EMOLMIGRATE
  else OK.

(** Errors the remote sender is not told about. *)
Definition silent_error (ret : Z) : bool :=
  (ret =? EMOLNOTBIND) || (ret =? EMOLNONODE) || (ret =? EMOLLCLPROC) || (ret =? EMOLENQUEUED).

(** The acknowledge of a command that failed. *)
Definition error_ack (cmd : Z) : Z :=
  if (cmd =? CMD_SNDREC_MSG) || (cmd =? CMD_SEND_MSG) || (cmd =? CMD_REPLY_MSG)
  then CMD_SEND_ACK
  else if cmd =? CMD_COPYIN_DATA then CMD_COPYIN_ACK
  else if cmd =? CMD_COPYOUT_RQST then CMD_COPYOUT_DATA
  else if cmd =? CMD_COPYLCL_RQST then CMD_COPYLCL_ACK
  else if cmd =? CMD_COPYRMT_RQST then CMD_COPYRMT_ACK
  else CMD_NONE.

(** After a failed check.  A request of the source of a copy is answered to the
    requester, and the result becomes an error when that is local. *)
Definition put2lcl_error {A} (d : Z) (dc : dc_t) (h : cmd_t) (rmt lcl : ptr) (ret : Z) : M A :=
  if silent_error ret then WUNLOCK_DC d ;; WUNLOCK_PROC2 lcl rmt ;; return_ ret
  else
    sp <- NODE2SPROXY (c_snode h) ;;
    WLOCK_PROC sp ;;
    z <- rd sp ;;
    WUNLOCK_PROC sp ;;
    ar <- (if misc MIS_BIT_CONNECTED z then
             if c_cmd h =? CMD_COPYIN_RQST then
               let rqtr := ENDPOINT2PTR d dc (v_rqtr (cu_vcopy h)) in
               q <- rd rqtr ;;
               if IT_IS_LOCAL q then mret (CMD_NONE, EMOLLCLPROC)
               else error_lcl2rmt CMD_COPYRMT_ACK rqtr h ret ;; mret (CMD_NONE, ret)
             else mret (error_ack (c_cmd h), ret)
           else mret (CMD_NONE, ret)) ;;
    WUNLOCK_DC d ;;
    (if negb (fst ar =? CMD_NONE) then error_lcl2rmt (fst ar) rmt h (snd ar) ;; mret tt
     else mret tt) ;;
    WUNLOCK_PROC2 lcl rmt ;;
    return_ (snd ar).

(** The switch on the command. *)
Definition put2lcl_dispatch (rproxy rmt lcl : ptr) (h : cmd_t) (uh pay : Z) : M Z :=
  let cmd := c_cmd h in
  if (cmd =? CMD_SNDREC_MSG) || (cmd =? CMD_SEND_MSG) || (cmd =? CMD_REPLY_MSG)
  then send_rmt2lcl uh h rmt lcl
  else if cmd =? CMD_NTFY_MSG then notify_rmt2lcl uh h rmt lcl (c_rcode h)
  else if cmd =? CMD_COPYIN_DATA then copyin_data_rmt2lcl rproxy rmt lcl h pay
  else if cmd =? CMD_COPYIN_RQST then copyin_rqst_rmt2lcl rproxy rmt lcl h pay
  else if cmd =? CMD_COPYOUT_RQST then copyout_rqst_rmt2lcl rmt lcl h
  else if cmd =? CMD_COPYLCL_RQST then copylcl_rqst_rmt2lcl rmt lcl h
  else if cmd =? CMD_COPYRMT_RQST then copyrmt_rqst_rmt2lcl rmt lcl h
  else if cmd =? CMD_SEND_ACK then send_ack_rmt2lcl rmt lcl (c_rcode h)
  else if (cmd =? CMD_COPYIN_ACK) || (cmd =? CMD_COPYLCL_ACK) || (cmd =? CMD_COPYRMT_ACK)
  then generic_ack_rmt2lcl rmt lcl (c_rcode h)
  else if cmd =? CMD_COPYOUT_DATA then copyout_data_rmt2lcl rproxy rmt lcl h pay
  else mret EMOLBADREQUEST.

(** Does the acknowledge say that the remote process is gone? *)
Definition gone_ack (h : cmd_t) : bool :=
  negb (Z.land (c_cmd h) CMD_ACKNOWLEDGE =? 0) &&
  ((c_rcode h =? EMOLRMTPROC) || (c_rcode h =? EMOLDSTDIED) || (c_rcode h =? EMOLENDPOINT)).

Definition set_rproxy_dc (rproxy : ptr) (d : Z) : M unit :=
  WLOCK_PROC rproxy ;;
  wr rproxy (fun x => x <| p_dcid := d |>) ;;
  WUNLOCK_PROC rproxy.

(** The command is carried out; the DC and both processes are locked. *)
Definition put2lcl_run (sig cur : Z) (d : Z) (dc : dc_t) (rproxy rmt lcl : ptr) (h : cmd_t)
    (uh pay : Z) : handler :=
  set_rproxy_dc rproxy (dc_dcid dc) ;;
  RUNLOCK_DC d ;;
  ret <- put2lcl_dispatch rproxy rmt lcl h uh pay ;;
  when (ret =? OK)
    (wr rproxy (fun x => x <| p_lclsent ::= ulong_inc |>) ;;
     wr_node (c_snode h) (fun n => n <| n_pxrcvd ::= ulong_inc |>) ;;
     (if (c_cmd h =? CMD_COPYOUT_RQST) || (c_cmd h =? CMD_COPYRMT_RQST)
      then wr lcl (fun y => y <| p_rmtcopy ::= ulong_inc |>)
      else when (c_cmd h =? CMD_COPYLCL_RQST)
             (wr lcl (fun y => y <| p_lclcopy ::= ulong_inc |>)))) ;;
  WUNLOCK_PROC2 lcl rmt ;;
  ret <- (if gone_ack h then
            RLOCK_DC d ;;
            WLOCK_PROC rmt ;;
            catch (do_unbind sig cur d rmt) ;;
            WUNLOCK_PROC rmt ;;
            RUNLOCK_DC d ;;
            mret (c_rcode h)
          else mret ret) ;;
  set_rproxy_dc rproxy (-1) ;;
  return_ ret.

(** The header, from the proxy's memory: what cannot be read is zero. *)
Definition put2lcl_header (cur : Z) (rproxy : ptr) (uh pay : Z) : M cmd_t :=
  WLOCK_PROC rproxy ;;
  x <- rd rproxy ;;
  when (rts BIT_SLOT_FREE x) (ERROR_WUNLOCK_PROC rproxy EMOLPROCSTS) ;;
  when (negb (misc MIS_BIT_PROXY x)) (ERROR_WUNLOCK_PROC rproxy EMOLNOPROXY) ;;
  when (negb (misc MIS_BIT_CONNECTED x)) (ERROR_WUNLOCK_PROC rproxy EMOLNOTCONN) ;;
  when (misc MIS_BIT_KTHREAD x) (faults F_KTHREAD) ;;
  t <- rd_task cur ;;
  s <- get ;;
  let h := default cmd0 (k_uhdr s !! (t_mm t, uh)) in
  wr rproxy (fun x => x <| p_umsg := pay |> <| p_rmtcmd := h |>) ;;
  WUNLOCK_PROC rproxy ;;
  mret h.

Definition put2lcl_body (sig cur : Z) (rproxy : ptr) (uh pay : Z) : handler :=
  h <- put2lcl_header cur rproxy uh pay ;;
  let d := c_dcid h in
  s <- get ;;
  error_if ((d <? 0) || (d >=? k_nr_dcs s)) EMOLBADDCID ;;
  let lcl_nr := ENDPOINT_P (c_dst h) in
  let rmt_nr := ENDPOINT_P (c_src h) in
  WLOCK_DC d ;;
  dc <- rd_dc d ;;
  when (negb (dc_flags dc =? 0)) (ERROR_WUNLOCK_DC d EMOLDCNOTRUN) ;;
  when ((rmt_nr <? - dc_nr_tasks dc) || (rmt_nr >=? dc_nr_procs dc))
    (ERROR_WUNLOCK_DC d EMOLRANGE) ;;
  when ((lcl_nr <? - dc_nr_tasks dc) || (lcl_nr >=? dc_nr_procs dc))
    (ERROR_WUNLOCK_DC d EMOLRANGE) ;;
  when (negb (test_bit (c_snode h) (dc_nodes dc))) (ERROR_WUNLOCK_DC d EMOLNODCNODE) ;;
  when (negb (c_dnode h =? k_local_nodeid s)) (ERROR_WUNLOCK_DC d EMOLBADNODEID) ;;
  wr_node (c_snode h) (fun n => n <| n_rtimestamp := k_clock s |>) ;;
  let rmt := NBR2PTR d dc rmt_nr in
  let lcl := NBR2PTR d dc lcl_nr in
  WLOCK_PROC2 lcl rmt ;;
  x <- rd rmt ;;
  y <- rd lcl ;;
  let ret := put2lcl_status (k_local_nodeid s) h x y in
  if negb (ret =? OK) then put2lcl_error d dc h rmt lcl ret
  else put2lcl_run sig cur d dc rproxy rmt lcl h uh pay.

Definition mm_put2lcl (sig cur uh pay : Z) : handler :=
  t <- rd_task cur ;;
  error_if (negb (t_euid t =? USER_ROOT)) (- EPERM) ;;
  s <- get ;;
  error_if (DVS_NOT_INIT s) EMOLDVSINIT ;;
  cp <- check_caller cur (C_PUT2LCL uh pay) ;;
  put2lcl_body sig cur (fst cp) uh pay.
