(* ===== verification/Hyper.v ===== *)
(** * The hypervisor interface: nodes, data containers, proxies, privileges
      ([mm_hyper.c], [mm_utils.c])

    The calls by which a privileged task configures the module: it starts the
    DVS, links nodes to pairs of proxies, creates data containers, tells which
    nodes take part in which, and reads and writes privileges.  The [/proc] and
    debugfs entries, the names of nodes and proxies and the CPU masks are left
    out. *)

From S2P Require Import Prelude Types Endpoint Kernel Utils Unbind.

(** ** Constants *)

Definition EMOLBADCALL : Z := -102.
Definition EMOLDVSBUSY : Z := -317.
Definition EMOLNODEFREE : Z := -325.
Definition EMOLBADRANGE : Z := -338.
Definition EMOLBADVALUE : Z := -339.
Definition EMOLRSCBUSY : Z := -342.
Definition EMOLNAMESIZE : Z := -343.
Definition EMOLALLOCMEM : Z := -344.

Definition DC_RUNNING : Z := 0.
Definition MAXDCNAME : Z := 16.
Definition NODE_BIT_ATTACHED : Z := 1.
Definition NODE_BIT_SCONNECTED : Z := 2.
Definition NODE_BIT_RCONNECTED : Z := 3.
Definition NODE_ATTACHED : Z := Z.shiftl 1 NODE_BIT_ATTACHED.
Definition NODE_SCONNECTED : Z := Z.shiftl 1 NODE_BIT_SCONNECTED.
Definition PX_BIT_INUSE : Z := 0.
Definition PX_BIT_SCONNECTED : Z := 1.
Definition PX_BIT_RCONNECTED : Z := 2.
Definition PROXIES_INUSE : Z := Z.shiftl 1 PX_BIT_INUSE.
Definition PROXY_PRIV : Z := 5.
Definition ULONG_BITS : Z := 32.

(** ** Guards and locks of the calls *)

Definition check_root (cur : Z) : M unit :=
  t <- rd_task cur ;; error_if (negb (t_euid t =? USER_ROOT)) EMOLPRIVILEGES.

Definition check_dvs : M unit := s <- get ;; error_if (DVS_NOT_INIT s) EMOLDVSINIT.

Definition CHECK_DCID (d : Z) : M unit :=
  s <- get ;; error_if ((d <? 0) || (d >=? k_nr_dcs s)) EMOLBADDCID.

Definition CHECK_NODEID (n : Z) : M unit :=
  s <- get ;; error_if ((n <? 0) || (n >=? k_nr_nodes s)) EMOLBADNODEID.

Definition CHECK_PROXYID (n : Z) : M unit :=
  s <- get ;; error_if ((n <? 0) || (n >=? k_nr_nodes s)) EMOLPROXYID.

Definition RLOCK_NODE (n : Z) : M unit := lock_ (L_NODE n).
Definition RUNLOCK_NODE (n : Z) : M unit := unlock_ (L_NODE n).
Definition WLOCK_NODE (n : Z) : M unit := lock_ (L_NODE n).
Definition WUNLOCK_NODE (n : Z) : M unit := unlock_ (L_NODE n).
Definition WLOCK_PROXY (n : Z) : M unit := lock_ (L_PROXY n).
Definition WUNLOCK_PROXY (n : Z) : M unit := unlock_ (L_PROXY n).
Definition WLOCK_TASK (t : Z) : M unit := lock_ (L_TASK t).
Definition WUNLOCK_TASK (t : Z) : M unit := unlock_ (L_TASK t).

Definition wr_proxies (n : Z) (f : proxies_t -> proxies_t) : M unit :=
  x <- rd_proxies n ;; modify (fun s => s <| k_proxies ::= <[n := f x]> |>).

Definition wr_task (t : Z) (f : task_t -> task_t) : M unit :=
  x <- rd_task t ;; modify (fun s => s <| k_tasks ::= <[t := f x]> |>).

(** [get_task_struct] and [put_task_struct] of Linux: a reference to the task
    more, or less; what Linux frees with the last one is not of the module. *)
Definition get_task_struct (t : Z) : M unit := wr_task t (fun t => t <| t_usage ::= Z.succ |>).
Definition mm_put_task_struct (t : Z) : M unit := wr_task t (fun t => t <| t_usage ::= Z.pred |>).

Definition DC_INCREF (d : Z) : M unit := wr_dc d (fun dc => dc <| dc_refcount ::= Z.succ |>).

(** [kref_get] and [kref_put] of [dvs_kref]; the last reference gone, the DVS
    is not initialised any more ([dvs_release]). *)
Definition KREF_GET : M unit := modify (fun s => s <| k_dvs_refs ::= Z.succ |>).

Definition dvs_release (s : kstate) : kstate := s <| k_local_nodeid := DVS_NO_INIT |>.

Definition KREF_PUT : M unit :=
  s <- get ;;
  modify (fun s => s <| k_dvs_refs ::= Z.pred |>) ;;
  when (k_dvs_refs s =? 1) (modify dvs_release).

(** ** The two processes of a pair of proxies ([mm_utils.c]) *)

Definition lock_sr_proxies (cur px : Z) : M Z :=
  t <- rd_task cur ;;
  s <- get ;;
  if negb (t_euid t =? USER_ROOT) then mret EMOLPRIVILEGES
  else if DVS_NOT_INIT s then mret EMOLDVSINIT
  else if (px <? 0) || (px >=? k_nr_nodes s) then mret EMOLPROXYID
  else
    WLOCK_PROXY px ;;
    x <- rd_proxies px ;;
    if px_flags x =? PROXIES_FREE then WUNLOCK_PROXY px ;; mret EMOLPROXYFREE
    else WLOCK_PROC (RPROXY px) ;; WLOCK_PROC (SPROXY px) ;; mret OK.

Definition unlock_sr_proxies (cur px : Z) : M Z :=
  t <- rd_task cur ;;
  s <- get ;;
  if negb (t_euid t =? USER_ROOT) then mret EMOLPRIVILEGES
  else if DVS_NOT_INIT s then mret EMOLDVSINIT
  else if (px <? 0) || (px >=? k_nr_nodes s) then mret EMOLPROXYID
  else
    x <- rd_proxies px ;;
    if px_flags x =? PROXIES_FREE then mret EMOLNOPROXY
    else
      WUNLOCK_PROC (SPROXY px) ;; WUNLOCK_PROC (RPROXY px) ;; WUNLOCK_PROXY px ;; mret OK.

(** ** Nodes *)

Definition clear_node (nd : node_t) : node_t :=
  nd <| n_flags := NODE_FREE |> <| n_dcs := 0 |> <| n_proxies := NO_PROXIES |>
     <| n_stimestamp := 0 |> <| n_rtimestamp := 0 |> <| n_pxsent := 0 |> <| n_pxrcvd := 0 |>.

Definition init_node (n : Z) : M unit :=
  wr_node n (fun nd => clear_node (nd <| n_nodeid := n |>)).

(** The prologue of [mm_add_node] and [mm_del_node]: a node other than this
    one, that is not free. *)
Definition other_node (cur d n : Z) : M unit :=
  check_root cur ;;
  check_dvs ;;
  CHECK_NODEID n ;;
  s <- get ;;
  error_if (n =? k_local_nodeid s) EMOLBADNODEID ;;
  RLOCK_NODE n ;;
  nd <- rd_node n ;;
  when (n_flags nd =? NODE_FREE) (RUNLOCK_NODE n ;; return_ EMOLNODEFREE) ;;
  RUNLOCK_NODE n ;;
  CHECK_DCID d.

(** The loop that counts the nodes of a DC. *)
Fixpoint count_bits (n : nat) (i bitmap : Z) : Z :=
  match n with
  | O => 0
  | S n => (if test_bit i bitmap then 1 else 0) + count_bits n (i + 1) bitmap
  end.

Definition nodes_of (dc : dc_t) : Z := count_bits (Z.to_nat ULONG_BITS) 0 (dc_nodes dc).

Definition add_node_status (d n : Z) (dc : dc_t) (nd : node_t) : Z :=
  if dc_flags dc =? DC_FREE then EMOLDCNOTRUN
  else if test_bit n (dc_nodes dc) then EMOLDCNODE
  else if test_bit d (n_dcs nd) then EMOLDCNODE
  else if nodes_of dc >=? dc_nr_nodes dc then EMOLRSCBUSY
  else OK.

Definition finish_node (d n ret : Z) : handler :=
  WUNLOCK_NODE n ;; WUNLOCK_DC d ;; return_ ret.

Definition mm_add_node (cur d n : Z) : handler :=
  other_node cur d n ;;
  WLOCK_DC d ;;
  WLOCK_NODE n ;;
  dc <- rd_dc d ;;
  nd <- rd_node n ;;
  let ret := add_node_status d n dc nd in
  when (ret =? OK)
    (wr_dc d (fun dc => dc <| dc_nodes ::= set_bit n |>) ;;
     wr_node n (fun nd => nd <| n_dcs ::= set_bit d |>)) ;;
  finish_node d n ret.

Definition del_node_status (d n : Z) (dc : dc_t) (nd : node_t) : Z :=
  if negb (dc_flags dc =? 0) then EMOLDCNOTRUN
  else if negb (test_bit n (dc_nodes dc)) then EMOLDCNODE
  else if negb (test_bit d (n_dcs nd)) then EMOLDCNODE
  else OK.

Definition mm_del_node (cur d n : Z) : handler :=
  other_node cur d n ;;
  WLOCK_DC d ;;
  WLOCK_NODE n ;;
  dc <- rd_dc d ;;
  nd <- rd_node n ;;
  let ret := del_node_status d n dc nd in
  when (ret =? OK)
    (wr_dc d (fun dc => dc <| dc_nodes ::= clear_bit n |>) ;;
     wr_node n (fun nd => nd <| n_dcs ::= clear_bit d |>)) ;;
  finish_node d n ret.

(** [name_rc] is the result of the copy of the node's name from user space;
    the name itself is not kept. *)
Definition mm_node_up (cur n px name_rc : Z) : handler :=
  check_root cur ;;
  check_dvs ;;
  CHECK_NODEID n ;;
  CHECK_PROXYID px ;;
  ret <- lock_sr_proxies cur px ;;
  error_if (negb (ret =? OK)) ret ;;
  wr (SPROXY px) (fun x => x <| p_nodemap ::= set_bit n |>) ;;
  wr (RPROXY px) (fun x => x <| p_nodemap ::= set_bit n |>) ;;
  ret <- unlock_sr_proxies cur px ;;
  error_if (negb (ret =? OK)) ret ;;
  RLOCK_PROXY px ;;
  x <- rd_proxies px ;;
  when (px_flags x =? PROXIES_FREE) (RUNLOCK_PROXY px ;; return_ EMOLNOPROXY) ;;
  WLOCK_NODE n ;;
  wr_node n (fun nd => nd <| n_flags := NODE_ATTACHED |> <| n_proxies := px |>) ;;
  when (test_bit PX_BIT_SCONNECTED (px_flags x))
    (wr_node n (fun nd => nd <| n_flags ::= set_bit NODE_BIT_SCONNECTED |>)) ;;
  when (test_bit PX_BIT_RCONNECTED (px_flags x))
    (wr_node n (fun nd => nd <| n_flags ::= set_bit NODE_BIT_RCONNECTED |>)) ;;
  WUNLOCK_NODE n ;;
  RUNLOCK_PROXY px ;;
  return_ name_rc.

(** The test of the node's bit is the source's; an error of [lock_sr_proxies]
    leaves the node locked; and the last line returns [ret], not [rcode]. *)
Definition mm_node_down (cur n : Z) : handler :=
  check_root cur ;;
  check_dvs ;;
  CHECK_NODEID n ;;
  WLOCK_NODE n ;;
  nd <- rd_node n ;;
  let px := n_proxies nd in
  ret <- lock_sr_proxies cur px ;;
  error_if (negb (ret =? OK)) ret ;;
  sp <- rd (SPROXY px) ;;
  rcode <- (if negb (test_bit n (p_nodemap sp)) then
      wr (SPROXY px) (fun x => x <| p_nodemap ::= clear_bit n |>) ;;
      wr (RPROXY px) (fun x => x <| p_nodemap ::= clear_bit n |>) ;;
      wr_node n clear_node ;;
      mret OK
    else mret EMOLBADNODEID) ;;
  ret <- unlock_sr_proxies cur px ;;
  error_if (negb (ret =? OK)) ret ;;
  WUNLOCK_NODE n ;;
  if negb (rcode =? OK) then return_ ret else return_ OK.

(** ** Loops over tables *)

Fixpoint for_each (n : nat) (i : Z) (body : Z -> M unit) : M unit :=
  match n with
  | O => mret tt
  | S n => body i ;; for_each n (i + 1) body
  end.

(** ** The DVS *)

Record dvs_usr := mk_dvs {
  d_nr_dcs : Z; d_nr_nodes : Z; d_nr_procs : Z; d_nr_tasks : Z; d_nr_sysprocs : Z;
  d_max_copybuf : Z; d_max_copylen : Z;
}.

Definition dvs_status (d : dvs_usr) : Z :=
  if (d_nr_dcs d <=? 0) || (d_nr_dcs d >? NR_DCS) then EMOLBADRANGE
  else if (d_nr_nodes d <=? 0) || (d_nr_nodes d >? NR_NODES) then EMOLBADRANGE
  else if (d_nr_procs d <=? 0) || (d_nr_procs d >? NR_PROCS) then EMOLBADRANGE
  else if (d_nr_tasks d <=? 0) || (d_nr_tasks d >? NR_TASKS) then EMOLBADRANGE
  else if (d_nr_sysprocs d <=? 0) || (d_nr_sysprocs d >? NR_SYS_PROCS) then EMOLBADRANGE
  else if d_nr_sysprocs d >=? d_nr_procs d + d_nr_tasks d then EMOLBADRANGE
  else if d_nr_sysprocs d <=? d_nr_tasks d then EMOLBADRANGE
  else if d_max_copybuf d >? MAXCOPYBUF then EMOLBADVALUE
  else if d_max_copylen d >? MAXCOPYLEN then EMOLBADVALUE
  else if d_max_copylen d <? d_max_copybuf d then EMOLBADVALUE
  else OK.

Definition set_dvs (d : dvs_usr) (s : kstate) : kstate :=
  s <| k_nr_dcs := d_nr_dcs d |> <| k_nr_nodes := d_nr_nodes d |>
    <| k_nr_procs := d_nr_procs d |> <| k_nr_tasks := d_nr_tasks d |>
    <| k_nr_sysprocs := d_nr_sysprocs d |>
    <| k_max_copybuf := d_max_copybuf d |> <| k_max_copylen := d_max_copylen d |>.

Definition init_proxies (px : Z) : M unit :=
  wr_proxies px (fun x => x <| px_id := px |> <| px_flags := PROXIES_FREE |>
    <| px_maxbytes := MAXCOPYBUF |> <| px_maxbcmds := 0 |>) ;;
  init_proc_desc (SPROXY px) PROXY_NO_DC px ;;
  init_proc_desc (RPROXY px) PROXY_NO_DC px ;;
  wr (SPROXY px) (fun x => x <| p_rts_flags := SLOT_FREE |> <| p_pseudosem := 1 |>) ;;
  wr (RPROXY px) (fun x => x <| p_rts_flags := SLOT_FREE |> <| p_pseudosem := 1 |>).

(** [du] is what [copy_from_user] reads at [du_addr]: nothing when the address
    is [NULL], and an error when it is not mapped.  [files] is the result of the
    creation of the [/proc] and debugfs entries; an error comes after the tables
    were set up.  The module is loaded, so that [try_module_get] succeeds. *)
Definition mm_dvs_init (cur n : Z) (du : option (Z + dvs_usr)) (files : Z) : handler :=
  check_root cur ;;
  s <- get ;;
  error_if (negb (DVS_NOT_INIT s)) EMOLDVSBUSY ;;
  CHECK_NODEID n ;;
  lock_ L_DVS ;;
  match du with
  | None => mret tt
  | Some (inl rc) => unlock_ L_DVS ;; return_ rc
  | Some (inr d) =>
      let ret := dvs_status d in
      when (negb (ret =? OK)) (unlock_ L_DVS ;; return_ ret) ;;
      modify (set_dvs d)
  end ;;
  s <- get ;;
  for_each (Z.to_nat (k_nr_dcs s)) 0 (fun i => wr_dc i (fun dc => dc <| dc_flags := DC_FREE |>)) ;;
  for_each (Z.to_nat (k_nr_nodes s)) 0 init_node ;;
  for_each (Z.to_nat (k_nr_nodes s)) 0 init_proxies ;;
  wr_node n (fun nd => nd <| n_flags := Z.lor NODE_ATTACHED (Z.lor NODE_SCONNECTED NODE_SCONNECTED) |>) ;;
  when (negb (files =? OK)) (modify dvs_release ;; unlock_ L_DVS ;; return_ files) ;;
  modify (fun s => s <| k_dvs_refs := 1 |> <| k_local_nodeid := n |>) ;;
  unlock_ L_DVS ;;
  return_ n.

(** ** Creating a data container *)

Record dc_usr := mk_dcu {
  dcu_dcid : Z; dcu_nr_procs : Z; dcu_nr_tasks : Z; dcu_nr_sysprocs : Z; dcu_nr_nodes : Z;
  dcu_name : list Z;
  dcu_warn2proc : Z; dcu_warnmsg : Z;
}.

(** The checks of the parameters.  Each of them leaves the [do {} while(0)]
    with [ret] still 0, so they have no effect: [mm_dc_init] below does not
    use this test. *)
Definition dc_params_ok (s : kstate) (u : dc_usr) : bool :=
  negb ((dcu_dcid u <? 0) || (dcu_dcid u >=? k_nr_dcs s)) &&
  negb ((dcu_nr_procs u <=? 0) || (dcu_nr_procs u >? k_nr_procs s)) &&
  negb ((dcu_nr_tasks u <? 0) || (dcu_nr_tasks u >? k_nr_tasks s)) &&
  negb ((dcu_nr_sysprocs u <? 0) || (dcu_nr_sysprocs u >? k_nr_sysprocs s)) &&
  negb ((dcu_nr_nodes u <=? 0) || (dcu_nr_nodes u >? k_nr_nodes s)) &&
  negb (dcu_nr_tasks u <? dcu_nr_nodes u * 2 + NR_FIXED_TASKS) &&
  negb (dcu_nr_sysprocs u >=? dcu_nr_procs u + dcu_nr_tasks u) &&
  negb (dcu_nr_sysprocs u <=? dcu_nr_tasks u).

(** A DC that runs with the same name or number. *)
Definition dc_taken (u : dc_usr) (i : Z) : M unit :=
  RLOCK_DC i ;;
  dc <- rd_dc i ;;
  when (dc_flags dc =? DC_RUNNING)
    (when (bool_decide (dcu_name u = dc_name dc)) (ERROR_RUNLOCK_DC i EMOLRSCBUSY) ;;
     when (i =? dcu_dcid u) (ERROR_RUNLOCK_DC i EMOLRSCBUSY)) ;;
  RUNLOCK_DC i.

(** The new table of processes; [mem i] is what the memory of slot [i] holds
    before it is initialised. *)
Definition new_slot (d tasks : Z) (mem : Z -> proc) (i : Z) : M unit :=
  modify (set_proc (DC_PROC d i) (mem i)) ;;
  init_proc_desc (DC_PROC d i) d i ;;
  wr (DC_PROC d i) (fun x => x <| p_pseudosem := 1 |> <| p_endpoint := ENDPOINT 0 (i - tasks) |>
    <| p_rts_flags := SLOT_FREE |>).

Definition free_table (d : Z) (s : kstate) : kstate :=
  s <| k_procs ::= filter (fun kv => dc_of kv.1 <> Some d) |>.

(** [dcu] is what [copy_from_user] reads; [alloc], [dbg] and [files] are the
    results of the allocation of memory, and of the creation of the debugfs
    directory and of the [/proc] entries. *)
Definition mm_dc_init (cur : Z) (dcu : Z + dc_usr) (mem : Z -> proc) (alloc dbg files : Z) : handler :=
  check_root cur ;;
  check_dvs ;;
  s <- get ;;
  let n := k_local_nodeid s in
  match dcu with
  | inl ret => return_ ret
  | inr u =>
      error_if (Z.of_nat (length (dcu_name u)) >=? MAXDCNAME) EMOLNAMESIZE ;;
      for_each (Z.to_nat (k_nr_dcs s)) 0 (dc_taken u) ;;
      let d := dcu_dcid u in
      WLOCK_DC d ;;
      wr_dc d (fun dc => dc <| dc_dcid := d |> <| dc_nr_procs := dcu_nr_procs u |>
        <| dc_nr_tasks := dcu_nr_tasks u |> <| dc_nr_sysprocs := dcu_nr_sysprocs u |>
        <| dc_nr_nodes := dcu_nr_nodes u |> <| dc_name := dcu_name u |>
        <| dc_warn2proc := dcu_warn2proc u |> <| dc_warnmsg := dcu_warnmsg u |>
        <| dc_flags := DC_RUNNING |> <| dc_nodes := set_bit n 0 |>) ;;
      WLOCK_NODE n ;;
      wr_node n (fun nd => nd <| n_dcs ::= set_bit d |>) ;;
      WUNLOCK_NODE n ;;
      when (negb (alloc =? OK)) (ERROR_WUNLOCK_DC d EMOLALLOCMEM) ;;
      for_each (Z.to_nat (dcu_nr_tasks u + dcu_nr_procs u)) 0 (new_slot d (dcu_nr_tasks u) mem) ;;
      when (negb (dbg =? OK)) (modify (free_table d) ;; WUNLOCK_DC d ;; return_ dbg) ;;
      wr_dc d (fun dc => dc <| dc_refcount := 1 |>) ;;
      KREF_GET ;;
      when (negb (files =? OK)) (DC_DECREF d ;; WUNLOCK_DC d ;; return_ files) ;;
      WUNLOCK_DC d ;;
      return_ n
  end.

(** ** Privileges: the fields of [priv_usr_t] the model has *)

Record priv_usr := mk_priv { pu_id : Z; pu_warn : Z; pu_level : Z }.

(** The prologue of [mm_getpriv] and [mm_setpriv]; the DC stays locked. *)
Definition priv_target (cur d ep : Z) : M ptr :=
  check_root cur ;;
  check_dvs ;;
  CHECK_DCID d ;;
  RLOCK_DC d ;;
  dc <- rd_dc d ;;
  when (negb (dc_flags dc =? 0)) (ERROR_RUNLOCK_DC d EMOLDCNOTRUN) ;;
  let nr := ENDPOINT_P ep in
  when ((nr <? - dc_nr_tasks dc) || (nr >=? dc_nr_procs dc)) (ERROR_RUNLOCK_DC d EMOLBADPROC) ;;
  let p := NBR2PTR d dc nr in
  x <- rd p ;;
  when (rts BIT_SLOT_FREE x) (ERROR_RUNLOCK_DC d EMOLDSTDIED) ;;
  mret p.

(** Also gives what is copied to user space; [rc] is the result of the copy. *)
Definition mm_getpriv (cur d ep rc : Z) : M (Z * priv_usr) :=
  p <- priv_target cur d ep ;;
  RLOCK_PROC p ;;
  x <- rd p ;;
  RUNLOCK_PROC p ;;
  RUNLOCK_DC d ;;
  mret (rc, mk_priv (s_id x) (s_warn x) (s_level x)).

Definition set_priv (u : priv_usr) (x : proc) : proc :=
  x <| s_id := pu_id u |> <| s_warn := pu_warn u |> <| s_level := pu_level u |>.

Definition mm_setpriv (cur d ep : Z) (u : Z + priv_usr) : handler :=
  p <- priv_target cur d ep ;;
  WLOCK_PROC p ;;
  match u with
  | inl ret => WUNLOCK_PROC p ;; RUNLOCK_DC d ;; return_ ret
  | inr u => wr p (set_priv u) ;; WUNLOCK_PROC p ;; RUNLOCK_DC d ;; return_ OK
  end.

(** ** [mm_wakeup]: a process that waits for anybody is woken, or finds at its
    next receive that it was *)

Definition mm_wakeup (cur d ep : Z) : handler :=
  check_dvs ;;
  check_root cur ;;
  s <- get ;;
  error_if ((d <? 0) || (d >=? k_nr_dcs s)) EMOLBADDCID ;;
  RLOCK_DC d ;;
  dc <- rd_dc d ;;
  when (negb (dc_flags dc =? 0)) (ERROR_RUNLOCK_DC d EMOLDCNOTRUN) ;;
  RUNLOCK_DC d ;;
  let nr := ENDPOINT_P ep in
  error_if ((nr <? - dc_nr_tasks dc) || (nr >=? dc_nr_procs dc)) EMOLRANGE ;;
  let p := NBR2PTR d dc nr in
  x <- rd p ;;
  error_if (bool_decide (p_task x = Some cur)) EMOLBADPROC ;;
  WLOCK_PROC p ;;
  when (negb (p_endpoint x =? ep)) (ERROR_WUNLOCK_PROC p EMOLENDPOINT) ;;
  when (rts BIT_SLOT_FREE x) (ERROR_WUNLOCK_PROC p EMOLDSTDIED) ;;
  when ((p_nodeid x <? 0) || (p_nodeid x >=? k_nr_nodes s)) (ERROR_WUNLOCK_PROC p EMOLBADNODEID) ;;
  when (negb (test_bit (p_nodeid x) (dc_nodes dc))) (ERROR_WUNLOCK_PROC p EMOLNODCNODE) ;;
  when (rts BIT_MIGRATE x) (ERROR_WUNLOCK_PROC p EMOLMIGRATE) ;;
  when (IT_IS_REMOTE x) (ERROR_WUNLOCK_PROC p EMOLRMTPROC) ;;
  if rts BIT_RECEIVING x && (p_getfrom x =? ANY) then
    wr p (fun x => (rts_clear BIT_RECEIVING x) <| p_getfrom := NONE |>) ;;
    y <- rd p ;;
    (if p_rts_flags y =? 0 then LOCAL_PROC_UP p EMOLWOKENUP
     else wr p (misc_set MIS_BIT_WOKENUP) ;; ERROR_WUNLOCK_PROC p EMOLPROCSTS) ;;
    WUNLOCK_PROC p ;;
    return_ OK
  else wr p (misc_set MIS_BIT_WOKENUP) ;; ERROR_WUNLOCK_PROC p EMOLPROCRUN.
