(* ===== verification/Bind.v ===== *)
(** * Binding processes and proxies ([mm_hyper.c], [mm_utils.c])

    [mm_bind] gives a Linux task, or a process of another node, a slot of the
    process table of a data container; [mm_getep] finds the endpoint of a
    task; [mm_unbind] frees the slot; [mm_proxies_bind], [mm_proxy_conn] and
    [mm_proxies_unbind] manage the two processes of a pair of proxies, and
    flush the processes that wait for a node that is gone. *)

From S2P Require Import Prelude Types Endpoint Kernel Utils Unbind Hyper.

Definition SELF_BIND : Z := 0.
Definition LCL_BIND : Z := 1.
Definition RMT_BIND : Z := 2.
Definition BKUP_BIND : Z := 3.
Definition REPLICA_BIND : Z := 4.
Definition CONNECT_SPROXY : Z := 1.
Definition CONNECT_RPROXY : Z := 2.
Definition DISCONNECT_SPROXY : Z := 3.
Definition DISCONNECT_RPROXY : Z := 4.
Definition PID_MAX : Z := 32768.

(** ** [mm_bind] *)

(** The node of the process, by the kind of operation. *)
Definition bind_node (oper n : Z) : M Z :=
  s <- get ;;
  if (oper =? SELF_BIND) || (oper =? LCL_BIND) || (oper =? REPLICA_BIND) then
    error_if (negb (n =? LOCALNODE)) EMOLBADNODEID ;; mret (k_local_nodeid s)
  else if (oper =? RMT_BIND) || (oper =? BKUP_BIND) then
    CHECK_NODEID n ;;
    error_if (n =? k_local_nodeid s) EMOLBADNODEID ;; mret n
  else return_ EMOLBINDTYPE.

Definition bind_status (n nr : Z) (dc : dc_t) : Z :=
  if negb (dc_flags dc =? 0) then EMOLDCNOTRUN
  else if (nr <? - dc_nr_tasks dc) || (nr >=? dc_nr_procs dc) then EMOLBADDCID
  else if negb (test_bit n (dc_nodes dc)) then EMOLNODCNODE
  else OK.

(** The task [pid]; the process and the DC are locked, and unlocked on error. *)
Definition bind_task (cur oper d pid : Z) (p : ptr) : M Z :=
  t <- rd_task cur ;;
  s <- get ;;
  if pid =? cur then mret cur
  else if (oper =? SELF_BIND) && negb (t_tgid t =? pid)
  then WUNLOCK_PROC p ;; ERROR_RUNLOCK_DC d EMOLBADPROC
  else match k_tasks s !! pid with
       | None => WUNLOCK_PROC p ;; ERROR_RUNLOCK_DC d EMOLBADPROC
       | Some _ => mret pid
       end.

(** A thread can be bound only to the DC of its group leader. *)
Definition bind_leader (d pid : Z) (p : ptr) : M unit :=
  t <- rd_task pid ;;
  if bool_decide (t_leader t = Some pid) then mret tt
  else
    match t_leader t with
    | None => faults F_NULL_POINTER
    | Some l =>
        WLOCK_TASK l ;;
        lt <- rd_task l ;;
        match task_proc lt with
        | None => WUNLOCK_TASK l ;; WUNLOCK_PROC p ;; WUNLOCK_TASK pid ;; ERROR_RUNLOCK_DC d EMOLGRPLEADER
        | Some q =>
            RLOCK_PROC q ;;
            y <- rd q ;;
            when (negb (p_dcid y =? d))
              (RUNLOCK_PROC q ;; WUNLOCK_TASK l ;; WUNLOCK_PROC p ;; WUNLOCK_TASK pid ;;
               ERROR_RUNLOCK_DC d EMOLBADPROC) ;;
            RUNLOCK_PROC q ;;
            WUNLOCK_TASK l
        end
    end.

(** The identifier of a system process is its slot. *)
Definition bind_id (dc : dc_t) (i : Z) : Z :=
  if i <? dc_nr_sysprocs dc then i else dc_nr_sysprocs dc.

Definition bind_flags (oper n local pid sid : Z) (leader : bool) (x : proc) : proc :=
  let x1 := if leader then x <| p_misc_flags := MIS_GRPLEADER |> else x in
  let x2 := if oper =? BKUP_BIND then
      x1 <| p_rts_flags := REMOTE |> <| p_misc_flags ::= fun m => Z.lor m MIS_RMTBACKUP |>
         <| p_nodeid := n |>
    else
      let y := x1 <| p_rts_flags := PROC_RUNNING |> <| p_nodeid := local |> in
      if oper =? REPLICA_BIND then y <| p_misc_flags ::= fun m => Z.lor m MIS_REPLICATED |> else y in
  x2 <| p_lpid := pid |> <| s_id := sid |>.

Definition bind_local (cur oper d pid n : Z) (dc : dc_t) (p : ptr) (i : Z) : M (option Z) :=
  tid <- bind_task cur oper d pid p ;;
  WUNLOCK_PROC p ;;
  WLOCK_TASK tid ;;
  WLOCK_PROC p ;;
  bind_leader d tid p ;;
  get_task_struct tid ;;
  wr p (fun x => x <| p_task := Some tid |>) ;;
  wr_task tid (fun t => t <| task_proc := Some p |>) ;;
  t <- rd_task tid ;;
  s <- get ;;
  wr p (bind_flags oper n (k_local_nodeid s) pid (bind_id dc i)
          (bool_decide (t_leader t = Some tid))) ;;
  mret (Some tid).

(** The status found for the proxies is overwritten by that of the unlock. *)
Definition bind_remote (cur d n : Z) (dc : dc_t) (p : ptr) (i : Z) : M (option Z) :=
  nd <- rd_node n ;;
  rc <- lock_sr_proxies cur (n_proxies nd) ;;
  when (rc =? OK) (rd (RPROXY (n_proxies nd)) ;; rd (SPROXY (n_proxies nd)) ;; mret tt) ;;
  rc <- unlock_sr_proxies cur (n_proxies nd) ;;
  when (negb (rc =? OK)) (WUNLOCK_PROC p ;; ERROR_RUNLOCK_DC d EMOLNOPROXY) ;;
  wr p (fun x => x <| p_rts_flags := REMOTE |> <| p_nodeid := n |> <| s_id := bind_id dc i |>) ;;
  mret None.

(** The task that waits in [mm_wait4bind] is woken; that changes no state of
    the model.  [task] is the one to unlock at the end. *)
Definition mm_bind (cur oper d pid ep n : Z) : handler :=
  check_root cur ;;
  check_dvs ;;
  n <- bind_node oper n ;;
  let nr := ENDPOINT_P ep in
  CHECK_DCID d ;;
  RLOCK_DC d ;;
  dc <- rd_dc d ;;
  let rc := bind_status n nr dc in
  when (negb (rc =? OK)) (ERROR_RUNLOCK_DC d rc) ;;
  let i := nr + dc_nr_tasks dc in
  let p := DC_PROC d i in
  WLOCK_PROC p ;;
  x <- rd p ;;
  when (negb (rts BIT_SLOT_FREE x) && negb (oper =? BKUP_BIND) && negb (oper =? REPLICA_BIND))
    (WUNLOCK_PROC p ;; ERROR_RUNLOCK_DC d EMOLSLOTUSED) ;;
  init_proc_desc p d i ;;
  task <- (if negb (oper =? RMT_BIND) then bind_local cur oper d pid n dc p i
           else bind_remote cur d n dc p i) ;;
  wr p (fun x => x <| p_nodemap ::= set_bit (p_nodeid x) |>) ;;
  y <- rd p ;;
  WUNLOCK_PROC p ;;
  match task with Some t => WUNLOCK_TASK t | None => mret tt end ;;
  DC_INCREF d ;;
  RUNLOCK_DC d ;;
  return_ (p_endpoint y).

(** What [mm_bind] with [LCL_BIND] does to a free slot: the descriptor [x] is [y]
    afterwards and [rc] is returned.  Nothing writes the endpoint. *)
Definition bind_outcome (x y : proc) (rc : Z) : Prop :=
  p_endpoint y = p_endpoint x /\
  (rc < 0 /\ p_rts_flags y = SLOT_FREE \/
   rc = p_endpoint x /\ p_rts_flags y = PROC_RUNNING /\ misc MIS_BIT_KILLED y = false).

(** ** [mm_getep] *)

Definition getep_status (pid : Z) (x : proc) : Z :=
  if negb (pid =? p_lpid x) then EMOLBADPID
  else if rts BIT_SLOT_FREE x then EMOLNOTBIND
  else if misc MIS_BIT_PROXY x then EMOLBADPROC
  else OK.

Definition mm_getep (cur : Z) (cl : call) (pid : Z) : handler :=
  check_dvs ;;
  error_if ((pid <? 1) || (pid >? PID_MAX)) EMOLBADRANGE ;;
  cp <- check_caller cur cl ;;
  p <- (if negb (snd cp =? pid) then
          s <- get ;;
          match k_tasks s !! pid with
          | None => return_ EMOLBADPID
          | Some t => match task_proc t with None => return_ EMOLNOTBIND | Some p => mret p end
          end
        else mret (fst cp)) ;;
  RLOCK_PROC p ;;
  x <- rd p ;;
  let ret := getep_status pid x in
  when (negb (ret =? OK)) (ERROR_RUNLOCK_PROC p ret) ;;
  RUNLOCK_PROC p ;;
  RLOCK_DC (p_dcid x) ;;
  dc <- rd_dc (p_dcid x) ;;
  RUNLOCK_DC (p_dcid x) ;;
  error_if (negb (dc_flags dc =? 0)) EMOLDCNOTRUN ;;
  return_ (p_endpoint x).

(** ** Reading the tables

    The result, and what is copied to user space; [rc] is the result of
    [copy_to_user].  A caller that is not bound can name the entry. *)

Definition dvs_of (s : kstate) : dvs_usr :=
  mk_dvs (k_nr_dcs s) (k_nr_nodes s) (k_nr_procs s) (k_nr_tasks s) (k_nr_sysprocs s)
    (k_max_copybuf s) (k_max_copylen s).

Definition mm_getdvsinfo (cur rc : Z) : M (Z * dvs_usr) :=
  check_root cur ;;
  lock_ L_DVS ;;
  s <- get ;;
  unlock_ L_DVS ;;
  error_if (negb (rc =? OK)) rc ;;
  mret (k_local_nodeid s, dvs_of s).

(** [PROC_NO_PID] stands for the entry of the caller; [bad] is the error of an
    unbound caller, given the error of [check_caller]. *)
Definition own_entry (cur : Z) (cl : call) (i : Z) (field : proc -> Z) (bad : Z -> Z) : M Z :=
  r <- catch (check_caller cur cl) ;;
  if i =? PROC_NO_PID then
    match r with
    | inl rc => return_ (bad rc)
    | inr (c, _) => x <- rd c ;; mret (field x)
    end
  else mret i.

Definition mm_getdcinfo (cur : Z) (cl : call) (d rc : Z) : M (Z * dc_t) :=
  check_dvs ;;
  check_root cur ;;
  d <- own_entry cur cl d p_dcid (fun _ => EMOLBADDCID) ;;
  CHECK_DCID d ;;
  RLOCK_DC d ;;
  dc <- rd_dc d ;;
  RUNLOCK_DC d ;;
  mret (rc, dc).

Definition mm_getnodeinfo (cur : Z) (cl : call) (n rc : Z) : M (Z * node_t) :=
  check_root cur ;;
  check_dvs ;;
  n <- own_entry cur cl n p_nodeid (fun _ => EMOLBADNODEID) ;;
  CHECK_NODEID n ;;
  RLOCK_NODE n ;;
  nd <- rd_node n ;;
  RUNLOCK_NODE n ;;
  mret (rc, nd).

Definition mm_getprocinfo (cur : Z) (cl : call) (d nr rc : Z) : M (Z * proc) :=
  check_root cur ;;
  check_dvs ;;
  d <- own_entry cur cl d p_dcid (fun rc => rc) ;;
  CHECK_DCID d ;;
  RLOCK_DC d ;;
  dc <- rd_dc d ;;
  when (negb (dc_flags dc =? 0)) (ERROR_RUNLOCK_DC d EMOLDCNOTRUN) ;;
  when ((nr <? - dc_nr_tasks dc) || (nr >=? dc_nr_procs dc)) (ERROR_RUNLOCK_DC d EMOLBADPROC) ;;
  RUNLOCK_DC d ;;
  let p := NBR2PTR d dc nr in
  RLOCK_PROC p ;;
  x <- rd p ;;
  RUNLOCK_PROC p ;;
  mret (rc, x).

(** The results of the two copies are overwritten by that of the unlock. *)
Definition mm_getproxyinfo (cur px : Z) : M (Z * (proc * proc)) :=
  rc <- lock_sr_proxies cur px ;;
  error_if (negb (rc =? OK)) rc ;;
  sp <- rd (SPROXY px) ;;
  rp <- rd (RPROXY px) ;;
  rc <- unlock_sr_proxies cur px ;;
  error_if (negb (rc =? OK)) rc ;;
  mret (rc, (sp, rp)).
