(* ===== verification/Proxies.v ===== *)
(** * Unbinding processes; pairs of proxies ([mm_hyper.c], [mm_utils.c])

    [mm_unbind] frees the slot of a process.  A pair of proxies is bound to two
    tasks with [mm_proxies_bind], says with [mm_proxy_conn] whether it is
    connected to the other node, and is given up with [mm_proxies_unbind].
    When a proxy goes away the processes that wait for its nodes are woken with
    an error ([flush_sending_procs], [flush_receiving_procs]) and the nodes are
    ended ([do_node_end]). *)

From S2P Require Import Prelude Types Endpoint Kernel Utils Unbind Hyper Bind.

(** ** [mm_unbind] *)

Definition LIST_ADD_TAIL_U (x h : ptr) : M unit :=
  wr h (fun p => p <| p_ulist ::= fun l => l ++ [x] |>) ;;
  wr x (fun p => p <| p_ulink := Some h |>).

(** What is wrong with a process [x] to unbind. *)
Definition unbind_status (nr_nodes : Z) (dc : dc_t) (x : proc) : Z :=
  if rts BIT_SLOT_FREE x then EMOLNOTBIND
  else if (p_nodeid x <? 0) || (p_nodeid x >=? nr_nodes) then EMOLBADNODEID
  else if negb (test_bit (p_nodeid x) (dc_nodes dc)) then EMOLNODCNODE
  else OK.

Definition lock_task (t : option Z) : M unit :=
  match t with None => faults F_NULL_POINTER | Some t => WLOCK_TASK t end.

Definition unlock_task (t : option Z) : M unit :=
  match t with None => faults F_NULL_POINTER | Some t => WUNLOCK_TASK t end.

(** The task of the process, locked; on entry the current task and the process
    [p] are locked. *)
Definition unbind_target (cur : Z) (tk : task_t) (p : ptr) (x : proc) : M (option Z) :=
  if negb (IT_IS_LOCAL x) then WUNLOCK_TASK cur ;; RUNLOCK_PROC p ;; mret None
  else if bool_decide (task_proc tk = Some p) then
    if negb (cur =? p_lpid x) then
      if negb (t_tgid tk =? p_lpid x) then WUNLOCK_TASK cur ;; ERROR_RUNLOCK_PROC p EMOLNOTBIND
      else RUNLOCK_PROC p ;; WUNLOCK_TASK cur ;; lock_task (p_task x) ;; mret (p_task x)
    else
      RUNLOCK_PROC p ;;
      when (bool_decide (p_task x <> Some cur)) (WUNLOCK_TASK cur ;; return_ EMOLPROCSTS) ;;
      mret (p_task x)
  else
    RUNLOCK_PROC p ;;
    WUNLOCK_TASK cur ;;
    error_if (bool_decide (p_task x = None)) EMOLNOTBIND ;;
    lock_task (p_task x) ;;
    mret (p_task x).

(** [sleep_proc(caller_ptr, timeout_ms)], which unlocks the caller. *)
Definition unbind_sleep {A} (c : ptr) (timeout : Z) : M A :=
  if timeout =? TIMEOUT_NOWAIT then
    wr c (fun x => need_migr x <| p_rcode := EMOLAGAIN |>) ;;
    x <- rd c ;;
    return_ (p_rcode x)
  else
    wr c (fun x => x <| p_pseudosem := -1 |> <| p_rcode := OK |>) ;;
    WUNLOCK_PROC c ;;
    leave (X_WAIT (W_UNBIND c timeout)).

(** [do_unbind] failed: the process was only told to unbind. *)
Definition unbind_failed (cur d timeout ret : Z) (caller : option ptr) (p : ptr) (t : option Z)
    : handler :=
  y <- rd p ;;
  when (IT_IS_LOCAL y)
    (unlock_task t ;;
     match caller with
     | Some c =>
         when ((ret =? EMOLAGAIN) && bool_decide (c <> p))
           (wr c (fun x => x <| p_ulink := None |>) ;;
            LIST_ADD_TAIL_U c p ;;
            wr c (fun x => x <| p_waitunbind := p_endpoint y |>) ;;
            WUNLOCK_PROC p ;;
            WUNLOCK_DC d ;;
            wr c (rts_set BIT_WAITUNBIND) ;;
            unbind_sleep c timeout)
     | None => mret tt
     end) ;;
  WUNLOCK_PROC p ;;
  WUNLOCK_DC d ;;
  return_ ret.

(** [do_unbind] succeeded; a task that is not the process itself waits for it
    to be gone. *)
Definition unbind_done (cur d n : Z) (caller : option ptr) (p : ptr) (t : option Z) : handler :=
  s <- get ;;
  if k_local_nodeid s =? n then
    if bool_decide (caller <> Some p) then
      WUNLOCK_PROC p ;;
      WUNLOCK_DC d ;;
      unlock_task t ;;
      match caller, t with
      | Some c, Some other =>
          y <- rd p ;;
          if other =? p_lpid y then leave (X_WAIT (W_TARGET c p other)) else return_ OK
      | _, _ => return_ OK
      end
    else unlock_task t ;; WUNLOCK_PROC p ;; WUNLOCK_DC d ;; return_ OK
  else WUNLOCK_PROC p ;; WUNLOCK_DC d ;; return_ OK.

(** [ENDPOINT2PTR] uses the slot of the endpoint; the endpoint itself is not
    compared. *)
Definition mm_unbind (sig cur d ep timeout : Z) : handler :=
  check_root cur ;;
  check_dvs ;;
  CHECK_DCID d ;;
  RLOCK_DC d ;;
  dc <- rd_dc d ;;
  when (negb (dc_flags dc =? 0)) (ERROR_RUNLOCK_DC d EMOLDCNOTRUN) ;;
  let nr := ENDPOINT_P ep in
  when ((nr <? - dc_nr_tasks dc) || (nr >=? dc_nr_procs dc)) (ERROR_RUNLOCK_DC d EMOLENDPOINT) ;;
  let p := ENDPOINT2PTR d dc ep in
  WLOCK_TASK cur ;;
  RLOCK_PROC p ;;
  RUNLOCK_DC d ;;
  x <- rd p ;;
  s <- get ;;
  let st := unbind_status (k_nr_nodes s) dc x in
  when (negb (st =? OK)) (WUNLOCK_TASK cur ;; ERROR_RUNLOCK_PROC p st) ;;
  tk <- rd_task cur ;;
  t <- unbind_target cur tk p x ;;
  WLOCK_DC d ;;
  WLOCK_PROC p ;;
  r <- catch (do_unbind sig cur d p) ;;
  match r with
  | inl ret =>
      if negb (ret =? OK) then unbind_failed cur d timeout ret (task_proc tk) p t
      else unbind_done cur d (p_nodeid x) (task_proc tk) p t
  | inr _ => unbind_done cur d (p_nodeid x) (task_proc tk) p t
  end.

(** ** Binding a pair of proxies *)

(** One process of the pair, bound to the task [t]. *)
Definition proxy_desc (px t n : Z) (x : proc) : proc :=
  misc_set MIS_BIT_PROXY
    (x <| p_task := Some t |> <| p_rts_flags := PROC_RUNNING |> <| p_nr := px |>
       <| p_endpoint := NONE |> <| p_nodeid := n |> <| p_lpid := t |> <| s_level := PROXY_PRIV |>
       <| p_rmtsent := 0 |>).

Definition bind_proxy (p : ptr) (px t : Z) : M unit :=
  WLOCK_TASK t ;;
  init_proc_desc p PROXY_NO_DC px ;;
  wr_task t (fun tk => tk <| task_proc := Some p |>) ;;
  get_task_struct t ;;
  s <- get ;;
  wr p (proxy_desc px t (k_local_nodeid s)) ;;
  WUNLOCK_TASK t.

Definition mm_proxies_bind (cur px spid rpid maxbytes : Z) : handler :=
  check_root cur ;;
  check_dvs ;;
  CHECK_NODEID px ;;
  s <- get ;;
  error_if (bool_decide (k_tasks s !! spid = None) || bool_decide (k_tasks s !! rpid = None))
    EMOLBADPID ;;
  CHECK_PROXYID px ;;
  WLOCK_PROXY px ;;
  x <- rd_proxies px ;;
  when (negb (px_flags x =? PROXIES_FREE)) (WUNLOCK_PROXY px ;; return_ EMOLRSCBUSY) ;;
  when (maxbytes >? MAXCOPYBUF) (WUNLOCK_PROXY px ;; return_ EMOL2BIG) ;;
  wr_proxies px (fun x => x <| px_maxbytes := maxbytes |>) ;;
  WLOCK_PROC (RPROXY px) ;;
  WLOCK_PROC (SPROXY px) ;;
  bind_proxy (SPROXY px) px spid ;;
  bind_proxy (RPROXY px) px rpid ;;
  wr_proxies px (fun x => x <| px_flags := PROXIES_INUSE |>) ;;
  KREF_GET ;;
  WUNLOCK_PROC (SPROXY px) ;;
  WUNLOCK_PROC (RPROXY px) ;;
  WUNLOCK_PROXY px ;;
  return_ OK.

(** The same for proxies that are kernel threads.  [umsg] is the buffer
    allocated for the receiver's messages, 0 when there is no memory: the pair
    is bound all the same. *)
Definition bind_kproxy (p : ptr) (px t : Z) (f : proc -> proc) : M unit :=
  WLOCK_TASK t ;;
  init_proc_desc p PROXY_NO_DC px ;;
  wr_task t (fun tk => tk <| task_proc := Some p |>) ;;
  get_task_struct t ;;
  s <- get ;;
  wr p (fun x => misc_set MIS_BIT_KTHREAD (f (proxy_desc px t (k_local_nodeid s) x))) ;;
  WUNLOCK_TASK t.

Definition k_proxies_bind (cur px spid rpid maxbytes umsg : Z) : handler :=
  check_root cur ;;
  check_dvs ;;
  CHECK_NODEID px ;;
  s <- get ;;
  error_if (bool_decide (k_tasks s !! spid = None) || bool_decide (k_tasks s !! rpid = None))
    EMOLBADPID ;;
  CHECK_PROXYID px ;;
  WLOCK_PROXY px ;;
  x <- rd_proxies px ;;
  when (negb (px_flags x =? PROXIES_FREE)) (WUNLOCK_PROXY px ;; return_ EMOLRSCBUSY) ;;
  when (maxbytes >? MAXCOPYBUF) (WUNLOCK_PROXY px ;; return_ EMOL2BIG) ;;
  wr_proxies px (fun x => x <| px_maxbytes := maxbytes |>) ;;
  WLOCK_PROC (RPROXY px) ;;
  WLOCK_PROC (SPROXY px) ;;
  bind_kproxy (SPROXY px) px spid id ;;
  bind_kproxy (RPROXY px) px rpid (fun x => x <| p_umsg := umsg |>) ;;
  wr_proxies px (fun x => x <| px_flags := PROXIES_INUSE |>) ;;
  KREF_GET ;;
  WUNLOCK_PROC (SPROXY px) ;;
  WUNLOCK_PROC (RPROXY px) ;;
  WUNLOCK_PROXY px ;;
  return_ (if umsg =? 0 then EMOLALLOCMEM else OK).

(** ** Waking the processes that wait for a node *)

(** A local process that was sending the command [c_cmd]; [None] when the
    command is not one of the list, which does not have [CMD_COPYOUT_RQST]. *)
Definition flush_cmd (x : proc) : option proc :=
  let cmd := c_cmd (p_rmtcmd x) in
  if cmd =? CMD_SNDREC_MSG then
    Some (rts_clear BIT_SENDING (rts_clear BIT_RECEIVING x <| p_getfrom := NONE |>)
            <| p_sendto := NONE |>)
  else if (cmd =? CMD_SEND_MSG) || (cmd =? CMD_NTFY_MSG) || (cmd =? CMD_REPLY_MSG) then
    Some (rts_clear BIT_SENDING x <| p_sendto := NONE |>)
  else if (cmd =? CMD_COPYIN_DATA) || (cmd =? CMD_COPYIN_RQST) || (cmd =? CMD_COPYLCL_RQST)
       || (cmd =? CMD_COPYRMT_RQST) then
    Some (if rts BIT_ONCOPY x && (p_endpoint x =? v_rqtr (cu_vcopy (p_rmtcmd x)))
          then rts_clear BIT_ONCOPY x else x)
  else None.

(** The processes [l] on the queue of the sender proxy that wait for [n].  On
    entry and on exit the proxy is locked. *)
Fixpoint flush_senders (n : Z) (sp : ptr) (l : list ptr) : M Z :=
  match l with
  | [] => mret OK
  | src :: l =>
      WUNLOCK_PROC sp ;;
      WLOCK_PROC src ;;
      x <- rd src ;;
      if negb (c_dnode (p_rmtcmd x) =? n) then
        WUNLOCK_PROC src ;; WLOCK_PROC sp ;; flush_senders n sp l
      else
        WLOCK_PROC sp ;;
        LIST_DEL_P src ;;
        wr src (fun x => rts_clear BIT_RMTOPER (x <| p_proxy := NONE |>)) ;;
        y <- rd src ;;
        if IT_IS_REMOTE y then
          wr src (fun x => x <| p_rts_flags := REMOTE |> <| p_getfrom := NONE |> <| p_sendto := NONE |>) ;;
          WUNLOCK_PROC src ;;
          flush_senders n sp l
        else
          match flush_cmd y with
          | None => WUNLOCK_PROC src ;; mret EMOLBADREQUEST
          | Some z =>
              wr src (fun _ => z) ;;
              when (p_rts_flags z =? 0) (LOCAL_PROC_UP src EMOLNOTCONN) ;;
              WUNLOCK_PROC src ;;
              flush_senders n sp l
          end
  end.

Definition flush_sending_procs (n : Z) (sp : ptr) : M Z :=
  x <- rd sp ;; flush_senders n sp (p_list x).

(** One bit of a process that waits for node [n]: [waits] tells whether it does. *)
Definition flush_bit (bit : Z) (p : ptr) (waits : bool) : M unit :=
  when waits
    (wr p (rts_clear bit) ;;
     x <- rd p ;;
     when (p_rts_flags x =? PROC_RUNNING) (LOCAL_PROC_UP p EMOLNOTCONN)).

(** Whether the endpoint [ep] names a process of node [n]. *)
Definition names_node (d n : Z) (dc : dc_t) (ep : Z) : M bool :=
  if (ep =? ANY) || (ep =? NONE) then mret false
  else y <- rd (ENDPOINT2PTR d dc ep) ;; mret (n =? p_nodeid y).

Definition flush_receiver (d n : Z) (dc : dc_t) (i : Z) : M unit :=
  let p := DC_PROC d i in
  x <- rd p ;;
  if rts BIT_SLOT_FREE x || IT_IS_REMOTE x then mret tt
  else
    wr p (fun x => x <| p_rcode := EMOLNOTCONN |>) ;;
    x <- rd p ;;
    (if rts BIT_RECEIVING x then w <- names_node d n dc (p_getfrom x) ;; flush_bit BIT_RECEIVING p w
     else mret tt) ;;
    x <- rd p ;;
    (if rts BIT_SENDING x then w <- names_node d n dc (p_sendto x) ;; flush_bit BIT_SENDING p w
     else mret tt) ;;
    x <- rd p ;;
    flush_bit BIT_ONCOPY p
      (rts BIT_ONCOPY x && (p_endpoint x =? v_rqtr (cu_vcopy (p_rmtcmd x)))
       && (n =? c_dnode (p_rmtcmd x))).

Definition slots (dc : dc_t) : nat := Z.to_nat (dc_nr_tasks dc + dc_nr_procs dc).

Definition LOCK_ALL_PROCS (d : Z) (dc : dc_t) : M unit :=
  for_each (slots dc) 0 (fun i => WLOCK_PROC (DC_PROC d i)).
Definition UNLOCK_ALL_PROCS (d : Z) (dc : dc_t) : M unit :=
  for_each (slots dc) 0 (fun i => WUNLOCK_PROC (DC_PROC d i)).

Definition flush_dc (n : Z) (rp : ptr) (d : Z) : M unit :=
  RLOCK_DC d ;;
  dc <- rd_dc d ;;
  if negb (dc_flags dc =? 0) then RUNLOCK_DC d
  else
    WUNLOCK_PROC rp ;;
    LOCK_ALL_PROCS d dc ;;
    WLOCK_PROC rp ;;
    for_each (slots dc) 0 (flush_receiver d n dc) ;;
    WUNLOCK_PROC rp ;;
    UNLOCK_ALL_PROCS d dc ;;
    RUNLOCK_DC d ;;
    WLOCK_PROC rp.

Definition flush_receiving_procs (n : Z) (rp : ptr) : M unit :=
  s <- get ;; for_each (Z.to_nat (k_nr_dcs s)) 0 (flush_dc n rp).

(** ** [mm_proxy_conn] *)

(** [for (i...) if (test_bit(i, map)) ...], with the lock of the node around [f]. *)
Definition for_nodes (map : Z) (before : Z -> M unit) (f : node_t -> node_t) : M unit :=
  s <- get ;;
  for_each (Z.to_nat (k_nr_nodes s)) 0 (fun i =>
    when (test_bit i map) (before i ;; WLOCK_NODE i ;; wr_node i f ;; WUNLOCK_NODE i)).

Definition conn_change (px status : Z) (sp rp : proc) : M Z :=
  if status =? DISCONNECT_SPROXY then
    wr_proxies px (fun x => x <| px_flags ::= clear_bit PX_BIT_SCONNECTED |>) ;;
    wr (SPROXY px) (misc_clear MIS_BIT_CONNECTED) ;;
    for_nodes (p_nodemap sp) (fun i => flush_sending_procs i (SPROXY px) ;; mret tt)
      (fun nd => nd <| n_flags ::= clear_bit NODE_BIT_SCONNECTED |>) ;;
    mret OK
  else if status =? DISCONNECT_RPROXY then
    wr_proxies px (fun x => x <| px_flags ::= clear_bit PX_BIT_RCONNECTED |>) ;;
    wr (RPROXY px) (misc_clear MIS_BIT_CONNECTED) ;;
    for_nodes (p_nodemap rp) (fun i => flush_receiving_procs i (RPROXY px))
      (fun nd => nd <| n_flags ::= clear_bit NODE_BIT_RCONNECTED |>) ;;
    mret OK
  else if status =? CONNECT_SPROXY then
    wr_proxies px (fun x => x <| px_flags ::= set_bit PX_BIT_SCONNECTED |>) ;;
    wr (SPROXY px) (misc_set MIS_BIT_CONNECTED) ;;
    for_nodes (p_nodemap sp) (fun _ => mret tt)
      (fun nd => nd <| n_flags ::= set_bit NODE_BIT_SCONNECTED |>) ;;
    mret OK
  else if status =? CONNECT_RPROXY then
    wr_proxies px (fun x => x <| px_flags ::= set_bit PX_BIT_RCONNECTED |>) ;;
    wr (RPROXY px) (misc_set MIS_BIT_CONNECTED) ;;
    for_nodes (p_nodemap rp) (fun _ => mret tt)
      (fun nd => nd <| n_flags ::= set_bit NODE_BIT_RCONNECTED |>) ;;
    mret OK
  else mret EMOLBADVALUE.

Definition mm_proxy_conn (cur px status : Z) : handler :=
  ret <- lock_sr_proxies cur px ;;
  error_if (negb (ret =? OK)) ret ;;
  sp <- rd (SPROXY px) ;;
  rp <- rd (RPROXY px) ;;
  rcode <- (if (p_rts_flags sp =? SLOT_FREE) || (p_rts_flags rp =? SLOT_FREE) then mret EMOLNOPROXY
            else conn_change px status sp rp) ;;
  ret <- unlock_sr_proxies cur px ;;
  error_if (negb (ret =? OK)) ret ;;
  return_ rcode.

(** The entry for kernel proxies repeats the code of [mm_proxy_conn]. *)
Definition k_proxy_conn (cur px status : Z) : handler := mm_proxy_conn cur px status.

(** ** Ending a node, and giving up a pair of proxies *)

(** The result of [do_unbind] is not used. *)
Definition node_end_slot (sig cur d n i : Z) : M unit :=
  let p := DC_PROC d i in
  WLOCK_PROC p ;;
  x <- rd p ;;
  (if IT_IS_REMOTE x && (p_nodeid x =? n) then catch (do_unbind sig cur d p) ;; mret tt
   else mret tt) ;;
  WUNLOCK_PROC p.

Definition node_end_dc (sig cur n d : Z) : M unit :=
  WLOCK_DC d ;;
  dc <- rd_dc d ;;
  when (negb (dc_flags dc =? DC_FREE))
    (for_each (slots dc) 0 (node_end_slot sig cur d n) ;;
     wr_dc d (fun dc => dc <| dc_nodes ::= clear_bit n |>)) ;;
  WUNLOCK_DC d.

Definition do_node_end (sig cur n : Z) : M unit :=
  nd <- rd_node n ;;
  s <- get ;;
  for_each (Z.to_nat (k_nr_dcs s)) 0 (node_end_dc sig cur (n_nodeid nd)) ;;
  wr_node n clear_node.

(** The two proxies: the one that ends and the other. *)
Definition proxy_of (sender : bool) (px : Z) : ptr := if sender then SPROXY px else RPROXY px.

(** The nodes of the pair lose the connection of the proxy that ends. *)
Definition proxy_nodes (sig cur : Z) (sender : bool) (px : Z) (i : Z) : M unit :=
  x <- rd (proxy_of sender px) ;;
  when (test_bit i (p_nodemap x))
    (wr (SPROXY px) (fun x => x <| p_nodemap ::= clear_bit i |>) ;;
     wr (RPROXY px) (fun x => x <| p_nodemap ::= clear_bit i |>) ;;
     (if sender then flush_sending_procs i (SPROXY px) ;; mret tt
      else flush_receiving_procs i (RPROXY px)) ;;
     WLOCK_NODE i ;;
     wr_node i (fun nd => nd <| n_flags ::=
       clear_bit (if sender then NODE_BIT_SCONNECTED else NODE_BIT_RCONNECTED) |>) ;;
     nd <- rd_node i ;;
     when (negb (test_bit (if sender then NODE_BIT_RCONNECTED else NODE_BIT_SCONNECTED) (n_flags nd)))
       (do_node_end sig cur i) ;;
     WUNLOCK_NODE i).

(** The other proxy is told to end, and waited for: on a wait queue of the
    stack, so that only the identifier in its descriptor is looked at. *)
Definition stop_other (sender : bool) (px : Z) (task : Z) : M unit :=
  let other := proxy_of (negb sender) px in
  y <- rd other ;;
  match p_task y with
  | None => mret tt
  | Some _ =>
      when (negb (p_rts_flags y =? 0))
        (wr other (fun x => x <| p_rts_flags := 0 |>) ;; LOCAL_PROC_UP other EMOLSHUTDOWN) ;;
      WUNLOCK_PROC other ;;
      leave (X_WAIT (W_PROXY sender px task (p_lpid y)))
  end.

(** The end of [do_proxies_unbind]: the pair is free. *)
Definition proxies_free (px : Z) : M Z :=
  KREF_PUT ;;
  WLOCK_PROXY px ;;
  x <- rd_proxies px ;;
  if px_flags x =? PROXIES_FREE then WUNLOCK_PROXY px ;; mret EMOLNOPROXY
  else
    wr_proxies px (fun x => x <| px_flags := PROXIES_FREE |>) ;;
    WUNLOCK_PROXY px ;;
    mret OK.

Definition do_proxies_unbind (sig cur : Z) (sender : bool) (px : Z) : M Z :=
  let p := proxy_of sender px in
  x <- rd p ;;
  s <- get ;;
  for_each (Z.to_nat (k_nr_nodes s)) 0 (proxy_nodes sig cur sender (p_nr x)) ;;
  lock_task (p_task x) ;;
  match p_task x with
  | None => faults F_NULL_POINTER
  | Some t =>
      mm_put_task_struct t ;;
      init_proc_desc p PROXY_NO_DC (p_nr x) ;;
      stop_other sender (p_nr x) t ;;
      WUNLOCK_TASK t ;;
      proxies_free (p_nr x)
  end.

(** After the wait for the other proxy. *)
Definition resume_proxies_unbind (sender : bool) (px task : Z) : M Z :=
  WLOCK_PROC (proxy_of (negb sender) px) ;;
  WUNLOCK_TASK task ;;
  proxies_free px.

Definition mm_proxies_unbind (sig cur px : Z) : handler :=
  ret <- lock_sr_proxies cur px ;;
  error_if (negb (ret =? OK)) ret ;;
  do_proxies_unbind sig cur true px ;;
  ret <- unlock_sr_proxies cur px ;;
  error_if (negb (ret =? OK)) ret ;;
  return_ OK.

(** ** Ending a data container *)

Definition local_or_backup (x : proc) : bool := IT_IS_LOCAL x || misc MIS_BIT_RMTBACKUP x.

(** Local processes get a [SIGKILL]; the others are unbound, and the result of
    that is not used. *)
Definition dc_end_slot (sig cur d i : Z) : M unit :=
  let p := DC_PROC d i in
  WLOCK_PROC p ;;
  x <- rd p ;;
  (if negb (rts BIT_SLOT_FREE x) && negb (local_or_backup x)
   then catch (do_unbind sig cur d p) ;; mret tt
   else mret tt) ;;
  WUNLOCK_PROC p.

(** [while (!SLOT_FREE)]: a task that is still there is waited for with the DC
    unlocked, and the body does nothing for a remote process. *)
Definition dc_end_wait (d i : Z) : M unit :=
  let p := DC_PROC d i in
  RLOCK_PROC p ;;
  x <- rd p ;;
  when (negb (rts BIT_SLOT_FREE x))
    (if local_or_backup x then
       match p_task x with
       | None => faults F_NULL_POINTER
       | Some _ => RUNLOCK_PROC p ;; WUNLOCK_DC d ;; leave (X_WAIT (W_DCEND d i))
       end
     else faults F_DIVERGES) ;;
  RUNLOCK_PROC p.

(** The wait from slot [i] on, and the release. *)
Definition dc_end_tail (d : Z) (i : Z) : M Z :=
  dc <- rd_dc d ;;
  for_each (Z.to_nat (dc_nr_tasks dc + dc_nr_procs dc - i)) i (dc_end_wait d) ;;
  DC_DECREF d ;;
  KREF_PUT ;;
  mret OK.

Definition do_dc_end (sig cur d : Z) : M Z :=
  dc <- rd_dc d ;;
  if dc_flags dc =? DC_FREE then mret EMOLDCNOTRUN
  else for_each (slots dc) 0 (dc_end_slot sig cur d) ;; dc_end_tail d 0.

Definition mm_dc_end (sig cur d : Z) : handler :=
  check_root cur ;;
  check_dvs ;;
  CHECK_DCID d ;;
  WLOCK_DC d ;;
  dc <- rd_dc d ;;
  rcode <- (if negb (dc_flags dc =? DC_FREE) then do_dc_end sig cur d else mret EMOLDCNOTRUN) ;;
  WUNLOCK_DC d ;;
  return_ rcode.

(** After the wait for the process of slot [i]. *)
Definition resume_dc_end (d i : Z) : handler :=
  WLOCK_DC d ;;
  rcode <- dc_end_tail d i ;;
  WUNLOCK_DC d ;;
  return_ rcode.

(** ** Ending the DVS *)

Definition dvs_end_dc (sig cur d : Z) : M unit :=
  WLOCK_DC d ;;
  dc <- rd_dc d ;;
  (if negb (dc_flags dc =? DC_FREE) then do_dc_end sig cur d ;; mret tt else mret tt) ;;
  WUNLOCK_DC d.

Definition dvs_end_node (sig cur local i : Z) : M unit :=
  if i =? local then mret tt else WLOCK_NODE i ;; do_node_end sig cur i ;; WUNLOCK_NODE i.

(** The pairs from [i] on; the first error ends the loop. *)
Fixpoint dvs_end_proxies (sig cur : Z) (n : nat) (i : Z) (rcode : Z) : M Z :=
  match n with
  | O => mret rcode
  | S n =>
      RLOCK_PROXY i ;;
      x <- rd_proxies i ;;
      RUNLOCK_PROXY i ;;
      if negb (px_flags x =? PROXIES_FREE) then
        rcode <- lock_sr_proxies cur i ;;
        if negb (rcode =? OK) then mret rcode
        else
          rcode <- do_proxies_unbind sig cur true i ;;
          if negb (rcode =? OK) then mret rcode
          else
            rcode <- unlock_sr_proxies cur i ;;
            if negb (rcode =? OK) then mret rcode else dvs_end_proxies sig cur n (i + 1) rcode
      else dvs_end_proxies sig cur n (i + 1) rcode
  end.

(** [do_dc_end] and [do_node_end] return [OK] here, so the loop over the pairs
    starts with that status. *)
Definition mm_dvs_end (sig cur : Z) : handler :=
  check_root cur ;;
  check_dvs ;;
  lock_ L_DVS ;;
  s <- get ;;
  for_each (Z.to_nat (k_nr_dcs s)) 0 (dvs_end_dc sig cur) ;;
  for_each (Z.to_nat (k_nr_nodes s)) 0 (fun i =>
    s <- get ;; dvs_end_node sig cur (k_local_nodeid s) i) ;;
  rcode <- dvs_end_proxies sig cur (Z.to_nat (k_nr_nodes s)) 0 OK ;;
  if negb (rcode =? OK) then unlock_ L_DVS ;; return_ rcode
  else
    KREF_PUT ;;
    unlock_ L_DVS ;;
    return_ OK.
