(* ===== verification/Wait.v ===== *)
(** * Waiting for a binding ([mm_hyper.c]): [mm_wait4bind]

    A task waits until it is bound itself, until another process of its DC is
    bound, or until another process is unbound. *)

From S2P Require Import Prelude Types Endpoint Kernel Utils Unbind Hyper Bind Proxies.

Definition WAIT_BIND : Z := 0.
Definition WAIT_UNBIND : Z := 1.

(** Before the wait: a task that waits for itself may be bound by now.  The
    wait ends when the task is bound, or when the flags of the other process are
    not just [SLOT_FREE]. *)
Definition wait4bind_wait (cur oper other_ep timeout : Z) : handler :=
  WLOCK_TASK cur ;;
  t <- rd_task cur ;;
  if other_ep =? SELF then
    match task_proc t with
    | Some c =>
        WUNLOCK_TASK cur ;;
        RLOCK_PROC c ;;
        x <- rd c ;;
        RUNLOCK_PROC c ;;
        return_ (p_endpoint x)
    | None => WUNLOCK_TASK cur ;; leave (X_WAIT (W_BIND oper other_ep timeout))
    end
  else
    WUNLOCK_TASK cur ;;
    leave (X_WAIT (W_BIND oper other_ep timeout)).

(** The caller is bound; its checks, and the slot of the other process. *)
Definition wait4bind_other (c : ptr) (pid other_ep : Z) : M ptr :=
  RLOCK_PROC c ;;
  x <- rd c ;;
  when (p_endpoint x =? other_ep) (ERROR_RUNLOCK_PROC c EMOLENDPOINT) ;;
  when (negb (pid =? p_lpid x)) (ERROR_RUNLOCK_PROC c EMOLBADPID) ;;
  RUNLOCK_PROC c ;;
  let d := p_dcid x in
  s <- get ;;
  error_if ((d <? 0) || (d >=? k_nr_dcs s)) EMOLBADDCID ;;
  RLOCK_DC d ;;
  dc <- rd_dc d ;;
  when (negb (dc_flags dc =? 0)) (ERROR_RUNLOCK_DC d EMOLDCNOTRUN) ;;
  let nr := ENDPOINT_P other_ep in
  when ((nr <? - dc_nr_tasks dc) || (nr >=? dc_nr_procs dc)) (ERROR_RUNLOCK_DC d EMOLRANGE) ;;
  RUNLOCK_DC d ;;
  mret (NBR2PTR d dc nr).

(** The end of a wait for an unbinding, entered when [sleep_proc] is over. *)
Definition wait4unbind_after (c other : ptr) : handler :=
  WLOCK_PROC2 c other ;;
  x <- rd c ;;
  (if negb (p_rcode x =? EMOLTIMEDOUT) then wr c (rts_clear BIT_WAITUNBIND)
   else
     LIST_DEL_U c ;;
     wr c (rts_clear BIT_WAITUNBIND) ;;
     wr c (fun x => x <| p_waitunbind := NONE |>)) ;;
  WUNLOCK_PROC2 c other ;;
  return_ (p_rcode x).

(** Joining the queue of those that wait for [other] to unbind; [sleep_proc] is
    called with the caller unlocked. *)
Definition wait4unbind (c other : ptr) (timeout : Z) : handler :=
  wr c (fun x => x <| p_ulink := None |>) ;;
  LIST_ADD_TAIL_U c other ;;
  wr c (rts_set BIT_WAITUNBIND) ;;
  y <- rd other ;;
  wr c (fun x => x <| p_waitunbind := p_endpoint y |>) ;;
  WUNLOCK_PROC2 c other ;;
  if timeout =? TIMEOUT_NOWAIT then
    wr c (fun x => need_migr x <| p_rcode := EMOLAGAIN |>) ;;
    wait4unbind_after c other
  else
    wr c (fun x => x <| p_pseudosem := -1 |> <| p_rcode := OK |>) ;;
    WUNLOCK_PROC c ;;
    leave (X_WAIT (W_WAITUNBIND c other timeout)).

Definition resume_wait4unbind (c other : ptr) (timeout w : Z) : handler :=
  sleep_exit c (WLOCK_PROC c) timeout w ;;
  wait4unbind_after c other.

(** One turn of the loop. *)
Definition wait4bind_turn (cur : Z) (cl : call) (oper other_ep timeout : Z) : handler :=
  r <- catch (check_caller cur cl) ;;
  if (other_ep =? SELF) && (oper =? WAIT_BIND) then
    match r with
    | inr (c, _) =>
        RLOCK_PROC c ;;
        x <- rd c ;;
        RUNLOCK_PROC c ;;
        return_ (p_endpoint x)
    | inl ret =>
        error_if (negb (ret =? EMOLNOTBIND)) ret ;;
        wait4bind_wait cur oper other_ep timeout
    end
  else
    match r with
    | inl ret => return_ ret
    | inr (c, pid) =>
        other <- wait4bind_other c pid other_ep ;;
        WLOCK_PROC2 c other ;;
        y <- rd other ;;
        if negb (rts BIT_SLOT_FREE y) then
          if oper =? WAIT_BIND then
            WUNLOCK_PROC2 c other ;;
            if negb (p_endpoint y =? other_ep) then return_ EMOLENDPOINT else return_ other_ep
          else if negb (p_endpoint y =? other_ep) then WUNLOCK_PROC2 c other ;; return_ OK
          else wait4unbind c other timeout
        else
          WUNLOCK_PROC2 c other ;;
          error_if (oper =? WAIT_UNBIND) OK ;;
          wait4bind_wait cur oper other_ep timeout
    end.

Definition mm_wait4bind (cur : Z) (cl : call) (oper other_ep timeout : Z) : handler :=
  check_dvs ;;
  error_if (negb (oper =? WAIT_BIND) && negb (oper =? WAIT_UNBIND)) EMOLBADCALL ;;
  wait4bind_turn cur cl oper other_ep timeout.

(** The wait gave [w]: 0 is taken for the end of the time, whether there was a
    time limit or not. *)
Definition resume_wait4bind (cur : Z) (cl : call) (oper other_ep timeout w : Z) : handler :=
  error_if (w =? 0) EMOLTIMEDOUT ;;
  wait4bind_turn cur cl oper other_ep timeout.
