(* ===== verification/Vcopy.v ===== *)
(** * Copies of data blocks ([mm_ipc.c], [mm_utils.c]): [mm_vcopy]

    The caller, which may be a third process, has a block of memory of the
    process [src] copied to the process [dst].  Both must be blocked receiving
    (or be the caller).  Between local processes the module copies the block in
    parts of at most [d_max_copybuf] bytes; when one of them is remote the
    caller queues a command for every part and sleeps until it is answered. *)

From S2P Require Import Prelude Types Endpoint Copy Kernel Utils Unbind Hyper.

(** ** [sleep_proc2] and [sleep_proc3] with [TIMEOUT_MOLCALL] *)

(** The processes locked with the caller at every sleep. *)
Definition sleep_others (v : vpoint) (f : vframe) : ptr * option ptr :=
  let src := vf_src f in
  let dst := vf_dst f in
  match v with
  | V_MIGR_SRC => if bool_decide (vf_c f = dst) then (src, None) else (src, Some dst)
  | V_MIGR_DST => if bool_decide (vf_c f = src) then (dst, None) else (dst, Some src)
  | V_COPYIN => if bool_decide (src <> vf_c f) then (src, Some dst) else (dst, None)
  | V_COPYOUT => if bool_decide (dst <> vf_c f) then (src, Some dst) else (src, None)
  | V_COPYRMT => (src, Some dst)
  end.

Definition lock_others (c : ptr) (o : ptr * option ptr) : M unit :=
  match o.2 with
  | None => WLOCK_PROC2 c o.1
  | Some r => WLOCK_PROC3 c o.1 r
  end.

Definition unlock_others (c : ptr) (o : ptr * option ptr) : M unit :=
  match o.2 with
  | None => WUNLOCK_PROC2 c o.1
  | Some r => WUNLOCK_PROC3 c o.1 r
  end.

Definition vcopy_sleep {A} (v : vpoint) (f : vframe) : M A :=
  wr (vf_c f) (fun x => x <| p_pseudosem := -1 |> <| p_rcode := OK |>) ;;
  unlock_others (vf_c f) (sleep_others v f) ;;
  leave (X_WAIT (W_VCOPY v f)).

(** [sleep_proc3] after the wait: the return code, and the count of wake-ups
    reset when it is an error. *)
Definition wake_desc3 (timeout w : Z) (x : proc) : proc :=
  let ret := wake_rcode (p_rcode x) timeout w in
  let x1 := x <| p_rcode := ret |> in
  if negb (ret =? OK) && (p_pseudosem x1 <? 0) then x1 <| p_pseudosem := 0 |> else x1.

(** The loop of [sleep_proc3] on [BIT_ONCOPY] of the sleeper itself, whatever
    the timeout: it gives the processor away with the locks released. *)
Definition oncopy_loop (v : vpoint) (f : vframe) : M unit :=
  x <- rd (vf_c f) ;;
  if rts BIT_ONCOPY x then
    unlock_others (vf_c f) (sleep_others v f) ;;
    leave (X_WAIT (W_VCOPY_ONCOPY v f))
  else mret tt.

Definition vcopy_wake (v : vpoint) (f : vframe) (w : Z) : M unit :=
  let c := vf_c f in
  let o := sleep_others v f in
  match o.2 with
  | None => sleep_exit c (lock_others c o) TIMEOUT_MOLCALL w
  | Some _ =>
      lock_others c o ;;
      wr c (wake_desc3 TIMEOUT_MOLCALL w) ;;
      x <- rd c ;;
      when (negb (p_rcode x =? OK)) (oncopy_loop v f) ;;
      wr c need_migr
  end.

(** ** Locks of the caller, the source and the destination *)

Definition vcopy_parties (f : vframe) : ptr * option ptr :=
  if bool_decide (vf_src f <> vf_c f) && bool_decide (vf_dst f <> vf_c f)
  then (vf_src f, Some (vf_dst f))
  else if bool_decide (vf_dst f <> vf_c f) then (vf_dst f, None) else (vf_src f, None).

Definition vcopy_lock (f : vframe) : M unit := lock_others (vf_c f) (vcopy_parties f).
Definition vcopy_unlock (f : vframe) : M unit := unlock_others (vf_c f) (vcopy_parties f).

(** ** The loop on the status of the source and the destination *)

(** The status of a party [y] with endpoint [ep]; [died] is the error for a
    free slot. *)
Definition party_status (nr_nodes : Z) (dc : dc_t) (is_caller : bool) (ep died : Z)
    (y : proc) : Z :=
  if negb (p_endpoint y =? ep) then EMOLENDPOINT
  else if rts BIT_SLOT_FREE y then died
  else if rts BIT_ONCOPY y then EMOLBUSY
  else if negb is_caller && IT_IS_REMOTE y && rts BIT_RMTOPER y then EMOLBUSY
  else if negb is_caller && IT_IS_LOCAL y && negb (rts BIT_RECEIVING y) then EMOLPROCSTS
  else if (p_nodeid y <? 0) || (p_nodeid y >=? nr_nodes) then EMOLBADNODEID
  else if negb (test_bit (p_nodeid y) (dc_nodes dc)) then EMOLNODCNODE
  else OK.

(** The caller joins those that wait for [p] to migrate and sleeps. *)
Definition vcopy_wait_migr {A} (v : vpoint) (f : vframe) (p : ptr) (ep : Z) : M A :=
  wr (vf_c f) (rts_set BIT_WAITMIGR) ;;
  wr (vf_c f) (fun x => x <| p_waitmigr := ep |>) ;;
  INIT_P_MLINK (vf_c f) ;;
  LIST_ADD_TAIL_M (vf_c f) p ;;
  vcopy_sleep v f.

Definition check_party (v : vpoint) (f : vframe) (p : ptr) (ep died : Z) : M Z :=
  y <- rd p ;;
  s <- get ;;
  dc <- rd_dc (vf_dcid f) ;;
  let is_caller := bool_decide (p = vf_c f) in
  let ret := party_status (k_nr_nodes s) dc is_caller ep died y in
  if negb (ret =? OK) then mret ret
  else if negb is_caller && rts BIT_MIGRATE y then vcopy_wait_migr v f p ep
  else mret OK.

Definition check_parties (f : vframe) : M Z :=
  ret <- check_party V_MIGR_SRC f (vf_src f) (vf_src_ep f) EMOLSRCDIED ;;
  if negb (ret =? OK) then mret ret
  else check_party V_MIGR_DST f (vf_dst f) (vf_dst_ep f) EMOLDSTDIED.

(** ** The end of the copy *)

(** [if(p->p_usr.p_rts_flags == 0) LOCAL_PROC_UP(p, ret)]. *)
Definition wake_if_ready (p : ptr) (ret : Z) : M unit :=
  x <- rd p ;; when (p_rts_flags x =? 0) (LOCAL_PROC_UP p ret).

Definition count_copy (f : vframe) : M unit :=
  when (bool_decide (vf_c f = vf_src f))
    (y <- rd (vf_dst f) ;;
     if IT_IS_REMOTE y then wr (vf_c f) (fun x => x <| p_rmtcopy ::= ulong_inc |>)
     else wr (vf_c f) (fun x => x <| p_lclcopy ::= ulong_inc |>)).

(** The parties that got a message while they were copied are woken up. *)
Definition wake_parties (f : vframe) (ret : Z) : M unit :=
  let o := vcopy_parties f in
  wake_if_ready o.1 ret ;;
  match o.2 with Some r => wake_if_ready r ret | None => mret tt end.

Definition vcopy_result (f : vframe) (ret : Z) : M Z :=
  if ret =? OK then x <- rd (vf_c f) ;; mret (p_rcode x)
  else
    wr (vf_c f) (rts_clear BIT_RMTOPER) ;;
    wr (vf_c f) (fun x => x <| p_proxy := NONE |> <| p_rcode := ret |>) ;;
    mret ret.

Definition vcopy_end (f : vframe) (ret : Z) : handler :=
  ret <- vcopy_result f ret ;;
  wr (vf_src f) (rts_clear BIT_ONCOPY) ;;
  wr (vf_dst f) (rts_clear BIT_ONCOPY) ;;
  wr (vf_c f) (rts_clear BIT_ONCOPY) ;;
  count_copy f ;;
  x <- rd (vf_c f) ;;
  when (rts BIT_SIGNALED x)
    (init_proc_desc (vf_c f) (vf_dcid f) (vf_caller_nr f + vf_nr_tasks f)) ;;
  wake_parties f ret ;;
  vcopy_unlock f ;;
  return_ ret.

(** ** Source and destination on this node *)

(** [while (bytes > 0)]; the addresses are pointers, and do not wrap. *)
Fixpoint local_loop (fuel : nat) (src : ptr) (saddr : Z) (dst : ptr) (daddr bytes : Z)
    : M Z :=
  match fuel with
  | O => if bytes <=? 0 then mret OK else faults F_DIVERGES
  | S fuel =>
      if bytes <=? 0 then mret OK
      else
        s <- get ;;
        let copylen := Z.min (k_max_copybuf s) bytes in
        ret <- copy_block src saddr dst daddr copylen ;;
        if negb (ret =? OK) then mret ret
        else local_loop fuel src (saddr + copylen) dst (daddr + copylen) (bytes - copylen)
  end.

Definition tgid_of (p : ptr) : M Z :=
  x <- rd p ;;
  match p_task x with
  | None => faults F_NULL_POINTER
  | Some t => y <- rd_task t ;; mret (t_tgid y)
  end.

Definition vcopy_local (f : vframe) : handler :=
  src_tgid <- tgid_of (vf_src f) ;;
  dst_tgid <- tgid_of (vf_dst f) ;;
  ret <- (if dst_tgid =? src_tgid then mret EMOLPERM
          else local_loop (Z.to_nat (vf_bytes f)) (vf_src f) (vf_saddr f)
                 (vf_dst f) (vf_daddr f) (vf_bytes f)) ;;
  wr (vf_c f) (fun x => x <| p_rcode := ret |>) ;;
  vcopy_end f ret.

(** ** A remote source or destination *)

(** The most bytes of a part: what the proxies of the remote node take, or the
    copy buffer of the DVS between remote processes. *)
Definition part_max (v : vpoint) (f : vframe) : M Z :=
  match v with
  | V_COPYIN => y <- rd (vf_dst f) ;; NODE2MAXBYTES (p_nodeid y)
  | V_COPYOUT => y <- rd (vf_src f) ;; NODE2MAXBYTES (p_nodeid y)
  | _ => s <- get ;; mret (k_max_copybuf s)
  end.

(** The command, its destination and its length. *)
Definition part_cmd (v : vpoint) (src dst : proc) (copylen : Z) : Z * proc * Z :=
  match v with
  | V_COPYIN => (CMD_COPYIN_DATA, dst, copylen)
  | V_COPYOUT => (CMD_COPYOUT_RQST, src, 0)
  | _ => if p_nodeid src =? p_nodeid dst then (CMD_COPYLCL_RQST, dst, 0)
         else (CMD_COPYRMT_RQST, src, 0)
  end.

Definition fill_part (v : vpoint) (f : vframe) (copylen : Z) : M unit :=
  s <- get ;;
  y <- rd (vf_src f) ;;
  z <- rd (vf_dst f) ;;
  let '(cmd, to, len) := part_cmd v y z copylen in
  wr (vf_c f) (fun x => x <| p_rmtcmd ::= fun h =>
    (fill_cmd cmd (p_dcid x) (p_endpoint x) (p_endpoint to) (k_local_nodeid s)
       (p_nodeid to) OK len h)
    <| cu_vcopy := mk_vcopy (p_endpoint y) (p_endpoint z) (p_endpoint x)
                     (vf_saddr f) (vf_daddr f) copylen |> |>) ;;
  wr (vf_c f) (rts_set BIT_RMTOPER).

(** One round of [while (bytes > 0)], up to its sleep. *)
Definition vcopy_round (v : vpoint) (f : vframe) : handler :=
  if vf_bytes f <=? 0 then vcopy_end f OK
  else
    max <- part_max v f ;;
    let copylen := Z.min max (vf_bytes f) in
    fill_part v f copylen ;;
    ret <- sproxy_enqueue (vf_c f) ;;
    if negb (ret =? OK) then vcopy_end f ret
    else vcopy_sleep v (f <| vf_copylen := copylen |>).

(** The rest of a round, after the sleep. *)
Definition vcopy_answered (v : vpoint) (f : vframe) : handler :=
  x <- rd (vf_c f) ;;
  if negb (p_rcode x =? OK) then vcopy_end f (p_rcode x)
  else
    let n := vf_copylen f in
    vcopy_round v (f <| vf_bytes ::= (fun b => b - n) |>
                     <| vf_saddr ::= Z.add n |> <| vf_daddr ::= Z.add n |>).

(** The sender proxies of the nodes are looked at first. *)
Definition vcopy_remote (v : vpoint) (f : vframe) (y z : proc) : handler :=
  ret <- (match v with
          | V_COPYIN => check_sproxy (p_nodeid z)
          | V_COPYOUT => check_sproxy (p_nodeid y)
          | _ => ret <- check_sproxy (p_nodeid y) ;;
                 if ret =? OK then check_sproxy (p_nodeid z) else mret ret
          end) ;;
  if negb (ret =? OK) then vcopy_end f ret else vcopy_round v f.

Definition vcopy_start (f : vframe) : handler :=
  x <- rd (vf_c f) ;;
  let f := f <| vf_caller_nr := p_nr x |> in
  wr (vf_c f) (rts_set BIT_ONCOPY) ;;
  wr (vf_src f) (rts_set BIT_ONCOPY) ;;
  wr (vf_dst f) (rts_set BIT_ONCOPY) ;;
  wr (vf_c f) (fun x => x <| p_rcode := OK |>) ;;
  y <- rd (vf_src f) ;;
  z <- rd (vf_dst f) ;;
  match IT_IS_LOCAL y, IT_IS_LOCAL z with
  | true, true => vcopy_local f
  | true, false => vcopy_remote V_COPYIN f y z
  | false, true => vcopy_remote V_COPYOUT f y z
  | false, false => vcopy_remote V_COPYRMT f y z
  end.

(** The parties are checked with the DC and the processes locked. *)
Definition vcopy_checked (f : vframe) : handler :=
  ret <- check_parties f ;;
  RUNLOCK_DC (vf_dcid f) ;;
  if negb (ret =? OK) then vcopy_unlock f ;; return_ ret else vcopy_start f.

(** ** The call *)

(** [SELF] stands for the caller, as the source or else as the destination. *)
Definition vcopy_endpoints (self src_ep dst_ep : Z) : Z * Z :=
  if src_ep =? SELF then (self, dst_ep)
  else (src_ep, if dst_ep =? SELF then self else dst_ep).

Definition bad_endpoints (src_ep dst_ep : Z) : bool :=
  (src_ep =? dst_ep) || (src_ep =? ANY) || (dst_ep =? ANY)
  || (src_ep =? NONE) || (dst_ep =? NONE).

Definition slot_in_range (dc : dc_t) (nr : Z) : bool :=
  negb ((nr <? - dc_nr_tasks dc) || (nr >=? dc_nr_procs dc)).

Definition vcopy_body (c : ptr) (pid src_ep src_addr dst_ep dst_addr bytes : Z) : handler :=
  RLOCK_PROC c ;;
  x <- rd c ;;
  let '(src_ep, dst_ep) := vcopy_endpoints (p_endpoint x) src_ep dst_ep in
  when (bad_endpoints src_ep dst_ep) (ERROR_RUNLOCK_PROC c EMOLENDPOINT) ;;
  when (negb (pid =? p_lpid x)) (ERROR_RUNLOCK_PROC c EMOLBADPID) ;;
  s <- get ;;
  let d := p_dcid x in
  when ((d <? 0) || (d >=? k_nr_dcs s)) (ERROR_RUNLOCK_PROC c EMOLBADDCID) ;;
  RUNLOCK_PROC c ;;
  RLOCK_DC d ;;
  dc <- rd_dc d ;;
  when (negb (dc_flags dc =? 0)) (ERROR_RUNLOCK_DC d EMOLDCNOTRUN) ;;
  when (negb (slot_in_range dc (ENDPOINT_P src_ep))) (ERROR_RUNLOCK_DC d EMOLRANGE) ;;
  when (negb (slot_in_range dc (ENDPOINT_P dst_ep))) (ERROR_RUNLOCK_DC d EMOLRANGE) ;;
  let f := mk_vframe c (ENDPOINT2PTR d dc src_ep) (ENDPOINT2PTR d dc dst_ep) d
             (dc_nr_tasks dc) 0 src_ep dst_ep src_addr dst_addr bytes 0 in
  vcopy_lock f ;;
  vcopy_checked f.

(** [if(current_euid() != USER_ROOT) ERROR_RETURN(-EPERM)]. *)
Definition check_euid (cur : Z) : M unit :=
  t <- rd_task cur ;; error_if (negb (t_euid t =? USER_ROOT)) (- EPERM).

(** [cl] names the call, for a caller that migrates. *)
Definition mm_vcopy (cur : Z) (cl : call) (src_ep src_addr dst_ep dst_addr bytes : Z)
    : handler :=
  check_euid cur ;;
  s <- get ;;
  error_if ((bytes <? 0) || (bytes >? k_max_copylen s)) EMOLRANGE ;;
  check_dvs ;;
  cp <- check_caller cur cl ;;
  vcopy_body (fst cp) (snd cp) src_ep src_addr dst_ep dst_addr bytes.

(** ** Resuming *)

Definition resume_vcopy (v : vpoint) (f : vframe) (w : Z) : handler :=
  vcopy_wake v f w ;;
  match v with
  | V_MIGR_SRC | V_MIGR_DST => vcopy_checked f
  | _ => vcopy_answered v f
  end.

(** From [schedule()] in the loop of [sleep_proc3]. *)
Definition resume_oncopy (v : vpoint) (f : vframe) : handler :=
  lock_others (vf_c f) (sleep_others v f) ;;
  oncopy_loop v f ;;
  wr (vf_c f) need_migr ;;
  match v with
  | V_MIGR_SRC | V_MIGR_DST => vcopy_checked f
  | _ => vcopy_answered v f
  end.
