(* ===== verification/Migrate.v ===== *)
(** * Migration of processes ([mm_migrate.c])

    A process moves from a node to another in two calls, made on every node of
    its DC: [MIGR_START] marks it as migrating, and [MIGR_COMMIT] records its
    new node, or [MIGR_ROLLBACK] undoes the start.  While it migrates, those
    that want to talk to it wait in its queue [p_mlist].  On the node it leaves,
    the descriptors of all the threads of the process become remote.

    [threads t] is the ring of the threads of the process of the Linux task [t],
    in the order of [while_each_thread], from [t] on. *)

From S2P Require Import Prelude Types Endpoint Kernel Utils Unbind Hyper Vcopy.

Definition MIGR_START : Z := 0.
Definition MIGR_COMMIT : Z := 1.
Definition MIGR_ROLLBACK : Z := 2.

(** ** The queues of a process that migrates *)

(** A process [x] that waits for the migration of [p] is woken up, to try again. *)
Definition flush_migr_one (p x : ptr) : M unit :=
  WLOCK_ORDERED2 p x ;;
  LIST_DEL_M x ;;
  y <- rd x ;;
  z <- rd p ;;
  when (p_waitmigr y =? p_endpoint z)
    (wr x (rts_clear BIT_WAITMIGR) ;;
     wr x (fun y => y <| p_waitmigr := NONE |>) ;;
     wake_if_ready x EMOLMIGRATE) ;;
  WUNLOCK_PROC x.

(** [LIST_FOR_EACH_ENTRY_SAFE]: the body takes its entry off the list. *)
Fixpoint flush_each (body : ptr -> M unit) (l : list ptr) : M unit :=
  match l with
  | [] => mret tt
  | x :: l => body x ;; flush_each body l
  end.

Definition flush_migr_list (p : ptr) : M unit :=
  z <- rd p ;; flush_each (flush_migr_one p) (p_mlist z).

(** A sender [x] of the queue of [p]: it tries again when it is local, and its
    node is told when it is remote. *)
Definition flush_sending_one (p x : ptr) : M unit :=
  WLOCK_ORDERED2 p x ;;
  LIST_DEL_P x ;;
  y <- rd x ;;
  (if IT_IS_LOCAL y then
     wr x (rts_clear BIT_SENDING) ;;
     wr x (rts_clear BIT_RECEIVING) ;;
     wr x (fun y => y <| p_getfrom := NONE |> <| p_sendto := NONE |>) ;;
     wake_if_ready x EMOLMIGRATE
   else if Z.land (c_cmd (p_rmtcmd y)) (Z.shiftl 1 BIT_ACKNOWLEDGE) =? 0 then
     error_lcl2rmt (Z.lor (c_cmd (p_rmtcmd y)) (Z.shiftl 1 BIT_ACKNOWLEDGE)) x (p_rmtcmd y)
       EMOLMIGRATE ;;
     mret tt
   else mret tt) ;;
  WUNLOCK_PROC x.

Definition flush_sending_list (p : ptr) : M unit :=
  z <- rd p ;; flush_each (flush_sending_one p) (p_list z).

Section Migrate.
Context (threads : Z -> list Z).

(** ** Loops over the threads of a process *)

(** [do { p_ptr = thread_ptr->task_proc; if (p_ptr != NULL) { body } }
    while_each_thread]; the body gives an error, which ends the loop. *)
Fixpoint check_threads (body : ptr -> M Z) (l : list Z) : M Z :=
  match l with
  | [] => mret OK
  | t :: l =>
      k <- rd_task t ;;
      match task_proc k with
      | None => check_threads body l
      | Some q =>
          ret <- body q ;;
          if negb (ret =? OK) then mret ret else check_threads body l
      end
  end.

Fixpoint each_thread (body : Z -> ptr -> M unit) (l : list Z) : M unit :=
  match l with
  | [] => mret tt
  | t :: l =>
      k <- rd_task t ;;
      match task_proc k with
      | None => mret tt
      | Some q => body t q
      end ;;
      each_thread body l
  end.

(** The task of a local process, which [mm_migrate] has found to be there. *)
Definition p_task_of (p : ptr) : M Z :=
  x <- rd p ;;
  match p_task x with None => faults F_NULL_POINTER | Some t => mret t end.

(** ** [migr_start] and [migr_rollback]

    The state every descriptor must be in; [wanted] is the value of its bit
    [BIT_MIGRATE]. *)
Definition migr_status (wanted : bool) (x : proc) : Z :=
  if rts BIT_SLOT_FREE x then EMOLNOTBIND
  else if rts BIT_ONCOPY x then EMOLONCOPY
  else if rts BIT_RMTOPER x then EMOLBUSY
  else if rts BIT_NO_ENDPOINT x then EMOLENDPOINT
  else if negb (Bool.eqb (rts BIT_MIGRATE x) wanted) then EMOLMIGRATE
  else OK.

Definition check_migr_status (wanted : bool) (q : ptr) : M Z :=
  RLOCK_PROC q ;;
  x <- rd q ;;
  RUNLOCK_PROC q ;;
  mret (migr_status wanted x).

(** The first loop of both: on entry and on exit the process is locked. *)
Definition check_all_threads (p : ptr) (body : ptr -> M Z) : M Z :=
  t <- p_task_of p ;;
  WUNLOCK_PROC p ;;
  ret <- check_threads body (threads t) ;;
  WLOCK_PROC p ;;
  mret ret.

Definition migr_start (p : ptr) : M Z :=
  x <- rd p ;;
  if IT_IS_REMOTE x then
    let ret := migr_status false x in
    if negb (ret =? OK) then mret ret else wr p (rts_set BIT_MIGRATE) ;; mret OK
  else if negb (misc MIS_BIT_GRPLEADER x) then mret EMOLGRPLEADER
  else
    ret <- check_all_threads p (check_migr_status false) ;;
    if negb (ret =? OK) then mret ret
    else
      t <- p_task_of p ;;
      each_thread (fun _ q => wr q (misc_set MIS_BIT_NEEDMIGR)) (threads t) ;;
      mret OK.

Definition clear_migr (q : ptr) : M unit :=
  wr q (misc_clear MIS_BIT_NEEDMIGR) ;; wr q (rts_clear BIT_MIGRATE).

Definition rollback_thread (q : ptr) : M unit :=
  WLOCK_PROC q ;;
  clear_migr q ;;
  flush_migr_list q ;;
  wake_if_ready q OK ;;
  WUNLOCK_PROC q.

Definition migr_rollback (p : ptr) : M Z :=
  x <- rd p ;;
  if IT_IS_REMOTE x then
    let ret := migr_status true x in
    if negb (ret =? OK) then mret ret else clear_migr p ;; mret OK
  else if negb (misc MIS_BIT_GRPLEADER x) then mret EMOLGRPLEADER
  else
    ret <- check_all_threads p (check_migr_status true) ;;
    if negb (ret =? OK) then mret ret
    else
      t <- p_task_of p ;;
      WUNLOCK_PROC p ;;
      each_thread (fun _ q => rollback_thread q) (threads t) ;;
      WLOCK_PROC p ;;
      mret OK.

(** ** [migr_commit] *)

(** A thread of the process that leaves: its descriptor becomes remote, and
    whoever waits in it, the thread itself included, is woken up. *)
Definition old_thread (new_nodeid t : Z) (q : ptr) : M unit :=
  WLOCK_PROC q ;;
  wr q (misc_clear MIS_BIT_GRPLEADER) ;;
  wr q (fun x => x <| p_lpid := PROC_NO_PID |> <| p_nodeid := new_nodeid |>) ;;
  wr_task t (fun k => k <| task_proc := None |>) ;;
  wr q (fun x => x <| p_task := None |>) ;;
  mm_put_task_struct t ;;
  wr q (rts_clear BIT_MIGRATE) ;;
  x <- rd q ;;
  wr q (rts_set BIT_REMOTE) ;;
  when (negb (p_rts_flags x =? PROC_RUNNING)) (LOCAL_PROC_UP q EMOLRMTPROC) ;;
  flush_sending_list q ;;
  flush_migr_list q ;;
  WUNLOCK_PROC q.

Definition check_migrating (q : ptr) : M Z :=
  RLOCK_PROC q ;;
  x <- rd q ;;
  RUNLOCK_PROC q ;;
  mret (if rts BIT_MIGRATE x then OK else EMOLMIGRATE).

Definition old_migrate (p : ptr) (new_nodeid : Z) : M Z :=
  ret <- check_all_threads p check_migrating ;;
  if negb (ret =? OK) then mret ret
  else
    x <- rd p ;;
    if negb (misc MIS_BIT_GRPLEADER x) then mret EMOLGRPLEADER
    else
      t <- p_task_of p ;;
      WUNLOCK_PROC p ;;
      each_thread (old_thread new_nodeid) (threads t) ;;
      WLOCK_PROC p ;;
      mret OK.

(** [pid_task] finds the task the process has on its new node. *)
Definition new_migrate (p : ptr) (pid : Z) : M Z :=
  x <- rd p ;;
  s <- get ;;
  ret <- (if negb (misc MIS_BIT_RMTBACKUP x) then
            match k_tasks s !! pid with
            | None => mret EMOLBADPROC
            | Some _ =>
                get_task_struct pid ;;
                wr p (fun x => x <| p_task := Some pid |>) ;;
                WLOCK_TASK pid ;;
                wr_task pid (fun k => k <| task_proc := Some p |>) ;;
                WUNLOCK_TASK pid ;;
                wr p (fun x => x <| p_lpid := pid |>) ;;
                mret OK
            end
          else if negb (p_lpid x =? pid) then mret EMOLBADPID else mret OK) ;;
  if negb (ret =? OK) then mret ret
  else
    wr p (fun x => x <| p_nodeid := k_local_nodeid s |> <| p_rts_flags := PROC_RUNNING |>) ;;
    mret OK.

(** The membership of the new node.  The last test is of the DC [dc[0]]: it
    reads the name of the table where it means [dc_ptr]. *)
Definition check_new_node (d new_nodeid : Z) : M Z :=
  RLOCK_NODE new_nodeid ;;
  nd <- rd_node new_nodeid ;;
  dc <- rd_dc d ;;
  dc0 <- rd_dc 0 ;;
  RUNLOCK_NODE new_nodeid ;;
  mret (if n_flags nd =? NODE_FREE then EMOLNOPROXY
        else if negb (test_bit new_nodeid (dc_nodes dc)) then EMOLDCNODE
        else if negb (test_bit (dc_dcid dc0) (n_dcs nd)) then EMOLDCNODE
        else OK).

Definition move_process (p : ptr) (pid new_nodeid : Z) : M Z :=
  x <- rd p ;;
  s <- get ;;
  if k_local_nodeid s =? p_nodeid x then old_migrate p new_nodeid
  else if k_local_nodeid s =? new_nodeid then new_migrate p pid
  else
    wr p (fun x => x <| p_nodeid := new_nodeid |>) ;;
    flush_migr_list p ;;
    mret OK.

Definition migr_commit (d : Z) (p : ptr) (pid new_nodeid : Z) : M Z :=
  s <- get ;;
  if (new_nodeid <? 0) || (new_nodeid >=? k_nr_nodes s) then mret EMOLNOPROXY
  else
    ret <- check_new_node d new_nodeid ;;
    if negb (ret =? OK) then mret ret
    else
      ret <- move_process p pid new_nodeid ;;
      if negb (ret =? OK) then mret ret
      else
        wr p (fun x => x <| p_nodemap ::= set_bit new_nodeid |>) ;;
        wr p (rts_clear BIT_MIGRATE) ;;
        wr p (misc_clear MIS_BIT_NEEDMIGR) ;;
        mret OK.

(** ** [mm_migrate] *)

Definition migr_oper (oper d : Z) (p : ptr) (pid new_nodeid : Z) : M Z :=
  if oper =? MIGR_START then migr_start p
  else if oper =? MIGR_ROLLBACK then migr_rollback p
  else migr_commit d p pid new_nodeid.

Definition mm_migrate (cur oper pid dcid endpoint new_nodeid : Z) : handler :=
  check_euid cur ;;
  check_dvs ;;
  error_if (negb (oper =? MIGR_START) && negb (oper =? MIGR_COMMIT)
            && negb (oper =? MIGR_ROLLBACK)) EMOLNOSYS ;;
  CHECK_DCID dcid ;;
  RLOCK_DC dcid ;;
  dc <- rd_dc dcid ;;
  when (negb (slot_in_range dc (ENDPOINT_P endpoint))) (ERROR_RUNLOCK_DC dcid EMOLRANGE) ;;
  let p := ENDPOINT2PTR dcid dc endpoint in
  WLOCK_PROC p ;;
  x <- rd p ;;
  when (IT_IS_LOCAL x && bool_decide (p_task x = None))
    (WUNLOCK_PROC p ;; RUNLOCK_DC dcid ;; return_ EMOLBADPROC) ;;
  ret <- migr_oper oper dcid p pid new_nodeid ;;
  WUNLOCK_PROC p ;;
  RUNLOCK_DC dcid ;;
  return_ ret.

End Migrate.
