(* ===== verification/Exit.v ===== *)
(** * The exit of a process ([mm_hyper.c]): [mm_exit_unbind]

    Linux calls [mm_exit_unbind] when a task exits.  A proxy ends its pair; an
    ordinary process is unbound, after the DC has its process [dc_warn2proc]
    told with a message. *)

From S2P Require Import Prelude Types Endpoint Kernel Utils IpcCommon Unbind Hyper Proxies Vcopy.

Definition TIMEOUT_30S : Z := 30000.

(** ** [kernel_warn2proc]

    The message that tells [warn] of the exit of [c]; [m1_i1] is the first word
    of the payload and [m1_i2] the second, which is also [m9_l1]. *)
Definition exit_message (dc : dc_t) (code : Z) (m : message) : message :=
  m <| m_type := dc_warnmsg dc |> <| m_body ::= fun b => to_int code :: tail b |> <| m9_l1 := -1 |>.

(** The end of the routine: it waits, without the DC and the processes locked,
    nor the task if [warn] is local. *)
Definition warn_wait (cur d : Z) (c warn : ptr) (code : Z) : handler :=
  wr c (fun x => x <| p_pseudosem := -1 |>) ;;
  WUNLOCK_PROC2 c warn ;;
  WUNLOCK_DC d ;;
  w <- rd warn ;;
  when (IT_IS_LOCAL w) (WUNLOCK_TASK cur) ;;
  leave (X_WAIT (W_WARN d c warn code)).

(** A remote [warn]: its command, in the queue of the sender proxy. *)
Definition warn_command (c warn : ptr) : M unit :=
  x <- rd c ;;
  y <- rd warn ;;
  s <- get ;;
  wr warn (rts_clear BIT_RECEIVING) ;;
  wr warn (fun y => if p_getfrom y =? p_endpoint x then y <| p_getfrom := NONE |> else y) ;;
  wr c (fun x => x <| p_message ::= fun m => m <| m_source := p_endpoint x |> |>) ;;
  wr c (fun x => x <| p_rmtcmd ::= fun h =>
    (fill_cmd CMD_SEND_MSG (p_dcid x) (p_endpoint x) (p_endpoint y) (k_local_nodeid s)
       (p_nodeid y) OK 0 h) <| cu_msg := p_message x |> |>) ;;
  wr c (fun x => x <| p_getfrom := p_endpoint y |>) ;;
  wr c (rts_set BIT_SENDING) ;;
  wr c (fun x => x <| p_sendto := p_endpoint y |>) ;;
  wr c (rts_set BIT_RMTOPER) ;;
  INIT_P_LINK c ;;
  sproxy_enqueue c ;;
  mret tt.

(** The sender proxy sends it, and wakes up [c]; [sleep_proc] unlocks [c] only. *)
Definition warn_remote {A} (d : Z) (c warn : ptr) (code : Z) : M A :=
  warn_command c warn ;;
  wr c (fun x => x <| p_pseudosem := -1 |> <| p_rcode := OK |>) ;;
  WUNLOCK_PROC c ;;
  leave (X_WAIT (W_WARN_ACK d c warn code)).

Definition resume_warn_ack (cur d : Z) (c warn : ptr) (code w : Z) : handler :=
  sleep_exit c (WLOCK_PROC c) TIMEOUT_30S w ;;
  x <- rd c ;;
  (if p_rcode x =? OK then rmtsent_inc c else rmt_cleanup c false) ;;
  warn_wait cur d c warn code.

(** A local [warn] that receives gets the message at once; otherwise [c] is put
    in its queue.  In both cases [c] is receiving from it after that. *)
Definition warn_local (c warn : ptr) : M unit :=
  x <- rd c ;;
  y <- rd warn ;;
  let ep := p_endpoint x in
  let wep := p_endpoint y in
  if waits_for y ep then
    wr c (rts_set BIT_RECEIVING) ;;
    wr c (fun x => x <| p_getfrom := wep |>) ;;
    wr warn (rts_clear BIT_RECEIVING) ;;
    wr warn (fun y => y <| p_getfrom := NONE |>) ;;
    wr warn (misc_set MIS_BIT_NOTIFY) ;;
    wr c (fun x => x <| p_message ::= fun m => m <| m_source := ep |> |>) ;;
    x <- rd c ;;
    wr warn (fun y => y <| p_message := p_message x |>) ;;
    wake_if_ready warn OK
  else
    wr c (fun x => x <| p_message ::= fun m => m <| m_source := ep |> |>) ;;
    wr c (rts_set BIT_RECEIVING) ;;
    wr c (fun x => x <| p_getfrom := wep |>) ;;
    wr c (rts_set BIT_SENDING) ;;
    wr c (fun x => x <| p_sendto := wep |>) ;;
    INIT_P_LINK c ;;
    LIST_ADD_TAIL_P c warn.

(** It gives an error, with both processes unlocked, when the proxies of the
    node of [warn] are not there; otherwise it waits. *)
Definition kernel_warn2proc (cur d : Z) (c warn : ptr) (code : Z) : M Z :=
  y <- rd warn ;;
  if IT_IS_REMOTE y then
    ret <- check_sproxy (p_nodeid y) ;;
    if negb (ret =? OK) then WUNLOCK_PROC2 c warn ;; mret ret
    else warn_remote d c warn code
  else
    warn_local c warn ;;
    r <- warn_wait cur d c warn code ;;
    match r with end.

(** ** [mm_exit_unbind] *)

(** The end of the exit: unbinding, if nobody did it meanwhile.  [sig] is the
    result of [send_sig_info] of Linux. *)
Definition exit_tail (sig cur d : Z) (c : ptr) (rcode : Z) : handler :=
  x <- rd c ;;
  r <- (if negb (p_rts_flags x =? SLOT_FREE) then
          r <- catch (do_unbind sig cur d c) ;;
          mret (match r with inl r => r | inr _ => OK end)
        else mret rcode) ;;
  WUNLOCK_PROC c ;;
  (if r =? OK then WUNLOCK_TASK cur ;; WUNLOCK_DC d
   else WUNLOCK_DC d ;; WUNLOCK_TASK cur) ;;
  y <- rd c ;;
  when ((r =? OK) && negb (rts BIT_NO_MAP y)) (mm_put_task_struct cur) ;;
  return_ r.

(** The process to warn: its checks give an error, or its descriptor, locked. *)
Definition warn_target (dc : dc_t) (d : Z) (c : ptr) : M (Z + ptr) :=
  let ep := dc_warn2proc dc in
  if negb (slot_in_range dc (ENDPOINT_P ep)) then mret (inl EMOLRANGE)
  else
    let warn := ENDPOINT2PTR d dc ep in
    x <- rd c ;;
    if p_endpoint x =? ep then mret (inl EMOLENDPOINT)
    else
      WUNLOCK_PROC c ;;
      WLOCK_PROC2 warn c ;;
      y <- rd warn ;;
      if p_rts_flags y =? SLOT_FREE then WUNLOCK_PROC warn ;; mret (inl EMOLNOTBIND)
      else if rts BIT_MIGRATE y then WUNLOCK_PROC warn ;; mret (inl EMOLMIGRATE)
      else mret (inr warn).

(** The result of the warning does not stop the exit. *)
Definition exit_warn (cur d : Z) (dc : dc_t) (c : ptr) (code : Z) : M Z :=
  r <- warn_target dc d c ;;
  match r with
  | inl rcode => mret rcode
  | inr warn =>
      x <- rd c ;;
      rcode <- (if negb (misc MIS_BIT_KILLED x) then
                  wr c (misc_set MIS_BIT_KILLED) ;;
                  wr c (fun x => x <| p_message ::= exit_message dc code |>) ;;
                  kernel_warn2proc cur d c warn code
                else mret OK) ;;
      WUNLOCK_PROC warn ;;
      mret rcode
  end.

Definition exit_process (sig cur d : Z) (c : ptr) (code : Z) : handler :=
  WLOCK_DC d ;;
  WLOCK_PROC c ;;
  dc <- rd_dc d ;;
  if negb (dc_flags dc =? 0) then
    WUNLOCK_PROC c ;; WUNLOCK_DC d ;; WUNLOCK_TASK cur ;; return_ EMOLDCNOTRUN
  else
    x <- rd c ;;
    rcode <- (if negb (p_rts_flags x =? SLOT_FREE) && negb (dc_warn2proc dc =? NONE)
              then exit_warn cur d dc c code else mret OK) ;;
    exit_tail sig cur d c rcode.

(** The process it warned has woken it up. *)
Definition resume_warn (sig cur d : Z) (c warn : ptr) : handler :=
  w <- rd warn ;;
  when (IT_IS_LOCAL w) (WLOCK_TASK cur) ;;
  WLOCK_DC d ;;
  WLOCK_PROC2 c warn ;;
  WUNLOCK_PROC warn ;;
  exit_tail sig cur d c OK.

(** A proxy, on the pair of its number; [c] is one of the two or it is an error. *)
Definition exit_proxy (sig cur : Z) (c : ptr) (px : Z) : M Z :=
  RUNLOCK_PROC c ;;
  RLOCK_PROXY px ;;
  y <- rd_proxies px ;;
  RUNLOCK_PROXY px ;;
  if px_flags y =? PROXIES_FREE then mret EMOLNOPROXY
  else
    WLOCK_PROC (RPROXY px) ;;
    WLOCK_PROC (SPROXY px) ;;
    ret <- (if bool_decide (c = SPROXY px) then do_proxies_unbind sig cur true px
            else if bool_decide (c = RPROXY px) then do_proxies_unbind sig cur false px
            else mret EMOLBADPID) ;;
    WUNLOCK_PROC (SPROXY px) ;;
    WUNLOCK_PROC (RPROXY px) ;;
    mret ret.

Definition exit_bound (sig cur : Z) (c : ptr) (code : Z) : handler :=
  RLOCK_PROC c ;;
  x <- rd c ;;
  s <- get ;;
  if misc MIS_BIT_PROXY x then
    rcode <- (if (0 <=? p_nr x) && (p_nr x <? k_nr_nodes s) then exit_proxy sig cur c (p_nr x)
              else RUNLOCK_PROC c ;; mret EMOLPROCSTS) ;;
    WUNLOCK_TASK cur ;; return_ rcode
  else if (0 <=? p_dcid x) && (p_dcid x <? k_nr_dcs s) then
    RUNLOCK_PROC c ;; exit_process sig cur (p_dcid x) c code
  else RUNLOCK_PROC c ;; WUNLOCK_TASK cur ;; return_ EMOLBADDCID.

Definition mm_exit_unbind (sig cur code : Z) : handler :=
  check_dvs ;;
  WLOCK_TASK cur ;;
  t <- rd_task cur ;;
  match task_proc t with
  | Some c => exit_bound sig cur c code
  | None => WUNLOCK_TASK cur ;; return_ OK
  end.
