(* ===== verification/Hoare.v ===== *)
(** * Program logic for the handlers

    Weakest preconditions for the kernel monad, and the discipline of locks
    built on them.  [wp m Q R s] says that [m], run from [s], ends in a value
    that satisfies [Q] or leaves with an exit that satisfies [R]. *)

From S2P Require Import Prelude Types Endpoint Kernel.

Definition wp {A} (m : M A) (Q : A -> kstate -> Prop) (R : exit -> kstate -> Prop)
    (s : kstate) : Prop :=
  match m s with
  | Val a s' => Q a s'
  | Exit x s' => R x s'
  end.

(** ** Locks held

    [held H s]: the handler holds exactly the mutexes of [H].  [bal E H m H']:
    from a state that holds [H], [m] ends holding [H' a], and leaves (by a
    return or by going to sleep) with locks that satisfy [E]. *)

Definition held (H : list lock) (s : kstate) : Prop := k_held s ≡ₚ H /\ NoDup H.

Definition is_fault (x : exit) : bool :=
  match x with X_FAULT _ => true | _ => false end.

Definition bal {A} (E : exit -> list lock -> Prop) (H : list lock) (m : M A)
    (H' : A -> list lock) : Prop :=
  forall s, held H s ->
    wp m (fun a s' => held (H' a) s')
         (fun x s' => is_fault x = false -> exists L, k_held s' ≡ₚ L /\ E x L) s.

(** A handler that keeps no lock when it returns or sleeps. *)
Definition no_locks (x : exit) (L : list lock) : Prop := L = [].

(** Exit conditions that accept an exit without locks. *)
Class Clean (E : exit -> list lock -> Prop) : Prop := clean : forall x, E x [].

#[export] Instance clean_no_locks : Clean no_locks.
Proof. by intros x. Qed.

(** Removing a lock from a list of locks, by instance search. *)
Class Pick (l : lock) (H H' : list lock) : Prop := pick : H ≡ₚ l :: H'.

#[export] Instance pick_here l H : Pick l (l :: H) H.
Proof. by unfold Pick. Qed.

#[export] Instance pick_there l x H H' : Pick l H H' -> Pick l (x :: H) (x :: H') | 10.
Proof. unfold Pick. intros ->. apply Permutation_swap. Qed.

(** ** Rules for [wp] *)

Section Wp.
Context {A B : Type}.
Implicit Types (Q : A -> kstate -> Prop) (R : exit -> kstate -> Prop) (s : kstate).

Lemma wp_bind (m : M A) (k : A -> M B) (Q : B -> kstate -> Prop) R s :
  wp (mbind m k) Q R s <-> wp m (fun a s' => wp (k a) Q R s') R s.
Proof. unfold wp, mbind. by destruct (m s). Qed.

Lemma wp_mono (m : M A) Q Q' R R' s :
  wp m Q R s -> (forall a s', Q a s' -> Q' a s') -> (forall x s', R x s' -> R' x s') ->
  wp m Q' R' s.
Proof. unfold wp. destruct (m s); auto. Qed.

Lemma wp_ret (a : A) Q R s : wp (mret a) Q R s <-> Q a s.
Proof. done. Qed.

Lemma wp_leave x Q R s : wp (leave x) Q R s <-> R x s.
Proof. done. Qed.

Lemma wp_catch (m : M A) (Q : Z + A -> kstate -> Prop) R s :
  wp (catch m) Q R s <->
  wp m (fun a => Q (inr a)) (fun x s' => match x with X_RET r => Q (inl r) s' | _ => R x s' end) s.
Proof. unfold wp, catch. destruct (m s) as [|[] ?]; done. Qed.
End Wp.

Section WpPrim.
Implicit Types (R : exit -> kstate -> Prop) (s : kstate).

Lemma wp_get (Q : kstate -> kstate -> Prop) R s : wp get Q R s <-> Q s s.
Proof. done. Qed.

Lemma wp_modify f (Q : unit -> kstate -> Prop) R s : wp (modify f) Q R s <-> Q tt (f s).
Proof. done. Qed.

Lemma wp_when b m (Q : unit -> kstate -> Prop) R s :
  (b = true -> wp m Q R s) -> (b = false -> Q tt s) -> wp (when b m) Q R s.
Proof. intros H1 H2. destruct b; [by apply H1|by apply H2]. Qed.

Lemma wp_rd p (Q : proc -> kstate -> Prop) R s :
  (forall x, k_procs s !! p = Some x -> Q x s) ->
  (forall f, R (X_FAULT f) s) -> wp (rd p) Q R s.
Proof. unfold wp, rd. intros H HF. destruct (k_procs s !! p) eqn:E; auto. Qed.

Lemma wp_wr p f (Q : unit -> kstate -> Prop) R s :
  (forall x, k_procs s !! p = Some x -> Q tt (set_proc p (f x) s)) ->
  (forall f, R (X_FAULT f) s) -> wp (wr p f) Q R s.
Proof. intros H HF. unfold wr. apply wp_bind, wp_rd; [|done]. intros x Hx. by apply H. Qed.
End WpPrim.

(** ** Rules for [bal] *)

Section Bal.
Context {A B : Type}.
Implicit Types (E : exit -> list lock -> Prop) (H : list lock).

Lemma bal_bind E H (m : M A) (P1 : A -> list lock) (k : A -> M B) (P2 : B -> list lock) :
  bal E H m P1 -> (forall a, bal E (P1 a) (k a) P2) -> bal E H (mbind m k) P2.
Proof.
  intros Hm Hk s Hs. apply wp_bind. eapply wp_mono; [by apply Hm| |done].
  intros a s' Ha. by apply Hk.
Qed.

Lemma bal_ret E H (a : A) : bal E H (mret a) (fun _ => H).
Proof. by intros s Hs. Qed.

Lemma bal_ret' E H (a : A) (P : A -> list lock) : P a = H -> bal E H (mret a) P.
Proof. intros <- s Hs. done. Qed.

Lemma bal_leave E H x (P : A -> list lock) : E x H -> bal E H (leave x) P.
Proof. intros HE s [Hs _]. simpl. intros _. by exists H. Qed.

Lemma bal_fault E H f (P : A -> list lock) : bal E H (faults f) P.
Proof. intros s _. by simpl. Qed.

Lemma bal_perm E H H0 (m : M A) (P : A -> list lock) : H ≡ₚ H0 -> bal E H0 m P -> bal E H m P.
Proof. intros HP Hm s [Hs Hn]. apply Hm. split; by rewrite <- HP. Qed.

Lemma bal_post E H (m : M A) (P P' : A -> list lock) :
  bal E H m P -> (forall a, P a ≡ₚ P' a) -> bal E H m P'.
Proof.
  intros Hm HP s Hs. eapply wp_mono; [by apply Hm| |done].
  intros a s' [Ha Hn]. split; by rewrite <- HP.
Qed.

Lemma bal_catch E H (m : M A) H' :
  bal (fun x L => match x with X_RET _ => L ≡ₚ H | _ => E x L end) H m (fun _ => H') ->
  bal E H (catch m) (fun r => match r with inl _ => H | inr _ => H' end).
Proof.
  intros Hm s Hs. apply wp_catch. eapply wp_mono; [by apply Hm|done|].
  destruct Hs as [_ HN].
  intros [r|k|hw|f] s' Hx; simpl in *; [|done..].
  destruct Hx as (L & HL & HE); [done|]. split; [by rewrite HL|done].
Qed.
End Bal.

Section BalPrim.
Implicit Types (E : exit -> list lock -> Prop) (H : list lock).

Lemma bal_if {A} E H (b : bool) (m n : M A) (P : A -> list lock) :
  bal E H m P -> bal E H n P -> bal E H (if b then m else n) P.
Proof. by destruct b. Qed.

Lemma bal_when E H b m : bal E H m (fun _ => H) -> bal E H (when b m) (fun _ => H).
Proof. destruct b; [done|]. intros _. apply bal_ret. Qed.

Lemma bal_error_if E H b r : E (X_RET r) H -> bal E H (error_if b r) (fun _ => H).
Proof. intros HE. apply bal_when. by apply bal_leave. Qed.

Lemma bal_rd E H p : bal E H (rd p) (fun _ => H).
Proof. intros s Hs. unfold wp, rd. by destruct (k_procs s !! p). Qed.

Lemma bal_modify E H f :
  (forall s, k_held (f s) = k_held s) -> bal E H (modify f) (fun _ => H).
Proof. intros Hf s [Hs Hn]. split; [by rewrite Hf|done]. Qed.

Lemma bal_wr E H p f : bal E H (wr p f) (fun _ => H).
Proof. eapply bal_bind; [apply bal_rd|]. intros x. by apply bal_modify. Qed.

Lemma bal_get E H : bal E H get (fun _ => H).
Proof. by intros s Hs. Qed.

Lemma bal_rd_dc E H d : bal E H (rd_dc d) (fun _ => H).
Proof. intros s Hs. unfold wp, rd_dc. by destruct (k_dcs s !! d). Qed.

Lemma bal_rd_node E H d : bal E H (rd_node d) (fun _ => H).
Proof. intros s Hs. unfold wp, rd_node. by destruct (k_nodes s !! d). Qed.

Lemma bal_wr_node E H d f : bal E H (wr_node d f) (fun _ => H).
Proof. eapply bal_bind; [apply bal_rd_node|]. intros x. by apply bal_modify. Qed.

Lemma bal_rd_proxies E H d : bal E H (rd_proxies d) (fun _ => H).
Proof. intros s Hs. unfold wp, rd_proxies. by destruct (k_proxies s !! d). Qed.

Lemma bal_rd_task E H t : bal E H (rd_task t) (fun _ => H).
Proof. intros s Hs. unfold wp, rd_task. by destruct (k_tasks s !! t). Qed.

Lemma bal_lock E H l : bal E H (lock_ l) (fun _ => l :: H).
Proof.
  intros s [Hs Hn]. unfold wp, lock_. case_bool_decide as Hl; [done|].
  split; simpl; [by rewrite Hs|]. constructor; [|done]. by rewrite <- Hs.
Qed.

Lemma del_Permutation `{EqDecision T} (x : T) l l' : l ≡ₚ x :: l' -> NoDup l -> del x l ≡ₚ l'.
Proof.
  intros HP HN. assert (HN' : NoDup (x :: l')) by by rewrite <- HP.
  apply list.NoDup_cons in HN' as [Hx HN'].
  apply list.NoDup_Permutation; [by apply NoDup_del|done|].
  intros y. rewrite elem_of_del, HP, elem_of_cons. split; [tauto|].
  intros Hy. split; [by right|]. by intros ->.
Qed.

Lemma bal_unlock E H l H' : Pick l H H' -> bal E H (unlock_ l) (fun _ => H').
Proof.
  unfold Pick. intros HP s [Hs Hn]. unfold wp, unlock_. case_bool_decide as Hl; [|done].
  split; simpl.
  - apply del_Permutation; [by rewrite Hs|]. by rewrite Hs.
  - rewrite HP in Hn. by apply list.NoDup_cons in Hn as [_ ?].
Qed.
End BalPrim.

(** The tactic [bal] walks through a handler, applying the rules above and the
    specifications of the hint database [bal] for the routines it calls. *)
Create HintDb bal.
#[export] Hint Resolve bal_rd bal_wr bal_get bal_rd_dc bal_rd_node bal_rd_proxies
  bal_rd_task bal_lock bal_wr_node bal_fault : bal.
#[export] Hint Extern 2 (bal _ _ (unlock_ _) _) =>
  (eapply bal_unlock; typeclasses eauto) : bal.
#[export] Hint Extern 2 (bal _ _ (mret _) _) => apply bal_ret : bal.
#[export] Hint Extern 0 (Clean _) => typeclasses eauto : bal.

Ltac bal_side := first [ apply clean | done ].

Ltac bal_step :=
  cbv beta;
  lazymatch goal with
  | |- bal _ _ (mbind ?m _) _ =>
      eapply bal_bind; [ first [ solve [eauto 3 with bal] | bal_step ]| intros ?; cbv beta ]
  | |- bal _ _ (if ?b then _ else _) _ => first [apply bal_if | destruct b]
  | |- bal _ _ (let '(_, _) := ?x in _) _ => destruct x
  | |- bal _ _ (match ?x with _ => _ end) _ => destruct x
  | |- bal _ _ (when _ _) _ => apply bal_when
  | |- bal _ _ (error_if _ _) _ => apply bal_error_if; try bal_side
  | |- bal _ _ (return_ _) _ => apply bal_leave; try bal_side
  | |- bal _ _ (leave _) _ => apply bal_leave; try bal_side
  | |- bal _ _ (modify _) _ => apply bal_modify; done
  | |- bal _ _ _ _ => solve [eauto 3 with bal]
  end.

Ltac bal := repeat bal_step; try done.
