(* ===== verification/Locks.v ===== *)
(** * Locks: every handler releases what it takes

    Specifications, for the discipline of [Hoare.v], of the routines the
    handlers share. *)

From S2P Require Import Prelude Types Endpoint Kernel Hoare Utils IpcCommon.

Section Locks.
Implicit Types (E : exit -> list lock -> Prop) (H : list lock).

Lemma bal_WLOCK_ORDERED2 E H p q :
  bal E (L_PROC p :: H) (WLOCK_ORDERED2 p q) (fun _ => L_PROC p :: L_PROC q :: H).
Proof.
  unfold WLOCK_ORDERED2. do 2 (eapply bal_bind; [apply bal_rd|intros ?]).
  apply bal_if.
  - eapply bal_post; [apply bal_lock|]. intros ?. apply Permutation_swap.
  - eapply bal_bind; [apply bal_unlock; typeclasses eauto|intros ?].
    eapply bal_bind; [apply bal_lock|intros ?]. apply bal_lock.
Qed.

Lemma bal_WLOCK_PROC2 E H p q :
  bal E H (WLOCK_PROC2 p q) (fun _ => L_PROC p :: L_PROC q :: H).
Proof.
  unfold WLOCK_PROC2. do 2 (eapply bal_bind; [apply bal_rd|intros ?]).
  apply bal_if; (eapply bal_bind; [apply bal_lock|intros ?]); [|apply bal_lock].
  eapply bal_post; [apply bal_lock|]. intros ?. apply Permutation_swap.
Qed.

Lemma bal_WUNLOCK_PROC2 E H p q H1 H2 :
  Pick (L_PROC p) H H1 -> Pick (L_PROC q) H1 H2 ->
  bal E H (WUNLOCK_PROC2 p q) (fun _ => H2).
Proof. intros ??. eapply bal_bind; [by apply bal_unlock|intros ?]. by apply bal_unlock. Qed.
End Locks.

#[export] Hint Resolve bal_WLOCK_ORDERED2 bal_WLOCK_PROC2 : bal.
#[export] Hint Extern 2 (bal _ _ (WUNLOCK_PROC2 _ _) _) =>
  (eapply bal_WUNLOCK_PROC2; typeclasses eauto) : bal.

Ltac bal_unfold :=
  repeat unfold WLOCK_PROC, WUNLOCK_PROC, RLOCK_PROC, RUNLOCK_PROC, RLOCK_DC, RUNLOCK_DC,
    WLOCK_DC, WUNLOCK_DC, ERROR_RUNLOCK_PROC, ERROR_WUNLOCK_PROC, ERROR_RUNLOCK_DC,
    ERROR_WUNLOCK_DC.

Section Routines.
Implicit Types (E : exit -> list lock -> Prop) (H : list lock).

Lemma bal_INIT_P_LINK E H p : bal E H (INIT_P_LINK p) (fun _ => H).
Proof. apply bal_wr. Qed.

Lemma bal_LIST_ADD_TAIL_P E H p q : bal E H (LIST_ADD_TAIL_P p q) (fun _ => H).
Proof. unfold LIST_ADD_TAIL_P. bal. Qed.

Lemma bal_LIST_DEL_P E H p : bal E H (LIST_DEL_P p) (fun _ => H).
Proof. unfold LIST_DEL_P. bal. Qed.

Lemma bal_LIST_ADD_TAIL_M E H p q : bal E H (LIST_ADD_TAIL_M p q) (fun _ => H).
Proof. unfold LIST_ADD_TAIL_M. bal. Qed.

Lemma bal_copy_usr2usr_msg E H a p b q c : bal E H (copy_usr2usr_msg a p b q c) (fun _ => H).
Proof. unfold copy_usr2usr_msg, mm_of. bal. Qed.

Lemma bal_copy_to_user_msg E H a b c : bal E H (copy_to_user_msg a b c) (fun _ => H).
Proof. unfold copy_to_user_msg. bal. Qed.

Lemma bal_copy_from_user_msg E H a b : bal E H (copy_from_user_msg a b) (fun _ => H).
Proof. unfold copy_from_user_msg. bal. Qed.

Lemma bal_LOCAL_PROC_UP E H p r : bal E H (LOCAL_PROC_UP p r) (fun _ => H).
Proof. apply bal_wr. Qed.
End Routines.

#[export] Hint Resolve bal_INIT_P_LINK bal_LIST_ADD_TAIL_P bal_LIST_DEL_P bal_LIST_ADD_TAIL_M
  bal_copy_usr2usr_msg bal_copy_to_user_msg bal_copy_from_user_msg bal_LOCAL_PROC_UP : bal.

Section Shared.
Context (E : exit -> list lock -> Prop) `{!Clean E}.
Implicit Types (H : list lock).

Lemma bal_sproxy_enqueue H p : bal E H (sproxy_enqueue p) (fun _ => H).
Proof. unfold sproxy_enqueue, NODE2SPROXY. bal_unfold. bal. Qed.

Lemma bal_check_sproxy H n : bal E H (check_sproxy n) (fun _ => H).
Proof. unfold check_sproxy, NODE2SPROXY. bal_unfold. bal. Qed.

Lemma bal_sleep_proc H p t k H' :
  Pick (L_PROC p) H H' -> E (X_SLEEP k) H' -> bal E H (sleep_proc p t k) (fun _ => H).
Proof.
  intros HP HE. unfold sleep_proc, sleep_enter, WUNLOCK_PROC. apply bal_if; bal.
Qed.

Lemma bal_sleep_proc2 H p q t k H1 H' :
  Pick (L_PROC p) H H1 -> Pick (L_PROC q) H1 H' -> E (X_SLEEP k) H' ->
  bal E H (sleep_proc2 p q t k) (fun _ => H).
Proof.
  intros HP HQ HE. unfold sleep_proc2, sleep_enter. apply bal_if; [bal|].
  eapply bal_bind; [apply bal_wr|intros ?; cbv beta].
  eapply bal_bind; [by eapply bal_WUNLOCK_PROC2|intros ?; cbv beta]. by apply bal_leave.
Qed.

Lemma bal_caller_binding cur : bal E [] (caller_binding cur) (fun _ => []).
Proof. unfold caller_binding. bal. Qed.

Lemma bal_check_caller_tail c pid d :
  bal E [L_PROC c] (check_caller_tail c pid d) (fun _ => []).
Proof. unfold check_caller_tail. bal_unfold. bal. Qed.

Lemma bal_check_caller cur cl : bal E [] (check_caller cur cl) (fun _ => []).
Proof.
  unfold check_caller. eapply bal_bind; [apply bal_caller_binding|]. intros [c pid]. bal_unfold.
  do 4 (eapply bal_bind; [solve [eauto with bal]|intros ?; cbv beta]).
  eapply bal_bind; [|intros ?; apply bal_check_caller_tail].
  apply bal_when. eapply bal_sleep_proc; [apply _|apply clean].
Qed.

Lemma bal_sleep_exit p H m H' t w :
  bal E H m (fun _ => H') -> bal E H (sleep_exit p m t w) (fun _ => H').
Proof. intros Hm. unfold sleep_exit. eapply bal_bind; [exact Hm|]. intros ?. apply bal_wr. Qed.

Lemma bal_check_caller_resume c pid d w :
  bal E [] (check_caller_resume c pid d w) (fun _ => []).
Proof.
  unfold check_caller_resume.
  eapply bal_bind; [apply bal_sleep_exit, bal_lock|intros ?; cbv beta].
  eapply bal_bind; [apply bal_rd|intros x; cbv beta].
  eapply bal_bind; [bal_unfold; bal|intros ?; apply bal_check_caller_tail].
Qed.

Lemma bal_ipc_prologue c pid dst_ep m t :
  bal E [] (ipc_prologue c pid dst_ep m t) (fun _ => []).
Proof. unfold ipc_prologue. bal_unfold. bal. Qed.

Lemma bal_check_dst_node H d y : bal E H (check_dst_node d y) (fun _ => H).
Proof. unfold check_dst_node. bal_unfold. bal. Qed.
End Shared.

(** The locks of the caller and of the destination. *)
Notation "'both' f" := [L_PROC (f_c f); L_PROC (f_dst f)] (at level 10, f at level 9).

#[export] Hint Resolve bal_sproxy_enqueue bal_check_sproxy bal_check_caller bal_sleep_exit
  bal_ipc_prologue bal_check_dst_node : bal.
#[export] Hint Extern 2 (bal _ _ (sleep_proc _ _ _) _) =>
  (eapply bal_sleep_proc; [typeclasses eauto | apply clean]) : bal.
#[export] Hint Extern 2 (bal _ _ (sleep_proc2 _ _ _ _) _) =>
  (eapply bal_sleep_proc2; [typeclasses eauto | typeclasses eauto | apply clean]) : bal.

Section Common.
Context (E : exit -> list lock -> Prop) `{!Clean E}.
Implicit Types (H : list lock) (f : frame).

Lemma bal_check_dst fuel f died k :
  bal E (both f) (check_dst fuel f died k) (fun _ => both f).
Proof.
  induction fuel as [|fuel IH]; [apply bal_fault|]. cbn [check_dst].
  unfold enqueue_migr, INIT_P_MLINK. bal.
Qed.

Lemma bal_fail2 {A} f r (P : A -> list lock) : bal E (both f) (fail2 f r) P.
Proof.
  eapply bal_bind; [eapply bal_WUNLOCK_PROC2; apply _|intros ?]. apply bal_leave, clean.
Qed.

Lemma bal_finish f r P : bal E [L_PROC (f_c f)] (finish f r) P.
Proof. unfold finish. bal_unfold. bal. Qed.

Lemma bal_rmt_cleanup H c b : bal E H (rmt_cleanup c b) (fun _ => H).
Proof. unfold rmt_cleanup. bal. Qed.

Lemma bal_end_receiving H p r : bal E H (end_receiving p r) (fun _ => H).
Proof. unfold end_receiving. bal. Qed.

Lemma bal_fill_msg_cmd H cmd f r : bal E H (fill_msg_cmd cmd f r) (fun _ => H).
Proof. unfold fill_msg_cmd. bal. Qed.

Lemma bal_cmd_msg_from_user H cur c m : bal E H (cmd_msg_from_user cur c m) (fun _ => H).
Proof. unfold cmd_msg_from_user. bal. Qed.

Lemma bal_dst_stop_receiving H c d : bal E H (dst_stop_receiving c d) (fun _ => H).
Proof. unfold dst_stop_receiving. bal. Qed.

Lemma bal_lclsent_inc H c : bal E H (lclsent_inc c) (fun _ => H).
Proof. apply bal_wr. Qed.

Lemma bal_rmtsent_inc H c : bal E H (rmtsent_inc c) (fun _ => H).
Proof. apply bal_wr. Qed.

Lemma bal_BUILD_NOTIFY_MSG H c a b d : bal E H (BUILD_NOTIFY_MSG c a b d) (fun _ => H).
Proof. unfold BUILD_NOTIFY_MSG. bal. Qed.

Lemma bal_generic_ack H a r l c : bal E H (generic_ack_lcl2rmt a r l c) (fun _ => H).
Proof. unfold generic_ack_lcl2rmt. bal. Qed.

Lemma bal_check_sys_bit H p b : bal E H (check_sys_bit p b) (fun _ => H).
Proof. unfold check_sys_bit. bal. Qed.
End Common.

#[export] Hint Resolve bal_check_dst bal_fail2 bal_finish bal_rmt_cleanup bal_end_receiving
  bal_fill_msg_cmd bal_cmd_msg_from_user bal_dst_stop_receiving bal_lclsent_inc
  bal_rmtsent_inc bal_BUILD_NOTIFY_MSG bal_generic_ack bal_check_sys_bit : bal.
