(* ===== verification/IpcLocks.v ===== *)
(** * Locks of the IPC primitives

    Every primitive releases the mutexes it takes before it returns or sleeps,
    but for one error path of [mm_mini_receive], [mm_mini_notify] and
    [mm_mini_reply] each, and the exact lock they keep is shown. *)

From S2P Require Import Prelude Types Endpoint Kernel Hoare Utils IpcCommon.
From S2P Require Import Send Receive Sendrec Notify Locks.

(** At most one lock is kept, of a process, and then the error is [err]. *)
Definition keeps_on (err : Z) (x : exit) (L : list lock) : Prop :=
  L = [] \/ (x = X_RET err /\ exists p, L = [L_PROC p]).

#[export] Instance clean_keeps_on err : Clean (keeps_on err).
Proof. intros x. by left. Qed.

(** From some state without locks the error [err] keeps exactly one, of a process. *)
Definition keeps_one (err : Z) (m : handler) : Prop :=
  exists s s' p, k_held s = [] /\ m s = Exit (X_RET err) s' /\ k_held s' = [L_PROC p].

(** What a handler does with the locks, from a state without locks. *)
Definition lock_spec (E : exit -> list lock -> Prop) (m : handler) : Prop :=
  forall s, k_held s = [] ->
    match m s with
    | Val _ _ => False
    | Exit x s' => is_fault x = false -> exists L, k_held s' ≡ₚ L /\ E x L
    end.

Lemma bal_lock_spec E (m : handler) P : bal E [] m P -> lock_spec E m.
Proof.
  intros Hm s Hs. specialize (Hm s). unfold wp, held in Hm.
  rewrite Hs in Hm. specialize (Hm (conj (Permutation_refl _) (NoDup_nil_2))).
  destruct (m s) as [[]|x s']. exact Hm.
Qed.

Section SendLocks.
Context (E : exit -> list lock -> Prop) `{!Clean E}.

Lemma bal_send_remote_after f r P :
  bal E [L_PROC (f_c f)] r P -> bal E [L_PROC (f_c f)] (send_remote_after f r) P.
Proof. intros. unfold send_remote_after. bal. Qed.

Lemma bal_start_remote cur f :
  bal E (both f) (start_remote cur f) (fun _ => [L_PROC (f_c f)]).
Proof. unfold start_remote. bal_unfold. bal. Qed.
#[local] Hint Resolve bal_send_remote_after bal_start_remote : bal.

Lemma bal_send_remote cur f r P :
  bal E [L_PROC (f_c f)] r P -> bal E (both f) (send_remote cur f r) P.
Proof. intros. unfold send_remote. bal. Qed.

Lemma bal_deliver_waiting f P : bal E (both f) (deliver_waiting f) P.
Proof. unfold deliver_waiting. bal_unfold. bal. Qed.
#[local] Hint Resolve bal_deliver_waiting bal_send_remote : bal.

Lemma bal_send_local_after f r P :
  bal E [L_PROC (f_c f)] r P -> bal E (both f) (send_local_after f r) P.
Proof. intros. unfold send_local_after. bal_unfold. bal. Qed.
#[local] Hint Resolve bal_send_local_after : bal.

Lemma bal_send_local f r P :
  bal E [L_PROC (f_c f)] r P -> bal E (both f) (send_local f r) P.
Proof. intros. unfold send_local, send_enqueue. bal. Qed.
#[local] Hint Resolve bal_send_local : bal.

Lemma bal_send_dispatch cur f ret r P :
  bal E [L_PROC (f_c f)] r P -> bal E (both f) (send_dispatch cur f ret r) P.
Proof. intros. unfold send_dispatch. bal. Qed.
#[local] Hint Resolve bal_send_dispatch : bal.

Lemma bal_send_replay fuel cur f P : bal E [L_PROC (f_c f)] (send_replay fuel cur f) P.
Proof. induction fuel; cbn [send_replay]; bal. Qed.
End SendLocks.

#[export] Hint Resolve bal_send_remote_after bal_start_remote bal_deliver_waiting
  bal_send_replay bal_send_dispatch bal_send_local_after : bal.

Section SendrecLocks.
Context (E : exit -> list lock -> Prop) `{!Clean E}.

Lemma bal_check_sendrec_sproxy H d n : bal E H (check_sendrec_sproxy d n) (fun _ => H).
Proof. unfold check_sendrec_sproxy, NODE2SPROXY. bal_unfold. bal. Qed.

Lemma bal_clear_waiting H c : bal E H (clear_waiting c) (fun _ => H).
Proof. unfold clear_waiting. bal. Qed.
#[local] Hint Resolve bal_check_sendrec_sproxy bal_clear_waiting : bal.

Lemma bal_sendrec_remote_after f r P :
  bal E [L_PROC (f_c f)] r P -> bal E [L_PROC (f_c f)] (sendrec_remote_after f r) P.
Proof. intros. unfold sendrec_remote_after. bal. Qed.
#[local] Hint Resolve bal_sendrec_remote_after : bal.

Lemma bal_sendrec_remote cur f r P :
  bal E [L_PROC (f_c f)] r P -> bal E (both f) (sendrec_remote cur f r) P.
Proof. intros. unfold sendrec_remote. bal_unfold. bal. Qed.

Lemma bal_sendrec_reply_after f P : bal E [L_PROC (f_c f)] (sendrec_reply_after f) P.
Proof. unfold sendrec_reply_after. bal. Qed.
#[local] Hint Resolve bal_sendrec_remote bal_sendrec_reply_after : bal.

Lemma bal_sendrec_waiting f P : bal E (both f) (sendrec_waiting f) P.
Proof. unfold sendrec_waiting. bal_unfold. bal. Qed.

Lemma bal_sendrec_queued_after f r P :
  bal E [L_PROC (f_c f)] r P -> bal E (both f) (sendrec_queued_after f r) P.
Proof. intros. unfold sendrec_queued_after. bal_unfold. bal. Qed.
#[local] Hint Resolve bal_sendrec_waiting bal_sendrec_queued_after : bal.

Lemma bal_sendrec_dispatch cur f ret r P :
  bal E [L_PROC (f_c f)] r P -> bal E (both f) (sendrec_dispatch cur f ret r) P.
Proof. intros. unfold sendrec_dispatch, sendrec_local, sendrec_enqueue. bal. Qed.
#[local] Hint Resolve bal_sendrec_dispatch : bal.

Lemma bal_sendrec_replay fuel cur f P :
  bal E [L_PROC (f_c f)] (sendrec_replay fuel cur f) P.
Proof. induction fuel; cbn [sendrec_replay]; bal. Qed.
End SendrecLocks.

#[export] Hint Resolve bal_sendrec_remote_after bal_sendrec_reply_after
  bal_sendrec_queued_after bal_sendrec_dispatch bal_sendrec_replay : bal.

Section ReplyLocks.
Lemma bal_reply_local f P : bal (keeps_on EMOLPROCSTS) (both f) (reply_local f) P.
Proof.
  unfold reply_local, finish. bal_unfold. bal. right. eauto.
Qed.
#[local] Hint Resolve bal_reply_local : bal.

Lemma bal_reply_dispatch cur f ret r P :
  bal (keeps_on EMOLPROCSTS) [L_PROC (f_c f)] r P -> bal (keeps_on EMOLPROCSTS) (both f) (reply_dispatch cur f ret r) P.
Proof. intros. unfold reply_dispatch, reply_remote. bal. Qed.
#[local] Hint Resolve bal_reply_dispatch : bal.

Lemma bal_reply_replay fuel cur f P : bal (keeps_on EMOLPROCSTS) [L_PROC (f_c f)] (reply_replay fuel cur f) P.
Proof. induction fuel; cbn [reply_replay]; bal. Qed.
End ReplyLocks.

#[export] Hint Resolve bal_reply_replay bal_reply_dispatch : bal.

Section ReceiveLocks.
Context (E : exit -> list lock -> Prop) `{!Clean E}.

Lemma bal_receive_prologue c pid : bal E [] (receive_prologue c pid) (fun _ => []).
Proof. unfold receive_prologue. bal_unfold. bal. Qed.

Lemma bal_receive_notify cur d dc c a b e m P :
  bal E [L_PROC c] (receive_notify cur d dc c a b e m) P.
Proof. unfold receive_notify. bal_unfold. bal. Qed.

Lemma bal_take_message H cur c x m : bal E H (take_message cur c x m) (fun _ => H).
Proof. unfold take_message, send_ack_lcl2rmt. bal. Qed.

Lemma bal_end_sending H x r : bal E H (end_sending x r) (fun _ => H).
Proof. unfold end_sending. bal. Qed.
#[local] Hint Resolve bal_take_message bal_end_sending : bal.

Lemma bal_receive_from {A} cur c x a m (P : A -> list lock) :
  bal E [L_PROC c; L_PROC x] (receive_from cur c x a m) P.
Proof. unfold receive_from. bal_unfold. bal. Qed.
#[local] Hint Resolve bal_receive_from bal_receive_notify : bal.

Lemma bal_receive_queue cur c a m l :
  bal E [L_PROC c] (receive_queue cur c a m l) (fun _ => [L_PROC c]).
Proof. induction l as [|x l IH]; cbn [receive_queue]; bal_unfold; bal. Qed.

Lemma bal_receive_block H c a : bal E H (receive_block c a) (fun _ => H).
Proof. unfold receive_block. bal. Qed.

Lemma bal_receive_after cur c P : bal E [L_PROC c] (receive_after cur c) P.
Proof. unfold receive_after. bal_unfold. bal. Qed.

Lemma bal_rcvrqst_after c P : bal E [L_PROC c] (rcvrqst_after c) P.
Proof. unfold rcvrqst_after. bal_unfold. bal. Qed.
#[local] Hint Resolve bal_receive_queue bal_receive_block bal_receive_after
  bal_rcvrqst_after bal_receive_prologue : bal.

Lemma bal_receive_locked cur d dc c a m t P :
  bal E [L_PROC c] (receive_locked cur d dc c a m t) P.
Proof. unfold receive_locked. bal_unfold. bal. Qed.

Lemma bal_rcvrqst_body cur c pid m t P : bal E [] (rcvrqst_body cur c pid m t) P.
Proof. unfold rcvrqst_body, rcvrqst_locked. bal_unfold. bal. Qed.
End ReceiveLocks.

#[export] Hint Resolve bal_receive_locked bal_rcvrqst_body bal_receive_after
  bal_rcvrqst_after bal_receive_prologue : bal.

Lemma bal_check_source c a d dc e :
  bal (keeps_on EMOLBADNODEID) [] (check_source c a d dc e) (fun _ => []).
Proof.
  unfold check_source, NODE2RPROXY. bal_unfold. bal. right. eauto.
Qed.
#[export] Hint Resolve bal_check_source : bal.

Section NotifyLocks.
Context (E : exit -> list lock -> Prop) `{!Clean E}.

Lemma bal_hdw_notify cur d e P : bal E [] (mm_hdw_notify cur d e) P.
Proof.
  unfold mm_hdw_notify, hdw_notify_locked, set_notify_pending, wake_notified. bal_unfold. bal.
Qed.

Lemma bal_notify_end f P : bal E [L_PROC (f_c f)] (notify_end f) P.
Proof. unfold notify_end. bal. Qed.
#[local] Hint Resolve bal_notify_end : bal.

Lemma bal_notify_remote_after f r P :
  bal E [L_PROC (f_c f)] r P -> bal E [L_PROC (f_c f)] (notify_remote_after f r) P.
Proof. intros. unfold notify_remote_after. bal. Qed.
#[local] Hint Resolve bal_notify_remote_after : bal.

Lemma bal_notify_remote f a b e r P :
  bal E [L_PROC (f_c f)] r P -> bal E (both f) (notify_remote f a b e r) P.
Proof. intros. unfold notify_remote. bal_unfold. bal. Qed.

Lemma bal_notify_migrating f P : bal E (both f) (notify_migrating f) P.
Proof. unfold notify_migrating, set_notify_pending. bal. Qed.

Lemma bal_notify_source H d dc x n : bal E H (notify_source d dc x n) (fun _ => H).
Proof. unfold notify_source. bal_unfold. bal. Qed.
End NotifyLocks.

#[export] Hint Resolve bal_hdw_notify bal_notify_remote bal_notify_migrating
  bal_notify_source bal_notify_end bal_notify_remote_after : bal.

Lemma bal_notify_local f dc a b e P :
  bal (keeps_on EMOLPRIVILEGES) (both f) (notify_local f dc a b e) P.
Proof.
  unfold notify_local, set_update, set_notify_pending, wake_notified. bal_unfold. bal.
  right. eauto.
Qed.
#[export] Hint Resolve bal_notify_local : bal.

Lemma bal_notify_replay fuel f a b e P :
  bal (keeps_on EMOLPRIVILEGES) [L_PROC (f_c f)] (notify_replay fuel f a b e) P.
Proof. induction fuel; cbn [notify_replay]; bal. Qed.

Lemma bal_notify_body fuel c pid a b e P :
  bal (keeps_on EMOLPRIVILEGES) [] (notify_body fuel c pid a b e) P.
Proof.
  unfold notify_body. bal_unfold. bal.
  apply (bal_notify_replay fuel (mk_frame c _ _ _ _ _ _)).
Qed.

#[export] Hint Resolve bal_notify_body : bal.

Lemma bal_catch_check_caller E `{!Clean E} cur cl :
  bal E [] (catch (check_caller cur cl)) (fun _ => []).
Proof.
  eapply bal_post; [apply bal_catch, bal_check_caller|by intros []].
  intros [r|k|hw|f]; [done|apply clean..].
Qed.

(** C9. [mm_mini_send] and [mm_mini_sendrec], their resumptions after a sleep,
    and [mm_mini_rcvrqst] release every mutex they take: whatever the state,
    the arguments and the branch taken, a handler entered without locks always
    leaves (it never ends without an exit) and holds no lock when it returns
    to user space or goes to sleep. *)
Theorem ipc_releases_locks fuel cur ep m_ptr timeout f w :
  lock_spec no_locks (mm_mini_send fuel cur ep m_ptr timeout) /\
  lock_spec no_locks (resume_send_migr fuel cur f w) /\
  lock_spec no_locks (resume_send_remote fuel cur f w) /\
  lock_spec no_locks (resume_send_local fuel cur f w) /\
  lock_spec no_locks (mm_mini_sendrec fuel cur ep m_ptr timeout) /\
  lock_spec no_locks (resume_sendrec_migr fuel cur f w) /\
  lock_spec no_locks (resume_sendrec_remote fuel cur f w) /\
  lock_spec no_locks (resume_sendrec_reply f w) /\
  lock_spec no_locks (resume_sendrec_queued fuel cur f w) /\
  lock_spec no_locks (mm_mini_rcvrqst cur m_ptr timeout) /\
  lock_spec no_locks (resume_receive cur (f_c f) timeout w) /\
  lock_spec no_locks (resume_rcvrqst (f_c f) timeout w) /\
  lock_spec no_locks (mm_hdw_notify cur (f_dcid f) ep).
Proof.
  split_and!; eapply (bal_lock_spec _ _ (fun _ => []));
    unfold mm_mini_send, send_body, resume_send_migr, resume_send_remote, resume_send_local,
      mm_mini_sendrec, sendrec_body, resume_sendrec_migr, resume_sendrec_remote,
      resume_sendrec_reply, resume_sendrec_queued, mm_mini_rcvrqst, resume_receive,
      resume_rcvrqst; bal_unfold; bal.
Qed.

(** The primitives with an error path that may keep a lock: a receive may leave the
    source locked on [EMOLBADNODEID], a reply the destination on [EMOLPROCSTS], a
    notify the caller on [EMOLPRIVILEGES]. *)
Lemma ipc_lock_specs fuel cur nr ep m_ptr timeout :
  lock_spec (keeps_on EMOLBADNODEID) (mm_mini_receive cur ep m_ptr timeout) /\
  lock_spec (keeps_on EMOLPROCSTS) (mm_mini_reply fuel cur ep m_ptr timeout) /\
  lock_spec (keeps_on EMOLPRIVILEGES) (mm_mini_notify fuel cur nr ep timeout).
Proof.
  split_and!; eapply (bal_lock_spec _ _ (fun _ => [])).
  - unfold mm_mini_receive, receive_body. bal_unfold. bal.
  - unfold mm_mini_reply, reply_body. bal_unfold. bal.
  - unfold mm_mini_notify, notify_called. bal.
    eapply bal_bind; [apply bal_catch_check_caller, _|intros r; cbv beta]. bal.
Qed.
