(* ===== verification/Queues.v ===== *)
(** * The queues of senders

    Every descriptor heads a queue ([p_list]) of the descriptors that wait to
    send to it, and is itself on at most one queue ([p_link]).  The sender
    proxies use the same lists for the commands to other nodes.  The invariant
    ties the two ends of the intrusive lists together, and ties being on a
    queue to the status bits every handler tests. *)

From S2P Require Import Prelude Types Endpoint Kernel Hoare Utils.

(** What being on the queue of [h] says about a descriptor. *)
Definition queued_on (P : gmap ptr proc) (px : proc) (h : ptr) : Prop :=
  match h with
  | PROC _ _ => rts BIT_SENDING px = true /\
      exists ph, P !! h = Some ph /\ p_sendto px = p_endpoint ph
  | SPROXY _ => rts BIT_RMTOPER px = true /\
      (IT_IS_LOCAL px = true -> rts BIT_SENDING px = true)
  | RPROXY _ => False
  end.

Record queue_inv (P : gmap ptr proc) : Prop := {
  qi_list : forall h ph x, P !! h = Some ph -> x ∈ p_list ph ->
    exists px, P !! x = Some px /\ p_link px = Some h;
  qi_link : forall x px h, P !! x = Some px -> p_link px = Some h ->
    exists ph, P !! h = Some ph /\ x ∈ p_list ph;
  qi_nodup : forall h ph, P !! h = Some ph -> NoDup (p_list ph);
  qi_queued : forall x px h, P !! x = Some px -> p_link px = Some h -> queued_on P px h;
  qi_backup : forall x px, P !! x = Some px -> misc MIS_RMTBACKUP px = false;
}.

Definition qinv (s : kstate) : Prop := queue_inv (k_procs s).

(** What the handler of [c] leaves alone: no descriptor moves between nodes or
    changes its endpoint, and no local descriptor but [c] is put on a queue. *)
Definition frame_ok (c : ptr) (P P' : gmap ptr proc) : Prop :=
  forall q x', P' !! q = Some x' -> exists x, P !! q = Some x /\
    IT_IS_REMOTE x' = IT_IS_REMOTE x /\
    (q <> c -> IT_IS_LOCAL x = true -> p_link x = None -> p_link x' = None) /\
    p_endpoint x' = p_endpoint x.

Definition good (c : ptr) (s0 s : kstate) : Prop :=
  qinv s /\ frame_ok c (k_procs s0) (k_procs s).

(** Facts on one descriptor. *)
Definition fact (p : ptr) (phi : proc -> Prop) (s : kstate) : Prop :=
  forall x, k_procs s !! p = Some x -> phi x.

Definition unl (x : proc) : Prop := p_link x = None.
Definition is_local (x : proc) : Prop := IT_IS_LOCAL x = true.
Definition is_remote (x : proc) : Prop := IT_IS_REMOTE x = true.
Definition ep_is (e : Z) (x : proc) : Prop := p_endpoint x = e.
Definition sends_to (e : Z) (x : proc) : Prop := rts BIT_SENDING x = true /\ p_sendto x = e.
Definition sending (x : proc) : Prop := rts BIT_SENDING x = true.
Definition rmtoper (x : proc) : Prop := rts BIT_RMTOPER x = true.
Definition off_procs (x : proc) : Prop := forall d i, p_link x <> Some (PROC d i).

(** The descriptors the handler of [c] may put on a queue, and those it may put
    on the queue of a sender proxy. *)
Definition mine (c p : ptr) (x : proc) : Prop := p = c \/ IT_IS_REMOTE x = true.
Definition cmd_ok (x : proc) : Prop :=
  rts BIT_RMTOPER x = true /\ (IT_IS_LOCAL x = true -> rts BIT_SENDING x = true).

(** Updates of a descriptor that keep its place in the queues. *)
Definition keeps_queue (x y : proc) : Prop :=
  p_list y = p_list x /\ p_link y = p_link x /\ p_endpoint y = p_endpoint x /\
  misc MIS_RMTBACKUP y = misc MIS_RMTBACKUP x /\ IT_IS_REMOTE y = IT_IS_REMOTE x /\
  (p_link x = None \/
   (rts BIT_RMTOPER y = rts BIT_RMTOPER x /\ rts BIT_SENDING y = rts BIT_SENDING x /\
    p_sendto y = p_sendto x) \/
   (IT_IS_REMOTE x = true /\ rts BIT_RMTOPER x = true /\ rts BIT_RMTOPER y = true /\
    forall d i, p_link x <> Some (PROC d i))).

(** ** The invariant under updates *)

Lemma queued_on_endpoint P P' px h :
  queued_on P px h ->
  (forall ph, P !! h = Some ph -> exists ph', P' !! h = Some ph' /\ p_endpoint ph' = p_endpoint ph) ->
  queued_on P' px h.
Proof.
  destruct h; simpl; [|done..]. intros [? (ph & Hph & He)] HP. split; [done|].
  destruct (HP ph Hph) as (ph' & ? & ?). exists ph'. split; congruence.
Qed.

Lemma queue_inv_upd P p x y :
  queue_inv P -> P !! p = Some x -> keeps_queue x y -> queue_inv (<[p := y]> P).
Proof.
  intros [Hl Hk Hn Hq Hb] Hx (El & Ek & Ee & Em & Er & HF).
  assert (Hend : forall h ph, P !! h = Some ph ->
    exists ph', <[p := y]> P !! h = Some ph' /\ p_endpoint ph' = p_endpoint ph).
  { intros h ph Hh. destruct (decide (p = h)) as [->|].
    - exists y. rewrite lookup_insert_eq. split; congruence.
    - exists ph. by rewrite lookup_insert_ne. }
  split.
  - intros h ph z Hh Hz.
    assert (exists pz, P !! z = Some pz /\ p_link pz = Some h) as (pz & ? & ?).
    { apply lookup_insert_Some in Hh as [[<- <-]|[? Hh]]; [|by eapply Hl].
      rewrite El in Hz. by eapply Hl. }
    destruct (decide (p = z)) as [->|].
    + exists y. rewrite lookup_insert_eq. split; congruence.
    + exists pz. by rewrite lookup_insert_ne.
  - intros z pz h Hz Hh.
    assert (exists ph, P !! h = Some ph /\ z ∈ p_list ph) as (ph & ? & ?).
    { apply lookup_insert_Some in Hz as [[<- <-]|[? Hz]]; [|by eapply Hk].
      rewrite Ek in Hh. by eapply Hk. }
    destruct (decide (p = h)) as [->|].
    + exists y. rewrite lookup_insert_eq. split; congruence.
    + exists ph. by rewrite lookup_insert_ne.
  - intros h ph Hh. apply lookup_insert_Some in Hh as [[<- <-]|[? Hh]]; [|eauto].
    rewrite El. eauto.
  - intros z pz h Hz Hh. eapply queued_on_endpoint; [|apply Hend].
    apply lookup_insert_Some in Hz as [[<- <-]|[? Hz]]; [|eauto].
    rewrite Ek in Hh. specialize (Hq p x h Hx Hh).
    destruct HF as [HF|[(E1 & E2 & E3)|(F1 & F2 & F3 & F4)]]; [congruence| |].
    + unfold queued_on, IT_IS_LOCAL in *. unfold IT_IS_REMOTE in Er.
      destruct h; rewrite ?E1, ?E2, ?E3, ?Er; done.
    + unfold queued_on, IT_IS_LOCAL in *. unfold IT_IS_REMOTE in *.
      destruct h; [by destruct (F4 dcid index)| |done].
      rewrite F3, Er, F1. done.
  - intros z pz Hz. apply lookup_insert_Some in Hz as [[<- <-]|[? Hz]]; [|eauto].
    rewrite Em. eauto.
Qed.

(** [requeued newlist newlink P P']: the lists and links of [P'] are those of
    [P] changed by the two functions; nothing else the invariant looks at
    changes. *)
Definition requeued (newlist : ptr -> list ptr -> list ptr)
    (newlink : ptr -> option ptr -> option ptr) (P P' : gmap ptr proc) : Prop :=
  forall z, match P !! z, P' !! z with
  | Some a, Some b =>
      p_list b = newlist z (p_list a) /\ p_link b = newlink z (p_link a) /\
      p_endpoint b = p_endpoint a /\ p_rts_flags b = p_rts_flags a /\
      p_sendto b = p_sendto a /\ p_misc_flags b = p_misc_flags a
  | None, None => True
  | _, _ => False
  end.

Section Requeued.
Context (nl : ptr -> list ptr -> list ptr) (nk : ptr -> option ptr -> option ptr).
Context (P P' : gmap ptr proc) (HR : requeued nl nk P P').

Lemma requeued_back z b : P' !! z = Some b -> exists a, P !! z = Some a /\
  p_list b = nl z (p_list a) /\ p_link b = nk z (p_link a) /\ p_endpoint b = p_endpoint a /\
  p_rts_flags b = p_rts_flags a /\ p_sendto b = p_sendto a /\ p_misc_flags b = p_misc_flags a.
Proof. intros Hb. pose proof (HR z) as Hz. rewrite Hb in Hz. destruct (P !! z); [eauto|done]. Qed.

Lemma requeued_fwd z a : P !! z = Some a -> exists b, P' !! z = Some b /\
  p_list b = nl z (p_list a) /\ p_link b = nk z (p_link a) /\ p_endpoint b = p_endpoint a /\
  p_rts_flags b = p_rts_flags a /\ p_sendto b = p_sendto a /\ p_misc_flags b = p_misc_flags a.
Proof. intros Hb. pose proof (HR z) as Hz. rewrite Hb in Hz. destruct (P' !! z); [eauto|done]. Qed.

Lemma requeued_queued_on z a b h :
  P !! z = Some a -> P' !! z = Some b -> queued_on P a h -> queued_on P' b h.
Proof.
  intros Ha Hb Hq. pose proof (HR z) as Hz. rewrite Ha, Hb in Hz.
  destruct Hz as (_ & _ & _ & Ef & Es & _).
  unfold queued_on, IT_IS_LOCAL, rts in *. rewrite Ef, Es. destruct h; [|done..].
  destruct Hq as [? (ph & Hph & He)]. split; [done|].
  destruct (requeued_fwd _ _ Hph) as (ph' & ? & _ & _ & Hep & _). exists ph'. split; congruence.
Qed.
End Requeued.

Lemma queue_inv_add P P' x px h ph :
  queue_inv P -> P !! x = Some px -> P !! h = Some ph -> p_link px = None ->
  queued_on P px h ->
  requeued (fun z l => if decide (z = h) then l ++ [x] else l)
           (fun z k => if decide (z = x) then Some h else k) P P' ->
  queue_inv P'.
Proof.
  intros [Hl Hk Hn Hq Hb] Hx Hh Hnone Hqx HR.
  assert (Hnotin : x ∉ p_list ph).
  { intros Hin. destruct (Hl _ _ _ Hh Hin) as (? & ? & ?). congruence. }
  split.
  - intros h0 b z Hb0 Hz.
    destruct (requeued_back _ _ _ _ HR _ _ Hb0) as (a & Ha & El & _).
    assert (z = x /\ h0 = h \/ z <> x /\ z ∈ p_list a) as [[-> ->]|[Hzx Hza]].
    { rewrite El in Hz. case_decide as D.
      - subst h0. replace a with ph in * by congruence.
        apply elem_of_app in Hz as [Hz|Hz%list_elem_of_singleton]; [right|by left].
        split; [by intros ->|done].
      - right. split; [|done]. intros ->. destruct (Hl _ _ _ Ha Hz) as (? & ? & ?). congruence. }
    + destruct (requeued_fwd _ _ _ _ HR _ _ Hx) as (c & Hc & _ & Ek & _).
      exists c. rewrite decide_True in Ek by done. done.
    + destruct (Hl _ _ _ Ha Hza) as (pz & Hpz & Hpl).
      destruct (requeued_fwd _ _ _ _ HR _ _ Hpz) as (c & Hc & _ & Ek & _).
      exists c. rewrite decide_False in Ek by done. split; congruence.
  - intros z b h0 Hb0 Hk0.
    destruct (requeued_back _ _ _ _ HR _ _ Hb0) as (a & Ha & _ & Ek & _).
    rewrite Ek in Hk0. case_decide as D.
    + simplify_eq. destruct (requeued_fwd _ _ _ _ HR _ _ Hh) as (c & Hc & El & _).
      exists c. rewrite El, decide_True by done. split; [done|]. set_solver.
    + destruct (Hk _ _ _ Ha Hk0) as (pa & Hpa & Hin).
      destruct (requeued_fwd _ _ _ _ HR _ _ Hpa) as (c & Hc & El & _).
      exists c. rewrite El. split; [done|]. case_decide; set_solver.
  - intros h0 b Hb0. destruct (requeued_back _ _ _ _ HR _ _ Hb0) as (a & Ha & El & _).
    rewrite El. case_decide; [|eauto]. subst h0. replace a with ph by congruence.
    apply NoDup_snoc; eauto.
  - intros z b h0 Hb0 Hk0.
    destruct (requeued_back _ _ _ _ HR _ _ Hb0) as (a & Ha & _ & Ek & _).
    eapply (requeued_queued_on _ _ _ _ HR); [done..|].
    rewrite Ek in Hk0. case_decide; [|eauto]. simplify_eq. done.
  - intros z b Hb0. destruct (requeued_back _ _ _ _ HR _ _ Hb0) as (a & Ha & H5).
    unfold misc. destruct H5 as (_ & _ & _ & _ & _ & ->). exact (Hb _ _ Ha).
Qed.

Lemma queue_inv_del P P' x px h :
  queue_inv P -> P !! x = Some px -> p_link px = Some h ->
  requeued (fun z l => if decide (z = h) then del x l else l)
           (fun z k => if decide (z = x) then None else k) P P' ->
  queue_inv P'.
Proof.
  intros [Hl Hk Hn Hq Hb] Hx Hh HR. split.
  - intros h0 b z Hb0 Hz.
    destruct (requeued_back _ _ _ _ HR _ _ Hb0) as (a & Ha & El & _).
    assert (z <> x /\ z ∈ p_list a) as [Hzx Hza].
    { rewrite El in Hz. case_decide as D.
      - apply elem_of_del in Hz as [??]. done.
      - split; [|done]. intros ->. destruct (Hl _ _ _ Ha Hz) as (? & ? & ?). congruence. }
    destruct (Hl _ _ _ Ha Hza) as (pz & Hpz & Hpl).
    destruct (requeued_fwd _ _ _ _ HR _ _ Hpz) as (c & Hc & _ & Ek & _).
    exists c. rewrite decide_False in Ek by done. split; congruence.
  - intros z b h0 Hb0 Hk0.
    destruct (requeued_back _ _ _ _ HR _ _ Hb0) as (a & Ha & _ & Ek & _).
    rewrite Ek in Hk0. case_decide as D; [done|].
    destruct (Hk _ _ _ Ha Hk0) as (pa & Hpa & Hin).
    destruct (requeued_fwd _ _ _ _ HR _ _ Hpa) as (c & Hc & El & _).
    exists c. rewrite El. split; [done|]. case_decide; [|done]. by apply elem_of_del.
  - intros h0 b Hb0. destruct (requeued_back _ _ _ _ HR _ _ Hb0) as (a & Ha & El & _).
    rewrite El. case_decide; [|by eauto]. apply NoDup_del. eauto.
  - intros z b h0 Hb0 Hk0.
    destruct (requeued_back _ _ _ _ HR _ _ Hb0) as (a & Ha & _ & Ek & _).
    eapply (requeued_queued_on _ _ _ _ HR); [done..|].
    rewrite Ek in Hk0. case_decide; [done|]. eauto.
  - intros z b Hb0. destruct (requeued_back _ _ _ _ HR _ _ Hb0) as (a & Ha & H5).
    unfold misc. destruct H5 as (_ & _ & _ & _ & _ & ->). exact (Hb _ _ Ha).
Qed.

(** A running descriptor is on no queue. *)
Lemma queue_inv_running P x px :
  queue_inv P -> P !! x = Some px -> rts BIT_SENDING px = false ->
  rts BIT_RMTOPER px = false -> p_link px = None.
Proof.
  intros HI Hx Hs Hr. destruct (p_link px) as [h|] eqn:Hl; [|done].
  pose proof (qi_queued _ HI _ _ _ Hx Hl) as Hq. unfold queued_on in Hq.
  destruct h; [| |done]; destruct Hq as [Hq _]; congruence.
Qed.
