(* ===== verification/QueueLogic.v ===== *)
(** * Rules to show that a handler keeps the queues well formed

    The rules move the invariant [good] and the [fact]s known of single
    descriptors through the steps of a handler. *)

From S2P Require Import Prelude Types Endpoint Kernel Hoare Utils Queues.

(** The descriptor of a blocked task, and what must hold of it while the task
    sleeps: it is local, it is on no queue when it does not wait to send, and
    the destination it sends to is a process. *)
Definition kont_c (k : kont) : ptr :=
  match k with
  | K_CALLER _ c _ _ | K_RECEIVE c _ | K_RCVRQST c _ | K_GET2RMT c _ _ _ => c
  | K_SEND_MIGR f | K_SEND_REMOTE f | K_SEND_LOCAL f | K_SENDREC_MIGR f
  | K_SENDREC_REMOTE f | K_SENDREC_REPLY f | K_SENDREC_QUEUED f
  | K_NOTIFY_REMOTE f _ _ _ | K_REPLY_MIGR f | K_REPLY_REMOTE f => f_c f
  end.

Definition needs_unl (k : kont) : bool :=
  match k with
  | K_SEND_MIGR _ | K_SENDREC_MIGR _ | K_SENDREC_REPLY _ | K_REPLY_MIGR _
  | K_GET2RMT _ _ _ _ => true
  | _ => false
  end.

Definition to_proc (k : kont) : Prop :=
  match k with
  | K_SEND_MIGR f | K_SEND_REMOTE f | K_SEND_LOCAL f | K_SENDREC_MIGR f
  | K_SENDREC_REMOTE f | K_SENDREC_REPLY f | K_SENDREC_QUEUED f =>
      exists d i, f_dst f = PROC d i
  | _ => True
  end.

(** The sleep of a caller that is being migrated, before any other check. *)
Definition is_caller (k : kont) : bool :=
  match k with K_CALLER _ _ _ _ => true | _ => false end.

Definition sleeps_ok (c : ptr) (k : kont) (s : kstate) : Prop :=
  kont_c k = c /\ to_proc k /\ (needs_unl k = true -> fact c unl s) /\
  (is_caller k = false -> fact c is_local s).

(** Exits of a handler that keeps the queues. *)
Definition qx (c : ptr) (s0 : kstate) (x : exit) (s : kstate) : Prop :=
  is_fault x = false ->
  good c s0 s /\ (forall k, x = X_SLEEP k -> sleeps_ok c k s).

(** Routines that do not touch the process descriptors and do not sleep. *)
Definition sleeps (x : exit) : bool := match x with X_SLEEP _ => true | _ => false end.

Definition pure {A} (m : M A) : Prop :=
  forall s, match m s with
            | Val _ s' => k_procs s' = k_procs s
            | Exit x s' => sleeps x = false /\ k_procs s' = k_procs s
            end.

(** ** Pure routines *)

Section Pure.
Context {A B : Type}.

Lemma pure_bind (m : M A) (k : A -> M B) :
  pure m -> (forall a, pure (k a)) -> pure (mbind m k).
Proof.
  intros Hm Hk s. unfold mbind. specialize (Hm s). destruct (m s) as [a s'|]; [|done].
  specialize (Hk a s'). destruct (k a s'); [congruence|]. destruct Hk; split; congruence.
Qed.

Lemma pure_ret (a : A) : pure (mret a).
Proof. done. Qed.

Lemma pure_return r : pure (@return_ A r).
Proof. done. Qed.

Lemma pure_faults f : pure (@faults A f).
Proof. done. Qed.
End Pure.

Lemma pure_when b m : pure m -> pure (when b m).
Proof. by destruct b. Qed.

Lemma pure_error_if b r : pure (error_if b r).
Proof. by destruct b. Qed.

Lemma pure_rd p : pure (rd p).
Proof. intros s. unfold rd. by destruct (k_procs s !! p). Qed.

Lemma pure_get : pure get.
Proof. done. Qed.

Lemma pure_rd_dc d : pure (rd_dc d).
Proof. intros s. unfold rd_dc. by destruct (k_dcs s !! d). Qed.

Lemma pure_rd_node d : pure (rd_node d).
Proof. intros s. unfold rd_node. by destruct (k_nodes s !! d). Qed.

Lemma pure_rd_proxies d : pure (rd_proxies d).
Proof. intros s. unfold rd_proxies. by destruct (k_proxies s !! d). Qed.

Lemma pure_rd_task d : pure (rd_task d).
Proof. intros s. unfold rd_task. by destruct (k_tasks s !! d). Qed.

Lemma pure_modify f : (forall s, k_procs (f s) = k_procs s) -> pure (modify f).
Proof. intros Hf s. apply Hf. Qed.

Lemma pure_lock l : pure (lock_ l).
Proof. intros s. unfold lock_. by case_bool_decide. Qed.

Lemma pure_unlock l : pure (unlock_ l).
Proof. intros s. unfold unlock_. by case_bool_decide. Qed.

Create HintDb pure.
#[export] Hint Resolve pure_ret pure_return pure_faults pure_when pure_error_if
  pure_rd pure_get pure_rd_dc pure_rd_node pure_rd_proxies pure_rd_task pure_lock
  pure_unlock : pure.
#[export] Hint Unfold WLOCK_PROC WUNLOCK_PROC RLOCK_PROC RUNLOCK_PROC RLOCK_DC RUNLOCK_DC
  WLOCK_DC WUNLOCK_DC ERROR_RUNLOCK_PROC ERROR_WUNLOCK_PROC ERROR_RUNLOCK_DC
  ERROR_WUNLOCK_DC NODE2SPROXY NODE2RPROXY mm_of WUNLOCK_PROC2 WLOCK_PROC2
  WLOCK_ORDERED2 : pure.

Ltac pure :=
  repeat autounfold with pure;
  repeat (cbv beta;
    lazymatch goal with
    | |- pure (mbind _ _) => apply pure_bind; [|intros ?]
    | |- pure (if ?b then _ else _) => destruct b
    | |- pure (match ?x with _ => _ end) => destruct x
    | |- pure (when _ _) => apply pure_when
    | |- pure (modify _) => apply pure_modify; done
    | |- pure _ => solve [eauto with pure]
    end).

Lemma pure_WLOCK_ORDERED2 p q : pure (WLOCK_ORDERED2 p q).
Proof. pure. Qed.
Lemma pure_WLOCK_PROC2 p q : pure (WLOCK_PROC2 p q).
Proof. pure. Qed.
Lemma pure_WUNLOCK_PROC2 p q : pure (WUNLOCK_PROC2 p q).
Proof. pure. Qed.
Lemma pure_copy_usr2usr_msg a p b q c : pure (copy_usr2usr_msg a p b q c).
Proof. unfold copy_usr2usr_msg. pure. Qed.
Lemma pure_copy_to_user_msg a b c : pure (copy_to_user_msg a b c).
Proof. unfold copy_to_user_msg. pure. Qed.
Lemma pure_copy_from_user_msg a b : pure (copy_from_user_msg a b).
Proof. unfold copy_from_user_msg. pure. Qed.
Lemma pure_check_sproxy n : pure (check_sproxy n).
Proof. unfold check_sproxy. pure. Qed.
Lemma pure_check_sys_bit p b : pure (check_sys_bit p b).
Proof. unfold check_sys_bit. pure. Qed.
Lemma pure_caller_binding cur : pure (caller_binding cur).
Proof. unfold caller_binding. pure. Qed.
#[export] Hint Resolve pure_copy_usr2usr_msg pure_copy_to_user_msg pure_copy_from_user_msg
  pure_check_sproxy pure_check_sys_bit pure_caller_binding : pure.

(** ** The invariant along the steps *)

Section Good.
Context (c : ptr) (s0 : kstate).
Implicit Types (s : kstate) (p q : ptr) (phi : proc -> Prop).

Lemma good_start s : qinv s -> good c s s.
Proof. intros H. split; [done|]. intros q x Hx. exists x. auto. Qed.

Lemma good_eq s s1 : k_procs s1 = k_procs s -> good c s0 s -> good c s0 s1.
Proof. unfold good, qinv. by intros ->. Qed.

Lemma fact_eq s s1 q phi : k_procs s1 = k_procs s -> fact q phi s -> fact q phi s1.
Proof. unfold fact. by intros ->. Qed.

Lemma fact_wr s s1 p x y q phi :
  k_procs s1 = <[p := y]> (k_procs s) -> k_procs s !! p = Some x ->
  (phi x -> phi y) -> fact q phi s -> fact q phi s1.
Proof.
  intros E Hx Hy HF z Hz. rewrite E in Hz.
  apply lookup_insert_Some in Hz as [[<- <-]|[_ Hz]]; [|by apply HF].
  apply Hy, HF, Hx.
Qed.

Lemma fact_new s s1 p y phi :
  k_procs s1 = <[p := y]> (k_procs s) -> phi y -> fact p phi s1.
Proof. intros E Hy z Hz. rewrite E, lookup_insert_eq in Hz. congruence. Qed.

Lemma good_wr s s1 p x y :
  good c s0 s -> k_procs s !! p = Some x -> keeps_queue x y ->
  k_procs s1 = <[p := y]> (k_procs s) -> good c s0 s1.
Proof.
  intros [HI HF] Hx HK E. unfold good, qinv. rewrite E.
  split; [by eapply queue_inv_upd|].
  intros q z Hz. apply lookup_insert_Some in Hz as [[<- <-]|[_ Hz]]; [|by apply HF].
  destruct (HF _ _ Hx) as (a & Ha & Hr & Hl & Hp). exists a.
  destruct HK as (_ & Ek & Ep & _ & Er & _). split_and!; [done|congruence| |congruence].
  intros. rewrite Ek. auto.
Qed.

Lemma qx_no_sleep x s : sleeps x = false -> good c s0 s -> qx c s0 x s.
Proof. intros Hx HG _. split; [done|]. by intros k ->. Qed.

Lemma wp_pure {A} (m : M A) (Q : A -> kstate -> Prop) s :
  pure m -> good c s0 s ->
  (forall a s1, k_procs s1 = k_procs s -> good c s0 s1 -> Q a s1) ->
  wp m Q (qx c s0) s.
Proof.
  intros Hm HG HQ. unfold wp. specialize (Hm s).
  destruct (m s) as [a s1|x s1].
  - apply HQ; [done|]. by eapply good_eq.
  - destruct Hm as [Hx E]. apply qx_no_sleep; [done|]. by eapply good_eq.
Qed.

Lemma wp_rd_q p (Q : proc -> kstate -> Prop) s :
  (forall x, k_procs s !! p = Some x -> Q x s) -> wp (rd p) Q (qx c s0) s.
Proof. intros H. by apply wp_rd. Qed.

Lemma wp_wr_q p f (Q : unit -> kstate -> Prop) s :
  good c s0 s -> (forall x, k_procs s !! p = Some x -> keeps_queue x (f x)) ->
  (forall x s1, k_procs s !! p = Some x -> k_procs s1 = <[p := f x]> (k_procs s) ->
     good c s0 s1 -> Q tt s1) ->
  wp (wr p f) Q (qx c s0) s.
Proof.
  intros HG HK HQ. apply wp_wr; [|done]. intros x Hx. eapply HQ; [done|done|].
  eapply good_wr; [done..|by apply HK|done].
Qed.

Lemma wp_return_q {A} r (Q : A -> kstate -> Prop) s :
  good c s0 s -> wp (return_ r) Q (qx c s0) s.
Proof. intros HG _. by split. Qed.

Lemma wp_sleep_q {A} k (Q : A -> kstate -> Prop) s :
  good c s0 s -> sleeps_ok c k s -> wp (leave (X_SLEEP k)) Q (qx c s0) s.
Proof. intros HG Hk _. split; [done|]. by intros ? [= <-]. Qed.
End Good.

(** ** Enqueueing and dequeueing *)

Section Lists.
Context (c : ptr) (s0 : kstate).
Implicit Types (s : kstate) (x h q : ptr).

(** Facts that do not look at the queues. *)
Definition off_queue (phi : proc -> Prop) : Prop := forall a b,
  p_endpoint b = p_endpoint a -> p_rts_flags b = p_rts_flags a ->
  p_sendto b = p_sendto a -> p_misc_flags b = p_misc_flags a -> phi a -> phi b.

Lemma fact_requeued nl nk s s1 q phi :
  requeued nl nk (k_procs s) (k_procs s1) -> off_queue phi -> fact q phi s -> fact q phi s1.
Proof.
  intros HR HO HF b Hb. destruct (requeued_back _ _ _ _ HR _ _ Hb) as (a & Ha & H6).
  apply (HO a b); [apply H6..|]. by apply HF.
Qed.

Lemma fact_unl_del s s1 x h q :
  requeued (fun z l => if decide (z = h) then del x l else l)
           (fun z k => if decide (z = x) then None else k) (k_procs s) (k_procs s1) ->
  fact q unl s \/ q = x -> fact q unl s1.
Proof.
  intros HR HF b Hb. destruct (requeued_back _ _ _ _ HR _ _ Hb) as (a & Ha & _ & Ek & _).
  unfold unl. rewrite Ek. case_decide; [done|]. destruct HF as [HF|]; [by apply HF|done].
Qed.

Lemma frame_requeued nl nk s s1 :
  frame_ok c (k_procs s0) (k_procs s) -> requeued nl nk (k_procs s) (k_procs s1) ->
  (forall q, q <> c -> fact q is_local s -> nk q None = None) ->
  frame_ok c (k_procs s0) (k_procs s1).
Proof.
  intros HF HR Hn q b Hb. destruct (requeued_back _ _ _ _ HR _ _ Hb)
    as (a & Ha & _ & Ek & Ee & Ef & _).
  destruct (HF _ _ Ha) as (a0 & Ha0 & Hr & Hl & Hp). exists a0. split; [done|].
  assert (Er : IT_IS_REMOTE b = IT_IS_REMOTE a) by (unfold IT_IS_REMOTE, rts; by rewrite Ef).
  split_and!; [congruence| |congruence]. intros Hq Hloc Hnone. rewrite Ek, Hl by done.
  apply Hn; [done|]. intros a' Ha'. replace a' with a by congruence.
  unfold is_local, IT_IS_LOCAL, IT_IS_REMOTE in *. congruence.
Qed.

Lemma requeued_add P x px h ph :
  P !! x = Some px -> P !! h = Some ph ->
  forall px1, <[h := ph <| p_list ::= fun l => l ++ [x] |>]> P !! x = Some px1 ->
  requeued (fun z l => if decide (z = h) then l ++ [x] else l)
           (fun z k => if decide (z = x) then Some h else k) P
    (<[x := px1 <| p_link := Some h |>]> (<[h := ph <| p_list ::= fun l => l ++ [x] |>]> P)).
Proof.
  intros Hx Hh px1 H1 z.
  destruct (decide (z = x)) as [Ex|Ex]; destruct (decide (z = h)) as [Eh|Eh].
  - subst. rewrite lookup_insert_eq in *. rewrite Hx. by simplify_eq/=.
  - subst. rewrite lookup_insert_eq, Hx. rewrite lookup_insert_ne in H1 by done.
    by simplify_eq/=.
  - subst. rewrite lookup_insert_ne, lookup_insert_eq, Hh by done. done.
  - rewrite !lookup_insert_ne by done. by destruct (P !! z).
Qed.

Lemma requeued_del P x px h ph :
  P !! x = Some px -> P !! h = Some ph ->
  forall px1, <[h := ph <| p_list ::= del x |>]> P !! x = Some px1 ->
  requeued (fun z l => if decide (z = h) then del x l else l)
           (fun z k => if decide (z = x) then None else k) P
    (<[x := px1 <| p_link := None |>]> (<[h := ph <| p_list ::= del x |>]> P)).
Proof.
  intros Hx Hh px1 H1 z.
  destruct (decide (z = x)) as [Ex|Ex]; destruct (decide (z = h)) as [Eh|Eh].
  - subst. rewrite lookup_insert_eq in *. rewrite Hx. by simplify_eq/=.
  - subst. rewrite lookup_insert_eq, Hx. rewrite lookup_insert_ne in H1 by done.
    by simplify_eq/=.
  - subst. rewrite lookup_insert_ne, lookup_insert_eq, Hh by done. done.
  - rewrite !lookup_insert_ne by done. by destruct (P !! z).
Qed.

Lemma wp_list_add_q x h (Q : unit -> kstate -> Prop) s :
  good c s0 s -> fact x unl s -> fact x (mine c x) s ->
  (forall px, k_procs s !! x = Some px -> queued_on (k_procs s) px h) ->
  (forall s1, requeued (fun z l => if decide (z = h) then l ++ [x] else l)
                       (fun z k => if decide (z = x) then Some h else k)
                       (k_procs s) (k_procs s1) -> good c s0 s1 -> Q tt s1) ->
  wp (LIST_ADD_TAIL_P x h) Q (qx c s0) s.
Proof.
  intros [HI HF] Hu Hx Hq HQ. unfold LIST_ADD_TAIL_P.
  apply wp_bind, wp_wr; [|done]. intros ph Hh. apply wp_wr; [|done]. intros px1 Hpx1.
  assert (exists px, k_procs s !! x = Some px) as [px Hpx].
  { simpl in Hpx1. apply lookup_insert_Some in Hpx1 as [[-> _]|[_ ?]]; eauto. }
  pose proof (requeued_add _ _ _ _ _ Hpx Hh _ Hpx1) as HR. apply HQ; [exact HR|].
  split.
  - eapply queue_inv_add; [exact HI|exact Hpx|exact Hh|by apply Hu|by apply Hq|exact HR].
  - eapply frame_requeued; [exact HF|exact HR|]. intros q Hqc Hql. simpl.
    case_decide; [|done]. subst q. destruct (Hx _ Hpx) as [->|Hr]; [done|]. specialize (Hql _ Hpx).
    unfold is_local, is_remote, IT_IS_LOCAL, IT_IS_REMOTE in *. by rewrite Hr in Hql.
Qed.

(** [x] leaves its queue; when it was on none, nothing changes. *)
Lemma wp_list_del_q x (Q : unit -> kstate -> Prop) s :
  good c s0 s ->
  (forall s1, (k_procs s1 = k_procs s \/ exists h,
      requeued (fun z l => if decide (z = h) then del x l else l)
               (fun z k => if decide (z = x) then None else k) (k_procs s) (k_procs s1)) ->
    fact x unl s1 -> good c s0 s1 -> Q tt s1) ->
  wp (LIST_DEL_P x) Q (qx c s0) s.
Proof.
  intros [HI HF] HQ. unfold LIST_DEL_P. apply wp_bind, wp_rd; [|done]. intros px Hpx.
  destruct (p_link px) as [h|] eqn:Hl.
  - apply wp_bind, wp_wr; [|done]. intros ph Hh. apply wp_wr; [|done]. intros px1 Hpx1.
    pose proof (requeued_del _ _ _ _ _ Hpx Hh _ Hpx1) as HR. apply HQ; [eauto| |].
    + eapply fact_unl_del; [exact HR|]. by right.
    + split; [exact (queue_inv_del _ _ _ _ _ HI Hpx Hl HR)|]. eapply frame_requeued; [exact HF|exact HR|].
      intros q _ _. simpl. by case_decide.
  - apply wp_ret, HQ; [by left| |by split]. intros y Hy. unfold unl. congruence.
Qed.

(** The same with the facts that survive. *)
Lemma wp_list_del_facts x (Q : unit -> kstate -> Prop) s :
  good c s0 s ->
  (forall s1, (forall q, fact q unl s -> fact q unl s1) ->
     (forall q phi, off_queue phi -> fact q phi s -> fact q phi s1) ->
     fact x unl s1 -> good c s0 s1 -> Q tt s1) ->
  wp (LIST_DEL_P x) Q (qx c s0) s.
Proof.
  intros Hg HQ. apply wp_list_del_q; [done|]. intros s1 [E|[h HR]] Hu Hg1; apply HQ; try done.
  - intros q. by apply fact_eq.
  - intros q phi _. by apply fact_eq.
  - intros q Hq. eapply fact_unl_del; [exact HR|by left].
  - intros q phi Ho. by eapply fact_requeued.
Qed.
End Lists.

Lemma good_local c s0 s : good c s0 s -> fact c is_local s0 -> fact c is_local s.
Proof.
  intros [_ HF] Hl x Hx. destruct (HF _ _ Hx) as (y & Hy & Hr & _). specialize (Hl _ Hy).
  unfold is_local, IT_IS_LOCAL, IT_IS_REMOTE in *. congruence.
Qed.

(** ** Tactics *)

(** Updates of a descriptor field by field: the flags are read back bit by
    bit. *)
Ltac bits :=
  repeat first
    [ rewrite test_set_same by done
    | rewrite test_set_other by done
    | rewrite test_clear_same
    | rewrite test_clear_other by done
    | rewrite test_bit_0 ].

Ltac unfold_desc :=
  cbv [unl is_local is_remote ep_is sends_to sending rmtoper off_procs mine cmd_ok IT_IS_LOCAL IT_IS_REMOTE rts misc
       rts_set rts_clear misc_set misc_clear need_migr
       build_notify notify_arg notify_slots] in *; cbn in *;
  repeat match goal with H : negb _ = true |- _ => apply negb_true_iff in H end.

Ltac desc := unfold_desc; repeat case_match; cbn in *; bits; try done; try congruence.

(** One step of a handler, by the kind of the step.  [Hg] is the invariant at
    the current state; the facts that survive the step are kept. *)
Ltac q_facts_eq E :=
  repeat match goal with
  | H : fact ?q ?phi ?s |- _ =>
      match type of E with
      | k_procs ?s1 = k_procs s => apply (fact_eq s s1 q phi E) in H
      end
  | H : k_procs ?s !! _ = Some _ |- _ =>
      match type of E with k_procs ?s1 = k_procs s => rewrite <- E in H end
  end.

Ltac q_clear_good s :=
  repeat match goal with H : good _ _ s |- _ => clear H end.

Ltac q_pure :=
  lazymatch goal with
  | Hg : good ?c ?s0 ?s |- wp (mbind _ _) _ _ ?s =>
      apply wp_bind; apply (wp_pure c s0); [solve [pure] | exact Hg |];
      let a := fresh "a" in let s1 := fresh "s" in let E := fresh "E" in
      let Hg1 := fresh "Hg" in
      intros a s1 E Hg1; cbv beta; q_facts_eq E; clear Hg E
  end.

Lemma wp_NODE2SPROXY n c s0 (Q : ptr -> kstate -> Prop) s :
  (forall k, Q (SPROXY k) s) -> wp (NODE2SPROXY n) Q (qx c s0) s.
Proof.
  intros HQ. unfold NODE2SPROXY, wp, mbind, rd_node.
  destruct (k_nodes s !! n); [apply HQ|done].
Qed.

Ltac q_rd :=
  lazymatch goal with
  | |- wp (mbind (NODE2SPROXY _) _) _ _ _ =>
      apply wp_bind, wp_NODE2SPROXY;
      let k := fresh "k" in intros k; cbv beta
  | |- wp (mbind (rd _) _) _ _ _ =>
      apply wp_bind, wp_rd_q;
      let x := fresh "x" in let Hx := fresh "Hx" in intros x Hx; cbv beta
  end.

Ltac q_spec p x Hx :=
  repeat match goal with
  | H : fact p ?phi ?s |- _ =>
      lazymatch goal with
      | _ : phi x |- _ => fail
      | _ => pose proof (H x Hx)
      end
  end.

Ltac q_keeps p :=
  let x := fresh "x" in let Hx := fresh "Hx" in
  intros x Hx; q_spec p x Hx; unfold keeps_queue;
  split_and!; [solve [desc] .. |];
  first [ left; solve [desc] | right; left; split_and!; solve [desc]
        | right; right; split_and!; solve [desc | assumption] ].

Ltac q_facts_wr E Hx :=
  repeat match goal with
  | H : fact ?q ?phi ?s |- _ =>
      match type of E with
      | k_procs ?s1 = <[_ := _]> (k_procs s) =>
          first [ apply (fact_wr s s1 _ _ _ q phi E Hx ltac:(desc)) in H | clear H ]
      end
  end.

Ltac q_forget :=
  repeat match goal with E : k_procs _ = <[_ := _]> (k_procs _) |- _ => clear E end.

Ltac q_wr :=
  q_forget;
  lazymatch goal with
  | Hg : good ?c ?s0 ?s |- wp (mbind (wr ?p _) _) _ _ ?s =>
      apply wp_bind; apply (wp_wr_q c s0); [exact Hg | q_keeps p |];
      let x := fresh "x" in let s1 := fresh "s" in let Hx := fresh "Hx" in
      let E := fresh "E" in let Hg1 := fresh "Hg" in
      intros x s1 Hx E Hg1; cbv beta; q_spec p x Hx; q_facts_wr E Hx; clear Hg
  end.

(** A new fact on the descriptor written last. *)
Ltac q_new phi :=
  match goal with
  | E : k_procs ?s1 = <[?p := _]> (k_procs _), _ : good _ _ ?s1 |- _ =>
      assert (fact p phi s1) by (eapply fact_new; [exact E | desc])
  end.

Ltac q_if :=
  lazymatch goal with
  | |- wp (if ?b then _ else _) _ _ _ => destruct b eqn:?
  | |- wp (match ?x with _ => _ end) _ _ _ => destruct x eqn:?
  end.

(** The conditions of a sleep. *)
Ltac q_sleeps :=
  solve [ assumption | auto 1
        | unfold sleeps_ok; cbn [kont_c to_proc needs_unl is_caller]; split_and!;
          [ done | done | first [discriminate | intros _; assumption]
          | first [discriminate | intros _; eapply good_local; eassumption]] ].

Ltac q_end :=
  lazymatch goal with
  | Hg : good ?c ?s0 ?s |- wp (return_ _) _ _ ?s => apply (wp_return_q c s0); exact Hg
  | Hg : good ?c ?s0 ?s |- wp (leave (X_SLEEP _)) _ _ ?s => apply (wp_sleep_q c s0); [exact Hg|q_sleeps]
  | |- wp (faults _) _ _ _ => done
  | |- wp (mret _) _ _ _ => apply wp_ret
  end.

(** Sequences are brought to the form [m ;; k] with a primitive [m]. *)
Lemma wp_assoc {A B C} (m : M A) (k : A -> M B) (l : B -> M C) Q R s :
  wp (a <- m ;; b <- k a ;; l b) Q R s -> wp (b <- (a <- m ;; k a) ;; l b) Q R s.
Proof.
  rewrite !wp_bind. intros H. eapply wp_mono; [exact H| |done].
  intros a s' Ha. by apply wp_bind.
Qed.

Lemma wp_if_bind {A B} (b : bool) (m n : M A) (k : A -> M B) Q R s :
  wp (if b then mbind m k else mbind n k) Q R s -> wp (mbind (if b then m else n) k) Q R s.
Proof. by destruct b. Qed.

Lemma wp_when_bind {A} (b : bool) (m : M unit) (k : unit -> M A) (Q : A -> kstate -> Prop) R s :
  wp (if b then (m ;; k tt) else k tt) Q R s -> wp (mbind (when b m) k) Q R s.
Proof.
  destruct b; [|done]. simpl. rewrite !wp_bind. intros H. eapply wp_mono; [exact H| |done].
  by intros [].
Qed.

Lemma wp_ret_bind {A B} (a : A) (k : A -> M B) Q R s :
  wp (k a) Q R s -> wp (mbind (mret a) k) Q R s.
Proof. done. Qed.

Lemma wp_return_bind {A B} c s0 r (k : A -> M B) (Q : B -> kstate -> Prop) s :
  good c s0 s -> wp (mbind (return_ r) k) Q (qx c s0) s.
Proof. intros HG. apply wp_bind. intros _. by split. Qed.

Lemma wp_sleep_bind {A B} c s0 k0 (k : A -> M B) (Q : B -> kstate -> Prop) s :
  good c s0 s -> sleeps_ok c k0 s -> wp (mbind (leave (X_SLEEP k0)) k) Q (qx c s0) s.
Proof. intros HG Hk. apply wp_bind. intros _. split; [done|]. by intros ? [= <-]. Qed.

(** A last write. *)
Lemma wp_last (m : M unit) (Q : unit -> kstate -> Prop) R s : wp (m ;; mret tt) Q R s -> wp m Q R s.
Proof. rewrite wp_bind. intros H. eapply wp_mono; [exact H| |done]. by intros [] s' Hs. Qed.

Lemma wp_last' {A} (m : M A) (Q : A -> kstate -> Prop) R s :
  wp (a <- m ;; mret a) Q R s -> wp m Q R s.
Proof. rewrite wp_bind. intros H. eapply wp_mono; [exact H| |done]. by intros a s' Hs. Qed.

Ltac q_unfold :=
  unfold READY_UP_RCODE, LOCAL_PROC_UP, INIT_P_LINK, INIT_P_MLINK, ERROR_WUNLOCK_PROC,
    ERROR_RUNLOCK_PROC, ERROR_RUNLOCK_DC, ERROR_WUNLOCK_DC.

Ltac q_step :=
  cbv beta;
  first
  [ lazymatch goal with
    | Hg : good ?c ?s0 ?s |- wp (mbind (return_ _) _) _ _ ?s =>
        apply (wp_return_bind c s0); exact Hg
    | Hg : good ?c ?s0 ?s |- wp (mbind (leave (X_SLEEP _)) _) _ _ ?s =>
        apply (wp_sleep_bind c s0); [exact Hg|q_sleeps]
    | |- wp (mbind (mbind _ _) _) _ _ _ => apply wp_assoc
    | |- wp (mbind (if _ then _ else _) _) _ _ _ => apply wp_if_bind
    | |- wp (mbind (when _ _) _) _ _ _ => apply wp_when_bind
    | |- wp (mbind (mret _) _) _ _ _ => apply wp_ret_bind
    | |- wp (wr _ _) _ _ _ => apply wp_last
    | |- wp (when _ _) _ _ _ => apply wp_last
    end
  | q_rd | q_wr | q_pure
  | q_end | q_if ].

Ltac q := repeat q_step.
