(* ===== verification/IpcQueues.v ===== *)
(** * The IPC primitives keep the queues *)

From S2P Require Import Prelude Types Endpoint Kernel Hoare Utils IpcCommon.
From S2P Require Import Send Receive Sendrec Notify Queues QueueLogic.

(** The rest of a sequence after a routine with a specification. *)
Ltac q_call lem :=
  first [ apply wp_bind | apply wp_last, wp_bind ];
  eapply wp_mono; [ eapply lem; eassumption | cbv beta | done ].

(** The descriptor the running task acts for. *)
Definition descr_of (s : kstate) (cur : Z) : option ptr :=
  match caller_binding cur s with
  | Val (c, _) _ => Some c
  | Exit _ _ => None
  end.

Section Shared.
Context (c : ptr) (s0 : kstate).
Implicit Types (s : kstate) (f : frame).

Lemma requeued_off_procs s s1 p n :
  requeued (fun z l => if decide (z = SPROXY n) then l ++ [p] else l)
           (fun z k => if decide (z = p) then Some (SPROXY n) else k) (k_procs s) (k_procs s1) ->
  fact p off_procs s1.
Proof.
  intros HR b Hb. destruct (requeued_back _ _ _ _ HR _ _ Hb) as (a & _ & _ & Ek & _).
  rewrite decide_True in Ek by done. intros d i. congruence.
Qed.

Lemma off_queue_cmd_ok : off_queue cmd_ok.
Proof. intros a b _ E _ _. unfold cmd_ok, IT_IS_LOCAL, rts. by rewrite E. Qed.
Lemma off_queue_mine p : off_queue (mine c p).
Proof. intros a b _ E _ _. unfold mine, IT_IS_REMOTE, rts. by rewrite E. Qed.

(** [p] is put on the queue of its sender proxy. *)
Lemma q_sproxy_enqueue p s :
  good c s0 s -> fact p unl s -> fact p cmd_ok s -> fact p (mine c p) s ->
  wp (sproxy_enqueue p) (fun _ s' => good c s0 s' /\ fact p cmd_ok s' /\
      fact p off_procs s' /\ fact p (mine c p) s') (qx c s0) s.
Proof.
  intros Hg Hu Hr HM. unfold sproxy_enqueue. q_unfold.
  q_rd. q_rd. q_pure. q_rd. q_if.
  - q. split_and!; try done. intros y Hy d i. by rewrite (Hu y Hy).
  - q_wr. apply wp_bind, (wp_list_add_q c s0); [done..| |].
    { intros px Hpx. apply Hr, Hpx. }
    intros s3 HR Hg3. pose proof (requeued_off_procs _ _ _ _ HR) as Hoff.
    apply (fact_requeued _ _ _ _ _ _ HR off_queue_cmd_ok) in Hr.
    apply (fact_requeued _ _ _ _ _ _ HR (off_queue_mine p)) in HM.
    clear HR Hu. q. all: done.
Qed.

Lemma q_check_caller_tail p pid d s :
  good c s0 s ->
  wp (check_caller_tail p pid d)
     (fun r s' => good c s0 s' /\ r = (p, pid) /\ fact p unl s' /\ fact p is_local s0)
     (qx c s0) s.
Proof.
  intros Hg. unfold check_caller_tail. q_unfold. q_rd. apply wp_when_bind. q_if; [q|].
  pose proof Hg as [HI HF].
  pose proof (qi_backup _ HI _ _ Hx) as Hb. rewrite Hb in *. cbn in Heqb.
  apply negb_false_iff, Z.eqb_eq in Heqb.
  assert (Hu : fact p unl s).
  { intros y Hy. rewrite Hx in Hy; injection Hy as <-.
    by eapply queue_inv_running; [exact HI|exact Hx|..]; unfold rts; rewrite Heqb. }
  assert (Hl : fact p is_local s0).
  { destruct (HF _ _ Hx) as (y & Hy & Hr & _). intros y' Hy'. rewrite Hy in Hy'.
    injection Hy' as <-. unfold is_local, IT_IS_LOCAL, IT_IS_REMOTE, rts in *.
    by rewrite <- Hr, Heqb. }
  clear HI HF. q. all: done.
Qed.

Lemma q_check_caller cur cl s :
  good c s0 s -> (forall p, descr_of s cur = Some p -> p = c) ->
  wp (check_caller cur cl)
     (fun r s' => good c s0 s' /\ fst r = c /\ fact c unl s' /\ fact c is_local s0)
     (qx c s0) s.
Proof.
  intros Hg Hd. unfold check_caller. apply wp_bind.
  assert (Hb : wp (caller_binding cur) (fun r s' => fst r = c /\ k_procs s' = k_procs s)
                  (qx c s0) s).
  { unfold wp. pose proof (pure_caller_binding cur s) as HP. unfold descr_of in Hd.
    destruct (caller_binding cur s) as [[p pid] s'|x s']; [by auto|].
    destruct HP as [Hx E]. apply qx_no_sleep; [done|]. by eapply good_eq. }
  eapply wp_mono; [exact Hb| |done]. intros [p pid] s' [Ep E]. simpl in Ep. subst p.
  apply (good_eq c s0 _ _ E) in Hg. clear E Hb Hd. q_pure. q_rd. q_wr. q_rd.
  apply wp_when_bind. q_if.
  - apply wp_bind. unfold sleep_proc, sleep_enter. q. discriminate.
  - eapply wp_mono; [by apply q_check_caller_tail| |done].
    intros r s4 (? & -> & ? & ?). done.
Qed.

Lemma need_migr_keeps x : keeps_queue x (need_migr x).
Proof. unfold keeps_queue. split_and!; [desc..|]. right; left. split_and!; desc. Qed.

Lemma wake_desc_keeps t w x : keeps_queue x (wake_desc t w x).
Proof.
  unfold wake_desc. set (r := wake_rcode _ _ _). clearbody r. cbv zeta.
  pose proof (need_migr_keeps (x <| p_rcode := r |>)) as H1.
  pose proof (need_migr_keeps (x <| p_rcode := r |> <| p_pseudosem ::= Z.add 1 |>)) as H2.
  case_match; [exact H1|]. case_match; [exact H2|exact H1].
Qed.

(** The state after a sleep: only the sleeper's return code and migration bits
    have changed. *)
Lemma q_sleep_exit p m t w s (phi : proc -> Prop) q :
  pure m -> good c s0 s -> (forall x y, keeps_queue x y -> phi x -> phi y) ->
  fact q phi s ->
  wp (sleep_exit p m t w) (fun _ s' => good c s0 s' /\ fact q phi s') (qx c s0) s.
Proof.
  intros HP Hg Hphi HF. unfold sleep_exit. apply wp_bind.
  apply (wp_pure c s0); [done..|]. intros a s1 E Hg1. apply (fact_eq _ _ _ _ E) in HF.
  apply (wp_wr_q c s0); [done|intros; apply wake_desc_keeps|].
  intros x s2 Hx E2 Hg2. split; [done|].
  eapply (fact_wr s1 s2); [exact E2|exact Hx| |done]. apply Hphi, wake_desc_keeps.
Qed.

Lemma keeps_unl x y : keeps_queue x y -> unl x -> unl y.
Proof. intros (_ & E & _). unfold unl. congruence. Qed.

Lemma keeps_local x y : keeps_queue x y -> is_local x -> is_local y.
Proof.
  intros (_ & _ & _ & _ & E & _). unfold is_local, IT_IS_LOCAL, IT_IS_REMOTE in *. congruence.
Qed.

(** ** The status loop *)

Lemma q_check_dst fuel f died k s :
  fact c is_local s0 -> f_c f = c -> kont_c k = c -> to_proc k -> good c s0 s -> fact c unl s ->
  wp (check_dst fuel f died k)
     (fun ret s' => good c s0 s' /\ fact c unl s' /\
        (ret = OK -> died <> OK -> fact (f_dst f) (ep_is (f_dst_ep f)) s')) (qx c s0) s.
Proof.
  intros Hl0 Ec Hk Hp. revert s. induction fuel as [|fuel IH]; intros s Hg Hu; [done|].
  cbn [check_dst]. unfold enqueue_migr, LIST_ADD_TAIL_M, sleep_proc2, sleep_enter. rewrite Ec.
  q_unfold. q_rd. q_if; [q; done|]. q_if; [by q; split_and!|].
  assert (He : fact (f_dst f) (ep_is (f_dst_ep f)) s).
  { intros y Hy. rewrite Hx in Hy. injection Hy as <-.
    by apply negb_false_iff, Z.eqb_eq in Heqb. }
  q_if.
  - q. by apply IH.
  - unfold check_dst_node. q. all: by split_and!.
Qed.

Lemma not_sending_unl s x :
  good c s0 s -> fact c is_local s0 -> k_procs s !! c = Some x ->
  rts BIT_SENDING x = false -> fact c unl s.
Proof.
  intros Hg Hl Hx Hsend y Hy. rewrite Hx in Hy. injection Hy as <-.
  specialize (good_local _ _ _ Hg Hl _ Hx) as Hloc. unfold unl.
  destruct (p_link x) as [h|] eqn:Hlk; [|done].
  pose proof (qi_queued _ (proj1 Hg) _ _ _ Hx Hlk) as Hq. unfold queued_on in Hq.
  destruct h; [| |done]; destruct Hq as [? Hq]; [congruence|].
  rewrite Hq in Hsend by done. done.
Qed.
End Shared.

Section Handlers.
Context (c : ptr) (s0 : kstate) (Hl0 : fact c is_local s0).
Implicit Types (s : kstate) (f : frame).

(** What every continuation of a handler does: it leaves with the queues well
    formed, given that the caller is on no queue. *)
Definition q_cont (r : handler) : Prop :=
  forall s, good c s0 s -> fact c unl s -> wp r (fun _ _ => False) (qx c s0) s.

Lemma q_finish f r s : f_c f = c -> good c s0 s -> wp (finish f r) (fun _ _ => False) (qx c s0) s.
Proof. intros Ec Hg. unfold finish. q. Qed.

Lemma q_fail2 {A} f r s :
  good c s0 s -> wp (@fail2 A f r) (fun _ _ => False) (qx c s0) s.
Proof. intros Hg. unfold fail2. q. Qed.

(** ** [mm_mini_send] *)

(** After an error the caller is on no queue. *)
Lemma q_rmt_cleanup b s :
  good c s0 s ->
  wp (rmt_cleanup c b) (fun _ s' => good c s0 s' /\ fact c unl s') (qx c s0) s.
Proof.
  intros Hg. unfold rmt_cleanup. q_rd. apply wp_when_bind.
  assert (HU : forall s1, good c s0 s1 -> fact c unl s1 ->
    wp (wr c (rts_clear BIT_SENDING) ;; when b (wr c (rts_clear BIT_RECEIVING)) ;;
        wr c (rts_clear BIT_RMTOPER) ;; wr c (fun x => x <| p_sendto := NONE |>) ;;
        when b (wr c (fun x => x <| p_getfrom := NONE |>)) ;;
        wr c (fun x => x <| p_proxy := NONE |>))
      (fun _ s' => good c s0 s' /\ fact c unl s') (qx c s0) s1).
  { clear. intros s Hg Hu. q. all: done. }
  destruct (rts BIT_SENDING x) eqn:Hsend.
  - apply wp_bind, (wp_list_del_q c s0); [done|]. auto.
  - apply HU; [done|]. by eapply not_sending_unl.
Qed.

Lemma q_send_remote_after f r s :
  f_c f = c -> good c s0 s -> q_cont r ->
  wp (send_remote_after f r) (fun _ _ => False) (qx c s0) s.
Proof.
  intros Ec Hg Hr. unfold send_remote_after, rmtsent_inc. rewrite Ec.
  q_rd. cbv zeta. q_if; [q; by apply q_finish|]. q_call q_rmt_cleanup.
  intros _ s1 [Hg1 Hu1]. q_if; [by apply Hr|by apply q_finish].
Qed.

Lemma q_start_remote cur f s :
  f_c f = c -> good c s0 s -> fact c unl s ->
  wp (start_remote cur f) (fun _ s' => good c s0 s') (qx c s0) s.
Proof.
  intros Ec Hg Hu. unfold start_remote, cmd_msg_from_user. rewrite Ec. q_unfold.
  q_pure. apply wp_assoc. q_pure. q_wr. q_wr. q_wr. q_new sending. q_wr. q_wr.
  q_new cmd_ok. apply wp_bind. eapply wp_mono; [apply q_sproxy_enqueue; try done|..|done].
  - intros y Hy. by left.
  - cbv beta. by intros _ s8 (? & _).
Qed.

Lemma q_send_remote cur f r s :
  f_c f = c -> (exists d i, f_dst f = PROC d i) -> good c s0 s -> fact c unl s -> q_cont r ->
  wp (send_remote cur f r) (fun _ _ => False) (qx c s0) s.
Proof.
  intros Ec Hp Hg Hu Hr. unfold send_remote, dst_stop_receiving, fill_msg_cmd. rewrite Ec.
  unfold sleep_proc, sleep_enter. q_rd. q_pure. q_if; [by apply q_fail2|]. q.
  q_call q_start_remote. intros _ t Ht. q. by apply q_send_remote_after.
Qed.

Lemma q_deliver_waiting f s :
  f_c f = c -> good c s0 s -> wp (deliver_waiting f) (fun _ _ => False) (qx c s0) s.
Proof.
  intros Ec Hg. unfold deliver_waiting, end_receiving, lclsent_inc. q_unfold.
  q_rd. q_pure. q_if; [by apply q_fail2|]. q. all: by apply q_finish.
Qed.

Lemma q_send_local_after f r s :
  f_c f = c -> good c s0 s -> q_cont r ->
  wp (send_local_after f r) (fun _ _ => False) (qx c s0) s.
Proof.
  intros Ec Hg Hr. unfold send_local_after, lclsent_inc. rewrite Ec. q_pure. q_rd. cbv zeta.
  q_if; [q; by apply q_finish|]. apply wp_when_bind.
  assert (HU : forall s1, good c s0 s1 -> fact c unl s1 ->
    wp (wr c (rts_clear BIT_SENDING) ;; wr c (fun x => x <| p_sendto := NONE |>) ;;
        if p_rcode x =? EMOLMIGRATE then r else finish f (p_rcode x))
      (fun _ _ => False) (qx c s0) s1).
  { intros s2 Hg2 Hu2. q_wr. q_wr. q_if; [by apply Hr|by apply q_finish]. }
  destruct (rts BIT_SENDING x) eqn:Hsend.
  - apply wp_bind, (wp_list_del_q c s0); [done|]. auto.
  - apply HU; [done|]. by eapply not_sending_unl.
Qed.

(** A sender is put on the queue of the destination it sends to. *)
Lemma q_enqueue_on p dst e s (Q : unit -> kstate -> Prop) :
  good c s0 s -> fact p unl s -> fact p (sends_to e) s -> fact p (mine c p) s ->
  fact dst (ep_is e) s -> (exists d i, dst = PROC d i) -> (forall s1, good c s0 s1 -> Q tt s1) ->
  wp (LIST_ADD_TAIL_P p dst) Q (qx c s0) s.
Proof.
  intros Hg Hu Hs Hm He (d & i & ->) HQ.
  destruct (k_procs s !! PROC d i) as [y|] eqn:Hy.
  - apply (wp_list_add_q c s0); [done..| |auto].
    intros px Hpx. specialize (Hs _ Hpx) as [Hs1 Hs2]. split; [done|].
    exists y. split; [done|]. rewrite Hs2. symmetry. by apply He.
  - unfold LIST_ADD_TAIL_P. apply wp_bind, wp_wr; [|done]. intros x Hx. congruence.
Qed.

Lemma q_enqueue_dst dst e s (Q : unit -> kstate -> Prop) :
  good c s0 s -> fact c unl s -> fact c (sends_to e) s -> fact dst (ep_is e) s ->
  (exists d i, dst = PROC d i) -> (forall s1, good c s0 s1 -> Q tt s1) ->
  wp (LIST_ADD_TAIL_P c dst) Q (qx c s0) s.
Proof. intros. eapply q_enqueue_on; [done..| |done|done|done]. intros y _. by left. Qed.

Lemma q_send_local f r s :
  f_c f = c -> (exists d i, f_dst f = PROC d i) -> good c s0 s -> fact c unl s ->
  fact (f_dst f) (ep_is (f_dst_ep f)) s -> q_cont r ->
  wp (send_local f r) (fun _ _ => False) (qx c s0) s.
Proof.
  intros Ec Hp Hg Hu He Hr. unfold send_local, send_enqueue, sleep_proc2, sleep_enter.
  q_unfold. q_rd. q_if; [by apply q_deliver_waiting|]. rewrite Ec.
  apply wp_assoc. q_wr. q_new sending. apply wp_assoc. q_wr. q_new (sends_to (f_dst_ep f)).
  apply wp_assoc. q_wr. apply wp_bind. eapply q_enqueue_dst; [done..|].
  intros t Ht. clear Hu He. q. by apply q_send_local_after.
Qed.

(** The result of the status loop, and the dispatch on the destination. *)
Definition dst_checked (f : frame) (ret : Z) (s : kstate) : Prop :=
  ret = OK -> fact (f_dst f) (ep_is (f_dst_ep f)) s.

Lemma q_send_dispatch cur f ret r s :
  f_c f = c -> (exists d i, f_dst f = PROC d i) -> good c s0 s -> fact c unl s ->
  dst_checked f ret s -> q_cont r ->
  wp (send_dispatch cur f ret r) (fun _ _ => False) (qx c s0) s.
Proof.
  intros Ec Hp Hg Hu He Hr. unfold send_dispatch. q_if; [by apply q_fail2|].
  apply negb_false_iff, Z.eqb_eq in Heqb. specialize (He Heqb). rewrite Ec.
  q_wr. q_rd. q_if; [by apply q_send_remote|by apply q_send_local].
Qed.

Lemma q_send_replay fuel cur f :
  f_c f = c -> (exists d i, f_dst f = PROC d i) -> q_cont (send_replay fuel cur f).
Proof.
  intros Ec Hp. induction fuel as [|fuel IH]; intros s Hg Hu; [done|]. cbn [send_replay].
  q_pure. q_call q_check_dst. intros ret t (Ht & Hut & Het).
  apply q_send_dispatch; try done. intros E. by apply Het.
Qed.

(** ** [mm_mini_sendrec] *)

Lemma q_sendrec_remote_after f r s :
  f_c f = c -> good c s0 s -> q_cont r ->
  wp (sendrec_remote_after f r) (fun _ _ => False) (qx c s0) s.
Proof.
  intros Ec Hg Hr. unfold sendrec_remote_after, rmtsent_inc. rewrite Ec.
  q_rd. cbv zeta. q_if; [q; by apply q_finish|]. q_call q_rmt_cleanup.
  intros _ t [Ht Hut]. q_if; [by apply Hr|by apply q_finish].
Qed.

Lemma pure_check_sendrec_sproxy d n : pure (check_sendrec_sproxy d n).
Proof. unfold check_sendrec_sproxy. pure. Qed.
#[local] Hint Resolve pure_check_sendrec_sproxy : pure.

Lemma q_sendrec_remote cur f r s :
  f_c f = c -> (exists d i, f_dst f = PROC d i) -> good c s0 s -> fact c unl s -> q_cont r ->
  wp (sendrec_remote cur f r) (fun _ _ => False) (qx c s0) s.
Proof.
  intros Ec Hp Hg Hu Hr.
  unfold sendrec_remote, fill_msg_cmd, cmd_msg_from_user, sleep_proc, sleep_enter.
  rewrite Ec. q_unfold. q_rd. q_pure. q_if; [by apply q_fail2|].
  do 3 q_step. q_step. q_step. q_pure. apply wp_assoc. q_pure. q_wr. q_wr. q_wr. q_new sending.
  q_wr. q_wr. q_new cmd_ok. q_wr. apply wp_bind.
  eapply wp_mono; [apply q_sproxy_enqueue; try done; by left|cbv beta|done].
  intros _ t (Ht & _). q. by apply q_sendrec_remote_after.
Qed.

Lemma q_clear_waiting s :
  good c s0 s -> fact c unl s ->
  wp (clear_waiting c) (fun _ s' => good c s0 s' /\ fact c unl s') (qx c s0) s.
Proof. intros Hg Hu. unfold clear_waiting. q. done. Qed.

(** A caller that waits for the reply is on no queue: it has stopped sending. *)
Lemma q_sendrec_reply_after f s :
  f_c f = c -> good c s0 s -> fact c unl s ->
  wp (sendrec_reply_after f) (fun _ _ => False) (qx c s0) s.
Proof.
  intros Ec Hg Hu. unfold sendrec_reply_after, lclsent_inc. rewrite Ec. q_rd. cbv zeta.
  q_if; [|q; by apply q_finish]. q_call q_clear_waiting. intros _ t [Ht _].
  by apply q_finish.
Qed.

Lemma q_sendrec_waiting f s :
  f_c f = c -> (exists d i, f_dst f = PROC d i) -> good c s0 s -> fact c unl s ->
  wp (sendrec_waiting f) (fun _ _ => False) (qx c s0) s.
Proof.
  intros Ec Hp Hg Hu. unfold sendrec_waiting, sleep_proc, sleep_enter. rewrite Ec. q_unfold. q.
  all: first [by apply q_fail2 | by apply q_sendrec_reply_after].
Qed.

Lemma q_sendrec_queued_after f r s :
  f_c f = c -> good c s0 s -> q_cont r ->
  wp (sendrec_queued_after f r) (fun _ _ => False) (qx c s0) s.
Proof.
  intros Ec Hg Hr. unfold sendrec_queued_after, lclsent_inc. rewrite Ec. q_rd. cbv zeta.
  q_pure. q_if; [|q; by apply q_finish]. apply wp_if_bind.
  assert (HU : forall t, good c s0 t -> fact c unl t ->
    wp (clear_waiting c ;; if p_rcode x =? EMOLMIGRATE then r else finish f (p_rcode x))
      (fun _ _ => False) (qx c s0) t).
  { intros t Ht Hut. q_call q_clear_waiting. intros _ t' [Ht' Hut'].
    q_if; [by apply Hr|by apply q_finish]. }
  destruct (rts BIT_SENDING x) eqn:Hsend.
  - apply wp_bind, (wp_list_del_q c s0); [done|]. auto.
  - assert (Hu : fact c unl s1) by by eapply not_sending_unl. q_wr. by apply HU.
Qed.

Lemma q_sendrec_local f r s :
  f_c f = c -> (exists d i, f_dst f = PROC d i) -> good c s0 s -> fact c unl s ->
  fact (f_dst f) (ep_is (f_dst_ep f)) s -> q_cont r ->
  wp (sendrec_local f r) (fun _ _ => False) (qx c s0) s.
Proof.
  intros Ec Hp Hg Hu He Hr. unfold sendrec_local, sendrec_enqueue, sleep_proc2, sleep_enter.
  q_unfold. q_rd. q_if; [by apply q_sendrec_waiting|]. rewrite Ec.
  apply wp_assoc. q_wr. apply wp_assoc. q_wr. apply wp_assoc. q_wr. q_new sending.
  apply wp_assoc. q_wr. q_new (sends_to (f_dst_ep f)).
  apply wp_assoc. q_wr. apply wp_bind. eapply q_enqueue_dst; [done..|].
  intros t Ht. clear Hu He. q. by apply q_sendrec_queued_after.
Qed.

Lemma q_sendrec_dispatch cur f ret r s :
  f_c f = c -> (exists d i, f_dst f = PROC d i) -> good c s0 s -> fact c unl s ->
  dst_checked f ret s -> q_cont r ->
  wp (sendrec_dispatch cur f ret r) (fun _ _ => False) (qx c s0) s.
Proof.
  intros Ec Hp Hg Hu He Hr. unfold sendrec_dispatch. q_if; [by apply q_fail2|].
  apply negb_false_iff, Z.eqb_eq in Heqb. specialize (He Heqb). rewrite Ec.
  q_wr. q_rd. q_if; [by apply q_sendrec_remote|by apply q_sendrec_local].
Qed.

Lemma q_sendrec_replay fuel cur f :
  f_c f = c -> (exists d i, f_dst f = PROC d i) -> q_cont (sendrec_replay fuel cur f).
Proof.
  intros Ec Hp. induction fuel as [|fuel IH]; intros s Hg Hu; [done|]. cbn [sendrec_replay].
  q_pure. q_call q_check_dst. intros ret t (Ht & Hut & Het).
  apply q_sendrec_dispatch; try done. intros E. by apply Het.
Qed.

(** ** [mm_mini_reply] *)

Lemma q_reply_dispatch cur f ret r s :
  f_c f = c -> good c s0 s -> fact c unl s -> q_cont r ->
  wp (reply_dispatch cur f ret r) (fun _ _ => False) (qx c s0) s.
Proof.
  intros Ec Hg Hu Hr. unfold reply_dispatch, reply_remote, reply_local. rewrite Ec.
  q_if; [by apply q_fail2|]. q_wr. q_rd. q_if; q_rd.
  - unfold dst_stop_receiving, fill_msg_cmd, sleep_proc, sleep_enter. q_pure.
    q_if; [by apply q_fail2|]. rewrite Ec. q. q_call q_start_remote. intros _ t Ht. q.
    by apply q_send_remote_after.
  - q_if; [by apply q_deliver_waiting|by apply q_finish].
Qed.

Lemma q_reply_replay fuel cur f :
  f_c f = c -> q_cont (reply_replay fuel cur f).
Proof.
  intros Ec. induction fuel as [|fuel IH]; intros s Hg Hu; [done|]. cbn [reply_replay].
  q_pure. apply wp_bind. eapply wp_mono; [by apply q_check_dst|cbv beta|done]. intros ret t (Ht & Hut & _). by apply q_reply_dispatch.
Qed.
End Handlers.
