(* ===== verification/ReceiveQueues.v ===== *)
(** * [mm_mini_notify], [mm_hdw_notify], [mm_mini_receive] and [mm_mini_rcvrqst] keep the queues *)

From S2P Require Import Prelude Types Endpoint Kernel Hoare Utils IpcCommon.
From S2P Require Import Notify Receive Queues QueueLogic IpcQueues.

Section Notifiers.
Context (c : ptr) (s0 : kstate) (Hl0 : fact c is_local s0).
Implicit Types (s : kstate) (f : frame).

(** ** [mm_mini_notify] *)

Lemma q_notify_end f s :
  f_c f = c -> good c s0 s -> (fact c unl s \/ fact c (fun x => p_rcode x = OK) s) ->
  wp (notify_end f) (fun _ _ => False) (qx c s0) s.
Proof.
  intros Ec Hg Hor. unfold notify_end, rmtsent_inc, lclsent_inc. rewrite Ec. q_rd. q_rd.
  cbv zeta. destruct (p_rcode x =? OK) eqn:Hok.
  - q. all: by apply q_finish.
  - destruct Hor as [Hu|Hr]; [q; by apply q_finish|].
    specialize (Hr _ Hx). by rewrite Hr in Hok.
Qed.

Lemma q_notify_remote_after f r s :
  f_c f = c -> good c s0 s -> q_cont c s0 r ->
  wp (notify_remote_after f r) (fun _ _ => False) (qx c s0) s.
Proof.
  intros Ec Hg Hr. unfold notify_remote_after, rmtsent_inc. rewrite Ec.
  q_rd. cbv zeta. q_if.
  - q_wr. apply q_notify_end; [done..|]. right. eapply fact_new; [exact E|].
    apply Z.eqb_eq in Heqb. rewrite Hx in Hx0. injection Hx0 as <-. exact Heqb.
  - q_call q_rmt_cleanup. intros _ t [Ht Hut].
    q_if; [by apply Hr|]. apply q_notify_end; auto.
Qed.

Lemma q_notify_remote f a b e r s :
  f_c f = c -> good c s0 s -> fact c unl s -> q_cont c s0 r ->
  wp (notify_remote f a b e r) (fun _ _ => False) (qx c s0) s.
Proof.
  intros Ec Hg Hu Hr.
  unfold notify_remote, dst_stop_receiving, fill_msg_cmd, BUILD_NOTIFY_MSG.
  unfold sleep_proc, sleep_enter. rewrite Ec. q_unfold. q_rd. q_pure.
  q_if; [by apply q_fail2|]. do 15 q_step. q_wr. q_wr. q_wr. q_new sending.
  q_wr. q_new cmd_ok. q_wr. apply wp_bind.
  eapply wp_mono; [apply q_sproxy_enqueue; try done; by left|cbv beta|done].
  clear - Ec Hr Hl0. intros _ t (Ht & _). q. by apply q_notify_remote_after.
Qed.

Lemma q_notify_local f dc a b e s :
  f_c f = c -> good c s0 s -> fact c unl s ->
  wp (notify_local f dc a b e) (fun _ _ => False) (qx c s0) s.
Proof.
  intros Ec Hg Hu. unfold notify_local, set_update, wake_notified, end_receiving.
  unfold set_notify_pending, BUILD_NOTIFY_MSG. q_unfold. rewrite Ec. q.
  all: apply q_notify_end; auto.
Qed.

Lemma q_notify_migrating f s :
  f_c f = c -> good c s0 s -> wp (notify_migrating f) (fun _ _ => False) (qx c s0) s.
Proof.
  intros Ec Hg. unfold notify_migrating, set_notify_pending. rewrite Ec. q.
  all: by apply q_fail2.
Qed.

Lemma q_notify_replay fuel f a b e :
  f_c f = c -> q_cont c s0 (notify_replay fuel f a b e).
Proof.
  intros Ec. induction fuel as [|fuel IH]; intros s Hg Hu; [done|]. cbn [notify_replay].
  rewrite Ec. q.
  all: first [by apply q_fail2 | by apply q_notify_migrating | by apply q_notify_remote
             | by apply q_notify_local].
Qed.

(** [mm_hdw_notify] only touches the descriptor of its destination. *)
Lemma q_hdw_notify cur d e s :
  good c s0 s -> wp (mm_hdw_notify cur d e) (fun _ _ => False) (qx c s0) s.
Proof.
  intros Hg. unfold mm_hdw_notify, hdw_notify_locked, wake_notified, end_receiving.
  unfold set_notify_pending, BUILD_NOTIFY_MSG. q_unfold. q.
Qed.

Lemma q_notify_body fuel pid a b e s :
  good c s0 s -> fact c unl s ->
  wp (notify_body fuel c pid a b e) (fun _ _ => False) (qx c s0) s.
Proof.
  intros Hg Hu. unfold notify_body, notify_source. q_unfold. q.
  all: by apply q_notify_replay.
Qed.
End Notifiers.

Section Receivers.
Context (c : ptr) (s0 : kstate) (Hl0 : fact c is_local s0).
Implicit Types (s : kstate) (f : frame).

(** ** [mm_mini_receive] *)

Lemma off_queue_remote : off_queue is_remote.
Proof. intros a b _ E _ _. unfold is_remote, IT_IS_REMOTE, rts. by rewrite E. Qed.

Lemma cmd_ok_remote x : is_remote x -> cmd_ok (rts_set BIT_RMTOPER x).
Proof.
  unfold is_remote, cmd_ok, IT_IS_LOCAL, IT_IS_REMOTE, rts, rts_set. cbn. intros Hr. bits.
  by rewrite Hr.
Qed.

(** An acknowledge puts the descriptor of a remote process on the queue of its
    sender proxy. *)
Lemma q_generic_ack ack rmt lcl rcode s :
  good c s0 s -> fact rmt unl s -> fact rmt is_remote s ->
  wp (generic_ack_lcl2rmt ack rmt lcl rcode)
    (fun _ s' => good c s0 s' /\ fact rmt cmd_ok s' /\ fact rmt off_procs s') (qx c s0) s.
Proof.
  intros Hg Hu Hr. unfold generic_ack_lcl2rmt. q_wr.
  assert (Hc : fact rmt cmd_ok s1) by (eapply fact_new; [exact E|by apply cmd_ok_remote]).
  q_rd. q_pure. q_wr.
  eapply wp_mono; [apply (q_sproxy_enqueue c s0); try done|cbv beta|done].
  { intros y Hy. right. by apply Hr. }
  clear. intros _ t (Ht & Hc & Ho & Hm). done.
Qed.

(** The message of a queued sender is taken; an acknowledged sender is on the
    queue of its proxy afterwards. *)
Definition taken (xpp : ptr) (s : kstate) : Prop :=
  fact xpp unl s \/ (fact xpp is_remote s /\ fact xpp cmd_ok s /\ fact xpp off_procs s).

Lemma good_remote s s1 p :
  frame_ok c (k_procs s0) (k_procs s) -> good c s0 s1 -> fact p is_remote s ->
  is_Some (k_procs s !! p) -> fact p is_remote s1.
Proof.
  intros HF [_ HF1] Hr [x Hx] y Hy. destruct (HF1 _ _ Hy) as (a & Ha & Er & _).
  destruct (HF _ _ Hx) as (b & Hb & Er' & _). specialize (Hr _ Hx).
  unfold is_remote in *. congruence.
Qed.

Lemma q_take_message cur xpp m_ptr s :
  good c s0 s -> fact xpp unl s ->
  wp (take_message cur c xpp m_ptr) (fun _ s' => good c s0 s' /\ taken xpp s') (qx c s0) s.
Proof.
  intros Hg Hu. unfold take_message, send_ack_lcl2rmt. q_rd. q_if.
  - q_pure.
    assert (Hr : fact xpp is_remote s1) by (intros y Hy; rewrite Hx in Hy; by injection Hy as <-).
    apply wp_when_bind. q_if; [|q; split; [done|by left]].
    apply wp_assoc, wp_bind. eapply wp_mono; [by apply q_generic_ack|cbv beta|done].
    intros _ t (Ht & Hc & Ho). q. split; [done|]. right. split_and!; [|done..].
    eapply (good_remote s1); [by apply Hg0|done|done|by exists x].
  - apply wp_last'. q_pure. q. split; [done|by left].
Qed.

Lemma q_end_sending xpp ret s :
  good c s0 s -> taken xpp s ->
  wp (end_sending xpp ret) (fun _ s' => good c s0 s') (qx c s0) s.
Proof.
  intros Hg [Hu|(Hr & Hc & Ho)]; unfold end_sending; q_unfold; [q; done|].
  assert (Hm : fact xpp rmtoper s) by (intros y Hy; by destruct (Hc y Hy)).
  clear Hc. q. all: done.
Qed.

Lemma q_receive_from {A} cur xpp src_ep m_ptr s :
  good c s0 s -> wp (@receive_from A cur c xpp src_ep m_ptr) (fun _ _ => False) (qx c s0) s.
Proof.
  intros Hg. unfold receive_from. apply wp_bind, (wp_list_del_q c s0); [done|].
  clear Hg. intros s1 _ Hu Hg. q_rd. q_rd. cbv zeta. apply wp_if_bind. q_if; [|by q].
  apply wp_assoc. apply wp_bind. eapply wp_mono; [by apply q_take_message|cbv beta|done].
  intros ret t (Ht & Htk). apply wp_assoc, wp_bind.
  eapply wp_mono; [by apply q_end_sending|cbv beta|done]. intros _ t' Ht'. by q.
Qed.

Lemma q_receive_queue cur src_ep m_ptr l s :
  good c s0 s -> fact c unl s ->
  wp (receive_queue cur c src_ep m_ptr l) (fun _ s' => good c s0 s' /\ fact c unl s')
     (qx c s0) s.
Proof.
  revert s. induction l as [|xpp l IH]; intros s Hg Hu; cbn [receive_queue]; [by q|].
  q_pure. q_rd. q_if.
  - eapply wp_mono; [by apply q_receive_from|done|done].
  - q_pure. by apply IH.
Qed.

Lemma q_receive_after cur s :
  good c s0 s -> wp (receive_after cur c) (fun _ _ => False) (qx c s0) s.
Proof. intros Hg. unfold receive_after. q. Qed.

Lemma q_rcvrqst_after s :
  good c s0 s -> wp (rcvrqst_after c) (fun _ _ => False) (qx c s0) s.
Proof. intros Hg. unfold rcvrqst_after. q. Qed.

Lemma q_receive_notify cur d dc a b e m s :
  good c s0 s -> wp (receive_notify cur d dc c a b e m) (fun _ _ => False) (qx c s0) s.
Proof. intros Hg. unfold receive_notify, BUILD_NOTIFY_MSG. q. Qed.

Lemma q_receive_locked cur d dc src_ep m_ptr t s :
  good c s0 s -> fact c unl s ->
  wp (receive_locked cur d dc c src_ep m_ptr t) (fun _ _ => False) (qx c s0) s.
Proof.
  intros Hg Hu. unfold receive_locked, receive_block, sleep_proc, sleep_enter. q_unfold.
  q_rd. apply wp_when_bind. q_if; [by q|]. q_wr. q_if. q_if.
  - q_if. by apply q_receive_notify.
  - q_call q_receive_queue. clear - Hl0. intros _ s (Hg & Hu). q. by apply q_receive_after.
Qed.

Lemma q_rcvrqst_locked cur m_ptr t s :
  good c s0 s -> fact c unl s ->
  wp (rcvrqst_locked cur c m_ptr t) (fun _ _ => False) (qx c s0) s.
Proof.
  intros Hg Hu. unfold rcvrqst_locked, receive_block, sleep_proc, sleep_enter. q_unfold. q.
  - by apply q_rcvrqst_after.
  - by apply q_receive_from.
Qed.
End Receivers.
