(* ===== verification/SproxyQueues.v ===== *)
(** * [mm_get2rmt] keeps the queues *)

From S2P Require Import Prelude Types Endpoint Kernel Hoare Utils Sproxy.
From S2P Require Import Queues QueueLogic IpcQueues.

Lemma pure_copy_block p a q b n : pure (copy_block p a q b n).
Proof. unfold copy_block. pure. Qed.
Lemma pure_copy_to_user_hdr a b c : pure (copy_to_user_hdr a b c).
Proof. unfold copy_to_user_hdr. pure. Qed.
Lemma pure_NODE2MAXBYTES n : pure (NODE2MAXBYTES n).
Proof. unfold NODE2MAXBYTES. pure. Qed.
Lemma pure_wr_node n f : pure (wr_node n f).
Proof. unfold wr_node. pure. Qed.
Lemma pure_WLOCK_PROC3 p q r : pure (WLOCK_PROC3 p q r).
Proof. unfold WLOCK_PROC3. pure. Qed.
#[export] Hint Resolve pure_copy_block pure_copy_to_user_hdr pure_NODE2MAXBYTES
  pure_wr_node pure_WLOCK_PROC3 : pure.

Lemma pure_get_payload p q v a : pure (get_payload p q v a).
Proof. unfold get_payload. pure. Qed.
#[export] Hint Resolve pure_get_payload : pure.
Lemma pure_get_data_checked p q h a : pure (get_data_checked p q h a).
Proof. unfold get_data_checked. pure. Qed.
#[export] Hint Resolve pure_get_data_checked : pure.

Section Get2rmt.
Context (c : ptr) (s0 : kstate) (Hl0 : fact c is_local s0).
Implicit Types (s : kstate).

Lemma q_get2rmt_take xpp s :
  good c s0 s -> fact c unl s ->
  wp (get2rmt_take c xpp)
     (fun _ s' => good c s0 s' /\ fact c unl s' /\ fact xpp unl s') (qx c s0) s.
Proof.
  intros Hg Hu. unfold get2rmt_take. q_pure. q_pure. q_pure.
  apply wp_bind, (wp_list_del_facts c s0); [done|]. intros t Hk _ Hx Ht.
  apply Hk in Hu. clear Hk. q_clear_good s3. q. all: done.
Qed.

Lemma q_get2rmt_ack xpp pay s :
  good c s0 s -> fact c unl s -> fact xpp unl s -> fact xpp is_remote s ->
  wp (get2rmt_ack c xpp pay) (fun _ s' => good c s0 s' /\ fact c unl s' /\
     fact xpp unl s' /\ fact xpp is_remote s') (qx c s0) s.
Proof.
  intros Hg Hu Hx Hr. unfold get2rmt_ack, clear_oncopy. q. all: done.
Qed.

Lemma q_get2rmt_request xpp pay s :
  good c s0 s -> fact c unl s -> fact xpp unl s -> fact xpp is_local s ->
  wp (get2rmt_request c xpp pay) (fun _ s' => good c s0 s' /\ fact c unl s' /\
     fact xpp unl s' /\ fact xpp is_local s') (qx c s0) s.
Proof.
  intros Hg Hu Hx Hr. unfold get2rmt_request, set_cmd_source. q_unfold. cbv zeta. q.
  all: try done. apply wp_last'. by q.
Qed.

Lemma fact_here p (phi : proc -> Prop) s x : k_procs s !! p = Some x -> phi x -> fact p phi s.
Proof. intros Hx Hp y Hy. congruence. Qed.

Lemma q_get2rmt_migrated xpp s :
  good c s0 s -> fact c unl s -> fact xpp unl s -> fact xpp is_local s ->
  wp (get2rmt_migrated xpp) (fun _ s' => good c s0 s' /\ fact c unl s' /\
     fact xpp unl s' /\ fact xpp is_local s') (qx c s0) s.
Proof. intros Hg Hu Hx Hr. unfold get2rmt_migrated. cbv zeta. q. all: done. Qed.

Lemma q_get2rmt_deliver cur xpp hdr s :
  good c s0 s -> fact xpp unl s -> fact c unl s ->
  wp (get2rmt_deliver (A := unit) cur c xpp hdr) (fun _ _ => False) (qx c s0) s.
Proof. intros Hg Hx Hu. unfold get2rmt_deliver. q_unfold. q. Qed.

(** The command is given to the proxy, or its failure reported. *)
Lemma q_get2rmt_send cur xpp hdr pay x s :
  good c s0 s -> fact c unl s -> fact xpp unl s ->
  (IT_IS_REMOTE x = true -> fact xpp is_remote s) ->
  (IT_IS_REMOTE x = false -> fact xpp is_local s) ->
  wp (get2rmt_send cur c xpp hdr pay x) (fun _ _ => False) (qx c s0) s.
Proof.
  intros Hg Hu Hx Hr Hl. unfold get2rmt_send, reset_remote, reset_proxy_dc, wake_queued.
  q_unfold. destruct (IT_IS_REMOTE x).
  - specialize (Hr eq_refl). clear Hl. q_pure. q_wr. apply wp_assoc. q_call q_get2rmt_ack.
    intros ret t (Ht & Hut & Hxt & Hrt). q. by apply q_get2rmt_deliver.
  - specialize (Hl eq_refl). clear Hr. q_pure. q_wr. apply wp_assoc. q_call q_get2rmt_request.
    intros ret t (Ht & Hut & Hxt & Hrt). q. by apply q_get2rmt_deliver.
Qed.

Lemma remote_cases (x : proc) : (IT_IS_LOCAL x = true /\ IT_IS_REMOTE x = false) \/
  (IT_IS_LOCAL x = false /\ IT_IS_REMOTE x = true).
Proof. unfold IT_IS_LOCAL, IT_IS_REMOTE. destruct (rts BIT_REMOTE x); auto. Qed.

Lemma q_get2rmt_one cur xpp hdr pay s :
  good c s0 s -> fact c unl s ->
  wp (get2rmt_one cur c xpp hdr pay) (fun _ s' => good c s0 s' /\ fact c unl s') (qx c s0) s.
Proof.
  intros Hg Hu. unfold get2rmt_one, wake_queued, reset_remote. q_unfold.
  q_call q_get2rmt_take. intros ret t (Ht & Hut & Hxt). q_pure. q_rd.
  destruct (remote_cases x) as [[Hl Hr]|[Hl Hr]]; rewrite Hl; q_if.
  - assert (fact xpp is_local s1) by by eapply fact_here. q.
  - assert (fact xpp is_local s1) by by eapply fact_here.
    q_call q_get2rmt_migrated. intros [] t1 (Ht1 & Hu1 & Hx1 & Hl1).
    + q. apply wp_last. q. done.
    + eapply wp_mono; [apply q_get2rmt_send; try done; congruence|done|done].
  - assert (fact xpp is_remote s1) by by eapply fact_here. q. apply wp_last. q. done.
  - assert (fact xpp is_remote s1) by by eapply fact_here. q_step.
    eapply wp_mono; [apply q_get2rmt_send; try done; congruence|done|done].
Qed.

Lemma q_get2rmt_queue cur hdr pay l s :
  good c s0 s -> fact c unl s ->
  wp (get2rmt_queue cur c hdr pay l) (fun _ s' => good c s0 s' /\ fact c unl s') (qx c s0) s.
Proof.
  revert s. induction l as [|xpp l IH]; intros s Hg Hu; [done|]. cbn [get2rmt_queue].
  q_call q_get2rmt_one. intros _ t [Ht Hut]. by apply IH.
Qed.

Lemma q_get2rmt_slept s :
  good c s0 s -> fact c unl s ->
  wp (get2rmt_slept c) (fun _ s' => good c s0 s' /\ fact c unl s') (qx c s0) s.
Proof.
  intros Hg Hu. assert (Hl : fact c is_local s) by by apply (good_local c s0).
  unfold get2rmt_slept. q_unfold. q; done.
Qed.

Lemma q_get2rmt_loop fuel cur hdr pay timeout s :
  good c s0 s -> fact c unl s ->
  wp (get2rmt_loop fuel cur c hdr pay timeout) (fun _ _ => False) (qx c s0) s.
Proof.
  revert s. induction fuel as [|fuel IH]; intros s Hg Hu; [done|]. cbn [get2rmt_loop].
  unfold sleep_proc, sleep_enter. q_rd. q_call q_get2rmt_queue. intros _ t [Ht Hut]. q.
  q_call q_get2rmt_slept. intros _ t1 [Ht1 Hu1]. by apply IH.
Qed.

Lemma q_get2rmt_body fuel cur hdr pay timeout s :
  good c s0 s -> fact c unl s ->
  wp (get2rmt_body fuel cur c hdr pay timeout) (fun _ _ => False) (qx c s0) s.
Proof.
  intros Hg Hu. unfold get2rmt_body, error_if. q_unfold. q. by apply q_get2rmt_loop.
Qed.
End Get2rmt.
