(* ===== verification/Tables.v ===== *)
(** * Tables the handlers only read

    The DC table, the tasks and the buffers of headers: routines that change
    process descriptors and locks only leave them as they are. *)

From S2P Require Import Prelude Types Endpoint Kernel Hoare Utils Rproxy.

Definition tables (s : kstate) : gmap Z dc_t * gmap (Z * Z) cmd_t * gmap Z task_t :=
  (k_dcs s, k_uhdr s, k_tasks s).

(** [m] ends, when it does, with the tables it started with. *)
Definition keeps_tables {A} (m : M A) : Prop :=
  forall s, wp m (fun _ s' => tables s' = tables s) (fun _ _ => True) s.

Section Rules.
Context {A B : Type}.

Lemma tab_bind (m : M A) (k : A -> M B) :
  keeps_tables m -> (forall a, keeps_tables (k a)) -> keeps_tables (mbind m k).
Proof.
  intros Hm Hk s. apply wp_bind. eapply wp_mono; [apply Hm| |done].
  intros a t Ht. rewrite <- Ht. apply Hk.
Qed.

Lemma tab_ret (a : A) : keeps_tables (mret a).
Proof. done. Qed.
Lemma tab_leave x : keeps_tables (@leave A x).
Proof. done. Qed.
End Rules.

Lemma tab_when b m : keeps_tables m -> keeps_tables (when b m).
Proof. by destruct b. Qed.
Lemma tab_modify f : (forall s, tables (f s) = tables s) -> keeps_tables (modify f).
Proof. intros Hf s. apply Hf. Qed.
Lemma tab_rd p : keeps_tables (rd p).
Proof. intros s. unfold wp, rd. by destruct (k_procs s !! p). Qed.
Lemma tab_rd_dc d : keeps_tables (rd_dc d).
Proof. intros s. unfold wp, rd_dc. by destruct (k_dcs s !! d). Qed.
Lemma tab_rd_task d : keeps_tables (rd_task d).
Proof. intros s. unfold wp, rd_task. by destruct (k_tasks s !! d). Qed.
Lemma tab_get : keeps_tables get.
Proof. done. Qed.
Lemma tab_lock l : keeps_tables (lock_ l).
Proof. intros s. unfold wp, lock_. by case_bool_decide. Qed.
Lemma tab_unlock l : keeps_tables (unlock_ l).
Proof. intros s. unfold wp, unlock_. by case_bool_decide. Qed.

Create HintDb tab.
#[export] Hint Resolve tab_ret tab_leave tab_rd tab_rd_dc tab_rd_task tab_get tab_lock
  tab_unlock : tab.

Ltac tab :=
  repeat (cbv beta;
    lazymatch goal with
    | |- keeps_tables (mbind _ _) => apply tab_bind; [|intros ?]
    | |- keeps_tables (if ?b then _ else _) => destruct b
    | |- keeps_tables (match ?x with _ => _ end) => destruct x
    | |- keeps_tables (when _ _) => apply tab_when
    | |- keeps_tables (modify _) => apply tab_modify; done
    | |- keeps_tables _ => solve [eauto with tab]
    end).

Lemma tab_wr p f : keeps_tables (wr p f).
Proof. unfold wr. tab. Qed.
#[export] Hint Resolve tab_wr : tab.

Lemma tab_caller_binding cur : keeps_tables (caller_binding cur).
Proof. unfold caller_binding, return_. tab. Qed.
Lemma tab_check_caller_tail c pid d : keeps_tables (check_caller_tail c pid d).
Proof.
  unfold check_caller_tail, ERROR_WUNLOCK_PROC, WUNLOCK_PROC, RLOCK_DC, RUNLOCK_DC, error_if,
    return_. tab.
Qed.
#[export] Hint Resolve tab_caller_binding tab_check_caller_tail : tab.

Lemma tab_check_caller cur cl : keeps_tables (check_caller cur cl).
Proof.
  unfold check_caller, sleep_proc, sleep_enter, WLOCK_PROC, WUNLOCK_PROC. tab.
Qed.

Lemma tab_put2lcl_header cur rp uh pay : keeps_tables (put2lcl_header cur rp uh pay).
Proof.
  unfold put2lcl_header, ERROR_WUNLOCK_PROC, WLOCK_PROC, WUNLOCK_PROC, return_, faults. tab.
Qed.

(** A step that keeps the tables, when only the tables matter. *)
Lemma wp_tab {A B} (m : M A) (k : A -> M B) (Q : B -> kstate -> Prop) s :
  keeps_tables m ->
  (forall a s', tables s' = tables s -> wp (k a) Q (fun _ _ => True) s') ->
  wp (mbind m k) Q (fun _ _ => True) s.
Proof.
  intros Hm Hk. apply wp_bind. eapply wp_mono; [apply Hm| |done]. intros a s' E. by apply Hk.
Qed.

(** The header at [uh] in the memory of the task [cur]. *)
Definition incoming (s : kstate) (cur uh : Z) : option cmd_t :=
  match k_tasks s !! cur with
  | Some t => Some (default cmd0 (k_uhdr s !! (t_mm t, uh)))
  | None => None
  end.

Lemma put2lcl_header_incoming cur rp uh pay s :
  wp (put2lcl_header cur rp uh pay) (fun h _ => incoming s cur uh = Some h) (fun _ _ => True) s.
Proof.
  unfold put2lcl_header, ERROR_WUNLOCK_PROC, WLOCK_PROC, WUNLOCK_PROC, return_, faults.
  do 6 (apply wp_tab; [tab|]; intros ? ? ?).
  apply wp_bind. unfold wp at 1, rd_task. destruct (k_tasks _ !! cur) as [t|] eqn:Ht; [|done].
  apply wp_bind, wp_get. cbv zeta.
  do 2 (apply wp_tab; [tab|]; intros ? ? ?). apply wp_ret.
  assert (ET : tables s'4 = tables s) by congruence. injection ET as _ Eh Et.
  unfold incoming. by rewrite <- Et, Ht, <- Eh.
Qed.

(** A specification together with the tables kept. *)
Lemma wp_keeps_tables {A} (m : M A) Q R s :
  keeps_tables m -> wp m Q R s -> wp m (fun a s' => Q a s' /\ tables s' = tables s) R s.
Proof.
  intros Hm. specialize (Hm s). unfold wp in *. by destruct (m s); auto.
Qed.
