(* ===== verification/RproxyQueues.v ===== *)
(** * [mm_put2lcl] keeps the queues

    For the commands that carry messages and their acknowledges, when the
    header names the remote process its slot holds, and an acknowledge answers
    a command that has left the queue of the sender proxy. *)

From S2P Require Import Prelude Types Endpoint Kernel Hoare Utils IpcCommon.
From S2P Require Import Notify Unbind Rproxy Queues QueueLogic IpcQueues.
From S2P Require Import ReceiveQueues SproxyQueues Tables.

Definition carries_message (h : cmd_t) : bool :=
  let cmd := c_cmd h in
  (cmd =? CMD_SNDREC_MSG) || (cmd =? CMD_SEND_MSG) || (cmd =? CMD_REPLY_MSG)
  || (cmd =? CMD_NTFY_MSG) || (cmd =? CMD_SEND_ACK).

(** What the protocol between the nodes promises of an incoming header. *)
Record header_ok (s : kstate) (h : cmd_t) : Prop := {
  ho_msg : carries_message h = true;
  ho_alive : gone_ack h = false;
  ho_rmt : forall dc, k_dcs s !! c_dcid h = Some dc ->
    fact (NBR2PTR (c_dcid h) dc (ENDPOINT_P (c_src h)))
      (fun x => IT_IS_REMOTE x = true /\ p_endpoint x = c_src h) s;
  ho_ack : c_cmd h = CMD_SEND_ACK -> forall dc, k_dcs s !! c_dcid h = Some dc ->
    fact (NBR2PTR (c_dcid h) dc (ENDPOINT_P (c_dst h))) unl s;
}.

Lemma pure_copy_hdr_msg p a q b : pure (copy_hdr_msg p a q b).
Proof. unfold copy_hdr_msg. pure. Qed.
#[export] Hint Resolve pure_copy_hdr_msg : pure.

Section Put2lcl.
Context (c : ptr) (s0 : kstate).
Implicit Types (s : kstate) (h : cmd_t).

Lemma q_end_receiving dst r s :
  good c s0 s ->
  wp (end_receiving dst r) (fun _ s' => good c s0 s') (qx c s0) s.
Proof. intros Hg. unfold end_receiving. q_unfold. q. all: done. Qed.

(** A remote sender is acknowledged, or queued on the local destination. *)
Lemma q_send_rmt2lcl uh h src d i s :
  good c s0 s -> fact src unl s -> fact src is_remote s ->
  wp (send_rmt2lcl uh h src (PROC d i)) (fun _ s' => good c s0 s') (qx c s0) s.
Proof.
  intros Hg Hu Hr. unfold send_rmt2lcl, rmt_receives, send_ack_lcl2rmt. q_unfold.
  q_rd. q_pure. q_rd. q_if.
  - q_pure. q_if; [q; done|]. apply wp_if_bind. q_if.
    + q. q_call q_end_receiving. intros _ t Ht. q. done.
    + q. apply wp_bind. eapply wp_mono; [by apply q_generic_ack|cbv beta|done].
      intros _ t (Ht & _). q. q_call q_end_receiving. intros _ t' Ht'. q. done.
  - assert (He : fact (PROC d i) (ep_is (p_endpoint x0)) s1) by by eapply fact_here.
    assert (HE : forall t, good c s0 t -> fact src unl t -> fact src is_remote t ->
      fact src (sends_to (p_endpoint x0)) t -> fact (PROC d i) (ep_is (p_endpoint x0)) t ->
      wp (LIST_ADD_TAIL_P src (PROC d i) ;; mret OK) (fun _ s' => good c s0 s') (qx c s0) t).
    { intros t Ht Hut Hrt Hst Het. apply wp_bind.
      eapply q_enqueue_on; [done..| |done|eauto|done]. intros y Hy. right. by apply Hrt. }
    q_wr. q_wr. q_new sending. apply wp_when_bind. q_if.
    + q_step. q_rd. apply wp_assoc. q_wr. q_wr. q_wr. q_new (sends_to (p_endpoint x0)).
      q_wr. by apply HE.
    + q_wr. q_new (sends_to (p_endpoint x0)). q_wr. by apply HE.
Qed.

Lemma q_notify_rmt2lcl uh h src dst u s :
  good c s0 s -> wp (notify_rmt2lcl uh h src dst u) (fun _ s' => good c s0 s') (qx c s0) s.
Proof.
  intros Hg. unfold notify_rmt2lcl, set_update, set_notify_pending, end_receiving. q_unfold. q.
  all: done.
Qed.

Lemma q_send_ack_rmt2lcl rmt lcl r s :
  good c s0 s -> fact lcl unl s ->
  wp (send_ack_rmt2lcl rmt lcl r) (fun _ s' => good c s0 s') (qx c s0) s.
Proof. intros Hg Hu. unfold send_ack_rmt2lcl. q_unfold. q. all: done. Qed.

Lemma q_error_lcl2rmt ack rmt h r s :
  good c s0 s -> fact rmt unl s -> fact rmt is_remote s ->
  wp (error_lcl2rmt ack rmt h r) (fun _ s' => good c s0 s') (qx c s0) s.
Proof.
  intros Hg Hu Hr. unfold error_lcl2rmt. q_wr.
  assert (Hc : fact rmt cmd_ok s1) by (eapply fact_new; [exact E|by apply cmd_ok_remote]).
  q_pure. q_wr. eapply wp_mono; [apply (q_sproxy_enqueue c s0); try done|cbv beta|done].
  { intros y Hy. right. by apply Hr. }
  by intros _ t (Ht & _).
Qed.

(** The acknowledge of an error; [ret] is not one of the silent errors only
    when the remote process is on no queue. *)
Lemma q_put2lcl_error {A} d dc h rmt lcl ret s :
  good c s0 s -> carries_message h = true ->
  (silent_error ret = false -> fact rmt unl s /\ fact rmt is_remote s) ->
  wp (put2lcl_error (A := A) d dc h rmt lcl ret) (fun _ _ => False) (qx c s0) s.
Proof.
  intros Hg Hm Hs. unfold put2lcl_error. destruct (silent_error ret) eqn:Es; [q|].
  destruct Hs as [Hu Hr]; [done|]. q_rd. q_pure. q_rd. q_pure.
  assert (Hn : (c_cmd h =? CMD_COPYIN_RQST) = false).
  { apply Z.eqb_neq. intros E. unfold carries_message in Hm. by rewrite E in Hm. }
  rewrite Hn. apply wp_if_bind. cbn [fst snd].
  assert (HE : forall ar : Z * Z, wp (WUNLOCK_DC d ;;
    (if negb (fst ar =? CMD_NONE) then error_lcl2rmt (fst ar) rmt h (snd ar) ;; mret tt
     else mret tt) ;; WUNLOCK_PROC2 lcl rmt ;; return_ (snd ar)) (fun (_ : A) _ => False) (qx c s0) s2).
  { intros [ack r]. q_pure. apply wp_if_bind. q_if; [|q].
    apply wp_assoc. q_call q_error_lcl2rmt. intros _ t Ht. q. }
  q_if; apply wp_ret_bind, HE.
Qed.

Lemma q_put2lcl_dispatch rproxy rmt d i h uh pay s :
  good c s0 s -> carries_message h = true -> fact rmt unl s -> fact rmt is_remote s ->
  (c_cmd h = CMD_SEND_ACK -> fact (PROC d i) unl s) ->
  wp (put2lcl_dispatch rproxy rmt (PROC d i) h uh pay) (fun _ s' => good c s0 s') (qx c s0) s.
Proof.
  intros Hg Hm Hu Hr Ha. unfold put2lcl_dispatch. cbv zeta.
  unfold carries_message in Hm. cbv zeta in Hm.
  destruct (_ || _ || (c_cmd h =? CMD_REPLY_MSG)) eqn:E1; [by apply q_send_rmt2lcl|].
  destruct (c_cmd h =? CMD_NTFY_MSG) eqn:E2; [by apply q_notify_rmt2lcl|].
  cbn in Hm. pose proof Hm as Ea. apply Z.eqb_eq in Ea. rewrite Ea. cbn.
  apply q_send_ack_rmt2lcl; auto.
Qed.

Lemma q_put2lcl_run sig cur d dc rproxy rmt e i h uh pay s :
  good c s0 s -> carries_message h = true -> gone_ack h = false ->
  fact rmt unl s -> fact rmt is_remote s ->
  (c_cmd h = CMD_SEND_ACK -> fact (PROC e i) unl s) ->
  wp (put2lcl_run sig cur d dc rproxy rmt (PROC e i) h uh pay) (fun _ _ => False) (qx c s0) s.
Proof.
  intros Hg Hm Hn Hu Hr Ha. unfold put2lcl_run, set_rproxy_dc. rewrite Hn.
  assert (HT : forall t ret, good c s0 t -> wp (
    when (ret =? OK)
      (wr rproxy (fun x => x <| p_lclsent ::= ulong_inc |>) ;;
       wr_node (c_snode h) (fun n => n <| n_pxrcvd ::= ulong_inc |>) ;;
       (if (c_cmd h =? CMD_COPYOUT_RQST) || (c_cmd h =? CMD_COPYRMT_RQST)
        then wr (PROC e i) (fun y => y <| p_rmtcopy ::= ulong_inc |>)
        else when (c_cmd h =? CMD_COPYLCL_RQST)
               (wr (PROC e i) (fun y => y <| p_lclcopy ::= ulong_inc |>)))) ;;
    WUNLOCK_PROC2 (PROC e i) rmt ;;
    ret0 <- mret ret ;;
    (WLOCK_PROC rproxy ;; wr rproxy (fun x => x <| p_dcid := -1 |>) ;; WUNLOCK_PROC rproxy) ;;
    return_ ret0) (fun (_ : Empty_set) _ => False) (qx c s0) t) by (clear; intros; q).
  destruct (decide (c_cmd h = CMD_SEND_ACK)) as [Ea|Ea].
  - specialize (Ha Ea). apply wp_assoc. q_pure. apply wp_assoc. q_wr. q_pure. q_pure.
    apply wp_bind. eapply wp_mono; [by apply q_put2lcl_dispatch|cbv beta|done]. auto.
  - clear Ha. apply wp_assoc. q_pure. apply wp_assoc. q_wr. q_pure. q_pure.
    apply wp_bind. eapply wp_mono; [by apply q_put2lcl_dispatch|cbv beta|done]. auto.
Qed.

(** A descriptor that is neither sending nor in a remote operation is on no
    queue. *)
Lemma idle_unl s p x :
  good c s0 s -> k_procs s !! p = Some x -> rts BIT_SENDING x = false ->
  rts BIT_RMTOPER x = false -> fact p unl s.
Proof.
  intros [HI _] Hx Hs Hr y Hy. replace y with x by congruence. unfold unl.
  destruct (p_link x) as [h|] eqn:Hl; [|done].
  pose proof (qi_queued _ HI _ _ _ Hx Hl) as Hq. destruct h; destruct Hq; congruence.
Qed.

(** What the checks of the two processes give. *)
Lemma put2lcl_status_idle n h x y :
  IT_IS_REMOTE x = true -> p_endpoint x = c_src h ->
  silent_error (put2lcl_status n h x y) = false ->
  rts BIT_SENDING x = false /\ rts BIT_RMTOPER x = false.
Proof.
  intros Hr He. assert (Hl : IT_IS_LOCAL x = false) by (destruct (remote_cases x) as [[]|[]]; congruence).
  unfold put2lcl_status. rewrite Hr, He, Hl, Z.eqb_refl. cbn.
  destruct (rts BIT_SLOT_FREE x); [done|]. destruct (p_nodeid x =? c_snode h); [cbn|done].
  destruct (rts BIT_RMTOPER x), (rts BIT_SENDING x); done.
Qed.

Lemma put2lcl_status_local n h x y :
  put2lcl_status n h x y = OK -> IT_IS_LOCAL y = true.
Proof.
  intros H. destruct (remote_cases y) as [[E _]|[_ E]]; [done|].
  unfold put2lcl_status in H. rewrite E in H. repeat case_match; done.
Qed.
End Put2lcl.

Section Call.
Context (c : ptr) (s0 : kstate).
Implicit Types (s : kstate) (h : cmd_t).

(** The facts of a header that hold at the start of the handler still hold
    when the two processes are locked. *)
Lemma header_rmt s h dc :
  good c s0 s -> header_ok s0 h -> k_dcs s0 !! c_dcid h = Some dc ->
  fact (NBR2PTR (c_dcid h) dc (ENDPOINT_P (c_src h)))
    (fun x => IT_IS_REMOTE x = true /\ p_endpoint x = c_src h) s.
Proof.
  intros [_ HF] Hh Hd x Hx. destruct (HF _ _ Hx) as (y & Hy & Hr & _ & He).
  destruct (ho_rmt _ _ Hh dc Hd y Hy). split; congruence.
Qed.

Lemma header_ack s h dc y :
  good c s0 s -> fact c unl s -> header_ok s0 h -> k_dcs s0 !! c_dcid h = Some dc ->
  k_procs s !! NBR2PTR (c_dcid h) dc (ENDPOINT_P (c_dst h)) = Some y -> IT_IS_LOCAL y = true ->
  c_cmd h = CMD_SEND_ACK -> fact (NBR2PTR (c_dcid h) dc (ENDPOINT_P (c_dst h))) unl s.
Proof.
  intros [_ HF] Hu Hh Hd Hy Hl Ha. destruct (decide (NBR2PTR (c_dcid h) dc (ENDPOINT_P (c_dst h)) = c))
    as [->|Hne]; [done|].
  destruct (HF _ _ Hy) as (y0 & Hy0 & Hr & Hk & _). eapply fact_here; [exact Hy|].
  apply Hk; [done| |by apply (ho_ack _ _ Hh Ha dc Hd)].
  unfold IT_IS_LOCAL, IT_IS_REMOTE in *. congruence.
Qed.

(** Steps that keep the descriptors and the tables. *)
Lemma wp_pure_tab {A B} (m : M A) (k : A -> M B) Q s :
  pure m -> keeps_tables m -> good c s0 s ->
  (forall a s1, k_procs s1 = k_procs s -> tables s1 = tables s -> good c s0 s1 ->
     wp (k a) Q (qx c s0) s1) ->
  wp (mbind m k) Q (qx c s0) s.
Proof.
  intros Hp Ht Hg HQ. apply wp_bind.
  assert (H : wp m (fun a s1 => tables s1 = tables s -> wp (k a) Q (qx c s0) s1) (qx c s0) s)
    by (apply (wp_pure c s0); auto).
  apply (wp_keeps_tables _ _ _ _ Ht) in H. eapply wp_mono; [exact H| |done].
  intros a s1 [HK E]. auto.
Qed.

Lemma wp_rd_dc {B} d (k : dc_t -> M B) Q s :
  (forall dc, k_dcs s !! d = Some dc -> wp (k dc) Q (qx c s0) s) ->
  wp (mbind (rd_dc d) k) Q (qx c s0) s.
Proof.
  intros HQ. apply wp_bind. unfold wp at 1, rd_dc. destruct (k_dcs s !! d); [auto|done].
Qed.

Lemma q_put2lcl_header cur uh pay s :
  good c s0 s -> fact c unl s -> tables s = tables s0 ->
  wp (put2lcl_header cur c uh pay)
    (fun h s' => (good c s0 s' /\ fact c unl s') /\ tables s' = tables s0 /\
       incoming s0 cur uh = Some h) (qx c s0) s.
Proof.
  intros Hg Hu Ht.
  assert (H : wp (put2lcl_header cur c uh pay)
                (fun _ s' => good c s0 s' /\ fact c unl s') (qx c s0) s).
  { unfold put2lcl_header. q_unfold. q. all: done. }
  apply (wp_keeps_tables _ _ _ _ (tab_put2lcl_header _ _ _ _)) in H.
  pose proof (put2lcl_header_incoming cur c uh pay s) as Hi. unfold wp in *.
  destruct (put2lcl_header cur c uh pay s) as [h s'|x s']; [|done].
  destruct H as [H E]. split; [done|]. split; [congruence|].
  unfold incoming in *. injection Ht as _ E1 E2. by rewrite <- E1, <- E2.
Qed.

Lemma q_put2lcl_body sig cur uh pay s :
  good c s0 s -> fact c unl s -> tables s = tables s0 ->
  (forall h, incoming s0 cur uh = Some h -> header_ok s0 h) ->
  wp (put2lcl_body sig cur c uh pay) (fun _ _ => False) (qx c s0) s.
Proof.
  intros Hg Hu Ht Hin. unfold put2lcl_body, error_if. q_unfold. apply wp_bind.
  eapply wp_mono; [by apply q_put2lcl_header|cbv beta|done].
  intros h t ((Hgt & Hut) & Htt & Hh). specialize (Hin _ Hh). cbv zeta.
  apply wp_bind, wp_get. apply wp_when_bind. q_if; [q|].
  apply wp_pure_tab; [pure|unfold WLOCK_DC; tab|done|]. intros _ s1 E1 Et Hg1.
  apply wp_rd_dc. intros dc Hdc.
  assert (Hd0 : k_dcs s0 !! c_dcid h = Some dc).
  { rewrite Htt in Et. by injection Et as <-. }
  apply (fact_eq _ _ _ _ E1) in Hut. clear E1 Hgt.
  do 5 (apply wp_when_bind; q_if; [q|]). q_pure. q_pure. q_rd. q_rd. cbv zeta.
  destruct (header_rmt _ _ _ Hg1 Hin Hd0 _ Hx) as [Hr He].
  assert (Hr' : fact (NBR2PTR (c_dcid h) dc (ENDPOINT_P (c_src h))) is_remote s3)
    by by eapply fact_here.
  assert (HI : silent_error (put2lcl_status (k_local_nodeid t) h x x0) = false ->
    fact (NBR2PTR (c_dcid h) dc (ENDPOINT_P (c_src h))) unl s3).
  { intros Hs. destruct (put2lcl_status_idle _ _ _ _ Hr He Hs). by eapply (idle_unl c s0). }
  q_if.
  - apply q_put2lcl_error; [done|by apply Hin|]. auto.
  - apply negb_false_iff, Z.eqb_eq in Heqb5. rewrite Heqb5 in HI.
    apply q_put2lcl_run; [done|by apply Hin|by apply Hin|by apply HI|done|].
    intros Ea. eapply header_ack; [done..| |done]. by eapply put2lcl_status_local.
Qed.
End Call.
