(* ===== verification/System.v ===== *)
(** * The system: tasks that call, sleep and resume

    A state of the system is the kernel's state and, for every blocked task,
    the point where it sleeps.  A step runs one handler, from a system call or
    from the end of a wait, up to its return or its next sleep: the handlers
    hold the mutexes of what they touch, so this is the order in which their
    effects appear. *)

From S2P Require Import Prelude Types Endpoint Kernel Hoare Utils IpcCommon.
From S2P Require Import Send Receive Sendrec Notify Sproxy Unbind Rproxy Tables.
From S2P Require Import Queues QueueLogic IpcQueues ReceiveQueues.
From S2P Require Import SproxyQueues RproxyQueues.

(** ** Running a handler *)

Section Run.
Context (fuel : nat) (sig cur : Z).

Definition run_call (cl : call) : handler :=
  match cl with
  | C_SEND dst_ep m_ptr t => mm_mini_send fuel cur dst_ep m_ptr t
  | C_RECEIVE src_ep m_ptr t => mm_mini_receive cur src_ep m_ptr t
  | C_SENDREC ep m_ptr t => mm_mini_sendrec fuel cur ep m_ptr t
  | C_NOTIFY src_nr dst_ep u => mm_mini_notify fuel cur src_nr dst_ep u
  | C_RCVRQST m_ptr t => mm_mini_rcvrqst cur m_ptr t
  | C_REPLY dst_ep m_ptr t => mm_mini_reply fuel cur dst_ep m_ptr t
  | C_GET2RMT hdr pay t => mm_get2rmt fuel cur hdr pay t
  | C_PUT2LCL hdr pay => mm_put2lcl sig cur hdr pay
  end.

(** The part of a call after [check_caller], for a caller that was migrating. *)
Definition call_body (cl : call) (r : Z + ptr * Z) : handler :=
  match cl, r with
  | C_NOTIFY src_nr dst_ep u, _ => notify_called fuel cur src_nr dst_ep u r
  | _, inl ret => return_ ret
  | C_SEND dst_ep m_ptr t, inr (c, pid) => send_body fuel cur c pid dst_ep m_ptr t
  | C_RECEIVE src_ep m_ptr t, inr (c, pid) => receive_body cur c pid src_ep m_ptr t
  | C_SENDREC ep m_ptr t, inr (c, pid) => sendrec_body fuel cur c pid ep m_ptr t
  | C_RCVRQST m_ptr t, inr (c, pid) => rcvrqst_body cur c pid m_ptr t
  | C_REPLY dst_ep m_ptr t, inr (c, pid) => reply_body fuel cur c pid dst_ep m_ptr t
  | C_GET2RMT hdr pay t, inr (c, _) => get2rmt_body fuel cur c hdr pay t
  | C_PUT2LCL hdr pay, inr (c, _) => put2lcl_body sig cur c hdr pay
  end.

(** The end of a wait with the result [w]. *)
Definition resume (k : kont) (w : Z) : handler :=
  match k with
  | K_CALLER cl c pid d => r <- catch (check_caller_resume c pid d w) ;; call_body cl r
  | K_SEND_MIGR f => resume_send_migr fuel cur f w
  | K_SEND_REMOTE f => resume_send_remote fuel cur f w
  | K_SEND_LOCAL f => resume_send_local fuel cur f w
  | K_RECEIVE c t => resume_receive cur c t w
  | K_SENDREC_MIGR f => resume_sendrec_migr fuel cur f w
  | K_SENDREC_REMOTE f => resume_sendrec_remote fuel cur f w
  | K_SENDREC_REPLY f => resume_sendrec_reply f w
  | K_SENDREC_QUEUED f => resume_sendrec_queued fuel cur f w
  | K_NOTIFY_REMOTE f a b e => resume_notify_remote fuel f a b e w
  | K_RCVRQST c t => resume_rcvrqst c t w
  | K_REPLY_MIGR f => resume_reply_migr fuel cur f w
  | K_REPLY_REMOTE f => resume_reply_remote fuel cur f w
  | K_GET2RMT c hdr pay t => resume_get2rmt fuel cur c hdr pay t w
  end.
End Run.

Definition kont_timeout (k : kont) : Z :=
  match k with
  | K_CALLER _ _ _ _ | K_NOTIFY_REMOTE _ _ _ _ => TIMEOUT_FOREVER
  | K_RECEIVE _ t | K_RCVRQST _ t | K_GET2RMT _ _ _ t => t
  | K_SEND_MIGR f | K_SEND_REMOTE f | K_SEND_LOCAL f | K_SENDREC_MIGR f
  | K_SENDREC_REMOTE f | K_SENDREC_REPLY f | K_SENDREC_QUEUED f
  | K_REPLY_MIGR f | K_REPLY_REMOTE f => f_timeout f
  end.

(** ** Steps *)

Definition sys : Type := kstate * gmap Z kont.

(** The blocked tasks after the handler of [t] leaves with [x]. *)
Definition blocked_after (t : Z) (x : exit) (b : gmap Z kont) : gmap Z kont :=
  match x with
  | X_SLEEP k => <[t := k]> b
  | _ => delete t b
  end.

(** A header given to [mm_put2lcl] keeps the promises of the protocol, also
    when the receiver proxy had to wait for its own migration. *)
Definition call_ok (s : kstate) (cur : Z) (cl : call) : Prop :=
  match cl with
  | C_PUT2LCL uh _ => forall h, incoming s cur uh = Some h -> header_ok s h
  | _ => True
  end.

Definition kont_call_ok (s : kstate) (cur : Z) (k : kont) : Prop :=
  match k with K_CALLER cl _ _ _ => call_ok s cur cl | _ => True end.

(** [step_env]: other code (the rest of the kernel, user programs) changes
    anything but the process descriptors.  The handlers that bind, unbind, migrate and
    copy change descriptors and are no steps of this system; each of them has theorems
    of its own. *)
Inductive step : sys -> sys -> Prop :=
| step_call fuel sig t cl s b x s' :
    b !! t = None ->
    (forall t' k, b !! t' = Some k -> descr_of s t <> Some (kont_c k)) ->
    call_ok s t cl ->
    run_call fuel sig t cl s = Exit x s' -> is_fault x = false ->
    step (s, b) (s', blocked_after t x b)
| step_resume fuel sig t k w s b p x s' :
    b !! t = Some k -> kont_call_ok s t k ->
    k_procs s !! kont_c k = Some p -> wait_result (kont_timeout k) p w ->
    wake_waits (kont_timeout k) w p = false ->
    resume fuel sig t k w s = Exit x s' -> is_fault x = false ->
    step (s, b) (s', blocked_after t x b)
| step_env s b s' :
    k_procs s' = k_procs s -> step (s, b) (s', b).

(** Before any call: no queues and no blocked task. *)
Definition boot (S : sys) : Prop :=
  snd S = ∅ /\
  forall p x, k_procs (fst S) !! p = Some x ->
    p_list x = [] /\ p_link x = None /\ misc MIS_RMTBACKUP x = false.

Inductive reachable : sys -> Prop :=
| reach_boot S : boot S -> reachable S
| reach_step S S' : reachable S -> step S S' -> reachable S'.

(** ** The invariant of the system *)

Record sys_inv (S : sys) : Prop := {
  si_queues : qinv (fst S);
  si_blocked : forall t k, snd S !! t = Some k -> sleeps_ok (kont_c k) k (fst S);
  si_distinct : forall t t' k k', snd S !! t = Some k -> snd S !! t' = Some k' ->
     kont_c k = kont_c k' -> t = t';
}.

(** ** Handlers keep the queues *)

Section Bodies.
Context (c : ptr) (s0 : kstate) (Hl0 : fact c is_local s0).
Implicit Types (s : kstate) (f : frame).

Lemma q_ipc_prologue pid ep m t s :
  good c s0 s -> fact c unl s ->
  wp (ipc_prologue c pid ep m t) (fun f s' => good c s0 s' /\ fact c unl s' /\ f_c f = c /\
    exists d i, f_dst f = PROC d i) (qx c s0) s.
Proof.
  intros Hg Hu. unfold ipc_prologue, error_if, NBR2PTR. q_unfold. cbv zeta. q.
  split_and!; [done..|]. by eexists _, _.
Qed.

Lemma q_receive_prologue pid s :
  good c s0 s -> fact c unl s ->
  wp (receive_prologue c pid) (fun _ s' => good c s0 s' /\ fact c unl s') (qx c s0) s.
Proof. intros Hg Hu. unfold receive_prologue. q_unfold. cbv zeta. q. done. Qed.

Lemma q_check_source a d dc e s :
  good c s0 s -> fact c unl s ->
  wp (check_source c a d dc e) (fun _ s' => good c s0 s' /\ fact c unl s') (qx c s0) s.
Proof.
  intros Hg Hu. unfold check_source, error_if. q_unfold. cbv zeta. q.
  all: try (apply wp_last; q). all: done.
Qed.

Lemma q_send_body fuel cur pid ep m t s :
  good c s0 s -> fact c unl s ->
  wp (send_body fuel cur c pid ep m t) (fun _ _ => False) (qx c s0) s.
Proof.
  intros Hg Hu. unfold send_body. q_call q_ipc_prologue. intros f t0 (Ht & Hut & Ec & Hp).
  rewrite Ec. q_pure. q_wr. by apply q_send_replay.
Qed.

Lemma q_sendrec_body fuel cur pid ep m t s :
  good c s0 s -> fact c unl s ->
  wp (sendrec_body fuel cur c pid ep m t) (fun _ _ => False) (qx c s0) s.
Proof.
  intros Hg Hu. unfold sendrec_body. q_call q_ipc_prologue. intros f t0 (Ht & Hut & Ec & Hp).
  rewrite Ec. q_pure. q_wr. by apply q_sendrec_replay.
Qed.

Lemma q_reply_body fuel cur pid ep m t s :
  good c s0 s -> fact c unl s ->
  wp (reply_body fuel cur c pid ep m t) (fun _ _ => False) (qx c s0) s.
Proof.
  intros Hg Hu. unfold reply_body. q_call q_ipc_prologue. intros f t0 (Ht & Hut & Ec & Hp).
  rewrite Ec. q_pure. q_wr. by apply q_reply_replay.
Qed.

Lemma q_receive_body cur pid ep m t s :
  good c s0 s -> fact c unl s ->
  wp (receive_body cur c pid ep m t) (fun _ _ => False) (qx c s0) s.
Proof.
  intros Hg Hu. unfold receive_body. q_call q_receive_prologue.
  intros [[a d] dc] t0 (Ht & Hut). apply wp_when_bind. q_if.
  - q_call q_check_source. intros _ t1 (Ht1 & Hu1). q_pure. by apply q_receive_locked.
  - q_pure. by apply q_receive_locked.
Qed.

Lemma q_rcvrqst_body cur pid m t s :
  good c s0 s -> fact c unl s ->
  wp (rcvrqst_body cur c pid m t) (fun _ _ => False) (qx c s0) s.
Proof.
  intros Hg Hu. unfold rcvrqst_body. q_call q_receive_prologue. intros _ t0 (Ht & Hut).
  q_pure. by apply q_rcvrqst_locked.
Qed.

(** The body of a call, once the caller has been checked. *)
Lemma q_call_body fuel sig cur cl pid s :
  good c s0 s -> fact c unl s -> tables s = tables s0 -> call_ok s0 cur cl ->
  wp (call_body fuel sig cur cl (inr (c, pid))) (fun _ _ => False) (qx c s0) s.
Proof.
  intros Hg Hu Ht Hok. destruct cl; cbn [call_body].
  - by apply q_send_body.
  - by apply q_receive_body.
  - by apply q_sendrec_body.
  - unfold notify_called. q_if; [by apply q_hdw_notify|by apply q_notify_body].
  - by apply q_rcvrqst_body.
  - by apply q_reply_body.
  - by apply q_get2rmt_body.
  - by apply q_put2lcl_body.
Qed.
End Bodies.

Lemma good_refl c s : qinv s -> good c s s.
Proof. intros HI. split; [done|]. intros q x Hx. exists x. split_and!; auto. Qed.

Section Calls.
Context (c : ptr) (s : kstate) (cur : Z).
Context (HI : qinv s) (Hc : forall p, descr_of s cur = Some p -> p = c).

(** [check_caller] at the start of a call. *)
Lemma q_caller cl :
  wp (check_caller cur cl) (fun r s' => (good c s s' /\ fst r = c /\ fact c unl s' /\
    fact c is_local s) /\ tables s' = tables s) (qx c s) s.
Proof.
  apply wp_keeps_tables; [apply tab_check_caller|]. apply q_check_caller; [|done].
  by apply good_refl.
Qed.

Lemma q_called fuel sig cl (k : ptr * Z -> handler) :
  call_ok s cur cl -> (forall p pid, k (p, pid) = call_body fuel sig cur cl (inr (p, pid))) ->
  wp (cp <- check_caller cur cl ;; k cp) (fun _ _ => False) (qx c s) s.
Proof.
  intros Hok Hk. apply wp_bind. eapply wp_mono; [apply q_caller|cbv beta|done].
  intros [p pid] t ((Ht & Ep & Hu & Hl) & HT). simpl in Ep. subst p.
  rewrite Hk. by apply q_call_body.
Qed.

Lemma q_error_if {B} b r (k : unit -> M B) (Q : B -> kstate -> Prop) :
  wp (k tt) Q (qx c s) s -> wp (mbind (error_if b r) k) Q (qx c s) s.
Proof.
  intros H. apply wp_when_bind. destruct b; [|done]. apply (wp_return_bind c s).
  by apply good_refl.
Qed.

(** A notify goes on after an error of [check_caller] when it is one of the
    hardware. *)
Lemma q_notify fuel a b e :
  wp (mm_mini_notify fuel cur a b e) (fun _ _ => False) (qx c s) s.
Proof.
  unfold mm_mini_notify. apply wp_bind, wp_get, q_error_if, wp_bind, wp_catch.
  eapply wp_mono; [apply (q_caller (C_NOTIFY a b e))|cbv beta|].
  - intros [p pid] t ((Ht & Ep & Hu & Hl) & HT). simpl in Ep. subst p.
    by apply (q_call_body c s Hl fuel 0 cur (C_NOTIFY a b e)).
  - intros [r|k|hw|f] t Hx; [|done..]. unfold qx in Hx. destruct Hx as [Hg _]; [done|].
    unfold notify_called. q_if; [by apply q_hdw_notify|]. q.
Qed.

Lemma q_run_call fuel sig cl :
  call_ok s cur cl -> wp (run_call fuel sig cur cl) (fun _ _ => False) (qx c s) s.
Proof.
  intros Hok. destruct cl; cbn [run_call]; try apply q_notify.
  all: unfold mm_mini_send, mm_mini_receive, mm_mini_sendrec, mm_mini_rcvrqst, mm_mini_reply,
    mm_get2rmt, mm_put2lcl.
  all: try (apply wp_bind; unfold wp at 1, rd_task; destruct (k_tasks s !! cur); [|done];
    apply q_error_if).
  all: apply wp_bind, wp_get, q_error_if.
  all: lazymatch goal with |- wp (mbind (check_caller _ ?cl) ?k) _ _ _ =>
    apply (q_called fuel sig cl k Hok); intros p pid; reflexivity end.
Qed.
End Calls.

Lemma tab_check_caller_resume c pid d w : keeps_tables (check_caller_resume c pid d w).
Proof.
  unfold check_caller_resume, sleep_exit, ERROR_WUNLOCK_PROC, WLOCK_PROC, WUNLOCK_PROC, return_.
  tab.
Qed.

Section Resumes.
Context (c : ptr) (s : kstate) (cur : Z) (HI : qinv s).

Lemma q_check_caller_resume pid d w :
  wp (check_caller_resume c pid d w) (fun r s' => (good c s s' /\ r = (c, pid) /\
    fact c unl s' /\ fact c is_local s) /\ tables s' = tables s) (qx c s) s.
Proof.
  apply wp_keeps_tables; [apply tab_check_caller_resume|]. unfold check_caller_resume. q_unfold.
  apply wp_bind. eapply wp_mono;
    [apply (q_sleep_exit c s c _ _ _ s (fun _ => True) c); auto using good_refl with pure
    |cbv beta|done].
  { unfold WLOCK_PROC. auto with pure. }
  { by intros x _. }
  intros _ t [Ht _]. q_rd. apply wp_when_bind. q_if; [q|].
  eapply wp_mono; [by apply q_check_caller_tail|done|done].
Qed.

Lemma q_resume_caller fuel sig cl pid d w :
  call_ok s cur cl -> wp (resume fuel sig cur (K_CALLER cl c pid d) w) (fun _ _ => False) (qx c s) s.
Proof.
  intros Hok. cbn [resume]. apply wp_bind, wp_catch.
  eapply wp_mono; [apply q_check_caller_resume|cbv beta|].
  - intros r t ((Ht & -> & Hu & Hl) & HT). by apply q_call_body.
  - intros [r|k|hw|f] t Hx; [|done..]. unfold qx in Hx. destruct Hx as [Hg _]; [done|].
    destruct cl; cbn [call_body]; try (unfold notify_called; q_if; [by apply q_hdw_notify|]); q.
Qed.

(** The waits of the other handlers. *)
Lemma q_wake p m t w (P : Prop) :
  pure m -> (P -> fact c unl s) ->
  wp (sleep_exit p m t w) (fun _ s' => good c s s' /\ (P -> fact c unl s')) (qx c s) s.
Proof.
  intros Hm Hu. eapply wp_mono; [apply (q_sleep_exit c s p m t w s (fun x => P -> unl x) c)| |done].
  - done.
  - by apply good_refl.
  - intros x y Hk Hx HP. eapply keeps_unl; [exact Hk|auto].
  - intros x Hx HP. by apply (Hu HP).
  - cbv beta. intros _ t0 [Ht Hf]. split; [done|]. intros HP x Hx. by apply Hf.
Qed.

End Resumes.

Lemma q_resume c s cur fuel sig k w :
  qinv s -> sleeps_ok c k s -> kont_call_ok s cur k ->
  wp (resume fuel sig cur k w) (fun _ _ => False) (qx c s) s.
Proof.
  intros HI (Ec & Hp & Hu & Hl) Hok. destruct k; cbn [kont_c to_proc needs_unl is_caller] in *; subst c;
    [by apply q_resume_caller|..]; specialize (Hl eq_refl); cbn [resume].
  all: unfold resume_send_migr, resume_send_remote, resume_send_local, resume_receive,
    resume_sendrec_migr, resume_sendrec_remote, resume_sendrec_reply, resume_sendrec_queued,
    resume_notify_remote, resume_rcvrqst, resume_reply_migr, resume_reply_remote, resume_get2rmt.
  all: apply wp_bind; eapply wp_mono; [eapply q_wake; [exact HI|pure|exact Hu]|cbv beta|done];
    intros _ t [Ht Hut].
  - apply wp_bind. eapply wp_mono; [apply q_check_dst; try done; by apply Hut|cbv beta|done].
    intros r t1 (Ht1 & Hu1 & He). apply q_send_dispatch; try done; [|by apply q_send_replay].
    intros E. by apply He.
  - apply q_send_remote_after; try done. by apply q_send_replay.
  - apply q_send_local_after; try done. by apply q_send_replay.
  - by apply q_receive_after.
  - apply wp_bind. eapply wp_mono; [apply q_check_dst; try done; by apply Hut|cbv beta|done].
    intros r t1 (Ht1 & Hu1 & He). apply q_sendrec_dispatch; try done; [|by apply q_sendrec_replay].
    intros E. by apply He.
  - apply q_sendrec_remote_after; try done. by apply q_sendrec_replay.
  - apply q_sendrec_reply_after; auto.
  - apply q_sendrec_queued_after; try done. by apply q_sendrec_replay.
  - apply q_notify_remote_after; try done. by apply q_notify_replay.
  - by apply q_rcvrqst_after.
  - apply wp_bind. eapply wp_mono; [apply q_check_dst; try done; by apply Hut|cbv beta|done].
    intros r t1 (Ht1 & Hu1 & He). apply q_reply_dispatch; try done. by apply q_reply_replay.
  - apply q_send_remote_after; try done. by apply q_reply_replay.
  - apply wp_bind. eapply wp_mono; [apply q_get2rmt_slept; try done; by apply Hut|cbv beta|done].
    intros _ t1 (Ht1 & Hu1). by apply q_get2rmt_loop.
Qed.

(** ** The invariant holds in every reachable state *)

(** The sleep of another task is not disturbed by the handler of [c]. *)
Lemma sleeps_ok_frame c p k s s' :
  good c s s' -> sleeps_ok p k s -> p <> c -> sleeps_ok p k s'.
Proof.
  intros [_ HF] (Ec & Hp & Hu & Hl) Hne. split_and!; [done..| |].
  - intros Hn x Hx. destruct (HF _ _ Hx) as (y & Hy & _ & Hk & _).
    apply Hk; [done| |by apply Hu].
    apply (Hl ltac:(by destruct k)), Hy.
  - intros Hn x Hx. destruct (HF _ _ Hx) as (y & Hy & Hr & _). specialize (Hl Hn _ Hy).
    unfold is_local, IT_IS_LOCAL, IT_IS_REMOTE in *. congruence.
Qed.

Lemma sys_inv_after c t x s b s' :
  sys_inv (s, b) -> good c s s' -> (forall k, x = X_SLEEP k -> sleeps_ok c k s') ->
  (forall t' k, t' <> t -> b !! t' = Some k -> kont_c k <> c) ->
  sys_inv (s', blocked_after t x b).
Proof.
  intros [HI HB HD] Hg Hs Ho.
  assert (HL : forall t' k, blocked_after t x b !! t' = Some k ->
    (t' = t /\ x = X_SLEEP k) \/ (t' <> t /\ b !! t' = Some k)).
  { intros t' k. destruct x; cbn; rewrite ?lookup_insert_Some, ?lookup_delete_Some; intros H;
      destruct_and?; [right; auto| |right; auto..].
    destruct H as [[<- <-]|[]]; auto. }
  split; cbn.
  - apply Hg.
  - intros t' k [[-> ->]|[Hne Hb]]%HL.
    + specialize (Hs _ eq_refl). by rewrite (proj1 Hs) at 1.
    + eapply sleeps_ok_frame; [exact Hg|by apply (HB t')|by eapply Ho].
  - intros t1 t2 k k' [[-> ->]|[Hne Hb]]%HL [[-> E]|[Hne' Hb']]%HL Hkk; [done|..].
    + destruct (Ho _ _ Hne' Hb'). rewrite <- Hkk. apply Hs, eq_refl.
    + subst x. destruct (Ho _ _ Hne Hb). rewrite Hkk. apply Hs, eq_refl.
    + by eapply HD.
Qed.

Lemma wp_exit {A} (m : M A) (Q : A -> kstate -> Prop) R s x s' :
  wp m Q R s -> m s = Exit x s' -> R x s'.
Proof. unfold wp. intros H E. by rewrite E in H. Qed.

Lemma frame_ok_both s s' :
  good (SPROXY 0) s s' -> good (SPROXY 1) s s' -> forall c, good c s s'.
Proof.
  intros [HI H0] [_ H1] c. split; [done|]. intros q x' Hx.
  destruct (H0 _ _ Hx) as (x & Hx0 & Hr & Hk0 & He).
  destruct (H1 _ _ Hx) as (x1 & Hx1 & _ & Hk1 & _). replace x1 with x in * by congruence.
  exists x. split_and!; try done. intros _ Hl Hn.
  destruct (decide (q = SPROXY 0)) as [->|Hq]; [by apply Hk1|by apply Hk0].
Qed.

Lemma unused_ptr (b : gmap Z kont) : exists c, forall t k, b !! t = Some k -> kont_c k <> c.
Proof.
  set (L := omap (fun p : Z * kont => match kont_c p.2 with SPROXY n => Some n | _ => None end)
              (map_to_list b)).
  exists (SPROXY (fresh L)). intros t k Hb E. apply (infinite_is_fresh L), list_elem_of_omap.
  exists (t, k). split; [by apply elem_of_map_to_list|]. simpl. by rewrite E.
Qed.

(** A task without a descriptor does not sleep, and the frame of its handler
    has no exception. *)
Lemma sys_inv_call fuel sig t cl s b x s' :
  sys_inv (s, b) -> (forall t' k, b !! t' = Some k -> descr_of s t <> Some (kont_c k)) ->
  call_ok s t cl -> run_call fuel sig t cl s = Exit x s' -> is_fault x = false ->
  sys_inv (s', blocked_after t x b).
Proof.
  intros HS Hd Hok Hrun Hx. pose proof (si_queues _ HS) as HI. simpl in HI.
  assert (HR : forall c, (forall p, descr_of s t = Some p -> p = c) ->
    good c s s' /\ (forall k, x = X_SLEEP k -> sleeps_ok c k s')).
  { intros c Hc. pose proof (wp_exit _ _ _ _ _ _ (q_run_call c s t HI Hc fuel sig cl Hok) Hrun)
      as HQ. by apply HQ. }
  destruct (descr_of s t) as [c|] eqn:Ed.
  - destruct (HR c) as [Hg Hs]; [by intros p [= ->]|].
    eapply sys_inv_after; [done..|]. intros t' k _ Hb Ec. apply (Hd _ _ Hb). by rewrite Ec.
  - destruct (HR (SPROXY 0)) as [Hg0 Hs0]; [done|]. destruct (HR (SPROXY 1)) as [Hg1 Hs1]; [done|].
    assert (Hns : forall k, x <> X_SLEEP k).
    { intros k E. pose proof (proj1 (Hs0 _ E)). pose proof (proj1 (Hs1 _ E)). congruence. }
    destruct (unused_ptr b) as [c Hc].
    eapply (sys_inv_after c); [done|by apply frame_ok_both|by intros k ?%Hns|]. eauto.
Qed.

Lemma sys_inv_resume fuel sig t k w s b x s' :
  sys_inv (s, b) -> b !! t = Some k -> kont_call_ok s t k ->
  resume fuel sig t k w s = Exit x s' -> is_fault x = false ->
  sys_inv (s', blocked_after t x b).
Proof.
  intros HS Hb Hok Hrun Hx. pose proof (si_blocked _ HS _ _ Hb) as Hk. simpl in Hk.
  pose proof (wp_exit _ _ _ _ _ _ (q_resume _ s t fuel sig k w (si_queues _ HS) Hk Hok) Hrun)
    as HQ. destruct HQ as [Hg Hs]; [done|].
  eapply sys_inv_after; [done..|]. intros t' k' Hne Hb' E. apply Hne.
  by eapply (si_distinct _ HS).
Qed.

Lemma sys_inv_step S S' : sys_inv S -> step S S' -> sys_inv S'.
Proof.
  intros HS Hstep. destruct Hstep as [fuel sig t cl s b x s' Hb Hd Hok Hrun Hx
    |fuel sig t k w s b p x s' Hb Hok Hp Hw Hl Hrun Hx|s b s' E].
  - by eapply sys_inv_call.
  - by eapply sys_inv_resume.
  - destruct HS as [HI HB HD]. split; simpl in *; [|intros t k Hb|done].
    + unfold qinv. by rewrite E.
    + destruct (HB _ _ Hb) as (? & ? & Hu & Hl).
      split_and!; [done..|intros Hn|intros Hn]; eapply fact_eq; eauto.
Qed.

Lemma sys_inv_boot S : boot S -> sys_inv S.
Proof.
  destruct S as [s b]. intros [Eb HP]. simpl in *. subst b. split; simpl.
  - split.
    + intros h ph x Hh Hx. destruct (HP _ _ Hh) as (El & _). rewrite El in Hx. set_solver.
    + intros x px h Hx Hl. destruct (HP _ _ Hx) as (_ & Ek & _). congruence.
    + intros h ph Hh. destruct (HP _ _ Hh) as (El & _). rewrite El. constructor.
    + intros x px h Hx Hl. destruct (HP _ _ Hx) as (_ & Ek & _). congruence.
    + intros x px Hx. by destruct (HP _ _ Hx) as (_ & _ & ?).
  - intros t k Hb. by rewrite lookup_empty in Hb.
  - intros t t' k k' Hb. by rewrite lookup_empty in Hb.
Qed.

Lemma sys_inv_reachable S : reachable S -> sys_inv S.
Proof. induction 1; [by apply sys_inv_boot|by eapply sys_inv_step]. Qed.

(** ** Theorems *)

(** C1. The queues of senders are well formed in every state that the IPC calls and
    those of the proxies lead to ([mm_mini_send], [mm_mini_receive], [mm_mini_sendrec],
    [mm_mini_notify], [mm_mini_rcvrqst], [mm_mini_reply], [mm_get2rmt] and, with headers
    that keep the promises of the protocol ([call_ok]), [mm_put2lcl]), with waits that
    end (woken, timed out or interrupted) and changes of anything but the descriptors,
    in any order and whatever errors they return.  Binding, unbinding, exits,
    migrations and copies are no steps, and a handler that faults does not go on.  Every
    member of a queue points back to its head and every
    descriptor that points to a head is in its queue, exactly once; it is
    sending to the endpoint of the head, or carries a command for the sender
    proxy it is queued on. *)
Theorem queues_well_formed S : reachable S -> queue_inv (k_procs (fst S)).
Proof. intros HR. apply (si_queues _ (sys_inv_reachable _ HR)). Qed.

(** A receiver never meets a stray sender: for every process in the queue
    of a receiver, the checks of [mm_mini_receive] with source [ANY] succeed,
    unless the slot of the sender has been freed. *)
Theorem queued_senders_pass S d i y x p :
  reachable S -> k_procs (fst S) !! PROC d i = Some y -> x ∈ p_list y ->
  k_procs (fst S) !! x = Some p ->
  sender_status ANY (p_endpoint y) p = OK \/
  (rts BIT_SLOT_FREE p = true /\ sender_status ANY (p_endpoint y) p = EMOLSRCDIED).
Proof.
  intros HR Hy Hx Hp. pose proof (si_queues _ (sys_inv_reachable _ HR)) as HI.
  destruct (qi_list _ HI _ _ _ Hy Hx) as (px & Hpx & Hl). simplify_eq.
  destruct (qi_queued _ HI _ _ _ Hp Hl) as [Hs (ph & Hph & He)]. simplify_eq.
  unfold sender_status. rewrite Hs, He, !Z.eqb_refl. cbn.
  destruct (rts BIT_SLOT_FREE p); auto.
Qed.
