(* ===== verification/Exec.v ===== *)
(** * Running a handler on a symbolic state

    Equations for the primitives on a state in normal form [st s P U H]: the
    state [s] with the descriptors [P], the message buffers [U] and the locks
    [H] held.  The functional theorems run handlers with them. *)

From S2P Require Import Prelude Types Endpoint Kernel Utils IpcCommon.

Definition st (s : kstate) (P : gmap ptr proc) (U : gmap (Z * Z) message) (H : list lock)
    : kstate :=
  s <| k_procs := P |> <| k_umem := U |> <| k_held := H |>.

Lemma st_id s : s = st s (k_procs s) (k_umem s) (k_held s).
Proof. by destruct s. Qed.

Lemma st_procs s P U H : k_procs (st s P U H) = P.
Proof. done. Qed.
Lemma st_umem s P U H : k_umem (st s P U H) = U.
Proof. done. Qed.
Lemma st_clock s P U H : k_clock (st s P U H) = k_clock s.
Proof. done. Qed.
Lemma st_nr_dcs s P U H : k_nr_dcs (st s P U H) = k_nr_dcs s.
Proof. done. Qed.
Lemma st_nr_nodes s P U H : k_nr_nodes (st s P U H) = k_nr_nodes s.
Proof. done. Qed.
Lemma st_init s P U H : DVS_NOT_INIT (st s P U H) = DVS_NOT_INIT s.
Proof. done. Qed.

Lemma del_here `{EqDecision A} (x : A) l : del x (x :: l) = del x l.
Proof. unfold del. rewrite filter_cons_False; [done|]. tauto. Qed.
Lemma del_there `{EqDecision A} (x y : A) l : y <> x -> del x (y :: l) = y :: del x l.
Proof. intros. unfold del. by rewrite filter_cons_True. Qed.
Lemma del_nil `{EqDecision A} (x : A) : del x [] = [].
Proof. done. Qed.

Lemma del_app `{EqDecision A} (x : A) l1 l2 : del x (l1 ++ l2) = del x l1 ++ del x l2.
Proof.
  induction l1 as [|y l1 IH]; [done|]. cbn [app]. destruct (decide (y = x)) as [->|Hy].
  - by rewrite !del_here.
  - rewrite !del_there by done. cbn [app]. by rewrite IH.
Qed.

Section Equations.
Context (s : kstate) (P : gmap ptr proc) (U : gmap (Z * Z) message) (H : list lock).

Lemma ex_bind {A B} (m : M A) (k : A -> M B) (a : A) s1 s2 :
  m s1 = Val a s2 -> mbind m k s1 = k a s2.
Proof. intros E. unfold mbind. by rewrite E. Qed.

Lemma ex_rd p x : P !! p = Some x -> rd p (st s P U H) = Val x (st s P U H).
Proof. intros E. unfold rd. simpl. by rewrite E. Qed.

Lemma ex_wr p f x : P !! p = Some x -> wr p f (st s P U H) = Val tt (st s (<[p := f x]> P) U H).
Proof. intros E. unfold wr, mbind. by rewrite (ex_rd _ _ E). Qed.

Lemma ex_rd_dc d dc : k_dcs s !! d = Some dc -> rd_dc d (st s P U H) = Val dc (st s P U H).
Proof. intros E. unfold rd_dc. simpl. by rewrite E. Qed.

Lemma ex_rd_task t x : k_tasks s !! t = Some x -> rd_task t (st s P U H) = Val x (st s P U H).
Proof. intros E. unfold rd_task. simpl. by rewrite E. Qed.

Lemma ex_rd_node n nd : k_nodes s !! n = Some nd -> rd_node n (st s P U H) = Val nd (st s P U H).
Proof. intros E. unfold rd_node. simpl. by rewrite E. Qed.

Lemma ex_wr_node n f nd : k_nodes s !! n = Some nd ->
  wr_node n f (st s P U H) = Val tt (st (s <| k_nodes ::= <[n := f nd]> |>) P U H).
Proof. intros E. unfold wr_node, mbind. by rewrite (ex_rd_node _ _ E). Qed.

Lemma ex_modify_uhdr f :
  modify (fun s => s <| k_uhdr ::= f |>) (st s P U H) = Val tt (st (s <| k_uhdr ::= f |>) P U H).
Proof. done. Qed.

Lemma ex_get : get (st s P U H) = Val (st s P U H) (st s P U H).
Proof. done. Qed.

Lemma ex_ret {A} (a : A) : mret a (st s P U H) = Val a (st s P U H).
Proof. done. Qed.

Lemma ex_lock l : l ∉ H -> lock_ l (st s P U H) = Val tt (st s P U (l :: H)).
Proof. intros E. unfold lock_. simpl. by rewrite bool_decide_false. Qed.

Lemma ex_unlock l H' : l ∈ H -> del l H = H' -> unlock_ l (st s P U H) = Val tt (st s P U H').
Proof. intros E <-. unfold unlock_. simpl. by rewrite bool_decide_true. Qed.

Lemma ex_mm_of p x t tk :
  P !! p = Some x -> p_task x = Some t -> k_tasks s !! t = Some tk -> mm_of p (st s P U H) = Val (t_mm tk) (st s P U H).
Proof.
  intros E1 E2 E3. unfold mm_of, mbind. rewrite (ex_rd _ _ E1), E2. by rewrite (ex_rd_task _ _ E3).
Qed.

(** A message from the buffer of [p] to that of [q]. *)
Lemma ex_copy_msg src p x tx tkx a q y ty tky b m m0 :
  P !! p = Some x -> p_task x = Some tx -> k_tasks s !! tx = Some tkx ->
  P !! q = Some y -> p_task y = Some ty -> k_tasks s !! ty = Some tky ->
  U !! (t_mm tkx, a) = Some m -> U !! (t_mm tky, b) = Some m0 -> src <> NONE ->
  copy_usr2usr_msg src p a q b (st s P U H) =
    Val OK (st s P (<[(t_mm tky, b) := m <| m_source := src |>]> U) H).
Proof.
  intros Hp Hx Hkx Hq Hy Hky Hm Hm0 Hs. unfold copy_usr2usr_msg.
  rewrite (ex_bind _ _ _ _ _ (ex_mm_of _ _ _ _ Hp Hx Hkx)). unfold mbind at 1. simpl. rewrite Hm.
  rewrite (ex_bind _ _ _ _ _ (ex_mm_of _ _ _ _ Hq Hy Hky)). rewrite Hm0.
  apply Z.eqb_neq in Hs. by rewrite Hs.
Qed.
End Equations.

(** Goals of the form [P !! p = Some ?x], [l ∉ H] and [del l H = ?H']. *)
Ltac x_look :=
  solve [ repeat first [ eassumption | apply lookup_insert_eq
                       | rewrite lookup_insert_ne by congruence ] ].
Ltac x_notin :=
  solve [ repeat first [ apply not_elem_of_nil | apply not_elem_of_cons; split; [congruence|] ] ].
Ltac x_in := solve [ repeat first [ apply list_elem_of_here | apply list_elem_of_further ] ].
Ltac x_del :=
  solve [ repeat first [ rewrite del_here | rewrite del_there by congruence | rewrite del_nil ];
          reflexivity ].

Ltac x_prim :=
  lazymatch goal with
  | |- rd _ _ = _ => apply ex_rd; x_look
  | |- wr _ _ _ = _ => apply ex_wr; x_look
  | |- rd_dc _ _ = _ => apply ex_rd_dc; eassumption
  | |- rd_task _ _ = _ => apply ex_rd_task; eassumption
  | |- rd_node _ _ = _ => apply ex_rd_node; eassumption
  | |- wr_node _ _ _ = _ => apply ex_wr_node; eassumption
  | |- get _ = _ => apply ex_get
  | |- mret _ _ = _ => apply ex_ret
  | |- lock_ _ _ = _ => apply ex_lock; x_notin
  | |- unlock_ _ _ = _ => eapply ex_unlock; [x_in | x_del]
  end.

Lemma bind_assoc {A B C} (m : M A) (k : A -> M B) (l : B -> M C) s :
  mbind (mbind m k) l s = mbind m (fun a => mbind (k a) l) s.
Proof. unfold mbind. by destruct (m s). Qed.

Lemma when_false {A} m (k : unit -> M A) s : mbind (when false m) k s = k tt s.
Proof. done. Qed.

Lemma when_true {A} m (k : unit -> M A) s : mbind (when true m) k s = mbind m k s.
Proof. done. Qed.

Lemma when_last b m s : when b m s = mbind (when b m) mret s.
Proof. unfold mbind. destruct (when b m s) as [[]|]; done. Qed.

Lemma wr_last p f s : wr p f s = mbind (wr p f) mret s.
Proof. unfold mbind. destruct (wr p f s) as [[]|]; done. Qed.

(** One step of a handler. *)
Ltac x_unfold :=
  unfold WLOCK_PROC, WUNLOCK_PROC, RLOCK_PROC, RUNLOCK_PROC, RLOCK_DC, RUNLOCK_DC, WLOCK_DC,
    WUNLOCK_DC, error_if.

Ltac x_red :=
  cbv beta iota zeta; rewrite ?st_nr_dcs, ?st_nr_nodes, ?st_init, ?Z.eqb_refl; cbn [negb andb orb].

Ltac x_step :=
  x_red;
  lazymatch goal with
  | |- mbind (mbind _ _) _ _ = _ => rewrite bind_assoc
  | |- mbind (when false _) _ _ = _ => rewrite when_false
  | |- mbind (when true _) _ _ = _ => rewrite when_true
  | |- mbind (error_if _ _) _ _ = _ => unfold error_if at 1
  | |- mbind _ _ _ = _ => eapply eq_trans; [eapply ex_bind; x_prim |]
  | |- mret _ _ = _ => apply ex_ret
  end; x_red.

Ltac x := repeat x_step.

(** The end of a handler: the same descriptors, buffers and locks. *)
Ltac x_keys i :=
  repeat match goal with
  | |- context [<[?k := _]> _] =>
      lazymatch goal with
      | _ : i = k |- _ => fail
      | _ : i <> k |- _ => fail
      | _ => destruct (decide (i = k)); try (exfalso; congruence)
      end
  end.

(** Two ways to write the same updates of a descriptor. *)
Ltac x_desc_eq :=
  match goal with
  | |- ?a = ?b => constr_eq a b; reflexivity
  | |- Some _ = Some _ =>
      refine (@f_equal _ _ Some _ _ _); clear;
      repeat match goal with z : proc |- context [?v] => constr_eq z v; destruct z end;
      cbv -[set_bit clear_bit test_bit ulong_inc Z.add del app ENDPOINT2PTR
            set_sys_bit unset_sys_bit];
      reflexivity
  end.

Ltac x_map_eq :=
  apply map_eq; let i := fresh "i" in intros i; x_keys i; subst;
  repeat first [ rewrite lookup_insert_eq | rewrite lookup_insert_ne by congruence ];
  first [ x_desc_eq | congruence ].

Lemma st_exit {A} e s P P' U U' H H' :
  P = P' -> U = U' -> H = H' -> @Exit A e (st s P U H) = Exit e (st s P' U' H').
Proof. by intros -> -> ->. Qed.

Lemma st_val {A} (a : A) s P P' U U' H H' :
  P = P' -> U = U' -> H = H' -> Val a (st s P U H) = Val a (st s P' U' H').
Proof. by intros -> -> ->. Qed.

Ltac x_val := apply st_val; [x_map_eq|done|done].

Ltac x_exit := unfold return_; apply st_exit; [x_map_eq|done|done].

Lemma ex_leave {A B} e (k : A -> M B) s : mbind (leave e) k s = Exit e s.
Proof. done. Qed.

Ltac x_leave := rewrite ex_leave; apply st_exit; [x_map_eq|done|done].

(** ** A caller in order *)

Lemma in_table i n : 0 <= i < n -> (i <? 0) || (i >=? n) = false.
Proof. intros []. apply orb_false_iff. rewrite Z.geb_leb, Z.ltb_ge, Z.leb_gt. lia. Qed.

(** The task [cur] is bound to the descriptor [x] at [c], which runs in a DC
    that runs. *)
Record calls_as (s : kstate) (cur : Z) (c : ptr) (x : proc) (tk : task_t) (dc : dc_t) : Prop := {
  ca_init : DVS_NOT_INIT s = false;
  ca_held : k_held s = [];
  ca_task : k_tasks s !! cur = Some tk;
  ca_bound : task_proc tk = Some c;
  ca_desc : k_procs s !! c = Some x;
  ca_ptask : p_task x = Some cur;
  ca_pid : p_lpid x = cur;
  ca_flags : p_rts_flags x = 0;
  ca_migr : misc MIS_BIT_NEEDMIGR x = false;
  ca_dcid : 0 <= p_dcid x < k_nr_dcs s;
  ca_dc : k_dcs s !! p_dcid x = Some dc;
  ca_run : dc_flags dc = 0;
}.

Arguments ca_init {s cur c x tk dc} _.
Arguments ca_held {s cur c x tk dc} _.
Arguments ca_task {s cur c x tk dc} _.
Arguments ca_bound {s cur c x tk dc} _.
Arguments ca_desc {s cur c x tk dc} _.
Arguments ca_ptask {s cur c x tk dc} _.
Arguments ca_pid {s cur c x tk dc} _.
Arguments ca_flags {s cur c x tk dc} _.
Arguments ca_migr {s cur c x tk dc} _.
Arguments ca_dcid {s cur c x tk dc} _.
Arguments ca_dc {s cur c x tk dc} _.
Arguments ca_run {s cur c x tk dc} _.

Section Caller.
Context (s : kstate) (cur : Z) (c : ptr) (x : proc) (tk : task_t) (dc : dc_t).
Context (HC : calls_as s cur c x tk dc).

Lemma ca_st : s = st s (k_procs s) (k_umem s) [].
Proof. rewrite (st_id s) at 1. by rewrite (ca_held HC). Qed.

Lemma ca_range : (p_dcid x <? 0) || (p_dcid x >=? k_nr_dcs s) = false.
Proof. apply in_table, (ca_dcid HC). Qed.

Lemma ex_check_caller cl : check_caller cur cl s = Val (c, cur) s.
Proof.
  pose proof ca_range as Hr. destruct HC. rewrite ca_st. unfold check_caller, caller_binding.
  rewrite bind_assoc. x_unfold. x_step. rewrite ca_bound0.
  replace (if bool_decide (t_leader tk = Some cur) then mret (c, cur) else mret (c, cur))
    with (mret (c, cur)) by (by case_bool_decide).
  x. unfold need_migr. rewrite ca_migr0, insert_id by done.
  assert (Hf : forall b, rts b x = false).
  { intros b. unfold rts. rewrite ca_flags0. apply test_bit_0. }
  rewrite Hf. unfold check_caller_tail. x_unfold. x.
  rewrite ca_flags0, andb_false_r. x.
  destruct (misc MIS_BIT_PROXY x); [by x|]. x. rewrite Hr. x. rewrite ca_run0. by x.
Qed.

(** The destination number [ENDPOINT_P ep] is one of the DC. *)
Definition dst_in_range (ep : Z) : Prop :=
  - dc_nr_tasks dc <= ENDPOINT_P ep < dc_nr_procs dc.

Lemma dst_range ep : dst_in_range ep ->
  (ENDPOINT_P ep <? - dc_nr_tasks dc) || (ENDPOINT_P ep >=? dc_nr_procs dc) = false.
Proof.
  intros [H1 H2]. apply orb_false_iff. split; [by apply Z.ltb_ge|].
  rewrite Z.geb_leb. by apply Z.leb_gt.
Qed.

(** The local variables of a call to [ep]. *)
Definition frame_to (ep m_ptr timeout : Z) : frame :=
  mk_frame c (ENDPOINT2PTR (p_dcid x) dc ep) (p_dcid x) (p_endpoint x) ep m_ptr timeout.

Lemma ex_ipc_prologue ep m_ptr timeout :
  dst_in_range ep -> ep <> p_endpoint x ->
  ipc_prologue c cur ep m_ptr timeout s = Val (frame_to ep m_ptr timeout) s.
Proof.
  intros HR Hne. pose proof ca_range as Hr. pose proof (dst_range ep HR) as Hd.
  destruct HC. rewrite ca_st. unfold ipc_prologue, ERROR_RUNLOCK_PROC, ERROR_RUNLOCK_DC.
  x_unfold. x. rewrite ca_pid0, Z.eqb_refl. x. rewrite Hr. x. rewrite ca_run0. x.
  rewrite Hd. x. assert ((p_endpoint x =? ep) = false) as -> by (apply Z.eqb_neq; congruence).
  by x.
Qed.
End Caller.
Arguments ca_st {s cur c x tk dc} _.
Arguments ex_check_caller {s cur c x tk dc} _ cl.
Arguments ex_ipc_prologue {s cur c x tk dc} _ ep m_ptr timeout _ _.

(** ** A destination in order *)

(** [y], at [dst], is the process [ep] of the caller's DC: it is bound, on this
    node or on another one, is not migrating, and is not the caller. *)
Record some_dst (remote : bool) (s : kstate) (c : ptr) (x : proc) (dc : dc_t) (ep : Z) (dst : ptr)
    (y : proc) : Prop := {
  ld_ptr : dst = ENDPOINT2PTR (p_dcid x) dc ep;
  ld_range : dst_in_range dc ep;
  ld_desc : k_procs s !! dst = Some y;
  ld_ep : p_endpoint y = ep;
  ld_other : dst <> c;
  ld_ep_other : ep <> p_endpoint x;
  ld_bound : rts BIT_SLOT_FREE y = false;
  ld_settled : rts BIT_MIGRATE y = false;
  ld_local : IT_IS_REMOTE y = remote;
  ld_node : 0 <= p_nodeid y < k_nr_nodes s;
  ld_member : test_bit (p_nodeid y) (dc_nodes dc) = true;
}.

Arguments ld_ptr {remote s c x dc ep dst y} _.
Arguments ld_range {remote s c x dc ep dst y} _.
Arguments ld_desc {remote s c x dc ep dst y} _.
Arguments ld_ep {remote s c x dc ep dst y} _.
Arguments ld_other {remote s c x dc ep dst y} _.
Arguments ld_ep_other {remote s c x dc ep dst y} _.
Arguments ld_bound {remote s c x dc ep dst y} _.
Arguments ld_settled {remote s c x dc ep dst y} _.
Arguments ld_local {remote s c x dc ep dst y} _.
Arguments ld_node {remote s c x dc ep dst y} _.
Arguments ld_member {remote s c x dc ep dst y} _.

Abbreviation local_dst := (some_dst false).
Abbreviation remote_dst := (some_dst true).

(** The order of the two locks depends on the process numbers. *)
Definition both_locks (a b : proc) (p q : ptr) : list lock :=
  if p_nr a <? p_nr b then [L_PROC q; L_PROC p] else [L_PROC p; L_PROC q].

Lemma ex_ordered2 s P U p q a b :
  P !! p = Some a -> P !! q = Some b -> p <> q ->
  WLOCK_ORDERED2 p q (st s P U [L_PROC p]) = Val tt (st s P U (both_locks a b p q)).
Proof.
  intros Hp Hq Hne. unfold WLOCK_ORDERED2, both_locks. x_unfold. x.
  destruct (p_nr a <? p_nr b); [apply ex_lock; x_notin|]. x. apply ex_lock; x_notin.
Qed.

Lemma ex_proc2_more s P U H p q a b :
  P !! p = Some a -> P !! q = Some b -> p <> q -> L_PROC p ∉ H -> L_PROC q ∉ H ->
  WLOCK_PROC2 p q (st s P U H) = Val tt (st s P U (both_locks a b p q ++ H)).
Proof.
  intros Hp Hq Hne H1 H2. unfold WLOCK_PROC2, both_locks. x_unfold. x.
  destruct (p_nr a <? p_nr b).
  all: eapply eq_trans; [eapply ex_bind, ex_lock; done|]; apply ex_lock, not_elem_of_cons; split;
    [congruence|done].
Qed.

Lemma ex_proc2 s P U p q a b :
  P !! p = Some a -> P !! q = Some b -> p <> q ->
  WLOCK_PROC2 p q (st s P U []) = Val tt (st s P U (both_locks a b p q)).
Proof.
  intros Hp Hq Hne. rewrite (ex_proc2_more _ _ _ [] _ _ _ _ Hp Hq Hne) by x_notin. by rewrite app_nil_r.
Qed.

Section Dst.
Context (s : kstate) (cur : Z) (c : ptr) (x : proc) (tk : task_t) (dc : dc_t).
Context (ep : Z) (dst : ptr) (y : proc) (remote : bool).
Context (HC : calls_as s cur c x tk dc) (HD : some_dst remote s c x dc ep dst y).

Lemma ex_check_dst fuel died k m_ptr timeout P U H :
  P !! dst = Some y -> L_DC (p_dcid x) ∉ H ->
  check_dst (S fuel) (frame_to c x dc ep m_ptr timeout) died k (st s P U H)
    = Val OK (st s P U H).
Proof.
  intros HP HH. destruct HD, HC. cbn [check_dst frame_to f_dst f_dst_ep f_dcid].
  rewrite <- ld_ptr0. x. rewrite ld_ep0. x. rewrite ld_bound0, ld_settled0.
  unfold check_dst_node. x_unfold. x.
  rewrite (in_table _ _ ld_node0).
  eapply eq_trans; [eapply ex_bind, ex_lock, HH|]. x.
  by rewrite ld_member0, del_notin.
Qed.
End Dst.
Arguments ex_check_dst {s cur c x tk dc ep dst y remote} _ _.
