(* ===== verification/Rendezvous.v ===== *)
(** * The rendezvous

    What [mm_mini_send] and [mm_mini_receive] do for two processes of the same
    node: the message goes from the buffer of the sender to the buffer of the
    receiver, whoever comes first. *)

From S2P Require Import Prelude Types Endpoint Kernel Utils IpcCommon Send Receive QueueLogic Exec.

(** ** What a receiver and a sender become *)

Definition woken (rcode : Z) (x : proc) : proc :=
  if p_rts_flags x =? 0 then x <| p_rcode := rcode |> <| p_pseudosem ::= Z.add 1 |> else x.

(** A receiver that got its message. *)
Definition received (y : proc) : proc :=
  woken OK ((rts_clear BIT_RECEIVING y) <| p_getfrom := NONE |>).

(** A sender whose message was taken from the queue. *)
Definition sent (x : proc) : proc :=
  woken OK ((rts_clear BIT_SENDING x) <| p_sendto := NONE |>).

(** A caller whose send succeeded at once. *)
Definition sent_now (m_ptr : Z) (x : proc) : proc :=
  x <| p_umsg := m_ptr |> <| p_rcode := OK |> <| p_lclsent ::= ulong_inc |>.

(** A caller that sleeps in the queue of [dst]. *)
Definition queued_send (ep m_ptr : Z) (dst : ptr) (x : proc) : proc :=
  (rts_set BIT_SENDING (x <| p_umsg := m_ptr |> <| p_rcode := OK |>))
    <| p_sendto := ep |> <| p_link := Some dst |> <| p_pseudosem := -1 |>.

(** The buffers of a message: the sender's at [a] holds [m], the receiver's at
    [b] is mapped. *)
Record buffers (s : kstate) (tk tky : task_t) (a b : Z) (m : message) : Prop := {
  bf_src : k_umem s !! (t_mm tk, a) = Some m;
  bf_dst : exists m0, k_umem s !! (t_mm tky, b) = Some m0;
}.

Section Send.
Context (s : kstate) (cur : Z) (c : ptr) (x : proc) (tk : task_t) (dc : dc_t).
Context (ep : Z) (dst : ptr) (y : proc).
Context (HC : calls_as s cur c x tk dc).

(** Up to the choice between a local and a remote destination. *)
Lemma ex_send_dispatch remote fuel m_ptr timeout (HD : some_dst remote s c x dc ep dst y) :
  mm_mini_send (S (S fuel)) cur ep m_ptr timeout s =
  let f := frame_to c x dc ep m_ptr timeout in
  (if remote then send_remote cur f (send_replay (S fuel) cur f)
   else send_local f (send_replay (S fuel) cur f))
    (st s (<[c := x <| p_umsg := m_ptr |> <| p_rcode := OK |>]> (k_procs s)) (k_umem s)
       (both_locks x y c dst)).
Proof.
  pose proof (ld_ptr HD) as Hptr. pose proof (ld_desc HD) as Hy. pose proof (ld_other HD) as Hne.
  pose proof (ca_desc HC) as Hx.
  unfold mm_mini_send, send_body. unfold mbind at 1. cbn [get].
  unfold error_if. rewrite (ca_init HC), when_false.
  rewrite (ex_bind _ _ _ _ _ (ex_check_caller HC _)). cbn [fst snd].
  rewrite (ex_bind _ _ _ _ _ (ex_ipc_prologue HC _ _ _ (ld_range HD) (ld_ep_other HD))).
  rewrite (ca_st HC) at 1. cbn [frame_to f_c]. x_unfold. x.
  fold (frame_to c x dc ep m_ptr timeout). set (f := frame_to c x dc ep m_ptr timeout).
  set (R := send_replay (S fuel) cur f). change (send_replay (S (S fuel)) cur f) with
    (WLOCK_ORDERED2 c (ENDPOINT2PTR (p_dcid x) dc ep) ;;
     ret <- check_dst (S fuel) f EMOLDSTDIED (K_SEND_MIGR f) ;; send_dispatch cur f ret R).
  rewrite <- Hptr.
  eapply eq_trans; [eapply ex_bind, ex_ordered2; [x_look..|congruence]|]. cbv beta.
  eapply eq_trans; [eapply ex_bind, (ex_check_dst HC HD); [x_look|]|].
  { unfold both_locks. case_match; x_notin. }
  unfold send_dispatch. x. change (f_c f) with c. change (f_dst f) with (ENDPOINT2PTR (p_dcid x) dc ep).
  rewrite <- Hptr. x. rewrite insert_insert_eq, (ld_local HD). by destruct remote.
Qed.

Context (HD : local_dst s c x dc ep dst y) (fuel : nat) (m_ptr timeout : Z).

(** The destination waits: the message is delivered. *)
Lemma ex_send_waiting ty tky m :
  waits_for y (p_endpoint x) = true -> p_task y = Some ty -> k_tasks s !! ty = Some tky ->
  buffers s tk tky m_ptr (p_umsg y) m -> p_endpoint x <> NONE ->
  mm_mini_send (S (S fuel)) cur ep m_ptr timeout s =
  Exit (X_RET OK)
    (st s (<[c := sent_now m_ptr x]> (<[dst := received y]> (k_procs s)))
       (<[(t_mm tky, p_umsg y) := m <| m_source := p_endpoint x |>]> (k_umem s)) []).
Proof.
  intros Hw Hty Htk [Hm [m0 Hm0]] Hn. rewrite (ex_send_dispatch _ _ _ _ HD). cbv zeta.
  pose proof (ld_ptr HD) as Hptr. pose proof (ld_desc HD) as Hy. pose proof (ld_other HD) as Hne.
  pose proof (ca_desc HC) as Hx. set (f := frame_to c x dc ep m_ptr timeout).
  unfold send_local, deliver_waiting, end_receiving, lclsent_inc, finish, LOCAL_PROC_UP. x_unfold.
  change (f_c f) with c. change (f_dst f) with (ENDPOINT2PTR (p_dcid x) dc ep).
  change (f_caller_ep f) with (p_endpoint x). change (f_m_ptr f) with m_ptr.
  rewrite <- Hptr. x. rewrite Hw. x.
  eapply eq_trans; [eapply ex_bind, (ex_copy_msg _ _ _ _ _ c _ cur tk m_ptr dst _ ty tky);
    [x_look|apply (ca_ptask HC)|apply (ca_task HC)|x_look|done..]|].
  x. unfold received, woken, sent_now. destruct (_ =? 0); unfold both_locks; case_match; x; x_exit.
Qed.

(** The destination does not wait: the caller sleeps at the end of its queue. *)
Lemma ex_send_queued :
  waits_for y (p_endpoint x) = false -> timeout <> TIMEOUT_NOWAIT ->
  mm_mini_send (S (S fuel)) cur ep m_ptr timeout s =
  Exit (X_SLEEP (K_SEND_LOCAL (frame_to c x dc ep m_ptr timeout)))
    (st s (<[c := queued_send ep m_ptr dst x]>
             (<[dst := y <| p_list ::= fun l => l ++ [c] |>]> (k_procs s))) (k_umem s) []).
Proof.
  intros Hw Ht. rewrite (ex_send_dispatch _ _ _ _ HD). cbv zeta.
  pose proof (ld_ptr HD) as Hptr. pose proof (ld_desc HD) as Hy. pose proof (ld_other HD) as Hne.
  pose proof (ca_desc HC) as Hx. set (f := frame_to c x dc ep m_ptr timeout).
  unfold send_local, send_enqueue, sleep_proc2, sleep_enter, INIT_P_LINK, LIST_ADD_TAIL_P,
    WUNLOCK_PROC2. x_unfold.
  change (f_c f) with c. change (f_dst f) with (ENDPOINT2PTR (p_dcid x) dc ep).
  change (f_caller_ep f) with (p_endpoint x). change (f_m_ptr f) with m_ptr.
  change (f_dst_ep f) with ep. change (f_timeout f) with timeout.
  rewrite <- Hptr. x. rewrite Hw. x. apply Z.eqb_neq in Ht. rewrite Ht. x.
  unfold both_locks. case_match; x; x_leave.
Qed.
End Send.

(** ** Receiving *)

(** No notification is pending. *)
Definition no_notify (x : proc) : Prop := Forall (fun ch => ch = 0) (s_notify_pending x).

Lemma scan_notify_none dc l n ep :
  Forall (fun ch => ch = 0) l -> scan_notify dc l n ep = (ep, None).
Proof. intros Hl. revert n. induction Hl as [|ch l -> _ IH]; intros n; [done|]. apply IH. Qed.

(** The source a receiver asks for: anybody, or a process bound on this node. *)
Definition source_ok (s : kstate) (c : ptr) (x : proc) (dc : dc_t) (src_ep : Z) : Prop :=
  src_ep = ANY \/
  (src_ep <> ANY /\ - dc_nr_tasks dc <= ENDPOINT_P src_ep < dc_nr_procs dc - dc_nr_tasks dc /\
   src_ep <> p_endpoint x /\
   exists z, k_procs s !! ENDPOINT2PTR (p_dcid x) dc src_ep = Some z /\
     rts BIT_SLOT_FREE z = false /\ p_endpoint z = src_ep /\
     0 <= p_nodeid z < k_nr_nodes s /\ IT_IS_REMOTE z = false).

(** A sender the receiver accepts, bound on this node and queued on [c]. *)
Record local_sender (P : gmap ptr proc) (c : ptr) (x : proc) (src_ep : Z) (xpp : ptr) (z : proc)
    : Prop := {
  ls_desc : P !! xpp = Some z;
  ls_other : xpp <> c;
  ls_link : p_link z = Some c;
  ls_sends : rts BIT_SENDING z = true;
  ls_to : p_sendto z = p_endpoint x;
  ls_bound : rts BIT_SLOT_FREE z = false;
  ls_local : IT_IS_REMOTE z = false;
  ls_accepted : src_ep = ANY \/ src_ep = p_endpoint z;
}.
Arguments ls_desc {P c x src_ep xpp z} _.
Arguments ls_other {P c x src_ep xpp z} _.
Arguments ls_link {P c x src_ep xpp z} _.
Arguments ls_sends {P c x src_ep xpp z} _.
Arguments ls_to {P c x src_ep xpp z} _.
Arguments ls_bound {P c x src_ep xpp z} _.
Arguments ls_local {P c x src_ep xpp z} _.
Arguments ls_accepted {P c x src_ep xpp z} _.

(** A sender the receiver passes over. *)
Definition skipped (P : gmap ptr proc) (c : ptr) (src_ep : Z) (xpp : ptr) : Prop :=
  src_ep <> ANY /\ xpp <> c /\ exists z, P !! xpp = Some z /\ p_endpoint z <> src_ep.

Lemma skipped_insert P c src_ep v l :
  Forall (skipped P c src_ep) l -> Forall (skipped (<[c := v]> P) c src_ep) l.
Proof.
  intros HF. induction HF as [|q l (? & ? & w & Hw & ?) _ IH]; constructor; [|done].
  split_and!; [done..|]. exists w. by rewrite lookup_insert_ne by congruence.
Qed.

Section Receive.
Context (s : kstate) (cur : Z) (c : ptr) (x : proc) (tk : task_t) (dc : dc_t).
Context (HC : calls_as s cur c x tk dc).
Context (src_ep m_ptr timeout : Z).
Context (Hsrc : source_ok s c x dc src_ep) (Hno : no_notify x).
Context (Hwk : misc MIS_BIT_WOKENUP x = false).

Lemma ex_check_source :
  src_ep <> ANY ->
  check_source c (p_endpoint x) (p_dcid x) dc src_ep s = Val tt s.
Proof using HC Hsrc.
  intros Hany. destruct Hsrc as [|(_ & Hr & Hne & z & Hz & Hb & He & Hn & Hl)]; [done|].
  pose proof (ca_desc HC) as Hx. rewrite (ca_st HC).
  unfold check_source, ERROR_RUNLOCK_PROC. x_unfold. x.
  assert ((ENDPOINT_P src_ep <? - dc_nr_tasks dc) ||
          (ENDPOINT_P src_ep >=? dc_nr_procs dc - dc_nr_tasks dc) = false) as ->.
  { apply orb_false_iff. rewrite Z.geb_leb, Z.ltb_ge, Z.leb_gt. lia. }
  x. assert ((p_endpoint x =? src_ep) = false) as -> by (apply Z.eqb_neq; congruence). x.
  fold (ENDPOINT2PTR (p_dcid x) dc src_ep). x. rewrite Hb. x. rewrite He. x.
  assert ((p_nodeid z <? 0) || (p_nodeid z >=? k_nr_nodes s) = false) as ->.
  { apply orb_false_iff. rewrite Z.geb_leb, Z.ltb_ge, Z.leb_gt. lia. }
  x. by rewrite Hl.
Qed.

Lemma ex_receive_prologue :
  receive_prologue c cur s = Val (p_endpoint x, p_dcid x, dc) s.
Proof using HC.
  pose proof (ca_range _ _ _ _ _ _ HC) as Hr. pose proof (ca_desc HC) as Hx.
  pose proof (ca_dc HC) as Hdc. rewrite (ca_st HC).
  unfold receive_prologue, ERROR_RUNLOCK_PROC, ERROR_WUNLOCK_DC. x_unfold. x.
  rewrite (ca_pid HC). x. rewrite Hr. x. rewrite (ca_run HC). by x.
Qed.

(** Up to the lock of the caller. *)
Lemma ex_receive_locked :
  mm_mini_receive cur src_ep m_ptr timeout s =
  receive_locked cur (p_dcid x) dc c src_ep m_ptr timeout
    (st s (k_procs s) (k_umem s) [L_PROC c]).
Proof using HC Hsrc.
  unfold mm_mini_receive, receive_body. unfold mbind at 1. cbn [get].
  unfold error_if. rewrite (ca_init HC), when_false.
  rewrite (ex_bind _ _ _ _ _ (ex_check_caller HC _)). cbn [fst snd].
  rewrite (ex_bind _ _ _ _ _ ex_receive_prologue). cbv iota beta.
  assert (E : forall k : unit -> M Empty_set,
    mbind (when (negb (src_ep =? ANY)) (check_source c (p_endpoint x) (p_dcid x) dc src_ep)) k s
    = k tt s).
  { intros k. destruct (src_ep =? ANY) eqn:Ea; [done|]. apply Z.eqb_neq in Ea.
    rewrite when_true. by rewrite (ex_bind _ _ _ _ _ (ex_check_source Ea)). }
  rewrite E, (ca_st HC) at 1. x_unfold. by x.
Qed.

(** Up to the queue of senders. *)
Lemma ex_receive_queue_of :
  mm_mini_receive cur src_ep m_ptr timeout s =
  (receive_queue cur c src_ep m_ptr (p_list x) ;;
   receive_block c src_ep ;;
   sleep_proc c timeout (K_RECEIVE c timeout) ;;
   receive_after cur c)
    (st s (<[c := x <| p_umsg := m_ptr |>]> (k_procs s)) (k_umem s) [L_PROC c]).
Proof.
  pose proof (ca_desc HC) as Hx. rewrite ex_receive_locked.
  unfold receive_locked, ERROR_WUNLOCK_PROC. x_unfold. x.
  rewrite Hwk. x. by rewrite scan_notify_none.
Qed.

(** Senders that are not acceptable are passed over. *)
Lemma ex_receive_skip P U l1 l (x1 : proc) :
  P !! c = Some x1 -> Forall (skipped P c src_ep) l1 ->
  receive_queue cur c src_ep m_ptr (l1 ++ l) (st s P U [L_PROC c]) =
  receive_queue cur c src_ep m_ptr l (st s P U [L_PROC c]).
Proof using.
  clear. intros Hc HF. induction HF as [|xpp l1 (Hany & Hne & z & Hz & He) _ IH]; [done|].
  cbn [app receive_queue]. x_unfold.
  eapply eq_trans; [eapply ex_bind, ex_ordered2; [x_look..|congruence]|]. x.
  assert ((src_ep =? p_endpoint z) || (src_ep =? ANY) = false) as ->.
  { apply orb_false_iff. rewrite !Z.eqb_neq. split; congruence. }
  unfold both_locks. case_match; x; apply IH.
Qed.

(** The first acceptable sender is taken. *)
Lemma ex_receive_from {A} P U x1 xpp z tz tkz m :
  P !! c = Some x1 -> p_task x1 = Some cur -> p_endpoint x1 = p_endpoint x ->
  local_sender P c x1 src_ep xpp z ->
  p_task z = Some tz -> k_tasks s !! tz = Some tkz ->
  U !! (t_mm tkz, p_umsg z) = Some m -> is_Some (U !! (t_mm tk, m_ptr)) ->
  p_endpoint z <> NONE ->
  receive_from (A := A) cur c xpp src_ep m_ptr (st s P U (both_locks x1 z c xpp)) =
  Exit (X_RET OK)
    (st s (<[xpp := sent (z <| p_link := None |>)]> (<[c := x1 <| p_list ::= del xpp |>]> P))
       (<[(t_mm tk, m_ptr) := m <| m_source := p_endpoint z |>]> U) []).
Proof using HC.
  clear Hsrc Hno Hwk. intros Hc Ht He HS Htz Hkz Hm [m0 Hm0] Hn. destruct HS as [Hz Hne Hlk Hs Hto Hb Hl Ha].
  pose proof (ca_task HC) as Hk.
  unfold receive_from, LIST_DEL_P, take_message, end_sending, LOCAL_PROC_UP. x_unfold. x.
  rewrite Hlk. x.
  assert (sender_status src_ep (p_endpoint x1 <| p_list ::= del xpp |>) (z <| p_link := None |>) = OK)
    as ->.
  { unfold sender_status. change (rts ?b z <| p_link := None |>) with (rts b z).
    rewrite Hb, Hs. cbn. rewrite Hto, Z.eqb_refl. cbn.
    destruct Ha as [-> | ->]; [done|]. by rewrite Z.eqb_refl, andb_false_r. }
  x. change (IT_IS_REMOTE z <| p_link := None |>) with (IT_IS_REMOTE z). rewrite Hl.
  eapply eq_trans; [eapply ex_bind, (ex_copy_msg _ _ _ _ _ xpp _ tz tkz _ c _ cur tk);
    [x_look|done|done|x_look|done..]|].
  x. unfold sent, woken. destruct (_ =? 0); unfold both_locks; case_match; x; x_exit.
Qed.

(** Receiving from the queue. *)
Lemma ex_receive_takes l1 l2 xpp z tz tkz m :
  p_list x = l1 ++ xpp :: l2 ->
  Forall (skipped (k_procs s) c src_ep) l1 -> local_sender (k_procs s) c x src_ep xpp z ->
  p_task z = Some tz -> k_tasks s !! tz = Some tkz ->
  buffers s tkz tk (p_umsg z) m_ptr m -> p_endpoint z <> NONE ->
  mm_mini_receive cur src_ep m_ptr timeout s =
  Exit (X_RET OK)
    (st s (<[xpp := sent (z <| p_link := None |>)]>
             (<[c := x <| p_umsg := m_ptr |> <| p_list ::= del xpp |>]> (k_procs s)))
       (<[(t_mm tk, m_ptr) := m <| m_source := p_endpoint z |>]> (k_umem s)) []).
Proof.
  intros Hl Hsk HS Htz Hkz [Hm Hm0] Hn. rewrite ex_receive_queue_of, Hl.
  set (P := <[c := _]> (k_procs s)). set (x1 := x <| p_umsg := m_ptr |>).
  assert (HPc : P !! c = Some x1) by apply lookup_insert_eq.
  assert (HS1 : local_sender P c x1 src_ep xpp z).
  { destruct HS. split; try done. unfold P. by rewrite lookup_insert_ne by congruence. }
  assert (Hsk1 : Forall (skipped P c src_ep) l1) by by apply skipped_insert.
  unfold mbind at 1. rewrite (ex_receive_skip _ _ _ _ _ HPc Hsk1). cbn [receive_queue].
  pose proof (ls_desc HS1) as Hz. pose proof (ls_other HS1) as Hne.
  rewrite (ex_bind _ _ _ _ _ (ex_ordered2 s P _ c xpp x1 z HPc Hz ltac:(congruence))). cbv beta.
  rewrite (ex_bind _ _ _ _ _ (ex_rd s P _ _ _ _ Hz)). cbv beta.
  assert ((src_ep =? p_endpoint z) || (src_ep =? ANY) = true) as ->.
  { apply orb_true_iff. rewrite !Z.eqb_eq. destruct (ls_accepted HS1); auto. }
  rewrite (ex_receive_from P _ x1 xpp z tz tkz m); try done; [|apply (ca_ptask HC)].
  unfold P. do 2 f_equal. f_equal. by rewrite insert_insert_eq.
Qed.

(** A receiver asleep. *)
Definition waiting (x1 : proc) : proc :=
  (misc_clear MIS_BIT_NOTIFY (rts_set BIT_RECEIVING (x1 <| p_umsg := m_ptr |>)))
    <| p_getfrom := src_ep |> <| p_rcode := OK |> <| p_pseudosem := -1 |>.

(** No acceptable sender: the receiver sleeps. *)
Lemma ex_receive_sleeps :
  Forall (skipped (k_procs s) c src_ep) (p_list x) -> timeout <> TIMEOUT_NOWAIT ->
  mm_mini_receive cur src_ep m_ptr timeout s =
  Exit (X_SLEEP (K_RECEIVE c timeout))
    (st s (<[c := waiting x]> (k_procs s)) (k_umem s) []).
Proof.
  intros Hsk Ht. rewrite ex_receive_queue_of. set (P := <[c := _]> (k_procs s)).
  assert (HPc : P !! c = Some x <| p_umsg := m_ptr |>) by apply lookup_insert_eq.
  assert (Hsk1 : Forall (skipped P c src_ep) (p_list x)) by by apply skipped_insert.
  unfold mbind at 1. rewrite <- (app_nil_r (p_list x)), (ex_receive_skip _ _ _ _ _ HPc Hsk1).
  cbn [receive_queue mret]. unfold receive_block, sleep_proc, sleep_enter. x_unfold. x.
  apply Z.eqb_neq in Ht. rewrite Ht. x. unfold P. x_leave.
Qed.
End Receive.

(** ** Both orders *)

(** A descriptor whose task can leave its wait, with success. *)
Definition awake (z : proc) : Prop :=
  p_rts_flags z = 0 /\ p_rcode z = OK /\ 0 <= p_pseudosem z.

(** A sender [a] and a receiver [b] of one DC, both running, nobody queued on
    the receiver. *)
Record pair (s : kstate) (ca : Z) (pa : ptr) (xa : proc) (tka : task_t)
    (cb : Z) (pb : ptr) (xb : proc) (tkb : task_t) (dc : dc_t) (src_ep : Z) : Prop := {
  pr_a : calls_as s ca pa xa tka dc;
  pr_b : calls_as s cb pb xb tkb dc;
  pr_dst : local_dst s pa xa dc (p_endpoint xb) pb xb;
  pr_src : source_ok s pb xb dc src_ep;
  pr_accepts : src_ep = ANY \/ src_ep = p_endpoint xa;
  pr_alone : p_list xb = [];
  pr_quiet : no_notify xb;
  pr_wk : misc MIS_BIT_WOKENUP xb = false;
  pr_none : p_endpoint xa <> NONE;
}.

Section Pair.
Context (s : kstate) (ca : Z) (pa : ptr) (xa : proc) (tka : task_t).
Context (cb : Z) (pb : ptr) (xb : proc) (tkb : task_t) (dc : dc_t) (src_ep : Z).
Context (HP : pair s ca pa xa tka cb pb xb tkb dc src_ep).

Lemma rts_zero b (z : proc) : p_rts_flags z = 0 -> rts b z = false.
Proof. intros E. unfold rts. rewrite E. apply test_bit_0. Qed.

(** The caller's checks only look at its own descriptor and at the tables. *)
Lemma calls_as_other t p z tk P :
  calls_as s t p z tk dc -> P !! p = Some z -> calls_as (st s P (k_umem s) []) t p z tk dc.
Proof. clear. intros HC HPp. by destruct HC; split. Qed.

Lemma calls_as_same t p z z' tk P :
  calls_as s t p z tk dc -> P !! p = Some z' -> p_task z' = p_task z -> p_lpid z' = p_lpid z ->
  p_rts_flags z' = p_rts_flags z -> misc MIS_BIT_NEEDMIGR z' = misc MIS_BIT_NEEDMIGR z ->
  p_dcid z' = p_dcid z -> calls_as (st s P (k_umem s) []) t p z' tk dc.
Proof.
  clear. intros HC HPp E1 E2 E3 E4 E5. destruct HC; split; cbn; try done; congruence.
Qed.

(** So do the checks of the source. *)
Definition same_source (z z' : proc) : Prop :=
  rts BIT_SLOT_FREE z' = rts BIT_SLOT_FREE z /\ p_endpoint z' = p_endpoint z /\
  p_nodeid z' = p_nodeid z /\ IT_IS_REMOTE z' = IT_IS_REMOTE z.

Lemma source_ok_same p z z' P U H :
  source_ok s p z dc src_ep -> p_dcid z' = p_dcid z -> p_endpoint z' = p_endpoint z ->
  (forall q y, k_procs s !! q = Some y -> exists y', P !! q = Some y' /\ same_source y y') ->
  source_ok (st s P U H) p z' dc src_ep.
Proof.
  clear. intros [?|(Ha & Hr & Hne & y & Hy & Hb & He & Hn & Hl)] E1 E2 HP; [by left|right].
  rewrite E1, E2. do 3 (split; [done|]). destruct (HP _ _ Hy) as (y' & Hy' & F1 & F2 & F3 & F4).
  exists y'. split; [exact Hy'|]. do 2 (split; [congruence|]). split; [|congruence]. cbn. by rewrite F3.
Qed.

Lemma same_source_insert p z z' (P : gmap ptr proc) :
  (forall q y, k_procs s !! q = Some y -> exists y', P !! q = Some y' /\ same_source y y') ->
  k_procs s !! p = Some z -> same_source z z' ->
  forall q y, k_procs s !! q = Some y ->
    exists y', <[p := z']> P !! q = Some y' /\ same_source y y'.
Proof.
  clear. intros HP Hz Hs q y Hy. destruct (decide (q = p)) as [->|Hq].
  - exists z'. rewrite lookup_insert_eq. by simplify_eq.
  - rewrite lookup_insert_ne by congruence. by apply HP.
Qed.

Lemma same_source_refl q y : k_procs s !! q = Some y ->
  exists y', k_procs s !! q = Some y' /\ same_source y y'.
Proof. clear. intros Hy. exists y. by repeat split. Qed.

Lemma st_st P U H P' U' H' : st (st s P U H) P' U' H' = st s P' U' H'.
Proof. reflexivity. Qed.

(** The sender comes first. *)
Lemma send_then_receive fuel a_ptr b_ptr ta tb m :
  buffers s tka tkb a_ptr b_ptr m -> ta <> TIMEOUT_NOWAIT ->
  let xb1 := xb <| p_list ::= fun l => l ++ [pa] |> in
  let xa1 := queued_send (p_endpoint xb) a_ptr pb xa in
  exists s1,
  mm_mini_send (S (S fuel)) ca (p_endpoint xb) a_ptr ta s =
    Exit (X_SLEEP (K_SEND_LOCAL (frame_to pa xa dc (p_endpoint xb) a_ptr ta))) s1 /\
  mm_mini_receive cb src_ep b_ptr tb s1 =
    Exit (X_RET OK)
      (st s (<[pa := sent (xa1 <| p_link := None |>)]>
               (<[pb := xb1 <| p_umsg := b_ptr |> <| p_list ::= del pa |>]> (k_procs s)))
         (<[(t_mm tkb, b_ptr) := m <| m_source := p_endpoint xa |>]> (k_umem s)) []).
Proof.
  intros HB Ht xb1 xa1. destruct HP as [HA HBc HD Hsrc Hacc Hal Hq Hw Hn].
  pose proof (ca_desc HA) as Ha. pose proof (ca_desc HBc) as Hb. pose proof (ld_other HD) as Hne.
  set (P1 := <[pa := xa1]> (<[pb := xb1]> (k_procs s))). exists (st s P1 (k_umem s) []). split.
  { apply (ex_send_queued _ _ _ _ _ _ _ _ _ HA HD); [|done].
    unfold waits_for, receiving_only. by rewrite (rts_zero _ _ (ca_flags HBc)). }
  assert (HB1 : calls_as (st s P1 (k_umem s) []) cb pb xb1 tkb dc).
  { eapply calls_as_same; [exact HBc| |done..]. unfold P1. by rewrite lookup_insert_ne, lookup_insert_eq. }
  assert (Hs1 : source_ok (st s P1 (k_umem s) []) pb xb1 dc src_ep).
  { eapply source_ok_same; [exact Hsrc|done..|].
    eapply same_source_insert; [|exact Ha|].
    - eapply same_source_insert; [exact same_source_refl|exact Hb|by repeat split].
    - unfold same_source, xa1, queued_send, IT_IS_REMOTE, rts, rts_set. cbn. by bits. }
  assert (HS1 : local_sender P1 pb xb1 src_ep pa xa1).
  { pose proof (ca_flags HA) as Hf. split; try done; try congruence.
    - by unfold P1; rewrite lookup_insert_eq.
    - unfold xa1, queued_send, rts, rts_set. cbn. by bits.
    - unfold xa1, queued_send, rts, rts_set. cbn. bits. rewrite Hf. apply test_bit_0.
    - unfold xa1, queued_send, IT_IS_REMOTE, rts, rts_set. cbn. bits. rewrite Hf. apply test_bit_0. }
  erewrite (ex_receive_takes _ _ _ _ _ _ HB1 src_ep b_ptr tb Hs1 Hq Hw [] [] pa xa1 ca tka m).
  - rewrite st_st. apply st_exit; [|done..].
    change (k_procs (st s P1 (k_umem s) [])) with P1. unfold P1. x_map_eq.
  - unfold xb1. cbn. by rewrite Hal.
  - constructor.
  - exact HS1.
  - apply (ca_ptask HA).
  - apply (ca_task HA).
  - by destruct HB; split.
  - done.
Qed.

(** A receiver that sleeps is a destination that waits for the sender. *)
Lemma dst_waiting b_ptr :
  let s1 := st s (<[pb := waiting src_ep b_ptr xb]> (k_procs s)) (k_umem s) [] in
  calls_as s1 ca pa xa tka dc /\
  local_dst s1 pa xa dc (p_endpoint xb) pb (waiting src_ep b_ptr xb) /\
  waits_for (waiting src_ep b_ptr xb) (p_endpoint xa) = true.
Proof.
  intros s1. destruct HP as [HA HB HD Hsrc Hacc Hal Hq Hw Hn]. pose proof (ld_other HD) as Hne.
  split; [|split].
  - eapply calls_as_other; [exact HA|]. rewrite lookup_insert_ne by done. apply (ca_desc HA).
  - destruct HD. split; try done; cbn [k_procs s1 st].
    + apply lookup_insert_eq.
    + unfold waiting, rts, rts_set, misc_clear. cbn. by bits.
    + unfold waiting, rts, rts_set, misc_clear. cbn. by bits.
    + unfold waiting, IT_IS_REMOTE, rts, rts_set, misc_clear. cbn. by bits.
  - unfold waits_for, receiving_only, waiting, rts, rts_set, misc_clear. cbn. bits.
    rewrite (ca_flags HB), test_bit_0. cbn.
    destruct Hacc as [-> | ->]; [done|]. by rewrite Z.eqb_refl, orb_true_r.
Qed.

Lemma receive_first b_ptr tb :
  tb <> TIMEOUT_NOWAIT ->
  mm_mini_receive cb src_ep b_ptr tb s = Exit (X_SLEEP (K_RECEIVE pb tb))
    (st s (<[pb := waiting src_ep b_ptr xb]> (k_procs s)) (k_umem s) []).
Proof.
  intros Ht. destruct HP as [HA HB HD Hsrc Hacc Hal Hq Hw Hn].
  apply (ex_receive_sleeps _ _ _ _ _ _ HB _ _ _ Hsrc Hq Hw); [|done]. by rewrite Hal.
Qed.

(** The receiver comes first. *)
Lemma receive_then_send fuel a_ptr b_ptr ta tb m :
  buffers s tka tkb a_ptr b_ptr m -> tb <> TIMEOUT_NOWAIT ->
  exists s1,
  mm_mini_receive cb src_ep b_ptr tb s = Exit (X_SLEEP (K_RECEIVE pb tb)) s1 /\
  mm_mini_send (S (S fuel)) ca (p_endpoint xb) a_ptr ta s1 =
    Exit (X_RET OK)
      (st s (<[pa := sent_now a_ptr xa]>
               (<[pb := received (waiting src_ep b_ptr xb)]> (k_procs s)))
         (<[(t_mm tkb, b_ptr) := m <| m_source := p_endpoint xa |>]> (k_umem s)) []).
Proof.
  intros HB Ht. destruct (dst_waiting b_ptr) as (HA1 & HD1 & Hwt).
  eexists. split; [by apply receive_first|].
  destruct HP as [HA HBc HD Hsrc Hacc Hal Hq Hw Hn]. pose proof (ld_other HD) as Hne.
  rewrite (ex_send_waiting _ _ _ _ _ _ _ _ _ HA1 HD1 fuel a_ptr ta cb tkb m);
    [|exact Hwt|apply (ca_ptask HBc)|apply (ca_task HBc)|by destruct HB; split|done].
  rewrite st_st. apply st_exit; [|done..]. rewrite st_procs. x_map_eq.
Qed.

Lemma awake_sent ep p : awake (sent ((queued_send ep p pb xa) <| p_link := None |>)).
Proof.
  pose proof (ca_flags (pr_a _ _ _ _ _ _ _ _ _ _ _ HP)) as Hf.
  unfold awake, sent, woken, queued_send, rts_clear, rts_set. cbn. by rewrite Hf.
Qed.

Lemma awake_received p : awake (received (waiting src_ep p xb)).
Proof.
  pose proof (ca_flags (pr_b _ _ _ _ _ _ _ _ _ _ _ HP)) as Hf.
  unfold awake, received, woken, waiting, rts_clear, rts_set, misc_clear. cbn. by rewrite Hf.
Qed.
End Pair.

(** The outcome of a rendezvous: the message of [a], stamped with the endpoint
    of [a], is in the buffer of [b] and no other buffer has changed; no lock
    is held; nobody is queued on [b]; and the one that came first can leave
    its wait with success. *)
Definition delivered (s s2 : kstate) (pa pb first : ptr) (tkb : task_t) (b_ptr src : Z)
    (m : message) : Prop :=
  k_umem s2 = <[(t_mm tkb, b_ptr) := m <| m_source := src |>]> (k_umem s) /\
  k_held s2 = [] /\
  (exists yb, k_procs s2 !! pb = Some yb /\ p_list yb = []) /\
  (exists y, k_procs s2 !! first = Some y /\ awake y) /\
  (forall q, q <> pa -> q <> pb -> k_procs s2 !! q = k_procs s !! q).

(** C2. the rendezvous.  When a process sends to a process of its node and that
    one receives, in either order, the first call sleeps and the second one
    returns [OK]; in both orders the message ends in the receiver's buffer
    with [m_source] set to the sender's endpoint, no other buffer or
    descriptor changes, the queue of the receiver is empty, no lock is held,
    and the process that slept is woken with [OK]. *)
Theorem rendezvous s ca pa xa tka cb pb xb tkb dc src_ep fuel a_ptr b_ptr ta tb m :
  pair s ca pa xa tka cb pb xb tkb dc src_ep -> buffers s tka tkb a_ptr b_ptr m ->
  ta <> TIMEOUT_NOWAIT -> tb <> TIMEOUT_NOWAIT ->
  let send := mm_mini_send (S (S fuel)) ca (p_endpoint xb) a_ptr ta in
  let receive := mm_mini_receive cb src_ep b_ptr tb in
  (exists k s1 s2, send s = Exit (X_SLEEP k) s1 /\ receive s1 = Exit (X_RET OK) s2 /\
     delivered s s2 pa pb pa tkb b_ptr (p_endpoint xa) m) /\
  (exists k s1 s2, receive s = Exit (X_SLEEP k) s1 /\ send s1 = Exit (X_RET OK) s2 /\
     delivered s s2 pa pb pb tkb b_ptr (p_endpoint xa) m).
Proof.
  intros HP HB Hta Htb send receive.
  pose proof (ld_other (pr_dst _ _ _ _ _ _ _ _ _ _ _ HP)) as Hne. split.
  - destruct (send_then_receive _ _ _ _ _ _ _ _ _ _ _ HP fuel a_ptr b_ptr ta tb m HB Hta)
      as (s1 & E1 & E2).
    eexists _, s1, _. split; [exact E1|]. split; [exact E2|]. split_and!; [done..| | |].
    + eexists. rewrite st_procs, lookup_insert_ne, lookup_insert_eq by done.
      split; [done|].
      change (del pa (p_list xb ++ [pa]) = []). rewrite (pr_alone _ _ _ _ _ _ _ _ _ _ _ HP).
      by rewrite app_nil_l, del_here.
    + eexists. rewrite st_procs, lookup_insert_eq. split; [done|].
      eapply awake_sent, HP.
    + intros q Hq1 Hq2. by rewrite st_procs, !lookup_insert_ne.
  - destruct (receive_then_send _ _ _ _ _ _ _ _ _ _ _ HP fuel a_ptr b_ptr ta tb m HB Htb)
      as (s1 & E1 & E2).
    eexists _, s1, _. split; [exact E1|]. split; [exact E2|]. split_and!; [done..| | |].
    + eexists. rewrite st_procs, lookup_insert_ne, lookup_insert_eq by done.
      split; [done|]. pose proof (pr_alone _ _ _ _ _ _ _ _ _ _ _ HP) as Hal.
      unfold received, woken. by case_match.
    + eexists. rewrite st_procs, lookup_insert_ne, lookup_insert_eq by done.
      split; [done|]. eapply awake_received, HP.
    + intros q Hq1 Hq2. by rewrite st_procs, !lookup_insert_ne.
Qed.

(** ** A wait that fails *)

(** A sender [x] asleep in the queue of [y]. *)
Record asleep (s : kstate) (f : frame) (x y : proc) : Prop := {
  as_x : k_procs s !! f_c f = Some x;
  as_y : k_procs s !! f_dst f = Some y;
  as_ne : f_c f <> f_dst f;
  as_held : k_held s = [];
  as_flags : p_rts_flags x = Z.shiftl 1 BIT_SENDING;
  as_link : p_link x = Some (f_dst f);
  as_migr : misc MIS_BIT_NEEDMIGR x = false;
}.

(** The sender after a wait that ended with the error [ret]. *)
Definition gave_up (timeout w : Z) (x : proc) : proc :=
  (rts_clear BIT_SENDING ((wake_desc timeout w x) <| p_link := None |>)) <| p_sendto := NONE |>.

Lemma ex_send_gives_up s f x y fuel cur w :
  asleep s f x y ->
  wake_rcode (p_rcode x) (f_timeout f) w <> OK ->
  wake_rcode (p_rcode x) (f_timeout f) w <> EMOLMIGRATE ->
  resume_send_local fuel cur f w s =
  Exit (X_RET (wake_rcode (p_rcode x) (f_timeout f) w))
    (st s (<[f_c f := gave_up (f_timeout f) w x]>
             (<[f_dst f := y <| p_list ::= del (f_c f) |>]> (k_procs s))) (k_umem s) []).
Proof.
  intros [Hx Hy Hne Hh Hf Hl Hm] H1 H2. set (r := wake_rcode _ _ _) in *.
  rewrite (st_id s), Hh at 1. unfold resume_send_local, sleep_exit. rewrite bind_assoc.
  eapply eq_trans; [eapply ex_bind, ex_proc2; [x_look..|done]|]. x.
  set (x1 := wake_desc (f_timeout f) w x).
  assert (E1 : p_rcode x1 = r /\ rts BIT_SENDING x1 = true /\ p_link x1 = Some (f_dst f)).
  { unfold x1, wake_desc. fold r. cbv zeta. unfold need_migr, misc, rts. apply Z.eqb_neq in H1. rewrite H1.
    destruct (_ <? 0); cbn; unfold misc in Hm; rewrite Hm; cbn; by rewrite Hf. }
  destruct E1 as (Er & Es & El).
  unfold send_local_after, LIST_DEL_P, finish. x_unfold. unfold both_locks.
  case_match; x; rewrite Er, Es; apply Z.eqb_neq in H1, H2; rewrite H1; x; rewrite El; x;
    rewrite H2; x; unfold gave_up; fold x1; x_exit.
Qed.

(** C23. a send that fails leaves no trace.  When the wait of a queued sender
    ends with an error (its timeout expires, a signal arrives), the send
    returns that error and the sender is on no queue any more: it is out of
    the queue of the destination, no longer sending, runs again, and no
    message was copied. *)
Theorem send_gives_up s f x y fuel cur w :
  asleep s f x y -> wait_result (f_timeout f) x w -> p_rcode x = OK ->
  (0 <= f_timeout f -> w <= 0) -> (f_timeout f < 0 -> w < 0) ->
  exists s1, resume_send_local fuel cur f w s =
      Exit (X_RET (if w =? 0 then EMOLTIMEDOUT else - ERESTARTSYS)) s1 /\
    (exists x1, k_procs s1 !! f_c f = Some x1 /\ p_rts_flags x1 = 0 /\ p_link x1 = None /\
       p_sendto x1 = NONE) /\
    (exists y1, k_procs s1 !! f_dst f = Some y1 /\ p_list y1 = del (f_c f) (p_list y) /\
       f_c f ∉ p_list y1) /\
    k_umem s1 = k_umem s /\ k_held s1 = [].
Proof.
  intros HA Hw Hr H0 H1.
  assert (Er : wake_rcode (p_rcode x) (f_timeout f) w = if w =? 0 then EMOLTIMEDOUT else - ERESTARTSYS).
  { unfold wait_result in Hw. unfold wake_rcode. rewrite Hr. cbn [OK].
    destruct (f_timeout f <? 0) eqn:Et.
    - apply Z.ltb_lt in Et. destruct Hw as [[-> _]| ->]; [specialize (H1 Et); lia|done].
    - apply Z.ltb_ge in Et. specialize (H0 Et). destruct Hw as [[? _]|[->| ->]]; [lia| |done].
      cbn. destruct (0 <=? f_timeout f) eqn:E; [done|]. apply Z.leb_gt in E. lia. }
  eexists. split.
  { rewrite (ex_send_gives_up _ _ _ _ fuel cur w HA); rewrite ?Er; [done|by case_match..]. }
  destruct HA as [Hx Hy Hne Hh Hf Hl Hm]. split_and!; [| |done|done].
  - eexists. rewrite st_procs, lookup_insert_eq. split; [done|].
    unfold gave_up, wake_desc, need_migr, rts_clear, misc in *. cbv zeta.
    repeat (case_match; cbn in *; try congruence); by rewrite Hf.
  - eexists. rewrite st_procs, lookup_insert_ne, lookup_insert_eq by done.
    split; [done|]. split; [done|]. change (f_c f ∉ del (f_c f) (p_list y)).
    rewrite elem_of_del. tauto.
Qed.

(** ** Order of the queue *)

(** C11. senders queue in order.  A send to a destination that does not wait for
    it puts the caller at the end of the destination's queue and sleeps; the
    message stays in the caller's buffer. *)
Theorem send_queues_last s cur c x tk dc ep dst y fuel m_ptr timeout :
  calls_as s cur c x tk dc -> local_dst s c x dc ep dst y ->
  waits_for y (p_endpoint x) = false -> timeout <> TIMEOUT_NOWAIT ->
  exists k s1, mm_mini_send (S (S fuel)) cur ep m_ptr timeout s = Exit (X_SLEEP k) s1 /\
    (exists y1, k_procs s1 !! dst = Some y1 /\ p_list y1 = p_list y ++ [c]) /\
    (exists x1, k_procs s1 !! c = Some x1 /\ rts BIT_SENDING x1 = true /\ p_sendto x1 = ep /\
       p_umsg x1 = m_ptr /\ p_link x1 = Some dst) /\
    k_umem s1 = k_umem s /\ k_held s1 = [].
Proof.
  intros HC HD Hw Ht. pose proof (ld_other HD) as Hne.
  eexists _, _. split; [by apply (ex_send_queued _ _ _ _ _ _ _ _ _ HC HD)|].
  split_and!; [| |done..].
  - eexists. rewrite st_procs, lookup_insert_ne, lookup_insert_eq by done. done.
  - eexists. rewrite st_procs, lookup_insert_eq. split; [done|].
    split; [|done]. unfold queued_send, rts, rts_set. cbn. by bits.
Qed.

(** C10. receivers take in order.  A receive returns the message of the first
    sender of the queue that the receiver accepts: the senders before it are
    passed over, and the rest of the queue keeps its order.  The sender stops
    sending and runs if nothing else holds it. *)
Theorem receive_takes_first s cur c x tk dc src_ep m_ptr timeout l1 xpp l2 z tz tkz m :
  calls_as s cur c x tk dc -> source_ok s c x dc src_ep -> no_notify x ->
  misc MIS_BIT_WOKENUP x = false ->
  p_list x = l1 ++ xpp :: l2 -> NoDup (p_list x) ->
  Forall (skipped (k_procs s) c src_ep) l1 -> local_sender (k_procs s) c x src_ep xpp z ->
  p_task z = Some tz -> k_tasks s !! tz = Some tkz ->
  buffers s tkz tk (p_umsg z) m_ptr m -> p_endpoint z <> NONE ->
  exists s1, mm_mini_receive cur src_ep m_ptr timeout s = Exit (X_RET OK) s1 /\
    k_umem s1 = <[(t_mm tk, m_ptr) := m <| m_source := p_endpoint z |>]> (k_umem s) /\
    (exists x1, k_procs s1 !! c = Some x1 /\ p_list x1 = l1 ++ l2) /\
    (exists z1, k_procs s1 !! xpp = Some z1 /\ rts BIT_SENDING z1 = false /\ p_link z1 = None /\
       (p_rts_flags z = Z.shiftl 1 BIT_SENDING -> p_pseudosem z = -1 -> awake z1)) /\
    k_held s1 = [].
Proof.
  intros HC Hsrc Hq Hw Hl Hnd Hsk HS Htz Hkz HB Hn. pose proof (ls_other HS) as Hne.
  eexists. split; [by eapply (ex_receive_takes _ _ _ _ _ _ HC)|]. split_and!; [done| | |done].
  - eexists. rewrite st_procs, lookup_insert_ne, lookup_insert_eq by done. split; [done|].
    change (del xpp (p_list x) = l1 ++ l2). rewrite Hl in *.
    apply list.NoDup_app in Hnd as (_ & Hd & Hnd). apply list.NoDup_cons in Hnd as [Hx2 _].
    rewrite del_app, del_here. f_equal; apply del_notin; [|done].
    intros Hx1. apply (Hd _ Hx1). left.
  - eexists. rewrite st_procs, lookup_insert_eq. split; [done|].
    unfold sent, woken, rts_clear. cbn.
    split_and!; [case_match; apply test_clear_same|by case_match|].
    intros Hf Hp. unfold awake. rewrite Hf. cbn. by rewrite Hp.
Qed.
