(* ===== verification/NotifyFlow.v ===== *)
(** * Notifications from end to end

    The bitmap of pending notifications is a set of system ids: [mm_mini_notify]
    adds the caller's, [mm_mini_receive] takes the lowest one.  The theorems
    follow a notification to a destination that is busy, and to one that
    waits. *)

From S2P Require Import Prelude Types Endpoint Kernel Utils IpcCommon Send Receive Notify.
From S2P Require Import QueueLogic Exec Rendezvous.

(** ** The bitmap as a set *)

(** Every chunk of the bitmap is an unsigned 16-bit number. *)
Definition wf_map (l : list Z) : Prop := Forall (fun ch => 0 <= ch < 2 ^ BITCHUNK_BITS) l.

Lemma chunk_split n i : 0 <= n -> 0 <= i < BITCHUNK_BITS ->
  chunk_of (n * BITCHUNK_BITS + i) = Z.to_nat n /\
  (n * BITCHUNK_BITS + i) mod BITCHUNK_BITS = i.
Proof.
  intros Hn Hi. unfold chunk_of. rewrite (Z.add_comm _ i).
  rewrite Z.div_add, Z.mod_add by done. rewrite Z.div_small, Z.mod_small by done. done.
Qed.

Lemma get_sys_bit_at l n i : 0 <= n -> 0 <= i < BITCHUNK_BITS ->
  get_sys_bit l (n * BITCHUNK_BITS + i) =
  match l !! Z.to_nat n with Some ch => Z.testbit ch i | None => false end.
Proof. intros Hn Hi. unfold get_sys_bit. by destruct (chunk_split n i Hn Hi) as [-> ->]. Qed.

(** A system id is a chunk and a bit of it. *)
Lemma id_split j : 0 <= j ->
  j = (j / BITCHUNK_BITS) * BITCHUNK_BITS + j mod BITCHUNK_BITS /\
  0 <= j / BITCHUNK_BITS /\ 0 <= j mod BITCHUNK_BITS < BITCHUNK_BITS.
Proof.
  intros Hj. pose proof (Z.div_mod j BITCHUNK_BITS ltac:(done)).
  pose proof (Z.mod_pos_bound j BITCHUNK_BITS ltac:(done)).
  pose proof (Z.div_pos j BITCHUNK_BITS Hj ltac:(done)). lia.
Qed.

Lemma get_set_sys_bit l a b : 0 <= a -> 0 <= b -> sys_bit_ok l a = true ->
  get_sys_bit (set_sys_bit a l) b = bool_decide (a = b) || get_sys_bit l b.
Proof.
  intros Ha Hb Hok. apply andb_true_iff in Hok as [_ Hok%bool_decide_eq_true].
  apply lookup_lt_is_Some in Hok as [ch Hch]. unfold set_sys_bit. rewrite Hch.
  destruct (id_split a Ha) as (Ea & Da & Ma), (id_split b Hb) as (Eb & Db & Mb).
  unfold get_sys_bit. destruct (decide (chunk_of a = chunk_of b)) as [E|E].
  - rewrite <- E, list_lookup_insert_eq, Hch by (by apply lookup_lt_Some in Hch).
    rewrite Z.setbit_eqb by lia. f_equal. unfold chunk_of in E.
    destruct (Z.eqb_spec (a mod BITCHUNK_BITS) (b mod BITCHUNK_BITS)) as [Em|Em].
    + symmetry. apply bool_decide_true. rewrite Ea, Eb, Em. do 2 f_equal. lia.
    + symmetry. apply bool_decide_false. congruence.
  - rewrite list_lookup_insert_ne by done. rewrite bool_decide_false; [done|]. congruence.
Qed.

(** [lowest_bit] finds the lowest bit of a chunk that is not zero. *)
Lemma lowest_bit_spec n i ch :
  i <= lowest_bit n i ch <= i + Z.of_nat n /\
  (forall j, i <= j < lowest_bit n i ch -> Z.testbit ch j = false) /\
  (lowest_bit n i ch < i + Z.of_nat n -> Z.testbit ch (lowest_bit n i ch) = true).
Proof.
  revert i. induction n as [|n IH]; intros i; cbn [lowest_bit].
  { split_and!; intros; lia. }
  destruct (Z.testbit ch i) eqn:E; [split_and!; intros; [lia..|done]|].
  destruct (IH (i + 1)) as (H1 & H2 & H3). split; [lia|]. split.
  - intros j Hj. destruct (decide (j = i)) as [->|]; [done|]. apply H2. lia.
  - intros Hr. apply H3. lia.
Qed.

Lemma lowest_bit_chunk ch : 0 < ch < 2 ^ BITCHUNK_BITS ->
  0 <= lowest_bit 16 0 ch < BITCHUNK_BITS /\ Z.testbit ch (lowest_bit 16 0 ch) = true /\
  (forall j, 0 <= j < lowest_bit 16 0 ch -> Z.testbit ch j = false).
Proof.
  intros Hch. destruct (lowest_bit_spec 16 0 ch) as (H1 & H2 & H3).
  set (r := lowest_bit 16 0 ch) in *.
  assert (r < 16); [|split_and!; [change BITCHUNK_BITS with 16; lia..|apply H3; lia|done]].
  destruct (decide (r < 16)) as [|Hr]; [done|exfalso]. assert (ch = 0); [|lia].
  apply Z.bits_inj'. intros j Hj. rewrite Z.bits_0.
  destruct (decide (j < 16)); [apply H2; lia|].
  rewrite <- (Z.mod_small ch (2 ^ 16)) by (change BITCHUNK_BITS with 16 in Hch; lia).
  apply Z.mod_pow2_bits_high. lia.
Qed.

(** ** The scan of the bitmap *)

(** The DC's limits are within those of the system. *)
Record dc_limits (dc : dc_t) : Prop := {
  dl_tasks : 0 <= dc_nr_tasks dc <= NR_TASKS;
  dl_sys : dc_nr_sysprocs dc <= NR_SYS_PROCS;
}.

Lemma scan_number dc id : dc_limits dc -> 0 <= id < dc_nr_sysprocs dc ->
  ENDPOINT_P (id - dc_nr_tasks dc) = id - dc_nr_tasks dc.
Proof.
  intros [H1 H2] Hid. change NR_SYS_PROCS with 64 in *.
  replace (id - dc_nr_tasks dc) with (ENDPOINT 0 (id - dc_nr_tasks dc)) at 1 by done.
  apply ENDPOINT_P_ENDPOINT; [done|]. unfold MAX_MAGIC_PROC. endpoint_consts. lia.
Qed.

(** What the scan of the bitmap [l] finds from the id [b] on, with the source
    [ep]. *)
Definition scan_found (dc : dc_t) (l : list Z) (b ep : Z) (r : Z * option (Z * Z)) : Prop :=
  match r.2 with
  | Some (id, nr) =>
      b <= id < dc_nr_sysprocs dc /\ get_sys_bit l id = true /\
      (forall j, b <= j < id -> get_sys_bit l j = false) /\
      nr = id - dc_nr_tasks dc /\ r.1 = nr
  | None =>
      (forall j, b <= j < dc_nr_sysprocs dc -> get_sys_bit l j = false) /\ r.1 = ep
  end.

(** A chunk without bits below [i] adds nothing to what the scan finds. *)
Lemma scan_found_from dc l b b' ep r :
  scan_found dc l b' ep r -> b <= b' -> (forall j, b <= j < b' -> get_sys_bit l j = false) ->
  scan_found dc l b ep r.
Proof.
  intros Hr Hb Hj. unfold scan_found in *. destruct (r.2) as [[id nr]|].
  - destruct Hr as (H1 & H2 & H3 & H4). split_and!; [lia|lia|done| |apply H4|apply H4].
    intros j Hj'. destruct (decide (j < b')); [apply Hj|apply H3]; lia.
  - destruct Hr as (H1 & H2). split; [|done].
    intros j Hj'. destruct (decide (j < b')); [apply Hj|apply H1]; lia.
Qed.

Lemma scan_spec dc l k n ep :
  dc_limits dc -> wf_map l -> drop (Z.to_nat n) l = k -> 0 <= n ->
  scan_found dc l (n * BITCHUNK_BITS) ep (scan_notify dc k n ep).
Proof.
  intros Hdc Hl. pose proof (eq_refl : BITCHUNK_BITS = 16) as HB.
  revert n ep. induction k as [|ch k IH]; intros n ep Hk Hn; cbn [scan_notify].
  { split; [|done]. intros j Hj. unfold get_sys_bit, chunk_of.
    assert (Z.to_nat n <= Z.to_nat (j / BITCHUNK_BITS))%nat as Hc.
    { assert (0 <= j) by (change BITCHUNK_BITS with 16 in Hj; lia).
      apply Z2Nat.inj_le; [done|by apply Z.div_pos|].
      apply Z.div_le_lower_bound; [done|]. change BITCHUNK_BITS with 16 in *; lia. }
    apply (f_equal length) in Hk. rewrite length_drop in Hk. cbn in Hk.
    by rewrite lookup_ge_None_2 by lia. }
  assert (Hch : l !! Z.to_nat n = Some ch).
  { rewrite <- (Nat.add_0_r (Z.to_nat n)), <- lookup_drop, Hk. done. }
  assert (Hk' : drop (Z.to_nat (n + 1)) l = k).
  { replace (Z.to_nat (n + 1)) with (Z.to_nat n + 1)%nat by lia. by rewrite <- drop_drop, Hk. }
  assert (Hbit : forall i, 0 <= i < BITCHUNK_BITS ->
    get_sys_bit l (n * BITCHUNK_BITS + i) = Z.testbit ch i).
  { intros i Hi. by rewrite get_sys_bit_at, Hch by done. }
  pose proof (Forall_lookup_1 _ _ _ _ Hl Hch) as Hr. cbv beta in Hr.
  destruct (Z.eqb_spec ch 0) as [->|Hnz].
  - eapply scan_found_from; [by apply IH; [|lia]|lia|]. intros j Hj.
    replace j with (n * BITCHUNK_BITS + (j - n * BITCHUNK_BITS)) by lia.
    rewrite Hbit by lia. apply Z.bits_0.
  - destruct (lowest_bit_chunk ch) as (L1 & L2 & L3); [split; [lia|apply Hr]|].
    set (i := lowest_bit 16 0 ch) in *.
    assert (Hlow : forall j, n * BITCHUNK_BITS <= j < n * BITCHUNK_BITS + i ->
      get_sys_bit l j = false).
    { intros j Hj. replace j with (n * BITCHUNK_BITS + (j - n * BITCHUNK_BITS)) by lia.
      rewrite Hbit by lia. apply L3. lia. }
    destruct (Z.geb_spec (n * BITCHUNK_BITS + i) (dc_nr_sysprocs dc)) as [Hge|Hlt].
    + split; [|done]. intros j Hj. apply Hlow. lia.
    + rewrite scan_number, Z.eqb_refl, andb_false_r by (done || lia).
      split_and!; [lia|lia|by rewrite Hbit|done|done|done].
Qed.

(** The lowest pending notification is found, whatever the source. *)
Lemma scan_lowest dc l ep id :
  dc_limits dc -> wf_map l -> 0 <= id < dc_nr_sysprocs dc -> get_sys_bit l id = true ->
  (forall j, 0 <= j < id -> get_sys_bit l j = false) ->
  scan_notify dc l 0 ep = (id - dc_nr_tasks dc, Some (id, id - dc_nr_tasks dc)).
Proof.
  intros Hdc Hl Hid Hbit Hlow.
  pose proof (scan_spec dc l l 0 ep Hdc Hl eq_refl ltac:(done)) as Hscan.
  destruct (scan_notify dc l 0 ep) as [ep' [[id' nr]|]].
  2: { destruct Hscan as [Hn _]. rewrite Hn in Hbit by lia. done. }
  destruct Hscan as (Hr & Hb & Hl' & -> & Hep). cbn in Hep. subst ep'.
  assert (id' = id) as ->; [|done].
  destruct (Z.lt_trichotomy id id') as [?|[?|?]]; [|done|].
  - rewrite Hl' in Hbit by lia. done.
  - rewrite Hlow in Hb by lia. done.
Qed.

(** ** Notifying a local process *)

Lemma ex_to_user s P U H cur tk a m :
  k_tasks s !! cur = Some tk -> is_Some (U !! (t_mm tk, a)) ->
  copy_to_user_msg cur m a (st s P U H) = Val OK (st s P (<[(t_mm tk, a) := m]> U) H).
Proof.
  intros Ht [m0 Hm]. unfold copy_to_user_msg. x. unfold mbind at 1. simpl. by rewrite Hm.
Qed.

(** Setting the update bit in the caller. *)
Definition updated (u : Z) (x : proc) : proc :=
  if valid_update u then x <| s_updt_pending ::= set_bit u |> else x.

Lemma ex_set_update s P U H c u x :
  P !! c = Some x -> set_update c u (st s P U H) = Val tt (st s (<[c := updated u x]> P) U H).
Proof.
  intros Hc. unfold set_update, updated. destruct (valid_update u).
  - cbn [when]. by apply ex_wr.
  - cbn [when]. rewrite insert_id by done. done.
Qed.

Lemma ex_build_notify s P U H c ep nr d y :
  P !! d = Some y ->
  BUILD_NOTIFY_MSG c ep nr d (st s P U H) =
  Val tt (st s (<[d := build_notify (bool_decide (c = d)) ep nr (k_clock s) y]> P) U H).
Proof. intros Hd. unfold BUILD_NOTIFY_MSG, mbind at 1. cbn [get]. by apply ex_wr. Qed.

Lemma ex_wake_notified s P U H d y :
  P !! d = Some y ->
  wake_notified d (st s P U H) =
  Val tt (st s (<[d := received (misc_set MIS_BIT_NOTIFY y)]> P) U H).
Proof.
  intros Hd. unfold wake_notified, end_receiving, LOCAL_PROC_UP, received, woken. x.
  destruct (_ =? 0); cbn [when].
  - erewrite ex_wr by x_look. by rewrite !insert_insert_eq.
  - rewrite ex_ret. by rewrite !insert_insert_eq.
Qed.

(** The caller after a notification that succeeded. *)
Definition notified (u : Z) (x : proc) : proc :=
  (updated u (x <| p_rcode := OK |>)) <| p_lclsent ::= ulong_inc |>.

Section Notify.
Context (s : kstate) (cur : Z) (c : ptr) (x : proc) (tk : task_t) (dc : dc_t).
Context (ep : Z) (dst : ptr) (y : proc).
Context (HC : calls_as s cur c x tk dc) (HD : local_dst s c x dc ep dst y).
Context (Hid : 0 <= s_id x < dc_nr_sysprocs dc).
Context (fuel : nat) (u : Z).

(** Up to the choice between a waiting destination and its bitmap. *)
Lemma ex_notify_dispatch :
  mm_mini_notify (S fuel) cur SELF ep u s =
  notify_local (frame_to c x dc ep 0 TIMEOUT_FOREVER) dc (p_nr x) (p_endpoint x) u
    (st s (<[c := x <| p_rcode := OK |>]> (k_procs s)) (k_umem s) (both_locks x y c dst)).
Proof.
  pose proof (ld_ptr HD) as Hptr. pose proof (ld_desc HD) as Hy. pose proof (ld_other HD) as Hne.
  pose proof (ca_desc HC) as Hx. pose proof (ca_dc HC) as Hdc.
  pose proof (ca_range _ _ _ _ _ _ HC) as Hr. pose proof (dst_range _ _ (ld_range HD)) as Hd.
  unfold mm_mini_notify. unfold mbind at 1. cbn [get]. unfold error_if.
  rewrite (ca_init HC), when_false. unfold mbind at 1, catch. rewrite (ex_check_caller HC).
  unfold notify_called. change (SELF =? HARDWARE) with false. cbv iota.
  unfold notify_body, notify_source, ERROR_RUNLOCK_PROC, ERROR_RUNLOCK_DC, ERROR_WUNLOCK_PROC.
  rewrite (ca_st HC) at 1. x_unfold. x. rewrite (ca_pid HC), Z.eqb_refl. x. rewrite Hr. x.
  rewrite (ca_run HC). x. change (SELF =? SELF) with true. x. rewrite Hd. x.
  assert ((p_endpoint x =? ep) = false) as ->.
  { apply Z.eqb_neq. pose proof (ld_ep_other HD). congruence. }
  x. assert ((s_id x >=? dc_nr_sysprocs dc) = false) as ->.
  { rewrite Z.geb_leb. apply Z.leb_gt. lia. }
  x. fold (ENDPOINT2PTR (p_dcid x) dc ep). cbn [fst snd notify_replay f_c f_dst f_dcid].
  rewrite <- Hptr.
  eapply eq_trans; [eapply ex_bind, ex_ordered2; [x_look..|congruence]|]. x.
  cbn [f_dst_ep]. rewrite (ld_ep HD). x. rewrite (ld_bound HD), (ld_settled HD).
  assert ((p_nodeid y <? 0) || (p_nodeid y >=? k_nr_nodes s) = false) as ->.
  { pose proof (ld_node HD). apply orb_false_iff. rewrite Z.geb_leb, Z.ltb_ge, Z.leb_gt. lia. }
  rewrite (ld_member HD). x. rewrite (ld_local HD). unfold frame_to. by rewrite <- Hptr.
Qed.

(** The end of a notification to a local process; only the caller is locked. *)
Lemma ex_notify_end P U x1 y1 :
  P !! c = Some x1 -> P !! dst = Some y1 -> IT_IS_REMOTE y1 = false -> p_rcode x1 = OK ->
  notify_end (frame_to c x dc ep 0 TIMEOUT_FOREVER) (st s P U [L_PROC c]) =
  Exit (X_RET OK) (st s (<[c := x1 <| p_lclsent ::= ulong_inc |>]> P) U []).
Proof using HD.
  clear HC Hid. pose proof (ld_ptr HD) as Hptr. intros Hc Hd Hl Hr.
  unfold notify_end, lclsent_inc, finish. cbn [f_c f_dst frame_to]. rewrite <- Hptr. x_unfold. x.
  rewrite Hr. change (OK =? OK) with true. cbv iota. rewrite Hl. x. done.
Qed.

Lemma ex_notify_unlock P U y1 :
  P !! c = Some (updated u (x <| p_rcode := OK |>)) -> P !! dst = Some y1 ->
  IT_IS_REMOTE y1 = false ->
  (unlock_ (L_PROC dst) ;; notify_end (frame_to c x dc ep 0 TIMEOUT_FOREVER))
    (st s P U (both_locks x y c dst)) =
  Exit (X_RET OK) (st s (<[c := notified u x]> P) U []).
Proof using HD.
  pose proof (ld_other HD) as Hne. clear HC Hid. intros Hc Hd Hl. unfold both_locks.
  case_match; x; erewrite ex_notify_end; try done; unfold updated; by case_match.
Qed.

(** The destination does not wait: the notification becomes pending. *)
Lemma ex_notify_pends :
  waits_for y (p_endpoint x) = false -> s_id y < dc_nr_sysprocs dc ->
  sys_bit_ok (s_notify_pending y) (s_id x) = true ->
  mm_mini_notify (S fuel) cur SELF ep u s =
  Exit (X_RET OK)
    (st s (<[c := notified u x]>
             (<[dst := y <| s_notify_pending ::= set_sys_bit (s_id x) |>]> (k_procs s)))
       (k_umem s) []).
Proof.
  intros Hw Hs Hok. rewrite ex_notify_dispatch.
  pose proof (ld_ptr HD) as Hptr. pose proof (ld_desc HD) as Hy. pose proof (ld_other HD) as Hne.
  unfold notify_local, ERROR_WUNLOCK_PROC. cbn [f_c f_dst frame_to]. rewrite <- Hptr. x_unfold. x.
  rewrite Hw. assert ((s_id y >=? dc_nr_sysprocs dc) = false) as ->.
  { rewrite Z.geb_leb. by apply Z.leb_gt. }
  unfold check_sys_bit, set_notify_pending. x.
  change (s_id x <| p_rcode := OK |>) with (s_id x). rewrite Hok. x.
  eapply eq_trans; [eapply ex_bind, ex_set_update; x_look|]. cbv beta.
  erewrite ex_notify_unlock; [|x_look|x_look|apply (ld_local HD)]. apply st_exit; [|done..].
  unfold notified. x_map_eq.
Qed.

(** A destination that waits gets the message in its descriptor and is woken. *)
Lemma got_notify_remote nr now :
  IT_IS_REMOTE (received (misc_set MIS_BIT_NOTIFY (build_notify false (p_endpoint x) nr now y)))
  = IT_IS_REMOTE y.
Proof using.
  clear. unfold received, woken, build_notify, notify_arg, notify_slots, IT_IS_REMOTE, rts.
  repeat case_match; cbn; by bits.
Qed.

Lemma ex_notify_wakes :
  waits_for y (p_endpoint x) = true ->
  mm_mini_notify (S fuel) cur SELF ep u s =
  Exit (X_RET OK)
    (st s (<[c := notified u x]>
             (<[dst := received (misc_set MIS_BIT_NOTIFY
                         (build_notify false (p_endpoint x) (p_nr x) (k_clock s) y))]> (k_procs s)))
       (k_umem s) []).
Proof.
  intros Hw. rewrite ex_notify_dispatch.
  pose proof (eq_trans (got_notify_remote (p_nr x) (k_clock s)) (ld_local HD)) as Hrem.
  pose proof (ld_ptr HD) as Hptr. pose proof (ld_desc HD) as Hy. pose proof (ld_other HD) as Hne.
  unfold notify_local. cbn [f_c f_dst frame_to]. rewrite <- Hptr. x. rewrite Hw.
  rewrite bind_assoc. eapply eq_trans; [eapply ex_bind, ex_set_update; x_look|]. cbv beta.
  rewrite bind_assoc. eapply eq_trans; [eapply ex_bind, ex_build_notify; x_look|]. cbv beta.
  rewrite bool_decide_false by congruence.
  eapply eq_trans; [eapply ex_bind, ex_wake_notified; x_look|]. cbv beta.
  erewrite ex_notify_unlock; [|x_look|x_look|exact Hrem].
  apply st_exit; [|done..]. x_map_eq.
Qed.
End Notify.

(** ** Receiving a notification *)

(** A receiver [x] that takes the pending notification [id] of process [nr]:
    the message is built in its descriptor and the bit is cleared. *)
Definition took_notify (s : kstate) (dc : dc_t) (c : ptr) (x : proc) (m_ptr id nr : Z) : proc :=
  build_notify (bool_decide (NBR2PTR (p_dcid x) dc nr = c)) nr nr (k_clock s)
    (x <| p_umsg := m_ptr |> <| s_notify_pending ::= unset_sys_bit id |>).

Section Receive.
Context (s : kstate) (cur : Z) (c : ptr) (x : proc) (tk : task_t) (dc : dc_t).
Context (HC : calls_as s cur c x tk dc) (src_ep m_ptr timeout : Z).
Context (Hsrc : source_ok s c x dc src_ep) (Hwk : misc MIS_BIT_WOKENUP x = false).

Lemma ex_receive_notify ep id nr :
  scan_notify dc (s_notify_pending x) 0 src_ep = (ep, Some (id, nr)) -> ep = nr ->
  is_Some (k_umem s !! (t_mm tk, m_ptr)) ->
  let x1 := took_notify s dc c x m_ptr id nr in
  mm_mini_receive cur src_ep m_ptr timeout s =
  Exit (X_RET OK)
    (st s (<[c := x1]> (k_procs s)) (<[(t_mm tk, m_ptr) := p_message x1]> (k_umem s)) []).
Proof.
  intros Hscan -> Hm x1. pose proof (ca_desc HC) as Hx. pose proof (ca_task HC) as Ht.
  rewrite (ex_receive_locked _ _ _ _ _ _ HC) by done.
  unfold receive_locked, ERROR_WUNLOCK_PROC. x_unfold. x. rewrite Hwk. x. rewrite Hscan.
  unfold receive_notify, BUILD_NOTIFY_MSG. x_unfold. x.
  eapply eq_trans; [eapply ex_bind, ex_to_user; [exact Ht|exact Hm]|]. x.
  unfold return_, leave. apply st_exit; [|done..].
  by rewrite !insert_insert_eq.
Qed.

(** A receiver woken by a notification copies it to its buffer. *)
Lemma ex_resume_notified P U x0 w :
  P !! c = Some x0 -> p_rcode (wake_desc timeout w x0) = OK ->
  misc MIS_BIT_NOTIFY (wake_desc timeout w x0) = true ->
  is_Some (U !! (t_mm tk, p_umsg x0)) ->
  resume_receive cur c timeout w (st s P U []) =
  Exit (X_RET OK)
    (st s (<[c := misc_clear MIS_BIT_NOTIFY (wake_desc timeout w x0)]> P)
       (<[(t_mm tk, p_umsg x0) := p_message x0]> U) []).
Proof using HC.
  clear Hsrc Hwk. intros Hc Hr Hn Hm. pose proof (ca_task HC) as Ht.
  unfold resume_receive, sleep_exit, receive_after. x_unfold. x. rewrite Hr.
  change (OK =? OK) with true. cbn [negb]. rewrite Hn.
  assert (E : p_message (wake_desc timeout w x0) = p_message x0 /\
              p_umsg (wake_desc timeout w x0) = p_umsg x0).
  { unfold wake_desc, need_migr. cbv zeta. repeat case_match; done. }
  destruct E as [-> ->].
  eapply eq_trans; [eapply ex_bind, ex_to_user; [exact Ht|exact Hm]|]. x.
  unfold return_, leave. apply st_exit; [|done..]. by rewrite insert_insert_eq.
Qed.

(** One whose wait ends with an error leaves its buffer as it was. *)
Lemma ex_resume_failed P U x0 w :
  P !! c = Some x0 -> p_rcode (wake_desc timeout w x0) <> OK ->
  exists y, resume_receive cur c timeout w (st s P U []) =
    Exit (X_RET (p_rcode (wake_desc timeout w x0))) (st s (<[c := y]> P) U []) /\
    s_notify_pending y = s_notify_pending x0.
Proof using.
  clear. intros Hc Hr. set (x1 := wake_desc timeout w x0) in *.
  exists (misc_clear MIS_BIT_NOTIFY ((rts_clear BIT_RECEIVING x1) <| p_getfrom := NONE |>)). split.
  - unfold resume_receive, sleep_exit, receive_after. x_unfold. x. fold x1.
    rewrite (proj2 (Z.eqb_neq _ _) Hr). x. unfold return_, leave. apply st_exit; [|done..].
    by rewrite !insert_insert_eq.
  - unfold x1, wake_desc, need_migr. cbv zeta. repeat case_match; done.
Qed.
End Receive.

(** ** Properties *)

Lemma get_unset_sys_bit l a b : 0 <= a -> 0 <= b ->
  get_sys_bit (unset_sys_bit a l) b = get_sys_bit l b && negb (b =? a).
Proof.
  intros Ha Hb. unfold unset_sys_bit. destruct (l !! chunk_of a) as [ch|] eqn:Hch.
  2: { unfold get_sys_bit. destruct (Z.eqb_spec b a) as [->|]; [by rewrite Hch|by rewrite andb_true_r]. }
  destruct (id_split a Ha) as (Ea & Da & Ma), (id_split b Hb) as (Eb & Db & Mb).
  unfold get_sys_bit. destruct (decide (chunk_of a = chunk_of b)) as [E|E].
  - rewrite <- E, list_lookup_insert_eq, Hch by (by apply lookup_lt_Some in Hch).
    rewrite Z.clearbit_eqb by lia. do 2 f_equal. unfold chunk_of in E.
    destruct (Z.eqb_spec (a mod BITCHUNK_BITS) (b mod BITCHUNK_BITS)) as [Em|Em]; symmetry.
    + apply Z.eqb_eq. rewrite Ea, Eb, Em. do 2 f_equal. lia.
    + apply Z.eqb_neq. congruence.
  - rewrite list_lookup_insert_ne by done.
    destruct (Z.eqb_spec b a) as [->|]; [done|by rewrite andb_true_r].
Qed.

(** The message of a notification of process [nr], from the endpoint [ep]. *)
Definition is_notify (m : message) (ep nr now : Z) : Prop :=
  m_source m = ep /\ m_type m = NOTIFY_FROM nr /\ m9_t1 m = now.

Lemma build_notify_msg same ep nr now x :
  is_notify (p_message (build_notify same ep nr now x)) (if same then HARDWARE else ep) nr now.
Proof. unfold build_notify, notify_arg, notify_slots. repeat case_match; done. Qed.

(** The other fields of a descriptor in which a notification is built. *)
Lemma build_notify_frame same ep nr now x :
  let x1 := build_notify same ep nr now x in
  s_notify_pending x1 = s_notify_pending x /\ p_list x1 = p_list x /\
  p_rts_flags x1 = p_rts_flags x /\ p_misc_flags x1 = p_misc_flags x /\
  p_umsg x1 = p_umsg x /\ p_pseudosem x1 = p_pseudosem x.
Proof. unfold build_notify, notify_arg, notify_slots. repeat case_match; done. Qed.

(** C8. a receiver takes its lowest pending notification first.  Whatever the
    source it asks for, a receive with notifications pending returns the one
    with the lowest system id, before any message of the queue; the message
    says which process it is from (the hardware, for the receiver's own id)
    and when it was built; the bit is cleared, and only that bit. *)
Theorem receive_takes_notify s cur c x tk dc src_ep m_ptr timeout id :
  calls_as s cur c x tk dc -> source_ok s c x dc src_ep -> misc MIS_BIT_WOKENUP x = false ->
  dc_limits dc -> wf_map (s_notify_pending x) -> is_Some (k_umem s !! (t_mm tk, m_ptr)) ->
  0 <= id < dc_nr_sysprocs dc -> get_sys_bit (s_notify_pending x) id = true ->
  (forall j, 0 <= j < id -> get_sys_bit (s_notify_pending x) j = false) ->
  exists s1 m x1, mm_mini_receive cur src_ep m_ptr timeout s = Exit (X_RET OK) s1 /\
    k_umem s1 = <[(t_mm tk, m_ptr) := m]> (k_umem s) /\
    is_notify m (if bool_decide (NBR2PTR (p_dcid x) dc (id - dc_nr_tasks dc) = c)
                 then HARDWARE else id - dc_nr_tasks dc) (id - dc_nr_tasks dc) (k_clock s) /\
    k_procs s1 = <[c := x1]> (k_procs s) /\
    (forall j, 0 <= j -> get_sys_bit (s_notify_pending x1) j =
                         get_sys_bit (s_notify_pending x) j && negb (j =? id)) /\
    p_list x1 = p_list x /\ p_rts_flags x1 = 0 /\ k_held s1 = [].
Proof.
  intros HC Hsrc Hwk Hdc Hmap Hm Hid Hbit Hlow.
  pose proof (scan_lowest dc _ src_ep id Hdc Hmap Hid Hbit Hlow) as E.
  eexists _, _, _. split; [by eapply ex_receive_notify|]. split_and!; try done.
  - apply build_notify_msg.
  - intros j Hj. unfold took_notify.
    destruct (build_notify_frame (bool_decide (NBR2PTR (p_dcid x) dc (id - dc_nr_tasks dc) = c))
      (id - dc_nr_tasks dc) (id - dc_nr_tasks dc) (k_clock s)
      (x <| p_umsg := m_ptr |> <| s_notify_pending ::= unset_sys_bit id |>)) as [-> _].
    cbn. apply get_unset_sys_bit; lia.
  - unfold took_notify. by edestruct build_notify_frame as (_ & -> & _).
  - unfold took_notify. edestruct build_notify_frame as (_ & _ & -> & _). apply (ca_flags HC).
Qed.

(** *** Both orders of a notification and a receive *)

(** [xa] is a system process of generation 0, as the kernel binds them, and it
    may notify [xb]. *)
Record notifier (pa : ptr) (xa xb : proc) (dc : dc_t) : Prop := {
  nf_limits : dc_limits dc;
  nf_slot : pa = NBR2PTR (p_dcid xa) dc (p_nr xa);
  nf_dc : p_dcid xb = p_dcid xa;
  nf_id : s_id xa = p_nr xa + dc_nr_tasks dc;
  nf_range : 0 <= s_id xa < dc_nr_sysprocs dc;
  nf_ep : p_endpoint xa = p_nr xa;
  nf_priv : s_id xb < dc_nr_sysprocs dc;
  nf_map : sys_bit_ok (s_notify_pending xb) (s_id xa) = true;
}.

Lemma wf_map_set a l : 0 <= a -> wf_map l -> wf_map (set_sys_bit a l).
Proof.
  intros Ha Hl. unfold set_sys_bit. destruct (l !! chunk_of a) as [ch|] eqn:E; [|done].
  pose proof (Forall_lookup_1 _ _ _ _ Hl E) as Hch. cbv beta in Hch.
  apply Forall_insert; [done|]. destruct (id_split a Ha) as (_ & _ & Hm).
  assert (0 <= Z.setbit ch (a mod BITCHUNK_BITS)).
  { rewrite Z.setbit_spec'. apply Z.lor_nonneg. split; [apply Hch|]. apply Z.pow_nonneg. lia. }
  split; [done|]. apply Z.bounded_iff_bits_nonneg; [done|done|]. intros j Hj.
  rewrite Z.setbit_neq by (change BITCHUNK_BITS with 16 in *; lia).
  eapply Z.bounded_iff_bits_nonneg; [| |apply Hch|exact Hj]; [done|apply Hch].
Qed.

Lemma no_notify_wf x : no_notify x -> wf_map (s_notify_pending x).
Proof. intros H. eapply Forall_impl; [|exact H]. by intros ch ->. Qed.

Lemma no_notify_bit x j : no_notify x -> get_sys_bit (s_notify_pending x) j = false.
Proof.
  intros H. unfold get_sys_bit. destruct (_ !! chunk_of j) as [ch|] eqn:E; [|done].
  pose proof (Forall_lookup_1 _ _ _ _ H E) as Hch. cbv beta in Hch. subst. apply Z.bits_0.
Qed.

Section Both.
Context (s : kstate) (ca : Z) (pa : ptr) (xa : proc) (tka : task_t).
Context (cb : Z) (pb : ptr) (xb : proc) (tkb : task_t) (dc : dc_t) (src_ep : Z).
Context (HP : pair s ca pa xa tka cb pb xb tkb dc src_ep) (HN : notifier pa xa xb dc).

(** The destination is busy: it finds the notification at its next receive. *)
Lemma notify_then_receive fuel u b_ptr tb :
  is_Some (k_umem s !! (t_mm tkb, b_ptr)) ->
  exists s1 s2 m, mm_mini_notify (S fuel) ca SELF (p_endpoint xb) u s = Exit (X_RET OK) s1 /\
    mm_mini_receive cb src_ep b_ptr tb s1 = Exit (X_RET OK) s2 /\
    k_umem s2 = <[(t_mm tkb, b_ptr) := m]> (k_umem s) /\
    is_notify m (p_endpoint xa) (p_nr xa) (k_clock s) /\ k_held s2 = [] /\
    (exists yb, k_procs s2 !! pb = Some yb /\
       forall j, 0 <= j -> get_sys_bit (s_notify_pending yb) j = false).
Proof.
  intros Hm. destruct HP as [HA HB HD Hsrc Hacc Hal Hq Hw Hn].
  pose proof (ca_desc HA) as Ha. pose proof (ca_desc HB) as Hb. pose proof (ld_other HD) as Hne.
  set (xb1 := xb <| s_notify_pending ::= set_sys_bit (s_id xa) |>).
  set (P1 := <[pa := notified u xa]> (<[pb := xb1]> (k_procs s))).
  exists (st s P1 (k_umem s) []).
  assert (E1 : mm_mini_notify (S fuel) ca SELF (p_endpoint xb) u s =
               Exit (X_RET OK) (st s P1 (k_umem s) [])).
  { apply (ex_notify_pends _ _ _ _ _ _ _ _ _ HA HD (nf_range _ _ _ _ HN));
      [|apply (nf_priv _ _ _ _ HN)|apply (nf_map _ _ _ _ HN)].
    unfold waits_for, receiving_only. by rewrite (rts_zero _ _ (ca_flags HB)). }
  assert (HB1 : calls_as (st s P1 (k_umem s) []) cb pb xb1 tkb dc).
  { eapply calls_as_same; [exact HB| |done..]. unfold P1. by rewrite lookup_insert_ne, lookup_insert_eq. }
  assert (Hs1 : source_ok (st s P1 (k_umem s) []) pb xb1 dc src_ep).
  { eapply source_ok_same; [exact Hsrc|done..|].
    eapply same_source_insert; [|exact Ha|].
    - eapply same_source_insert; [apply same_source_refl|exact Hb|by repeat split].
    - unfold notified, updated. case_match; by repeat split. }
  pose proof (nf_range _ _ _ _ HN) as Hr.
  assert (Hbits : forall j, 0 <= j -> get_sys_bit (s_notify_pending xb1) j = bool_decide (s_id xa = j)).
  { intros j Hj. unfold xb1. cbn. rewrite get_set_sys_bit by (lia || apply (nf_map _ _ _ _ HN)).
    by rewrite (no_notify_bit _ _ Hq), orb_false_r. }
  assert (Hnr : s_id xa - dc_nr_tasks dc = p_nr xa) by (rewrite (nf_id _ _ _ _ HN); lia).
  assert (Hscan : scan_notify dc (s_notify_pending xb1) 0 src_ep = (p_nr xa, Some (s_id xa, p_nr xa))).
  { rewrite <- Hnr. apply scan_lowest; [apply (nf_limits _ _ _ _ HN)| |done|rewrite Hbits by lia; by apply bool_decide_true|].
    - apply wf_map_set; [lia|]. by apply no_notify_wf.
    - intros j Hj. rewrite Hbits by lia. apply bool_decide_false. lia. }
  pose proof (ex_receive_notify _ _ _ _ _ _ HB1 src_ep b_ptr tb Hs1 Hw _ _ _ Hscan eq_refl Hm) as E2.
  eexists _, _. split; [exact E1|]. split; [exact E2|]. split_and!; [done| |done|].
  - rewrite (nf_ep _ _ _ _ HN).
    assert (Hd : bool_decide (NBR2PTR (p_dcid xb1) dc (p_nr xa) = pb) = false).
    { apply bool_decide_false. change (p_dcid xb1) with (p_dcid xb).
      rewrite (nf_dc _ _ _ _ HN), <- (nf_slot _ _ _ _ HN). congruence. }
    pose proof (build_notify_msg false (p_nr xa) (p_nr xa) (k_clock s)
      (xb1 <| p_umsg := b_ptr |> <| s_notify_pending ::= unset_sys_bit (s_id xa) |>)) as Hmsg.
    unfold took_notify. rewrite Hd. exact Hmsg.
  - eexists. rewrite st_procs, lookup_insert_eq. split; [done|]. intros j Hj. unfold took_notify.
    edestruct build_notify_frame as [-> _].
    change (get_sys_bit (unset_sys_bit (s_id xa) (s_notify_pending xb1)) j = false).
    rewrite get_unset_sys_bit, Hbits by lia.
    destruct (Z.eqb_spec j (s_id xa)) as [->|]; [by rewrite andb_false_r|].
    by rewrite bool_decide_false by congruence.
Qed.

(** What is left in the descriptor of the receiver that slept. *)
Lemma slept_notified_awake b_ptr x0 :
  received (misc_set MIS_BIT_NOTIFY
    (build_notify false (p_endpoint xa) (p_nr xa) (k_clock s) (waiting src_ep b_ptr xb))) = x0 ->
  p_rts_flags xb = 0 -> awake x0 /\ misc MIS_BIT_NOTIFY x0 = true /\ p_umsg x0 = b_ptr /\
  s_notify_pending x0 = s_notify_pending xb /\
  is_notify (p_message x0) (p_endpoint xa) (p_nr xa) (k_clock s).
Proof using.
  clear HP HN. intros <- Hf. set (w := waiting src_ep b_ptr xb).
  pose proof (build_notify_msg false (p_endpoint xa) (p_nr xa) (k_clock s) w) as Hm.
  destruct (build_notify_frame false (p_endpoint xa) (p_nr xa) (k_clock s) w)
    as (F1 & F2 & F3 & F4 & F5 & F6).
  set (y := build_notify _ _ _ _ w) in *. clearbody y.
  assert (Hy : clear_bit BIT_RECEIVING (p_rts_flags y) = 0).
  { rewrite F3. unfold w, waiting. cbn. by rewrite Hf. }
  unfold received, woken, rts_clear, awake, misc, misc_set. cbn. rewrite Hy. cbn.
  split_and!; try done; [by rewrite F6|by bits].
Qed.

(** The receiver leaves its wait with the notification. *)
Lemma notified_leaves P U b_ptr tb w x0 :
  P !! pb = Some x0 -> awake x0 -> misc MIS_BIT_NOTIFY x0 = true -> p_umsg x0 = b_ptr ->
  is_Some (U !! (t_mm tkb, b_ptr)) -> (if tb <? 0 then w = 0 else 0 < w) ->
  exists y, resume_receive cb pb tb w (st s P U []) = Exit (X_RET OK)
    (st s (<[pb := y]> P) (<[(t_mm tkb, b_ptr) := p_message x0]> U) []) /\
    s_notify_pending y = s_notify_pending x0.
Proof using HP.
  clear HN. intros H0 (G1 & G2 & G3) G4 G5 Hm Hw.
  pose proof (pr_b _ _ _ _ _ _ _ _ _ _ _ HP) as HB.
  assert (Hwk : wake_rcode (p_rcode x0) tb w = OK).
  { unfold wake_rcode. rewrite G2. cbn [Z.ltb]. destruct (tb <? 0) eqn:Et.
    - subst w. apply Z.ltb_lt in Et. cbn. destruct (Z.leb_spec 0 tb); [lia|done].
    - destruct (Z.ltb_spec w 0); [lia|]. destruct (Z.eqb_spec w 0); [lia|done]. }
  assert (Hd : p_rcode (wake_desc tb w x0) = OK /\ misc MIS_BIT_NOTIFY (wake_desc tb w x0) = true /\
               s_notify_pending (wake_desc tb w x0) = s_notify_pending x0).
  { unfold wake_desc. rewrite Hwk. unfold need_migr, misc in *. cbv zeta. cbn.
    destruct (test_bit MIS_BIT_NEEDMIGR _); cbn; bits; auto. }
  destruct Hd as (D1 & D2 & D3). eexists. split.
  - rewrite <- G5. apply (ex_resume_notified _ _ _ _ _ _ HB); [done..|]. by rewrite G5.
  - exact D3.
Qed.

(** An interrupt that comes with it takes its place. *)
Lemma interrupt_leaves P U tb x0 :
  P !! pb = Some x0 -> awake x0 ->
  exists y, resume_receive cb pb tb (- ERESTARTSYS) (st s P U []) =
    Exit (X_RET (- ERESTARTSYS)) (st s (<[pb := y]> P) U []) /\
    s_notify_pending y = s_notify_pending x0.
Proof using.
  intros H0 (_ & G2 & _).
  assert (E : p_rcode (wake_desc tb (- ERESTARTSYS) x0) = - ERESTARTSYS).
  { unfold wake_desc, wake_rcode, need_migr. rewrite G2. cbv zeta. cbn. repeat case_match; done. }
  destruct (ex_resume_failed s cb pb tb P U x0 (- ERESTARTSYS) H0) as (y & Hy & Hp); [by rewrite E|].
  rewrite E in Hy. by exists y.
Qed.

(** The destination waits: it is woken, and finds the notification in its
    buffer, or an interrupt. *)
Lemma receive_then_notify fuel u b_ptr tb w :
  is_Some (k_umem s !! (t_mm tkb, b_ptr)) -> tb <> TIMEOUT_NOWAIT ->
  (if tb <? 0 then w = 0 else 0 < w) ->
  exists s1 s2 s3 s4 m, mm_mini_receive cb src_ep b_ptr tb s = Exit (X_SLEEP (K_RECEIVE pb tb)) s1 /\
    mm_mini_notify (S fuel) ca SELF (p_endpoint xb) u s1 = Exit (X_RET OK) s2 /\
    (exists y, k_procs s2 !! pb = Some y /\ awake y) /\
    (resume_receive cb pb tb w s2 = Exit (X_RET OK) s3 /\
     k_umem s3 = <[(t_mm tkb, b_ptr) := m]> (k_umem s) /\
     is_notify m (p_endpoint xa) (p_nr xa) (k_clock s) /\ k_held s3 = [] /\
     (exists yb, k_procs s3 !! pb = Some yb /\
        forall j, 0 <= j -> get_sys_bit (s_notify_pending yb) j = false)) /\
    (resume_receive cb pb tb (- ERESTARTSYS) s2 = Exit (X_RET (- ERESTARTSYS)) s4 /\
     k_umem s4 = k_umem s /\
     (exists yb, k_procs s4 !! pb = Some yb /\
        forall j, 0 <= j -> get_sys_bit (s_notify_pending yb) j = false)).
Proof.
  intros Hm Ht Hw. destruct (dst_waiting _ _ _ _ _ _ _ _ _ _ _ HP b_ptr) as (HA1 & HD1 & Hwt).
  pose proof (pr_b _ _ _ _ _ _ _ _ _ _ _ HP) as HB.
  pose proof (pr_quiet _ _ _ _ _ _ _ _ _ _ _ HP) as Hq.
  pose proof (ld_other (pr_dst _ _ _ _ _ _ _ _ _ _ _ HP)) as Hne.
  pose proof (receive_first _ _ _ _ _ _ _ _ _ _ _ HP b_ptr tb Ht) as E1.
  pose proof (ex_notify_wakes _ _ _ _ _ _ _ _ _ HA1 HD1 (nf_range _ _ _ _ HN) fuel u Hwt) as E2.
  pose proof (slept_notified_awake b_ptr _ eq_refl (ca_flags HB)) as (Haw & G4 & G5 & G6 & G7).
  rewrite st_st, st_procs, st_umem, st_clock in E2.
  generalize dependent (received (misc_set MIS_BIT_NOTIFY
    (build_notify false (p_endpoint xa) (p_nr xa) (k_clock s) (waiting src_ep b_ptr xb)))).
  intros x0 E2 Haw G4 G5 G6 G7. clear HA1 HD1.
  generalize dependent (<[pb := waiting src_ep b_ptr xb]> (k_procs s)). intros P1 E1 E2.
  generalize dependent (notified u xa). intros a1 E2.
  assert (H0 : <[pa := a1]> (<[pb := x0]> P1) !! pb = Some x0) by (by rewrite lookup_insert_ne, lookup_insert_eq).
  destruct (notified_leaves _ (k_umem s) b_ptr tb w x0 H0) as (y & E3 & Hy); [done..|].
  destruct (interrupt_leaves _ (k_umem s) tb x0 H0 Haw) as (y' & E4 & Hy').
  assert (Hnone : forall z, s_notify_pending z = s_notify_pending x0 ->
    forall j, 0 <= j -> get_sys_bit (s_notify_pending z) j = false).
  { intros z -> j _. rewrite G6. by apply no_notify_bit. }
  eexists _, _, _, _, _. split; [exact E1|]. split; [exact E2|].
  split; [exists x0; by rewrite st_procs|]. split; (split; [eassumption|]).
  - split_and!; [reflexivity|exact G7|reflexivity|]. exists y. rewrite st_procs, lookup_insert_eq. auto.
  - split; [reflexivity|]. exists y'. rewrite st_procs, lookup_insert_eq. auto.
Qed.
End Both.

(** The notification of [xa] is in the buffer of the receiver at [pb] and is
    no longer pending; no lock is held. *)
Definition notify_seen (s s2 : kstate) (pb : ptr) (tkb : task_t) (b_ptr : Z) (xa : proc) : Prop :=
  (exists m, k_umem s2 = <[(t_mm tkb, b_ptr) := m]> (k_umem s) /\
     is_notify m (p_endpoint xa) (p_nr xa) (k_clock s)) /\
  k_held s2 = [] /\
  (exists yb, k_procs s2 !! pb = Some yb /\
     forall j, 0 <= j -> get_sys_bit (s_notify_pending yb) j = false).

(** The notification is neither in memory nor pending. *)
Definition notify_lost (s s2 : kstate) (pb : ptr) : Prop :=
  k_umem s2 = k_umem s /\
  (exists yb, k_procs s2 !! pb = Some yb /\
     forall j, 0 <= j -> get_sys_bit (s_notify_pending yb) j = false).

(** C7. A notification, in either order with a receive.  A system process whose
    endpoint is of generation 0 notifies a process of its node that is its pair: bound,
    of its DC, with nothing in its queue and no other notification pending.  When the
    destination receives afterwards, or waits already with a timeout other than
    [TIMEOUT_NOWAIT] and its wait ends with success, the notification is in its buffer
    with the number and endpoint of the notifier and the time, no bit is pending and no
    lock is held; the notifier never sleeps, and a receiver that came first is woken.
    When the wait of the receiver ends with an interrupt instead, after the
    notification has been sent, the receive returns the error and the notification is
    lost: the buffer is as before and no bit is pending. *)
Theorem notify_both_orders s ca pa xa tka cb pb xb tkb dc src_ep fuel u b_ptr tb w :
  pair s ca pa xa tka cb pb xb tkb dc src_ep -> notifier pa xa xb dc ->
  is_Some (k_umem s !! (t_mm tkb, b_ptr)) -> tb <> TIMEOUT_NOWAIT ->
  (if tb <? 0 then w = 0 else 0 < w) ->
  let notify := mm_mini_notify (S fuel) ca SELF (p_endpoint xb) u in
  let receive := mm_mini_receive cb src_ep b_ptr tb in
  (exists s1 s2, notify s = Exit (X_RET OK) s1 /\ receive s1 = Exit (X_RET OK) s2 /\
     notify_seen s s2 pb tkb b_ptr xa) /\
  (exists s1 s2 s3 s4, receive s = Exit (X_SLEEP (K_RECEIVE pb tb)) s1 /\
     notify s1 = Exit (X_RET OK) s2 /\
     (exists y, k_procs s2 !! pb = Some y /\ awake y) /\
     (resume_receive cb pb tb w s2 = Exit (X_RET OK) s3 /\ notify_seen s s3 pb tkb b_ptr xa) /\
     (resume_receive cb pb tb (- ERESTARTSYS) s2 = Exit (X_RET (- ERESTARTSYS)) s4 /\ notify_lost s s4 pb)).
Proof.
  intros HP HN Hm Ht Hw notify receive. split.
  - destruct (notify_then_receive _ _ _ _ _ _ _ _ _ _ _ HP HN fuel u b_ptr tb Hm)
      as (s1 & s2 & m & E1 & E2 & Hu & Hn & Hh & Hp).
    exists s1, s2. do 2 (split; [done|]). split_and!; [exists m; done|done|done].
  - destruct (receive_then_notify _ _ _ _ _ _ _ _ _ _ _ HP HN fuel u b_ptr tb w Hm Ht Hw)
      as (s1 & s2 & s3 & s4 & m & E1 & E2 & Ha & (E3 & Hu & Hn & Hh & Hp) & E4 & Hl).
    exists s1, s2, s3, s4. do 3 (split; [done|]). split; (split; [done|]).
    + split_and!; [exists m; done|done|done].
    + exact Hl.
Qed.
