(* ===== verification/RemoteExec.v ===== *)
(** * The proxies on a symbolic state

    What the steps of a remote operation do, as equations on a state in normal
    form: the sender proxy that takes a descriptor off its queue and delivers
    the header of its command, and the receiver proxy that hands a header to
    the processes it names. *)

From S2P Require Import Prelude Types Endpoint Kernel Utils IpcCommon QueueLogic Exec.
From S2P Require Import Send Receive Sproxy Rproxy Rendezvous.

(** Comparisons of two command codes. *)
Ltac x_const :=
  repeat match goal with
  | |- context [?a =? ?b] =>
      let v := eval cbv in (a =? b) in
      lazymatch v with true => idtac | false => idtac end; change (a =? b) with v
  end; cbn [andb orb negb].

(** ** The sender proxy *)

(** The command of [x], which is queued on the proxy [z] of the node [nd],
    passes the checks of the proxy. *)
Record passes (s : kstate) (x z : proc) (nd : node_t) (dc : dc_t) : Prop := {
  ps_node : k_nodes s !! c_dnode (p_rmtcmd x) = Some nd;
  ps_dc : k_dcs s !! p_dcid x = Some dc;
  ps_run : dc_flags dc = 0;
  ps_status : queued_status (k_nr_dcs s) nd x z = OK;
}.

Lemma queued_ok n x z nd :
  rts BIT_SLOT_FREE x = false -> rts BIT_MIGRATE x = false -> 0 <= p_dcid x < n ->
  test_bit (p_dcid x) (n_dcs nd) = true -> test_bit (c_dnode (p_rmtcmd x)) (p_nodemap z) = true ->
  queued_status n nd x z = OK.
Proof.
  intros Hf Hm Hd Hn Hz. unfold queued_status. by rewrite Hf, Hn, (in_table _ _ Hd), Hm, Hz.
Qed.

Lemma ex_get2rmt_take s P U sp xpp z x nd dc :
  P !! sp = Some z -> P !! xpp = Some x -> sp <> xpp -> p_link x = Some sp -> passes s x z nd dc ->
  get2rmt_take sp xpp (st s P U [L_PROC sp]) =
  Val OK (st s (<[sp := z <| p_list ::= del xpp |> <| p_dcid := dc_dcid dc |>]>
                 (<[xpp := x <| p_link := None |>]> P)) U []).
Proof.
  intros Hz Hx Hne Hl [Hn Hd Hr Hs]. unfold get2rmt_take, LIST_DEL_P. x_unfold. x. rewrite Hl. x.
  change (queued_status _ _ _ _) with (queued_status (k_nr_dcs s) nd x z). rewrite Hs. x.
  rewrite Hr. x. x_val.
Qed.

(** The descriptor whose command was delivered, and the proxy. *)
Definition delivered_cmd (x : proc) : proc :=
  x <| p_rmtcmd ::= (fun h => h <| c_cmd := CMD_NONE |>) |> <| p_proxy := NONE |>.
Definition proxy_done (z : proc) : proc :=
  z <| p_getfrom := NONE |> <| p_rmtsent ::= ulong_inc |> <| p_dcid := -1 |>.

(** The header in the memory of the proxy program, and the statistics of the
    node. *)
Definition header_out (mm hdr : Z) (h : cmd_t) (nd : node_t) (s : kstate) : kstate :=
  s <| k_uhdr ::= <[(mm, hdr) := h]> |>
    <| k_nodes ::= <[c_dnode h := nd <| n_stimestamp := k_clock s |> <| n_pxsent ::= ulong_inc |>]> |>.

Lemma ex_get2rmt_deliver {A} s P U cur tk sp xpp z x nd hdr h0 :
  P !! sp = Some z -> P !! xpp = Some x -> sp <> xpp -> misc MIS_BIT_KTHREAD z = false ->
  k_tasks s !! cur = Some tk -> k_uhdr s !! (t_mm tk, hdr) = Some h0 ->
  k_nodes s !! c_dnode (p_rmtcmd x) = Some nd ->
  get2rmt_deliver (A := A) cur sp xpp hdr (st s P U [L_PROC xpp]) =
  Exit (X_RET OK) (st (header_out (t_mm tk) hdr (p_rmtcmd x) nd s)
    (<[sp := proxy_done z]> (<[xpp := delivered_cmd x]> P)) U []).
Proof.
  intros Hz Hx Hne Hk Ht Hh Hn. unfold get2rmt_deliver. x_unfold. x. rewrite Hk.
  unfold copy_to_user_hdr. x. cbn [k_uhdr st]. change (k_uhdr (st s P U _)) with (k_uhdr s). rewrite Hh.
  rewrite bind_assoc. rewrite (ex_bind _ _ _ _ _ (ex_modify_uhdr _ _ _ _ _)). x. x_exit.
Qed.

(** The header of a message that leaves the node, and its sender. *)
Definition send_header (now : Z) (x : proc) : cmd_t :=
  (p_rmtcmd x) <| c_timestamp := now |> <| cu_msg ::= fun m => m <| m_source := p_endpoint x |> |>.
Definition sent_out (now : Z) (x : proc) : proc :=
  delivered_cmd ((rts_clear BIT_RMTOPER x) <| p_link := None |> <| p_rmtcmd := send_header now x |>).

(** The header of an acknowledge, and the descriptor that carried it. *)
Definition ack_header (now : Z) (x : proc) : cmd_t := (p_rmtcmd x) <| c_timestamp := now |>.
Definition acked_out (now : Z) (x : proc) : proc :=
  delivered_cmd ((rts_clear BIT_RMTOPER (rts_clear BIT_SENDING x))
    <| p_link := None |> <| p_sendto := NONE |> <| p_rmtcmd := ack_header now x |>).

Lemma st_exit_base {A} e s s' P P' U H :
  s = s' -> P = P' -> @Exit A e (st s P U H) = Exit e (st s' P' U H).
Proof. by intros -> ->. Qed.

(** The proxy after it has delivered the command of [xpp]. *)
Definition proxy_sent (xpp : ptr) (z : proc) : proc := proxy_done (z <| p_list ::= del xpp |>).

(** The task [cur] of a sender proxy that is held by no kernel thread, with a
    buffer for headers. *)
Record proxy_task (s : kstate) (cur : Z) (tk : task_t) (z : proc) (hdr : Z) : Prop := {
  pt_task : k_tasks s !! cur = Some tk;
  pt_user : misc MIS_BIT_KTHREAD z = false;
  pt_hdr : exists h0, k_uhdr s !! (t_mm tk, hdr) = Some h0;
}.

(** The destination of the command is still on the node the command is for. *)
Lemma ex_get2rmt_settled s P U xpp x dst y dc :
  P !! xpp = Some x -> k_dcs s !! p_dcid x = Some dc ->
  dst = ENDPOINT2PTR (p_dcid x) dc (c_dst (p_rmtcmd x)) -> dst <> xpp -> P !! dst = Some y ->
  p_nodeid y = c_dnode (p_rmtcmd x) ->
  get2rmt_migrated xpp (st s P U [L_PROC xpp]) = Val false (st s P U [L_PROC xpp]).
Proof.
  intros Hx Hd Hdst Hne Hy Hn. unfold get2rmt_migrated. x. rewrite <- Hdst.
  eapply eq_trans; [eapply ex_bind, ex_ordered2; [x_look..|congruence]|]. x_unfold. unfold both_locks.
  case_match; x; rewrite Hn; by x_red.
Qed.

Section One.
Context (s : kstate) (P : gmap ptr proc) (U : gmap (Z * Z) message).
Context (cur : Z) (tk : task_t) (sp xpp : ptr) (z x : proc) (nd : node_t) (dc : dc_t) (hdr pay : Z).
Context (HT : proxy_task s cur tk z hdr).
Context (Hz : P !! sp = Some z) (Hx : P !! xpp = Some x) (Hne : sp <> xpp) (Hl : p_link x = Some sp).
Context (HP : passes s x z nd dc).

Lemma ex_get2rmt_one_ack :
  IT_IS_LOCAL x = false -> c_cmd (p_rmtcmd x) = CMD_SEND_ACK ->
  get2rmt_one cur sp xpp hdr pay (st s P U [L_PROC sp]) =
  Exit (X_RET OK) (st (header_out (t_mm tk) hdr (ack_header (k_clock s) x) nd s)
    (<[sp := proxy_sent xpp z]> (<[xpp := acked_out (k_clock s) x]> P)) U []).
Proof.
  intros Hr Hc. destruct HT as [Ht Hk [h0 Hh]]. pose proof (ps_node _ _ _ _ _ HP) as Hn.
  pose proof (ps_dc _ _ _ _ _ HP) as Hd.
  unfold get2rmt_one.
  rewrite (ex_bind _ _ _ _ _ (ex_get2rmt_take _ _ _ _ _ _ _ _ _ Hz Hx Hne Hl HP)). x_unfold. x.
  change (IT_IS_LOCAL (x <| p_link := None |>)) with (IT_IS_LOCAL x). rewrite Hr. x.
  unfold get2rmt_send. x.
  change (IT_IS_REMOTE (x <| p_link := None |>)) with (IT_IS_REMOTE x).
  unfold IT_IS_LOCAL in Hr. apply negb_false_iff in Hr. unfold IT_IS_REMOTE. rewrite Hr. rewrite bind_assoc.
  unfold get2rmt_ack. x. change (c_cmd (p_rmtcmd _)) with (c_cmd (p_rmtcmd x)). rewrite Hc. x.
  eapply eq_trans; [eapply ex_get2rmt_deliver; [x_look|x_look|done|exact Hk|exact Ht|exact Hh|exact Hn]|].
  apply st_exit_base; [done|x_map_eq].
Qed.

Lemma ex_get2rmt_one_send dst y :
  IT_IS_LOCAL x = true -> c_cmd (p_rmtcmd x) = CMD_SEND_MSG ->
  dst = ENDPOINT2PTR (p_dcid x) dc (c_dst (p_rmtcmd x)) -> dst <> xpp -> dst <> sp ->
  P !! dst = Some y -> p_nodeid y = c_dnode (p_rmtcmd x) ->
  get2rmt_one cur sp xpp hdr pay (st s P U [L_PROC sp]) =
  Exit (X_RET OK) (st (header_out (t_mm tk) hdr (send_header (k_clock s) x) nd s)
    (<[sp := proxy_sent xpp z]> (<[xpp := sent_out (k_clock s) x]> P)) U []).
Proof.
  intros Hr Hc Hdst Hdx Hds Hy Hny. destruct HT as [Ht Hk [h0 Hh]]. pose proof (ps_node _ _ _ _ _ HP) as Hn.
  pose proof (ps_dc _ _ _ _ _ HP) as Hd.
  unfold get2rmt_one.
  rewrite (ex_bind _ _ _ _ _ (ex_get2rmt_take _ _ _ _ _ _ _ _ _ Hz Hx Hne Hl HP)). x_unfold. x.
  change (IT_IS_LOCAL (x <| p_link := None |>)) with (IT_IS_LOCAL x). rewrite Hr.
  eapply eq_trans; [eapply ex_bind, (ex_get2rmt_settled _ _ _ _ _ dst y); [x_look|exact Hd|done|done|x_look|done]|].
  unfold get2rmt_send. x.
  change (IT_IS_REMOTE (x <| p_link := None |>)) with (IT_IS_REMOTE x).
  unfold IT_IS_LOCAL in Hr. apply negb_true_iff in Hr. unfold IT_IS_REMOTE. rewrite Hr. rewrite bind_assoc.
  unfold get2rmt_request. x. change (c_cmd (p_rmtcmd _)) with (c_cmd (p_rmtcmd x)). rewrite Hc. x_const.
  unfold set_cmd_source. x.
  eapply eq_trans; [eapply ex_get2rmt_deliver; [x_look|x_look|done|exact Hk|exact Ht|exact Hh|exact Hn]|].
  apply st_exit_base; [done|x_map_eq].
Qed.
End One.

(** A wait that ended because its condition holds. *)
Definition wakes (timeout w : Z) : Prop := if timeout <? 0 then w = 0 else 0 < w.

Lemma wake_desc_ok timeout w x :
  p_rcode x = OK -> misc MIS_BIT_NEEDMIGR x = false -> wakes timeout w -> wake_desc timeout w x = x.
Proof.
  intros Hr Hm Hw. assert (E : wake_rcode OK timeout w = OK).
  { unfold wakes in Hw. unfold wake_rcode. cbn. destruct (timeout <? 0) eqn:Ht.
    - apply Z.ltb_lt in Ht. subst w. cbn. destruct (Z.leb_spec 0 timeout); [lia|done].
    - destruct (Z.ltb_spec w 0), (Z.eqb_spec w 0); done || lia. }
  assert (Ex : x <| p_rcode := OK |> = x) by (rewrite <- Hr; by destruct x).
  unfold wake_desc. rewrite Hr, E, Ex. x_red. unfold need_migr. by rewrite Hm.
Qed.

(** A sender proxy that was woken delivers the first descriptor of its queue. *)
Lemma ex_resume_get2rmt s P U fuel cur sp hdr pay timeout w z xpp l e s' :
  P !! sp = Some z -> p_rcode z = OK -> misc MIS_BIT_NEEDMIGR z = false -> wakes timeout w ->
  p_list z = xpp :: l ->
  get2rmt_one cur sp xpp hdr pay (st s P U [L_PROC sp]) = Exit e s' ->
  resume_get2rmt (S fuel) cur sp hdr pay timeout w (st s P U []) = Exit e s'.
Proof.
  intros Hz Hr Hm Hw Hl E. unfold resume_get2rmt, sleep_exit, get2rmt_slept. x_unfold. x.
  rewrite (wake_desc_ok _ _ _ Hr Hm Hw), Hr, (insert_id _ _ _ Hz). x.
  cbn [get2rmt_loop]. x. rewrite Hl. cbn [get2rmt_queue]. unfold mbind at 1 2. by rewrite E.
Qed.

(** ** The queue of the sender proxy *)

(** An idle sender proxy [z]: it is connected and waits for commands. *)
Record idle_proxy (z : proc) : Prop := {
  ip_flags : p_rts_flags z = Z.shiftl 1 BIT_RECEIVING;
  ip_pid : p_lpid z <> PROC_NO_PID;
  ip_proxy : misc MIS_BIT_PROXY z = true;
  ip_conn : misc MIS_BIT_CONNECTED z = true;
  ip_migr : misc MIS_BIT_NEEDMIGR z = false;
  ip_user : misc MIS_BIT_KTHREAD z = false;
  ip_list : p_list z = [];
}.

(** The descriptor queued on it, and the proxy that it wakes. *)
Definition enqueued (sp : ptr) (z x : proc) : proc := x <| p_proxy := p_nr z |> <| p_link := Some sp |>.
Definition proxy_woken (xpp : ptr) (z : proc) : proc :=
  (rts_clear BIT_RECEIVING z)
    <| p_list ::= fun l => l ++ [xpp] |> <| p_rcode := OK |> <| p_pseudosem ::= Z.add 1 |>.

Lemma ex_check_sproxy s P U H n nd sp z :
  k_nodes s !! n = Some nd -> sp = SPROXY (n_proxies nd) -> P !! sp = Some z -> L_PROC sp ∉ H ->
  idle_proxy z -> check_sproxy n (st s P U H) = Val OK (st s P U H).
Proof.
  intros Hn -> Hz Hh [Hf Hp Hx Hc _ _ _]. unfold check_sproxy, NODE2SPROXY. x_unfold. x.
  eapply eq_trans; [eapply ex_bind, ex_lock, Hh|]. x. rewrite (del_notin _ _ Hh).
  unfold mret, sproxy_status. apply Z.eqb_neq in Hp. rewrite Hp, Hx, Hc. unfold rts. by rewrite Hf.
Qed.

Lemma ex_sproxy_enqueue s P U H p x nd sp z :
  P !! p = Some x -> k_nodes s !! c_dnode (p_rmtcmd x) = Some nd -> sp = SPROXY (n_proxies nd) ->
  P !! sp = Some z -> sp <> p -> L_PROC sp ∉ H -> idle_proxy z ->
  sproxy_enqueue p (st s P U H) =
  Val OK (st s (<[sp := proxy_woken p z]> (<[p := enqueued sp z x]> P)) U H).
Proof.
  intros Hx Hn Hsp Hz Hne Hh [Hf _ _ _ _ _ _].
  unfold sproxy_enqueue, LIST_ADD_TAIL_P, LOCAL_PROC_UP, NODE2SPROXY. x_unfold. x. rewrite <- Hsp.
  eapply eq_trans; [eapply ex_bind, ex_lock, Hh|]. x. rewrite Hf. x_const. x.
  replace (rts BIT_RECEIVING _) with true by (unfold rts; cbn; by rewrite Hf). x.
  replace (p_rts_flags (rts_clear BIT_RECEIVING _)) with 0 by (unfold rts_clear; cbn; by rewrite Hf). x.
  unfold mret. rewrite (del_notin _ _ Hh). x_val.
Qed.

(** ** The receiver proxy *)

(** The receiver proxy [w], at [rp], of the task [cur], which runs as root. *)
Record rproxy_as (s : kstate) (cur : Z) (rp : ptr) (w : proc) (tk : task_t) : Prop := {
  rp_init : DVS_NOT_INIT s = false;
  rp_held : k_held s = [];
  rp_task : k_tasks s !! cur = Some tk;
  rp_root : t_euid tk = USER_ROOT;
  rp_bound : task_proc tk = Some rp;
  rp_desc : k_procs s !! rp = Some w;
  rp_ptask : p_task w = Some cur;
  rp_flags : p_rts_flags w = 0;
  rp_migr : misc MIS_BIT_NEEDMIGR w = false;
  rp_proxy : misc MIS_BIT_PROXY w = true;
  rp_conn : misc MIS_BIT_CONNECTED w = true;
  rp_user : misc MIS_BIT_KTHREAD w = false;
}.

Arguments rp_init {s cur rp w tk} _.
Arguments rp_held {s cur rp w tk} _.
Arguments rp_task {s cur rp w tk} _.
Arguments rp_root {s cur rp w tk} _.
Arguments rp_bound {s cur rp w tk} _.
Arguments rp_desc {s cur rp w tk} _.
Arguments rp_ptask {s cur rp w tk} _.
Arguments rp_flags {s cur rp w tk} _.
Arguments rp_migr {s cur rp w tk} _.
Arguments rp_proxy {s cur rp w tk} _.
Arguments rp_conn {s cur rp w tk} _.
Arguments rp_user {s cur rp w tk} _.

Section Put.
Context (s : kstate) (cur : Z) (rp : ptr) (w : proc) (tk : task_t).
Context (HR : rproxy_as s cur rp w tk).

Lemma rp_st : s = st s (k_procs s) (k_umem s) [].
Proof. rewrite (st_id s) at 1. by rewrite (rp_held HR). Qed.

Lemma ex_check_caller_proxy cl : check_caller cur cl s = Val (rp, cur) s.
Proof.
  destruct HR. rewrite rp_st. unfold check_caller, caller_binding.
  rewrite bind_assoc. x_unfold. x_step. rewrite rp_bound0.
  replace (if bool_decide (t_leader tk = Some cur) then mret (rp, cur) else mret (rp, cur))
    with (mret (rp, cur)) by (by case_bool_decide).
  x. unfold need_migr. rewrite rp_migr0, insert_id by done.
  assert (Hf : forall b, rts b w = false).
  { intros b. unfold rts. rewrite rp_flags0. apply test_bit_0. }
  rewrite Hf. unfold check_caller_tail. x_unfold. x.
  rewrite rp_flags0, andb_false_r. x. rewrite rp_proxy0. by x.
Qed.

(** The proxy once it has read the header [h]. *)
Definition rproxy_read (h : cmd_t) (pay : Z) (v : proc) : proc := v <| p_umsg := pay |> <| p_rmtcmd := h |>.

Lemma ex_put2lcl_header uh pay h :
  k_uhdr s !! (t_mm tk, uh) = Some h ->
  put2lcl_header cur rp uh pay s =
  Val h (st s (<[rp := rproxy_read h pay w]> (k_procs s)) (k_umem s) []).
Proof.
  intros Hh. destruct HR. rewrite rp_st at 1. unfold put2lcl_header. x_unfold. x.
  assert (Hf : rts BIT_SLOT_FREE w = false) by (unfold rts; rewrite rp_flags0; apply test_bit_0).
  rewrite Hf, rp_proxy0, rp_conn0, rp_user0. x.
  change (k_uhdr (st s _ _ _)) with (k_uhdr s). by rewrite Hh.
Qed.

(** The processes a header names: [x], at [rmt], is the remote one and [y], at
    [lcl], the local one, and both pass the checks. *)
Record header_for (h : cmd_t) (nd : node_t) (dc : dc_t) (rmt lcl : ptr) (x y : proc) : Prop := {
  hf_dcid : 0 <= c_dcid h < k_nr_dcs s;
  hf_dc : k_dcs s !! c_dcid h = Some dc;
  hf_run : dc_flags dc = 0;
  hf_src : dst_in_range dc (c_src h);
  hf_dst : dst_in_range dc (c_dst h);
  hf_member : test_bit (c_snode h) (dc_nodes dc) = true;
  hf_here : c_dnode h = k_local_nodeid s;
  hf_node : k_nodes s !! c_snode h = Some nd;
  hf_rmt : rmt = ENDPOINT2PTR (c_dcid h) dc (c_src h);
  hf_lcl : lcl = ENDPOINT2PTR (c_dcid h) dc (c_dst h);
  hf_x : k_procs s !! rmt = Some x;
  hf_y : k_procs s !! lcl = Some y;
  hf_ne : lcl <> rmt;
  hf_rp : rp <> rmt /\ rp <> lcl;
  hf_status : put2lcl_status (k_local_nodeid s) h x y = OK;
}.

Context (h : cmd_t) (nd : node_t) (dc : dc_t) (rmt lcl : ptr) (x y : proc) (sig uh pay : Z).
Context (HF : header_for h nd dc rmt lcl x y) (Hh : k_uhdr s !! (t_mm tk, uh) = Some h).

(** The node the header comes from, before and after the command. *)
Definition seen_node : node_t := nd <| n_rtimestamp := k_clock s |>.
Definition heard : kstate := s <| k_nodes ::= <[c_snode h := seen_node]> |>.
Definition taken : kstate :=
  heard <| k_nodes ::= <[c_snode h := seen_node <| n_pxrcvd ::= ulong_inc |>]> |>.

(** The proxy while it carries out the command. *)
Definition rproxy_busy : proc := (rproxy_read h pay w) <| p_dcid := dc_dcid dc |>.

(** From the call to the command, which is in order. *)
Lemma ex_put2lcl_run :
  mm_put2lcl sig cur uh pay s =
  put2lcl_run sig cur (c_dcid h) dc rp rmt lcl h uh pay
    (st heard (<[rp := rproxy_read h pay w]> (k_procs s)) (k_umem s)
       (both_locks y x lcl rmt ++ [L_DC (c_dcid h)])).
Proof.
  destruct HF as [H1 H2 H3 H4 H5 H6 H7 H8 H9 H10 H11 H12 H13 [H14 H15] H16].
  pose proof (rp_task HR) as Ht. pose proof (rp_desc HR) as Hw.
  unfold mm_put2lcl. rewrite rp_st at 1. x_unfold. x. rewrite (rp_root HR). x. rewrite (rp_init HR). x. rewrite <- rp_st.
  rewrite (ex_bind _ _ _ _ _ (ex_check_caller_proxy _)). cbn [fst]. unfold put2lcl_body.
  rewrite (ex_bind _ _ _ _ _ (ex_put2lcl_header _ _ _ Hh)). x_unfold. x.
  rewrite (in_table _ _ H1). x. rewrite H3. x. rewrite (dst_range _ _ H4), (dst_range _ _ H5), H6. x.
  change (k_local_nodeid (st s _ _ _)) with (k_local_nodeid s). rewrite H7. x.
  change (NBR2PTR (c_dcid h) dc (ENDPOINT_P (c_dst h))) with (ENDPOINT2PTR (c_dcid h) dc (c_dst h)).
  change (NBR2PTR (c_dcid h) dc (ENDPOINT_P (c_src h))) with (ENDPOINT2PTR (c_dcid h) dc (c_src h)).
  rewrite <- H9, <- H10. fold seen_node. change (s <| k_nodes ::= _ |>) with heard.
  eapply eq_trans; [eapply ex_bind, ex_proc2_more; [x_look..|done|x_notin|x_notin]|]. x.
  rewrite H16. by x_red.
Qed.

(** The whole call, from what the command does. *)
Lemma ex_put2lcl P2 U2 w2 :
  c_cmd h = CMD_SEND_MSG \/ c_cmd h = CMD_SEND_ACK /\ c_rcode h = OK ->
  put2lcl_dispatch rp rmt lcl h uh pay
    (st heard (<[rp := rproxy_busy]> (k_procs s)) (k_umem s) (both_locks y x lcl rmt)) =
  Val OK (st heard P2 U2 (both_locks y x lcl rmt)) ->
  P2 !! rp = Some w2 ->
  mm_put2lcl sig cur uh pay s =
  Exit (X_RET OK) (st taken (<[rp := w2 <| p_lclsent ::= ulong_inc |> <| p_dcid := -1 |>]> P2) U2 []).
Proof.
  intros Hc ED Hw2. rewrite ex_put2lcl_run. destruct HF as [_ _ _ _ _ _ _ H8 _ _ _ _ H13 [H14 H15] _].
  unfold put2lcl_run, set_rproxy_dc. x_unfold.
  assert (Hg : gone_ack h = false).
  { unfold gone_ack. destruct Hc as [-> |[-> ->]]; done. }
  assert (Hq : (c_cmd h =? CMD_COPYOUT_RQST) || (c_cmd h =? CMD_COPYRMT_RQST) = false /\
               (c_cmd h =? CMD_COPYLCL_RQST) = false).
  { destruct Hc as [-> |[-> _]]; done. }
  destruct Hq as [Hq1 Hq2].
  revert ED. unfold both_locks. case_match; cbn [app]; intros ED; x; rewrite insert_insert_eq.
  all: rewrite (ex_bind _ _ _ _ _ ED); x.
  all: rewrite (ex_bind _ _ _ _ _ (ex_wr_node heard _ _ _ _ _ seen_node (lookup_insert_eq _ _ _))).
  all: change (heard <| k_nodes ::= _ |>) with taken; rewrite Hq1, Hq2, Hg.
  all: unfold WUNLOCK_PROC2; x_unfold; x; rewrite !insert_insert_eq; done.
Qed.

(** A receiver proxy between two commands. *)
Definition rproxy_after (h : cmd_t) (pay : Z) (v : proc) : proc :=
  (rproxy_read h pay v) <| p_lclsent ::= ulong_inc |> <| p_dcid := -1 |>.
End Put.

(** ** The commands *)

(** The task of a receiver proxy [w], and the header in its memory. *)
Record has_header (s : kstate) (w : proc) (uh : Z) (h : cmd_t) : Prop := {
  hh_user : misc MIS_BIT_KTHREAD w = false;
  hh_task : exists t tk, p_task w = Some t /\ k_tasks s !! t = Some tk /\ k_uhdr s !! (t_mm tk, uh) = Some h;
}.

Lemma ex_copy_hdr_msg s P U H rp w uh h q y ty tky a m0 :
  P !! rp = Some w -> has_header s w uh h -> P !! q = Some y -> p_task y = Some ty ->
  k_tasks s !! ty = Some tky -> U !! (t_mm tky, a) = Some m0 ->
  copy_hdr_msg rp uh q a (st s P U H) = Val OK (st s P (<[(t_mm tky, a) := cu_msg h]> U) H).
Proof.
  intros Hw [Hk (t & tk & Ht & Htk & Hh)] Hy Hty Htky Hm. unfold copy_hdr_msg. x. rewrite Hk.
  rewrite (ex_bind _ _ _ _ _ (ex_mm_of _ _ _ _ _ _ _ _ Hw Ht Htk)). x.
  change (k_uhdr (st s P U H)) with (k_uhdr s). rewrite Hh.
  rewrite (ex_bind _ _ _ _ _ (ex_mm_of _ _ _ _ _ _ _ _ Hy Hty Htky)).
  rewrite st_umem, Hm. done.
Qed.

(** The descriptor [x] of a remote process that carries the acknowledge of the
    local process [y]. *)
Definition ack_of (here : Z) (y x : proc) : proc :=
  (rts_set BIT_RMTOPER (x <| p_rcode := OK |>)) <| p_rmtcmd ::=
    fill_cmd CMD_SEND_ACK (p_dcid x) (p_endpoint y) (p_endpoint x) here (p_nodeid x) OK 0 |>.

Lemma ex_send_rmt2lcl s P U H rp w uh h rmt lcl x y ty tky nd sp z m0 :
  P !! rp = Some w -> has_header s w uh h -> c_cmd h = CMD_SEND_MSG ->
  P !! rmt = Some x -> P !! lcl = Some y -> lcl <> rmt ->
  k_nodes s !! p_nodeid x = Some nd -> rp = RPROXY (n_proxies nd) -> sp = SPROXY (n_proxies nd) ->
  P !! sp = Some z -> idle_proxy z -> L_PROC sp ∉ H -> sp <> rmt -> sp <> lcl ->
  waits_for y (p_endpoint x) = true -> p_task y = Some ty -> k_tasks s !! ty = Some tky ->
  U !! (t_mm tky, p_umsg y) = Some m0 ->
  send_rmt2lcl uh h rmt lcl (st s P U H) =
  Val OK (st s (<[lcl := received y]> (<[sp := proxy_woken rmt z]>
                 (<[rmt := enqueued sp z (ack_of (k_local_nodeid s) y x)]> P)))
            (<[(t_mm tky, p_umsg y) := cu_msg h]> U) H).
Proof.
  intros Hw Hh Hc Hx Hy Hne Hn Hrp Hsp Hz Hi Hl Hs1 Hs2 Hwt Hty Htk Hm.
  unfold send_rmt2lcl, NODE2RPROXY. x. rewrite Hwt, <- Hrp.
  rewrite (ex_bind _ _ _ _ _ (ex_copy_hdr_msg _ _ _ _ _ _ _ _ _ _ _ _ _ _ Hw Hh Hy Hty Htk Hm)). x.
  rewrite Hc. x_const. unfold send_ack_lcl2rmt, generic_ack_lcl2rmt. x.
  eapply eq_trans; [eapply ex_bind, (ex_sproxy_enqueue _ _ _ _ _ _ nd sp z); [x_look|exact Hn|done|x_look|done..]|].
  unfold end_receiving, LOCAL_PROC_UP. x. unfold received, woken.
  destruct (p_rts_flags _ =? 0); x; x_val.
Qed.

(** The message stays in the descriptor of the remote process, which is queued
    on a process that does not wait for it. *)
Definition arrived (m : message) (lcl : ptr) (ep : Z) (x : proc) : proc :=
  (rts_set BIT_SENDING (x <| p_message := m |>)) <| p_sendto := ep |> <| p_link := Some lcl |>.

Lemma ex_send_rmt2lcl_queued s P U H uh h rmt lcl x y nd :
  c_cmd h = CMD_SEND_MSG -> P !! rmt = Some x -> P !! lcl = Some y -> lcl <> rmt ->
  k_nodes s !! p_nodeid x = Some nd -> waits_for y (p_endpoint x) = false ->
  send_rmt2lcl uh h rmt lcl (st s P U H) =
  Val OK (st s (<[lcl := y <| p_list ::= fun l => l ++ [rmt] |>]>
                 (<[rmt := arrived (cu_msg h) lcl (p_endpoint y) x]> P)) U H).
Proof.
  intros Hc Hx Hy Hne Hn Hw. unfold send_rmt2lcl, NODE2RPROXY, INIT_P_LINK, LIST_ADD_TAIL_P. x.
  rewrite Hw. x. rewrite Hc. x_const. x. x_val.
Qed.

Lemma ex_send_ack_rmt2lcl s P U H rmt lcl x y :
  P !! rmt = Some x -> P !! lcl = Some y -> rts BIT_SENDING x = false -> rts BIT_SENDING y = true ->
  p_sendto y = p_endpoint x ->
  send_ack_rmt2lcl rmt lcl OK (st s P U H) = Val OK (st s (<[lcl := sent y]> P) U H).
Proof.
  intros Hx Hy Hs1 Hs2 Ht. unfold send_ack_rmt2lcl, READY_UP_RCODE, LOCAL_PROC_UP. x.
  rewrite Hs1, Hs2, Ht. x. unfold sent, woken. destruct (p_rts_flags _ =? 0); x; x_val.
Qed.

(** ** The sender *)

(** The command of a message, and the sender that waits in the queue of the
    proxy. *)
Definition message_cmd (here : Z) (m : message) (ep : Z) (y x : proc) : cmd_t :=
  (fill_cmd CMD_SEND_MSG (p_dcid x) (p_endpoint x) ep here (p_nodeid y) OK 0 (p_rmtcmd x))
    <| cu_msg := m |>.
Definition sending_to (ep m_ptr : Z) (h : cmd_t) (x : proc) : proc :=
  (rts_set BIT_RMTOPER (rts_set BIT_SENDING (x <| p_umsg := m_ptr |> <| p_rcode := OK |>)))
    <| p_sendto := ep |> <| p_rmtcmd := h |> <| p_pseudosem := -1 |>.

(** The remote process does not receive from [ep] any more, on this node. *)
Definition stopped (ep : Z) (y : proc) : proc :=
  let y := rts_clear BIT_RECEIVING y in if p_getfrom y =? ep then y <| p_getfrom := NONE |> else y.

Lemma ex_unlock2 s P U p q a b :
  p <> q -> unlock_ (L_PROC q) (st s P U (both_locks a b p q)) = Val tt (st s P U [L_PROC p]).
Proof. intros Hne. unfold both_locks. destruct (p_nr a <? p_nr b); (eapply ex_unlock; [x_in|x_del]). Qed.

Lemma stopped_node ep y : p_nodeid (stopped ep y) = p_nodeid y.
Proof. unfold stopped. by case_match. Qed.

Section RemoteSend.
Context (s : kstate) (cur : Z) (c : ptr) (x : proc) (tk : task_t) (dc : dc_t).
Context (ep : Z) (dst : ptr) (y : proc) (nd : node_t) (sp : ptr) (z : proc).
Context (HC : calls_as s cur c x tk dc) (HD : remote_dst s c x dc ep dst y).
Context (Hn : k_nodes s !! p_nodeid y = Some nd) (Hsp : sp = SPROXY (n_proxies nd)).
Context (Hz : k_procs s !! sp = Some z) (HI : idle_proxy z) (Hspc : sp <> c).
Context (fuel : nat) (m_ptr timeout : Z) (m : message).

Lemma ex_send_remote :
  k_umem s !! (t_mm tk, m_ptr) = Some m -> timeout <> TIMEOUT_NOWAIT ->
  mm_mini_send (S (S fuel)) cur ep m_ptr timeout s =
  Exit (X_SLEEP (K_SEND_REMOTE (frame_to c x dc ep m_ptr timeout)))
    (st s (<[c := enqueued sp z (sending_to ep m_ptr (message_cmd (k_local_nodeid s) m ep y x) x)]>
            (<[sp := proxy_woken c z]> (<[dst := stopped (p_endpoint x) y]> (k_procs s))))
       (k_umem s) []).
Proof.
  intros Hm Ht. rewrite (ex_send_dispatch _ _ _ _ _ _ _ _ _ HC _ _ _ _ HD). cbv zeta.
  pose proof (ld_ptr HD) as Hptr. pose proof (ld_desc HD) as Hy. pose proof (ld_other HD) as Hne.
  pose proof (ca_desc HC) as Hx. pose proof (ca_task HC) as Htk.
  assert (Hspd : sp <> dst) by (rewrite Hsp, Hptr; done).
  set (f := frame_to c x dc ep m_ptr timeout). destruct HI as [If Ip Ix Ic Im Iu Il].
  unfold send_remote, dst_stop_receiving, fill_msg_cmd, start_remote, cmd_msg_from_user,
    INIT_P_LINK, NODE2SPROXY, sleep_proc, sleep_enter. x_unfold.
  change (f_c f) with c. change (f_dst f) with (ENDPOINT2PTR (p_dcid x) dc ep).
  change (f_caller_ep f) with (p_endpoint x). change (f_m_ptr f) with m_ptr.
  change (f_dst_ep f) with ep. change (f_timeout f) with timeout.
  rewrite <- Hptr. x.
  eapply eq_trans; [eapply ex_bind, (ex_check_sproxy _ _ _ _ _ nd sp z); [done..|x_look| |done]|].
  { unfold both_locks. case_match; x_notin. }
  x. change (p_endpoint (x <| p_umsg := m_ptr |> <| p_rcode := OK |>)) with (p_endpoint x).
  change (if p_getfrom (rts_clear BIT_RECEIVING y) =? p_endpoint x then _ else _)
    with (stopped (p_endpoint x) y). rewrite stopped_node.
  eapply eq_trans; [eapply ex_bind, ex_unlock2; congruence|].
  unfold copy_from_user_msg. apply Z.eqb_neq in Ht. rewrite Ht. x. rewrite st_umem, Hm. x.
  change (k_local_nodeid (st s _ _ _)) with (k_local_nodeid s).
  eapply eq_trans; [eapply ex_bind, (ex_sproxy_enqueue _ _ _ _ _ _ nd sp z);
    [x_look|exact Hn|done|x_look|done|x_notin|done]|].
  x. x_leave.
Qed.
End RemoteSend.

Lemma ex_resume_send_remote s P U fuel cur f w x :
  P !! f_c f = Some x -> p_rcode x = OK -> misc MIS_BIT_NEEDMIGR x = false -> wakes (f_timeout f) w ->
  resume_send_remote fuel cur f w (st s P U []) =
  Exit (X_RET OK) (st s (<[f_c f := x <| p_rmtsent ::= ulong_inc |>]> P) U []).
Proof.
  intros Hx Hr Hm Hw. unfold resume_send_remote, sleep_exit, send_remote_after, rmtsent_inc, finish.
  x_unfold. x. rewrite (wake_desc_ok _ _ _ Hr Hm Hw), Hr, (insert_id _ _ _ Hx). x. x_exit.
Qed.

(** ** The receiver *)

(** The remote sender whose message is taken; it carries the acknowledge. *)
Definition taken_from (here : Z) (sp : ptr) (zs y z : proc) : proc :=
  (rts_clear BIT_SENDING (enqueued sp zs ((rts_set BIT_RMTOPER (z <| p_link := None |>)) <| p_rmtcmd ::=
    fill_cmd CMD_SEND_ACK (p_dcid z) (p_endpoint y) (p_endpoint z) here (p_nodeid z) OK 0 |>)))
    <| p_sendto := NONE |>.

Lemma ex_copy_to_user s P U H cur tk m a m0 :
  k_tasks s !! cur = Some tk -> U !! (t_mm tk, a) = Some m0 ->
  copy_to_user_msg cur m a (st s P U H) = Val OK (st s P (<[(t_mm tk, a) := m]> U) H).
Proof. intros Ht Hm. unfold copy_to_user_msg. x. by rewrite st_umem, Hm. Qed.

Section RemoteReceive.
Context (s : kstate) (cur : Z) (c : ptr) (x : proc) (tk : task_t) (dc : dc_t).
Context (xpp : ptr) (z : proc) (nd : node_t) (sp : ptr) (zs : proc).
Context (HC : calls_as s cur c x tk dc) (Hno : no_notify x) (Hwk : misc MIS_BIT_WOKENUP x = false).
Context (Hz : k_procs s !! xpp = Some z) (Hne : xpp <> c) (Hlink : p_link z = Some c).
Context (Hf : p_rts_flags z = set_bit BIT_SENDING REMOTE) (Hto : p_sendto z = p_endpoint x).
Context (Hn : k_nodes s !! p_nodeid z = Some nd) (Hsp : sp = SPROXY (n_proxies nd)).
Context (Hzs : k_procs s !! sp = Some zs) (HI : idle_proxy zs) (Hspc : sp <> c) (Hspx : sp <> xpp).
Context (m_ptr timeout : Z) (m0 : message) (Hm : k_umem s !! (t_mm tk, m_ptr) = Some m0).

Lemma ex_receive_remote :
  p_list x = [xpp] ->
  mm_mini_receive cur ANY m_ptr timeout s =
  Exit (X_RET OK)
    (st s (<[xpp := taken_from (k_local_nodeid s) sp zs x z]> (<[sp := proxy_woken xpp zs]>
            (<[c := x <| p_umsg := m_ptr |> <| p_list ::= del xpp |>]> (k_procs s))))
       (<[(t_mm tk, m_ptr) := p_message z]> (k_umem s)) []).
Proof.
  intros Hl. pose proof (ca_desc HC) as Hx. pose proof (ca_task HC) as Htk.
  rewrite (ex_receive_queue_of _ _ _ _ _ _ HC ANY m_ptr timeout (or_introl eq_refl) Hno Hwk), Hl.
  cbn [receive_queue]. x_unfold. rewrite bind_assoc.
  eapply eq_trans; [eapply ex_bind, ex_ordered2; [x_look..|congruence]|]. x.
  rewrite orb_true_r. unfold receive_from, LIST_DEL_P, take_message. x.
  rewrite Hlink. x.
  assert (Hst : sender_status ANY (p_endpoint (x <| p_umsg := m_ptr |> <| p_list ::= del xpp |>))
      (z <| p_link := None |>) = OK).
  { unfold sender_status, rts. cbn. by rewrite Hf, Hto, Z.eqb_refl. }
  rewrite Hst. x. replace (IT_IS_REMOTE _) with true by (unfold IT_IS_REMOTE, rts; cbn; by rewrite Hf).
  rewrite bind_assoc.
  eapply eq_trans; [eapply ex_bind, (ex_copy_to_user _ _ _ _ _ tk _ _ m0); done|]. x.
  replace (rts BIT_RECEIVING _) with false by (unfold rts; cbn; by rewrite Hf).
  unfold send_ack_lcl2rmt, generic_ack_lcl2rmt. x.
  change (k_local_nodeid (st s _ _ _)) with (k_local_nodeid s).
  eapply eq_trans; [eapply ex_bind, (ex_sproxy_enqueue _ _ _ _ _ _ nd sp zs); [x_look|exact Hn|done|x_look|done| |done]|].
  { unfold both_locks. case_match; x_notin. }
  unfold end_sending, LOCAL_PROC_UP. x.
  replace (p_rts_flags _ =? 0) with false by (unfold rts_clear, enqueued, rts_set; cbn; by rewrite Hf).
  x_unfold. x. eapply eq_trans; [eapply ex_bind, ex_unlock2; congruence|]. x. x_exit.
Qed.
End RemoteReceive.
