(* ===== verification/RemoteFlow.v ===== *)
(** * A message between two nodes

    The kernels of two nodes and the proxy programs between them: what happens
    from the send of a process of one node to a process of the other, which
    receives, to the return of the send.  [Sender] has the steps on the node of
    the sender, [Receiver] those on the other node, [Crossing] puts them
    together.  The proxy programs carry a header from the memory of the one to
    the memory of the other ([arrive]; [TcpFlow] is about one such program). *)

From S2P Require Import Prelude Types Endpoint Kernel Utils IpcCommon QueueLogic Exec.
From S2P Require Import Send Receive Sproxy Rproxy Rendezvous RemoteExec.

(** ** A node and its proxies to another node *)

(** What a node has for the other one: the DC, the descriptor of the other
    node, the sender proxy [wi_sp] and the receiver proxy [wi_rp] with their
    tasks, and the buffers and the wait of the proxy programs. *)
Record wiring := mk_wiring {
  wi_dc : dc_t;
  wi_node : node_t;
  wi_sp : proc; wi_stask : Z; wi_stk : task_t;
  wi_rp : proc; wi_rtask : Z; wi_rtk : task_t;
  wi_hdr : Z;                               (* where the sender proxy puts headers *)
  wi_uh : Z;                                (* where the receiver proxy has them *)
  wi_pay : Z;
  wi_timeout : Z; wi_w : Z;                 (* the wait of the sender proxy and its result *)
}.

Definition sproxy_of (W : wiring) : ptr := SPROXY (n_proxies (wi_node W)).
Definition rproxy_of (W : wiring) : ptr := RPROXY (n_proxies (wi_node W)).

(** The node [here] has the DC [d], which runs and extends over the node
    [there], and a receiver proxy for that one. *)
Record linked (s : kstate) (here there d : Z) (W : wiring) : Prop := {
  li_here : k_local_nodeid s = here;
  li_there : 0 <= there < k_nr_nodes s;
  li_dcid : 0 <= d < k_nr_dcs s;
  li_dc : k_dcs s !! d = Some (wi_dc W);
  li_run : dc_flags (wi_dc W) = 0;
  li_member : test_bit there (dc_nodes (wi_dc W)) = true;
  li_node : k_nodes s !! there = Some (wi_node W);
  li_dcs : test_bit d (n_dcs (wi_node W)) = true;
  li_rp : rproxy_as s (wi_rtask W) (rproxy_of W) (wi_rp W) (wi_rtk W);
}.

(** Its sender proxy waits for commands. *)
Record ready (s : kstate) (there : Z) (W : wiring) : Prop := {
  re_sp : k_procs s !! sproxy_of W = Some (wi_sp W);
  re_idle : idle_proxy (wi_sp W);
  re_map : test_bit there (p_nodemap (wi_sp W)) = true;
  re_stask : proxy_task s (wi_stask W) (wi_stk W) (wi_sp W) (wi_hdr W);
  re_wait : wakes (wi_timeout W) (wi_w W);
}.

(** The process [x] of the node [here], at [p], and the descriptor [y], at
    [q], that the node has for a process of the node [there]. *)
Record ends (s : kstate) (here there d : Z) (W : wiring) (p : ptr) (x : proc) (q : ptr) (y : proc)
    : Prop := {
  en_p : p = ENDPOINT2PTR d (wi_dc W) (p_endpoint x);
  en_q : q = ENDPOINT2PTR d (wi_dc W) (p_endpoint y);
  en_x : k_procs s !! p = Some x;
  en_y : k_procs s !! q = Some y;
  en_xrange : dst_in_range (wi_dc W) (p_endpoint x);
  en_yrange : dst_in_range (wi_dc W) (p_endpoint y);
  en_ne : p <> q;
  en_xdc : p_dcid x = d;
  en_ydc : p_dcid y = d;
  en_xnode : p_nodeid x = here;
  en_ynode : p_nodeid y = there;
  en_remote : p_rts_flags y = REMOTE;
}.

(** The header [h] is the command [cmd] of the process [y] of the node [there]
    for the process [x] of this one. *)
Record addressed (h : cmd_t) (cmd here there d : Z) (x y : proc) : Prop := {
  ad_cmd : c_cmd h = cmd;
  ad_dcid : c_dcid h = d;
  ad_src : c_src h = p_endpoint y;
  ad_dst : c_dst h = p_endpoint x;
  ad_snode : c_snode h = there;
  ad_dnode : c_dnode h = here;
  ad_rcode : c_rcode h = OK;
}.

(** A descriptor that is in use, on this node, and stays there. *)
Definition settled (x : proc) : Prop :=
  rts BIT_SLOT_FREE x = false /\ rts BIT_REMOTE x = false /\ rts BIT_MIGRATE x = false.

Lemma status_ok s here there d W p x q y cmd h :
  ends s here there d W p x q y -> settled x -> addressed h cmd here there d x y ->
  put2lcl_status here h y x = OK.
Proof.
  intros [_ _ _ _ _ _ _ _ _ Hx Hy Hr] (H1 & H2 & H3) [_ _ Hs Hd Hsn _ _].
  unfold put2lcl_status, IT_IS_LOCAL, IT_IS_REMOTE. rewrite H1, H2, H3.
  unfold rts. rewrite Hr, Hs, Hd, Hsn, Hx, Hy, !Z.eqb_refl. done.
Qed.

Lemma header_ok s here there d W p x q y cmd h :
  linked s here there d W -> ends s here there d W p x q y -> settled x ->
  addressed h cmd here there d x y ->
  header_for s (rproxy_of W) h (wi_node W) (wi_dc W) q p y x.
Proof.
  intros HL HE HX HA. pose proof (status_ok _ _ _ _ _ _ _ _ _ _ _ HE HX HA) as Hst.
  destruct HL, HE, HA. subst. split; rewrite ?ad_dcid0, ?ad_src0, ?ad_dst0, ?ad_snode0; try done.
Qed.

(** The header [h] reaches the memory of the receiver proxy. *)
Definition arrive (W : wiring) (h : cmd_t) (s : kstate) : kstate :=
  s <| k_uhdr ::= <[(t_mm (wi_rtk W), wi_uh W) := h]> |>.

(** A step of the sender proxy, which is woken and gives the header [h] to its
    program; a step of the receiver proxy, whose program hands over [h]. *)
Definition forwards (fuel : nat) (W : wiring) (s s' : kstate) (h : cmd_t) : Prop :=
  resume_get2rmt (S fuel) (wi_stask W) (sproxy_of W) (wi_hdr W) (wi_pay W) (wi_timeout W) (wi_w W) s =
    Exit (X_RET OK) s' /\
  k_uhdr s' !! (t_mm (wi_stk W), wi_hdr W) = Some h.

Definition takes (sig : Z) (W : wiring) (h : cmd_t) (s s' : kstate) : Prop :=
  mm_put2lcl sig (wi_rtask W) (wi_uh W) (wi_pay W) (arrive W h s) = Exit (X_RET OK) s'.

(** The receiver waits for a message of [ep], in a buffer of its own. *)
Record receiving_from (s : kstate) (ep : Z) (y : proc) (tky : task_t) : Prop := {
  rf_waits : waits_for y ep = true;
  rf_flags : p_rts_flags y = Z.shiftl 1 BIT_RECEIVING;
  rf_sem : p_pseudosem y = -1;
  rf_task : exists t, p_task y = Some t /\ k_tasks s !! t = Some tky;
  rf_buffer : exists m0, k_umem s !! (t_mm tky, p_umsg y) = Some m0;
}.

(** The descriptors of the processes and those of the proxies. *)
Lemma ends_apart s here there d W p x q y : ends s here there d W p x q y ->
  sproxy_of W <> p /\ sproxy_of W <> q /\ rproxy_of W <> p /\ rproxy_of W <> q /\
  sproxy_of W <> rproxy_of W.
Proof. intros []. by rewrite en_p0, en_q0. Qed.

(** The receiver proxy while it hands over [h], and after that. *)
Definition busy (W : wiring) (h : cmd_t) : proc := rproxy_busy (wi_rp W) h (wi_dc W) (wi_pay W).
Definition served (W : wiring) (h : cmd_t) : proc := (busy W h) <| p_lclsent ::= ulong_inc |> <| p_dcid := -1 |>.

(** A mapped buffer is still mapped after a write. *)
Lemma mapped_insert (i j : Z * Z) (h h0 : cmd_t) (U : gmap (Z * Z) cmd_t) :
  U !! i = Some h0 -> exists h1, <[j := h]> U !! i = Some h1.
Proof.
  intros Hi. destruct (decide (j = i)) as [->|Hne]; [rewrite lookup_insert_eq; eauto|].
  rewrite lookup_insert_ne by done. eauto.
Qed.

(** A sender proxy that was woken by [q] forwards what it makes of the command
    of [q]. *)
Lemma forwards_first fuel s there W base P U q P' h nd :
  ready s there W -> P !! sproxy_of W = Some (proxy_woken q (wi_sp W)) ->
  get2rmt_one (wi_stask W) (sproxy_of W) q (wi_hdr W) (wi_pay W) (st base P U [L_PROC (sproxy_of W)]) =
    Exit (X_RET OK) (st (header_out (t_mm (wi_stk W)) (wi_hdr W) h nd base) P' U []) ->
  forwards fuel W (st base P U [])
    (st (header_out (t_mm (wi_stk W)) (wi_hdr W) h nd base) P' U []) h.
Proof.
  intros [Hsp [If Ip Ix Ic Im Iu Il] _ _ Hw] HP E. split; [|apply lookup_insert_eq].
  eapply (ex_resume_get2rmt _ _ _ _ _ _ _ _ _ _ (proxy_woken q (wi_sp W)) q []); try done.
  unfold proxy_woken. cbn. by rewrite Il.
Qed.

Section Sender.
Context (s : kstate) (here there d : Z) (W : wiring) (c : ptr) (x : proc) (dst : ptr) (y : proc).
Context (HL : linked s here there d W) (HS : ready s there W) (HE : ends s here there d W c x dst y).
Context (cur : Z) (tk : task_t) (HC : calls_as s cur c x tk (wi_dc W)).
Context (fuel : nat) (m_ptr timeout : Z) (m : message).


Lemma dst_remote : p_endpoint y <> p_endpoint x -> remote_dst s c x (wi_dc W) (p_endpoint y) dst y.
Proof.
  intros Hne. destruct HE, HL. split; try done; try congruence.
  all: unfold rts, IT_IS_REMOTE, rts; rewrite en_remote0; done.
Qed.

(** The sender in the queue of the proxy, and the header of its message. *)
Definition queued_x : proc :=
  enqueued (sproxy_of W) (wi_sp W)
    (sending_to (p_endpoint y) m_ptr (message_cmd here m (p_endpoint y) y x) x).
Definition header : cmd_t := send_header (k_clock s) queued_x.

(** The node after the send, and after its proxy has forwarded the header. *)
Definition procs1 : gmap ptr proc :=
  <[c := queued_x]> (<[sproxy_of W := proxy_woken c (wi_sp W)]> (<[dst := stopped (p_endpoint x) y]> (k_procs s))).
Definition procs2 : gmap ptr proc :=
  <[sproxy_of W := proxy_sent c (proxy_woken c (wi_sp W))]> (<[c := sent_out (k_clock s) queued_x]> procs1).
Definition base2 : kstate := header_out (t_mm (wi_stk W)) (wi_hdr W) header (wi_node W) s.

Context (Hne : p_endpoint y <> p_endpoint x).

Lemma queued_x_facts :
  p_rts_flags queued_x = set_bit BIT_RMTOPER (set_bit BIT_SENDING 0) /\ p_dcid queued_x = d /\
  c_dnode (p_rmtcmd queued_x) = there.
Proof.
  destruct HE. unfold queued_x, enqueued, sending_to, message_cmd, fill_cmd, rts_set. cbn.
  by rewrite (ca_flags HC).
Qed.

Lemma send_sleeps :
  k_umem s !! (t_mm tk, m_ptr) = Some m -> timeout <> TIMEOUT_NOWAIT ->
  mm_mini_send (S (S fuel)) cur (p_endpoint y) m_ptr timeout s =
  Exit (X_SLEEP (K_SEND_REMOTE (frame_to c x (wi_dc W) (p_endpoint y) m_ptr timeout)))
    (st s procs1 (k_umem s) []).
Proof.
  intros Hm Ht. pose proof (li_node _ _ _ _ _ HL) as Hn. rewrite <- (en_ynode _ _ _ _ _ _ _ _ _ HE) in Hn.
  rewrite (ex_send_remote _ _ _ _ _ _ _ _ _ _ _ _ HC (dst_remote Hne) Hn eq_refl
    (re_sp _ _ _ HS) (re_idle _ _ _ HS) (proj1 (ends_apart _ _ _ _ _ _ _ _ _ HE)) _ _ _ _ Hm Ht).
  unfold procs1, queued_x. by rewrite (li_here _ _ _ _ _ HL).
Qed.

Lemma send_forwarded : forwards fuel W (st s procs1 (k_umem s) []) (st base2 procs2 (k_umem s) []) header.
Proof.
  destruct (ends_apart _ _ _ _ _ _ _ _ _ HE) as (H1 & H2 & H3 & H4 & H5). destruct queued_x_facts as (Qf & Qd & Qn).
  assert (E : procs1 !! sproxy_of W = Some (proxy_woken c (wi_sp W))) by (unfold procs1; x_look).
  apply (forwards_first _ _ _ _ _ _ _ _ _ _ _ HS E). destruct HL, HS, HE.
  eapply (ex_get2rmt_one_send _ _ _ _ _ _ _ _ _ (wi_node W) (wi_dc W) _ _) with
    (dst := dst) (y := stopped (p_endpoint x) y); try done.
  - by destruct re_stask0.
  - unfold procs1. x_look.
  - split; rewrite ?Qn, ?Qd; try done.
    apply queued_ok; rewrite ?Qn, ?Qd; try done; unfold rts; by rewrite Qf.
  - unfold IT_IS_LOCAL, rts. by rewrite Qf.
  - by rewrite Qd.
  - unfold procs1. x_look.
  - by rewrite stopped_node.
Qed.

(** The acknowledge [a] comes back. *)
Context (a : cmd_t) (HA : addressed a CMD_SEND_ACK here there d x y) (sig : Z).

Let s2 := arrive W a (st base2 procs2 (k_umem s) []).
Let node2 := (wi_node W) <| n_stimestamp := k_clock s |> <| n_pxsent ::= ulong_inc |>.
Let W2 := mk_wiring (wi_dc W) node2 (wi_sp W) (wi_stask W) (wi_stk W) (wi_rp W) (wi_rtask W) (wi_rtk W)
  (wi_hdr W) (wi_uh W) (wi_pay W) (wi_timeout W) (wi_w W).

Definition sent_x : proc := sent_out (k_clock s) queued_x.
Definition acked_x : proc := sent sent_x.
Definition returned_x : proc := acked_x <| p_rmtsent ::= ulong_inc |>.

Lemma sent_x_facts : p_rts_flags sent_x = set_bit BIT_SENDING 0 /\ p_sendto sent_x = p_endpoint y /\
  p_endpoint sent_x = p_endpoint x.
Proof.
  destruct queued_x_facts as (Qf & _ & _). unfold sent_x, sent_out, delivered_cmd, rts_clear.
  split; [|done]. cbn. by rewrite (ca_flags HC).
Qed.

Lemma acked_x_facts : p_rts_flags acked_x = 0 /\ p_rcode acked_x = OK /\ p_link acked_x = None /\
  misc MIS_BIT_NEEDMIGR acked_x = false /\ p_rmtsent acked_x = p_rmtsent x.
Proof.
  destruct sent_x_facts as (Qf & _ & _). unfold acked_x, sent, woken.
  replace (p_rts_flags _ =? 0) with true by (unfold rts_clear; cbn; by rewrite (ca_flags HC)).
  split_and!; try done; unfold rts_clear, misc; cbn; [by rewrite (ca_flags HC)|apply (ca_migr HC)].
Qed.

Lemma returned_x_facts : p_rts_flags returned_x = 0 /\ p_link returned_x = None /\
  p_rmtsent returned_x = ulong_inc (p_rmtsent x).
Proof.
  destruct acked_x_facts as (Qf & _ & Ql & _ & <-). unfold returned_x. revert Qf Ql.
  generalize acked_x. by intros z ??.
Qed.

Lemma linked2 : linked s2 here there d W2.
Proof.
  destruct (ends_apart _ _ _ _ _ _ _ _ _ HE) as (H1 & H2 & H3 & H4 & H5). destruct queued_x_facts as (_ & _ & Qn).
  destruct HL as [? ? ? ? ? ? ? ? []]. split; try done.
  - rewrite <- Qn. apply lookup_insert_eq.
  - split; try done. change (procs2 !! rproxy_of W = Some (wi_rp W)). unfold procs2, procs1.
    by rewrite !lookup_insert_ne.
Qed.

Lemma ends2 : ends s2 here there d W2 c sent_x dst (stopped (p_endpoint x) y).
Proof.
  destruct (ends_apart _ _ _ _ _ _ _ _ _ HE) as (H1 & H2 & H3 & H4 & H5).
  destruct sent_x_facts as (_ & _ & He). destruct HE.
  assert (Hs : p_endpoint (stopped (p_endpoint x) y) = p_endpoint y /\ p_dcid (stopped (p_endpoint x) y) = p_dcid y /\
    p_rts_flags (stopped (p_endpoint x) y) = REMOTE).
  { unfold stopped, rts_clear. case_match; cbn; by rewrite en_remote0. }
  destruct Hs as (Hs1 & Hs2 & Hs3).
  split; rewrite ?He, ?Hs1, ?Hs2, ?stopped_node; try done.
  - change (procs2 !! c = Some sent_x). unfold procs2, sent_x. x_look.
  - change (procs2 !! dst = Some (stopped (p_endpoint x) y)). unfold procs2, procs1. x_look.
Qed.

Lemma settled_sent : settled sent_x.
Proof. destruct sent_x_facts as (Qf & _ & _). unfold settled, rts. by rewrite Qf. Qed.

(** The node when the acknowledge has been taken, and when the send returns. *)
Definition procs5 : gmap ptr proc :=
  <[rproxy_of W := served W a]> (<[c := acked_x]> (<[rproxy_of W := busy W a]> procs2)).
Definition base5 : kstate := taken s2 a node2.
Definition procs6 : gmap ptr proc := <[c := returned_x]> procs5.

Lemma ack_taken : takes sig W a (st base2 procs2 (k_umem s) []) (st base5 procs5 (k_umem s) []).
Proof.
  destruct (ends_apart _ _ _ _ _ _ _ _ _ HE) as (H1 & H2 & H3 & H4 & H5).
  pose proof (li_rp _ _ _ _ _ linked2) as HP.
  assert (HA2 : addressed a CMD_SEND_ACK here there d sent_x (stopped (p_endpoint x) y)).
  { destruct HA, sent_x_facts as (_ & _ & He). split; rewrite ?He; try done.
    unfold stopped. by case_match. }
  pose proof (header_ok _ _ _ _ _ _ _ _ _ _ _ linked2 ends2 settled_sent HA2) as HF.
  eapply (ex_put2lcl _ _ _ _ _ HP _ _ _ _ _ _ _ _ _ _ HF).
  - apply lookup_insert_eq.
  - right. split; apply HA.
  - unfold put2lcl_dispatch. rewrite (ad_cmd _ _ _ _ _ _ _ HA), (ad_rcode _ _ _ _ _ _ _ HA). x_const.
    eapply (ex_send_ack_rmt2lcl _ _ _ _ _ _ (stopped (p_endpoint x) y) sent_x).
    + rewrite lookup_insert_ne by exact H4. apply ends2.
    + rewrite lookup_insert_ne by exact H3. apply ends2.
    + unfold rts. by rewrite (en_remote _ _ _ _ _ _ _ _ _ ends2).
    + destruct sent_x_facts as (Qf & _ & _). unfold rts. by rewrite Qf.
    + destruct sent_x_facts as (_ & Qs & _). rewrite Qs. unfold stopped. by case_match.
  - by rewrite lookup_insert_ne, lookup_insert_eq by done.
Qed.

Lemma send_returns w :
  wakes timeout w ->
  resume_send_remote (S fuel) cur (frame_to c x (wi_dc W) (p_endpoint y) m_ptr timeout) w
    (st base5 procs5 (k_umem s) []) = Exit (X_RET OK) (st base5 procs6 (k_umem s) []).
Proof.
  intros Hw. destruct (ends_apart _ _ _ _ _ _ _ _ _ HE) as (H1 & H2 & H3 & H4 & H5).
  destruct acked_x_facts as (_ & Qr & _ & Qm & _).
  apply (ex_resume_send_remote _ _ _ _ _ (frame_to c x (wi_dc W) (p_endpoint y) m_ptr timeout) _ acked_x); try done.
  unfold procs5. cbn [frame_to f_c]. x_look.
Qed.
End Sender.

(** ** The node of the receiver *)

Section Receiver.
Context (s : kstate) (here there d : Z) (W : wiring) (lcl : ptr) (y : proc) (rmt : ptr) (x : proc).
Context (HL : linked s here there d W) (HS : ready s there W) (HE : ends s here there d W lcl y rmt x).
Context (h : cmd_t) (HA : addressed h CMD_SEND_MSG here there d y x) (sig : Z) (fuel : nat).

Let s1 := arrive W h s.

(** The acknowledge, and the node before and after its proxy forwards it. *)
Definition queued_ack : proc := enqueued (sproxy_of W) (wi_sp W) (ack_of here y x).
Definition ack : cmd_t := ack_header (k_clock s) queued_ack.
Definition base3 : kstate := taken s1 h (wi_node W).
Definition base4 : kstate :=
  header_out (t_mm (wi_stk W)) (wi_hdr W) ack (seen_node s1 (wi_node W) <| n_pxrcvd ::= ulong_inc |>) base3.

(** The descriptor [v] carries the acknowledge. *)
Record carries_ack (v : proc) : Prop := {
  ka_flags : p_rts_flags v = set_bit BIT_RMTOPER REMOTE;
  ka_dcid : p_dcid v = d;
  ka_link : p_link v = Some (sproxy_of W);
  ka_header : ack_header (k_clock s) v = ack;
}.

Lemma queued_ack_carries : carries_ack queued_ack.
Proof.
  destruct HE. split; try done. unfold queued_ack, enqueued, ack_of, rts_set. cbn. by rewrite en_remote0.
Qed.

Lemma linked_arrive : linked s1 here there d W.
Proof. by destruct HL as [H1 H2 ? ? ? ? ? ? []]. Qed.

(** The message is handed over, whatever that does. *)
Lemma message_taken P U :
  settled y ->
  put2lcl_dispatch (rproxy_of W) rmt lcl h (wi_uh W) (wi_pay W)
    (st (heard s1 h (wi_node W)) (<[rproxy_of W := busy W h]> (k_procs s)) (k_umem s) (both_locks y x lcl rmt)) =
    Val OK (st (heard s1 h (wi_node W)) P U (both_locks y x lcl rmt)) ->
  P !! rproxy_of W = Some (busy W h) ->
  takes sig W h s (st base3 (<[rproxy_of W := served W h]> P) U []).
Proof.
  intros Hy ED HP. assert (HE1 : ends s1 here there d W lcl y rmt x) by (by destruct HE).
  eapply (ex_put2lcl _ _ _ _ _ (li_rp _ _ _ _ _ linked_arrive)).
  - apply (header_ok _ _ _ _ _ _ _ _ _ _ _ linked_arrive HE1 Hy HA).
  - apply lookup_insert_eq.
  - left. apply HA.
  - exact ED.
  - exact HP.
Qed.

Lemma ack_forwarded P U v :
  carries_ack v -> P !! sproxy_of W = Some (proxy_woken rmt (wi_sp W)) -> P !! rmt = Some v ->
  forwards fuel W (st base3 P U [])
    (st base4 (<[sproxy_of W := proxy_sent rmt (proxy_woken rmt (wi_sp W))]>
                (<[rmt := acked_out (k_clock s) v]> P)) U []) ack.
Proof.
  intros [Qf Qd Ql Qh] E Hv. destruct (ends_apart _ _ _ _ _ _ _ _ _ HE) as (H1 & H2 & H3 & H4 & H5).
  assert (Qn : c_dnode (p_rmtcmd v) = there).
  { change (c_dnode (ack_header (k_clock s) v) = there). rewrite Qh. apply HE. }
  apply (forwards_first _ _ _ _ _ _ _ _ _ _ _ HS E). destruct HL, HS, HE.
  rewrite <- Qh. change (k_clock s) with (k_clock base3).
  eapply (ex_get2rmt_one_ack _ _ _ _ _ _ _ _ _ _ (wi_dc W)); try done.
  - destruct re_stask0 as [Ht Hu [h0 Hh]]. split; [done|done|]. apply (mapped_insert _ _ _ _ _ Hh).
  - split; rewrite ?Qn, ?Qd; try done.
    + rewrite <- (ad_snode _ _ _ _ _ _ _ HA). apply lookup_insert_eq.
    + apply queued_ok; rewrite ?Qn, ?Qd; try done; unfold rts; by rewrite Qf.
  - unfold IT_IS_LOCAL, rts. by rewrite Qf.
  - change (c_cmd (ack_header (k_clock s) v) = CMD_SEND_ACK). by rewrite Qh.
Qed.

Lemma acked_out_flags v : carries_ack v -> p_rts_flags (acked_out (k_clock s) v) = REMOTE.
Proof.
  intros [Qf _ _ _].
  change (clear_bit BIT_RMTOPER (clear_bit BIT_SENDING (p_rts_flags v)) = REMOTE). by rewrite Qf.
Qed.

(** The receiver waits: the message is delivered at once. *)
Definition procs3 : gmap ptr proc :=
  <[rproxy_of W := served W h]> (<[lcl := received y]> (<[sproxy_of W := proxy_woken rmt (wi_sp W)]>
    (<[rmt := queued_ack]> (<[rproxy_of W := busy W h]> (k_procs s))))).

Lemma message_delivered tky :
  receiving_from s (p_endpoint x) y tky ->
  takes sig W h s (st base3 procs3 (<[(t_mm tky, p_umsg y) := cu_msg h]> (k_umem s)) []).
Proof.
  intros [Hw Hf _ (t & Ht & Htk) [m0 Hm]].
  destruct (ends_apart _ _ _ _ _ _ _ _ _ HE) as (H1 & H2 & H3 & H4 & H5).
  pose proof (li_rp _ _ _ _ _ linked_arrive) as HP. destruct HP, HE, HS.
  apply message_taken; [unfold settled, rts; by rewrite Hf| |by rewrite !lookup_insert_ne, lookup_insert_eq by done].
  unfold put2lcl_dispatch. rewrite (ad_cmd _ _ _ _ _ _ _ HA). x_const.
  unfold queued_ack. rewrite <- (li_here _ _ _ _ _ HL).
  change (k_local_nodeid s) with (k_local_nodeid (heard s1 h (wi_node W))).
  eapply (ex_send_rmt2lcl _ _ _ _ _ (busy W h) _ _ _ _ _ _ t tky (seen_node s1 (wi_node W)) (sproxy_of W) _ m0); try done.
  - apply lookup_insert_eq.
  - split; [done|]. exists (wi_rtask W), (wi_rtk W). split_and!; [done..|]. apply lookup_insert_eq.
  - apply HA.
  - x_look.
  - x_look.
  - rewrite en_ynode0, <- (ad_snode _ _ _ _ _ _ _ HA). apply lookup_insert_eq.
  - x_look.
  - unfold both_locks. case_match; x_notin.
Qed.

(** The receiver runs: the message waits in its queue. *)
Definition queued_y : proc := y <| p_list ::= fun l => l ++ [rmt] |>.
Definition arrived_x : proc := arrived (cu_msg h) lcl (p_endpoint y) x.
Definition procs3' : gmap ptr proc :=
  <[rproxy_of W := served W h]> (<[lcl := queued_y]> (<[rmt := arrived_x]>
    (<[rproxy_of W := busy W h]> (k_procs s)))).

Lemma message_queued :
  p_rts_flags y = 0 -> takes sig W h s (st base3 procs3' (k_umem s) []).
Proof.
  intros Hf. destruct (ends_apart _ _ _ _ _ _ _ _ _ HE) as (H1 & H2 & H3 & H4 & H5). destruct HE.
  apply message_taken; [unfold settled, rts; rewrite Hf; by rewrite !test_bit_0| |by rewrite !lookup_insert_ne, lookup_insert_eq by done].
  unfold put2lcl_dispatch. rewrite (ad_cmd _ _ _ _ _ _ _ HA). x_const.
  eapply (ex_send_rmt2lcl_queued _ _ _ _ _ _ _ _ _ _ (seen_node s1 (wi_node W))); try done.
  - apply HA.
  - x_look.
  - x_look.
  - rewrite en_ynode0, <- (ad_snode _ _ _ _ _ _ _ HA). apply lookup_insert_eq.
  - unfold waits_for, receiving_only, rts. by rewrite Hf, test_bit_0.
Qed.

(** Then it receives. *)
Definition taken_x : proc := taken_from here (sproxy_of W) (wi_sp W) queued_y arrived_x.
Definition received_y (b_ptr : Z) : proc := queued_y <| p_umsg := b_ptr |> <| p_list ::= del rmt |>.
Definition procs3r (b_ptr : Z) : gmap ptr proc :=
  <[rmt := taken_x]> (<[sproxy_of W := proxy_woken rmt (wi_sp W)]> (<[lcl := received_y b_ptr]> procs3')).

Lemma taken_x_carries : carries_ack taken_x.
Proof.
  destruct HE. split; try done.
  unfold taken_x, taken_from, enqueued, arrived_x, arrived, rts_set, rts_clear. cbn. by rewrite en_remote0.
Qed.

Lemma message_received cur tky b_ptr m0 timeout :
  calls_as s cur lcl y tky (wi_dc W) -> no_notify y -> misc MIS_BIT_WOKENUP y = false -> p_list y = [] ->
  k_umem s !! (t_mm tky, b_ptr) = Some m0 ->
  mm_mini_receive cur ANY b_ptr timeout (st base3 procs3' (k_umem s) []) =
  Exit (X_RET OK) (st base3 (procs3r b_ptr) (<[(t_mm tky, b_ptr) := cu_msg h]> (k_umem s)) []).
Proof.
  intros HC Hno Hwk Hnil Hm. destruct (ends_apart _ _ _ _ _ _ _ _ _ HE) as (H1 & H2 & H3 & H4 & H5).
  assert (HC' : calls_as (st base3 procs3' (k_umem s) []) cur lcl queued_y tky (wi_dc W)).
  { destruct HC. split; try done. rewrite st_procs. unfold procs3'. x_look. }
  assert (Hf : p_rts_flags arrived_x = set_bit BIT_SENDING REMOTE).
  { unfold arrived_x, arrived, rts_set. cbn. by rewrite (en_remote _ _ _ _ _ _ _ _ _ HE). }
  destruct HE, HS. unfold procs3r, taken_x. rewrite <- (li_here _ _ _ _ _ HL).
  change (k_local_nodeid s) with (k_local_nodeid (st base3 procs3' (k_umem s) [])).
  erewrite (ex_receive_remote _ _ _ _ _ _ rmt arrived_x
    (seen_node s1 (wi_node W) <| n_pxrcvd ::= ulong_inc |>) (sproxy_of W) (wi_sp W) HC' Hno Hwk); try done.
  all: rewrite ?st_st, ?st_procs; try done.
  - unfold procs3'. x_look.
  - change (p_nodeid arrived_x) with (p_nodeid x).
    rewrite en_ynode0, <- (ad_snode _ _ _ _ _ _ _ HA). apply lookup_insert_eq.
  - unfold procs3'. x_look.
  - change (p_list y ++ [rmt] = [rmt]). by rewrite Hnil.
Qed.
End Receiver.

(** A change of the descriptor of the process of this node. *)
Section Changed.
Context (s : kstate) (here there d : Z) (W : wiring) (p : ptr) (x : proc) (q : ptr) (y : proc) (v : proc).
Context (HE : ends s here there d W p x q y).

Let s' := st s (<[p := v]> (k_procs s)) (k_umem s) [].

Lemma linked_changed : linked s here there d W -> linked s' here there d W.
Proof.
  destruct (ends_apart _ _ _ _ _ _ _ _ _ HE) as (H1 & H2 & H3 & H4 & H5).
  intros [L1 L2 ? ? ? ? ? ? []]. split; try done. split; try done.
  unfold s'. by rewrite st_procs, lookup_insert_ne.
Qed.

Lemma ready_changed : ready s there W -> ready s' there W.
Proof.
  destruct (ends_apart _ _ _ _ _ _ _ _ _ HE) as (H1 & H2 & H3 & H4 & H5).
  intros []. split; try done; [unfold s'; by rewrite st_procs, lookup_insert_ne|by destruct re_stask0].
Qed.

Lemma ends_changed :
  p_endpoint v = p_endpoint x -> p_dcid v = p_dcid x -> p_nodeid v = p_nodeid x ->
  ends s' here there d W p v q y.
Proof.
  intros E1 E2 E3. destruct HE. split; rewrite ?E1, ?E2, ?E3; try done; unfold s'; rewrite st_procs; x_look.
Qed.
End Changed.

(** ** From node to node *)

(** The process [xa] of the node [na] and the process [yb] of the node [nb],
    both running; [ya] and [xb] are what each node has for the process of the
    other. *)
Record crossing (sa sb : kstate) (na nb d : Z) (Wa Wb : wiring) (pa : ptr) (xa : proc) (qa : ptr) (ya : proc)
    (pb : ptr) (yb : proc) (qb : ptr) (xb : proc) (ca cb : Z) (tka tkb : task_t) : Prop := {
  cr_la : linked sa na nb d Wa;
  cr_ra : ready sa nb Wa;
  cr_ea : ends sa na nb d Wa pa xa qa ya;
  cr_ca : calls_as sa ca pa xa tka (wi_dc Wa);
  cr_lb : linked sb nb na d Wb;
  cr_rb : ready sb na Wb;
  cr_eb : ends sb nb na d Wb pb yb qb xb;
  cr_cb : calls_as sb cb pb yb tkb (wi_dc Wb);
  cr_quiet : no_notify yb;
  cr_woken : misc MIS_BIT_WOKENUP yb = false;
  cr_alone : p_list yb = [];
  cr_x : p_endpoint xb = p_endpoint xa;
  cr_y : p_endpoint yb = p_endpoint ya;
  cr_ne : p_endpoint ya <> p_endpoint xa;
}.

(** A node at rest: nothing is queued for the other node, the descriptor of the
    remote process is in no operation, and no lock is held. *)
Definition at_rest (s : kstate) (W : wiring) (q : ptr) : Prop :=
  (exists z, k_procs s !! sproxy_of W = Some z /\ p_list z = []) /\
  (exists y, k_procs s !! q = Some y /\ p_rts_flags y = REMOTE) /\ k_held s = [].

(** Nothing but the two processes and the proxies has changed. *)
Definition others_kept (s s' : kstate) (W : wiring) (p q : ptr) : Prop :=
  forall r, r <> p -> r <> q -> r <> sproxy_of W -> r <> rproxy_of W -> k_procs s' !! r = k_procs s !! r.

(** The sender has returned, on its node. *)
Definition returned (s s' : kstate) (W : wiring) (p : ptr) (x : proc) (q : ptr) : Prop :=
  (exists x', k_procs s' !! p = Some x' /\ p_rts_flags x' = 0 /\ p_link x' = None /\
     p_rmtsent x' = ulong_inc (p_rmtsent x)) /\
  k_umem s' = k_umem s /\ at_rest s' W q /\ others_kept s s' W p q.

(** The receiver has the message [m] of [src] in its buffer [b], runs, and has
    an empty queue. *)
Definition has_got (s s' : kstate) (W : wiring) (p q : ptr) (mm b src : Z) (m : message) : Prop :=
  k_umem s' = <[(mm, b) := m <| m_source := src |>]> (k_umem s) /\
  (exists y', k_procs s' !! p = Some y' /\ p_rts_flags y' = 0 /\ p_list y' = []) /\
  at_rest s' W q /\ others_kept s s' W p q.

Lemma proxy_sent_empty q z : idle_proxy z -> p_list (proxy_sent q (proxy_woken q z)) = [].
Proof.
  intros HI. change (del q (p_list z ++ [q]) = []). by rewrite (ip_list _ HI), app_nil_l, del_here.
Qed.

Lemma received_awake y :
  p_rts_flags y = Z.shiftl 1 BIT_RECEIVING -> p_pseudosem y = -1 ->
  awake (received y) /\ p_list (received y) = p_list y.
Proof.
  intros Hf Hs. unfold awake, received, woken, rts_clear. cbn. rewrite Hf. cbn. by rewrite Hs.
Qed.

(** What is left on the node of the receiver, in either order. *)
Lemma receiver_at_rest s here there d W lcl y rmt x base P U v :
  ready s there W -> ends s here there d W lcl y rmt x -> carries_ack s here d W y x v ->
  at_rest (st base (<[sproxy_of W := proxy_sent rmt (proxy_woken rmt (wi_sp W))]>
                     (<[rmt := acked_out (k_clock s) v]> P)) U []) W rmt.
Proof.
  intros HS HE HK. destruct (ends_apart _ _ _ _ _ _ _ _ _ HE) as (H1 & H2 & H3 & H4 & H5).
  unfold at_rest. rewrite st_procs. split_and!; [| |done].
  - eexists. split; [x_look|]. apply proxy_sent_empty, HS.
  - eexists. split; [x_look|]. by eapply acked_out_flags.
Qed.

Section Crossing.
Context (sa sb : kstate) (na nb d : Z) (Wa Wb : wiring) (pa : ptr) (xa : proc) (qa : ptr) (ya : proc).
Context (pb : ptr) (yb : proc) (qb : ptr) (xb : proc) (ca cb : Z) (tka tkb : task_t).
Context (HX : crossing sa sb na nb d Wa Wb pa xa qa ya pb yb qb xb ca cb tka tkb).
Context (a_ptr b_ptr ta tb w sig : Z) (m m0 : message) (fuel : nat).
Context (Hm : k_umem sa !! (t_mm tka, a_ptr) = Some m) (Hm0 : k_umem sb !! (t_mm tkb, b_ptr) = Some m0).
Context (Hta : ta <> TIMEOUT_NOWAIT) (Htb : tb <> TIMEOUT_NOWAIT) (Hw : wakes ta w).

Let h := header sa na Wa xa ya a_ptr m.
Let a := ack sb nb Wb yb xb.
Let fa := frame_to pa xa (wi_dc Wa) (p_endpoint ya) a_ptr ta.

Lemma header_addressed : addressed h CMD_SEND_MSG nb na d yb xb.
Proof.
  destruct HX as [_ _ HE _ _ _ _ _ _ _ _ Hx Hy _]. destruct HE. split; try done; cbn; congruence.
Qed.

Lemma ack_addressed : addressed a CMD_SEND_ACK na nb d xa ya.
Proof.
  destruct HX as [_ _ _ _ _ _ HE _ _ _ _ Hx Hy _]. destruct HE. split; try done; cbn; congruence.
Qed.

(** The node of the sender, step by step. *)
Lemma sender_side : exists sa1 sa2 sa3 sa4,
  mm_mini_send (S (S fuel)) ca (p_endpoint ya) a_ptr ta sa = Exit (X_SLEEP (K_SEND_REMOTE fa)) sa1 /\
  forwards fuel Wa sa1 sa2 h /\ takes sig Wa a sa2 sa3 /\
  resume_send_remote (S fuel) ca fa w sa3 = Exit (X_RET OK) sa4 /\ returned sa sa4 Wa pa xa qa.
Proof.
  pose proof ack_addressed as HK. destruct HX as [LA RA HE CA _ _ _ _ _ _ _ _ _ Hne].
  eexists _, _, _, _. split_and!.
  - by eapply send_sleeps.
  - by eapply send_forwarded.
  - by eapply ack_taken.
  - by eapply send_returns.
  - destruct (ends_apart _ _ _ _ _ _ _ _ _ HE) as (H1 & H2 & H3 & H4 & H5).
    unfold returned. rewrite st_procs, st_umem. split_and!; [|done| |].
    + eexists. split; [apply lookup_insert_eq|]. by eapply returned_x_facts.
    + destruct HE. unfold at_rest. rewrite st_procs. unfold procs6, procs5, procs2, procs1.
      split_and!; [| |done]; (eexists; split; [x_look|]); [apply proxy_sent_empty, RA|].
      unfold stopped, rts_clear. case_match; cbn; by rewrite en_remote0.
    + intros r R1 R2 R3 R4. rewrite st_procs. unfold procs6, procs5, procs2, procs1. by rewrite !lookup_insert_ne.
Qed.

(** The node of the receiver, when the message comes first. *)
Lemma receiver_side_late : exists sb1 sb2 sb3,
  takes sig Wb h sb sb1 /\ mm_mini_receive cb ANY b_ptr tb sb1 = Exit (X_RET OK) sb2 /\
  forwards fuel Wb sb2 sb3 a /\ has_got sb sb3 Wb pb qb (t_mm tkb) b_ptr (p_endpoint xa) m.
Proof.
  pose proof header_addressed as HA. destruct HX as [_ _ _ _ LB RB HE CB Hq Hwk Hnil _ _ _].
  destruct (ends_apart _ _ _ _ _ _ _ _ _ HE) as (H1 & H2 & H3 & H4 & H5).
  pose proof (en_ne _ _ _ _ _ _ _ _ _ HE) as Hne.
  pose proof (taken_x_carries _ _ _ _ _ _ _ _ _ HE h) as HK.
  eexists _, _, _. split_and!.
  - by eapply message_queued; [..|apply (ca_flags CB)].
  - by eapply message_received.
  - eapply (ack_forwarded sb nb na d Wb pb yb qb xb); try done; unfold procs3r; x_look.
  - unfold has_got. rewrite st_procs, st_umem. split_and!.
    + done.
    + eexists. split; [unfold procs3r; x_look|]. split; [apply (ca_flags CB)|].
      change (del qb (p_list yb ++ [qb]) = []). by rewrite Hnil, app_nil_l, del_here.
    + by eapply receiver_at_rest.
    + intros r R1 R2 R3 R4. rewrite st_procs. unfold procs3r, procs3'. by rewrite !lookup_insert_ne.
Qed.

(** The node of the receiver, when that one waits already. *)
Lemma receiver_side_waiting : exists k sb1 sb2 sb3,
  mm_mini_receive cb ANY b_ptr tb sb = Exit (X_SLEEP k) sb1 /\ takes sig Wb h sb1 sb2 /\
  forwards fuel Wb sb2 sb3 a /\ has_got sb sb3 Wb pb qb (t_mm tkb) b_ptr (p_endpoint xa) m /\
  (exists y, k_procs sb3 !! pb = Some y /\ awake y).
Proof.
  pose proof header_addressed as HA. destruct HX as [_ _ _ _ LB RB HE CB Hq Hwk Hnil _ _ _].
  destruct (ends_apart _ _ _ _ _ _ _ _ _ HE) as (H1 & H2 & H3 & H4 & H5).
  pose proof (en_ne _ _ _ _ _ _ _ _ _ HE) as Hne.
  set (y1 := waiting ANY b_ptr yb).
  pose proof (linked_changed _ _ _ _ _ _ _ _ _ y1 HE LB) as LB1.
  pose proof (ready_changed _ _ _ _ _ _ _ _ _ y1 HE RB) as RB1.
  pose proof (ends_changed _ _ _ _ _ _ _ _ _ y1 HE eq_refl eq_refl eq_refl) as HE1.
  set (sb1 := st sb (<[pb := y1]> (k_procs sb)) (k_umem sb) []) in *.
  pose proof (queued_ack_carries _ _ _ _ _ _ _ _ _ HE1) as HK.
  assert (Hf : p_rts_flags y1 = Z.shiftl 1 BIT_RECEIVING).
  { unfold y1, waiting, rts_set, misc_clear. cbn. by rewrite (ca_flags CB). }
  assert (HR : receiving_from sb1 (p_endpoint xb) y1 tkb).
  { split; [|exact Hf|done| |by exists m0].
    - unfold waits_for, receiving_only, rts. by rewrite Hf.
    - exists cb. split; [apply (ca_ptask CB)|apply (ca_task CB)]. }
  assert (HA1 : addressed h CMD_SEND_MSG nb na d y1 xb) by (by destruct HA).
  eexists _, sb1, _, _. split_and!.
  - eapply (ex_receive_sleeps _ _ _ _ _ _ CB); [by left|done|done|by rewrite Hnil|done].
  - exact (message_delivered sb1 nb na d Wb pb y1 qb xb LB1 RB1 HE1 h HA1 sig tkb HR).
  - eapply (ack_forwarded sb1 nb na d Wb pb y1 qb xb); try done; unfold procs3; x_look.
  - unfold has_got. rewrite st_procs, st_umem. split_and!.
    + done.
    + eexists. split; [unfold procs3; x_look|]. destruct (received_awake y1 Hf eq_refl) as [[Ef _] El].
      by rewrite El.
    + by eapply receiver_at_rest.
    + intros r R1 R2 R3 R4. rewrite st_procs. unfold procs3, sb1. rewrite st_procs. by rewrite !lookup_insert_ne.
  - rewrite st_procs. eexists. split; [unfold procs3; x_look|]. by apply received_awake.
Qed.
End Crossing.

(** C3. a message between two nodes.  A process of one node sends to a process of
    another one, which receives: whichever of the two calls comes first, the send
    sleeps with its command queued on the sender proxy; when the proxies of the
    two nodes run in turn, the header the sender proxy forwards makes the receiver
    proxy of the other node hand the message to the receiver, which gets it in its
    buffer, stamped with the sender's endpoint (and is woken if it was waiting);
    the acknowledge goes back through the proxies, and the send returns [OK].  No
    other buffer changes on either node, no other descriptor does, and both nodes
    end at rest. *)
Theorem remote_rendezvous sa sb na nb d Wa Wb pa xa qa ya pb yb qb xb ca cb tka tkb fuel sig
    a_ptr b_ptr ta tb w m m0 :
  crossing sa sb na nb d Wa Wb pa xa qa ya pb yb qb xb ca cb tka tkb ->
  k_umem sa !! (t_mm tka, a_ptr) = Some m -> k_umem sb !! (t_mm tkb, b_ptr) = Some m0 ->
  ta <> TIMEOUT_NOWAIT -> tb <> TIMEOUT_NOWAIT -> wakes ta w ->
  let send := mm_mini_send (S (S fuel)) ca (p_endpoint ya) a_ptr ta in
  let receive := mm_mini_receive cb ANY b_ptr tb in
  exists f h a sa1 sa2 sa3 sa4,
    send sa = Exit (X_SLEEP (K_SEND_REMOTE f)) sa1 /\ forwards fuel Wa sa1 sa2 h /\
    takes sig Wa a sa2 sa3 /\ resume_send_remote (S fuel) ca f w sa3 = Exit (X_RET OK) sa4 /\
    returned sa sa4 Wa pa xa qa /\
    (exists sb1 sb2 sb3,
       takes sig Wb h sb sb1 /\ receive sb1 = Exit (X_RET OK) sb2 /\ forwards fuel Wb sb2 sb3 a /\
       has_got sb sb3 Wb pb qb (t_mm tkb) b_ptr (p_endpoint xa) m) /\
    (exists k sb1 sb2 sb3,
       receive sb = Exit (X_SLEEP k) sb1 /\ takes sig Wb h sb1 sb2 /\ forwards fuel Wb sb2 sb3 a /\
       has_got sb sb3 Wb pb qb (t_mm tkb) b_ptr (p_endpoint xa) m /\
       (exists y, k_procs sb3 !! pb = Some y /\ awake y)).
Proof.
  intros HX Hm Hm0 Hta Htb Hw send receive.
  destruct (sender_side _ _ _ _ _ _ _ _ _ _ _ _ _ _ _ _ _ _ _ HX a_ptr ta w sig m fuel Hm Hta Hw)
    as (sa1 & sa2 & sa3 & sa4 & E1 & E2 & E3 & E4 & E5).
  eexists _, _, _, sa1, sa2, sa3, sa4. do 5 (split; [eassumption|]). split.
  - by eapply receiver_side_late.
  - by eapply receiver_side_waiting.
Qed.
