(* ===== verification/Scenario.v ===== *)
(** * A concrete kernel

    One node with a DC of two local processes and one remote process, and a
    pair of proxies to the node of the latter.  The theorems about reachable
    states and about the rendezvous are applied to it, and, with the kernel of the
    other node, those about messages between two nodes. *)

From S2P Require Import Prelude Types Endpoint Kernel Hoare Utils IpcCommon.
From S2P Require Import Send Receive Sendrec Notify Sproxy Rproxy Tables IpcLocks.
From S2P Require Import Queues QueueLogic IpcQueues System Exec Rendezvous NotifyFlow RemoteExec RemoteFlow.

Definition empty_vcopy : vcopy_t := mk_vcopy 0 0 0 0 0 0.
Definition empty_cmd : cmd_t := mk_cmd 0 0 0 0 0 0 0 0 0 empty_vcopy message0.

(** A descriptor without queues. *)
Definition desc (nr ep dcid node flags miscf : Z) (task : option Z) : proc :=
  mk_proc nr ep dcid flags (default (-1) task) node 0 miscf
    NONE NONE NONE NONE NONE 0 0 0 0 0 (nr + 4) 0 0 [0; 0; 0; 0] 0 0 0
    [] None [] None [] None message0 0 0 empty_cmd task.

Definition local_desc (nr : Z) (task : Z) : proc := desc nr nr 0 0 0 0 (Some task).

(** DC 0 has 4 tasks; the processes 5 and 6 are local, 7 is on node 1.  The
    proxies of node 1 are the pair 0. *)
Definition dc0 : dc_t := mk_dc 0 0 32 4 16 3 1 2 [100] NONE 0.
Definition client : ptr := PROC 0 9.
Definition server : ptr := PROC 0 10.
Definition faraway : ptr := PROC 0 11.

Definition task_of (p : ptr) (mm : Z) (pid : Z) : task_t := mk_task pid (Some pid) mm 0 2 (Some p).

Definition hello : message := mk_message 0 42 7 8 [1; 2; 3].

Definition kernel0 : kstate :=
  mk_kstate 0 1 2 16 32 4 MAXCOPYBUF MAXCOPYLEN
    {[ 0 := dc0 ]}
    (<[0 := mk_node 0 1 (-1) 1 0 0 0 0]> {[ 1 := mk_node 1 1 0 1 0 0 0 0 ]})
    {[ 0 := mk_proxies 0 1 65536 1 ]}
    (<[client := local_desc 5 105]> (<[server := local_desc 6 106]>
     (<[faraway := desc 7 7 0 1 REMOTE 0 None]>
     (<[SPROXY 0 := (desc 0 NONE (-1) 0 0 3 (Some 200)) <| p_nodemap := 2 |>]>
      {[ RPROXY 0 := desc 0 NONE (-1) 0 0 3 (Some 201) ]}))))
    (<[105 := task_of client 1 105]> (<[106 := task_of server 2 106]>
     (<[200 := task_of (SPROXY 0) 3 200]> {[ 201 := task_of (RPROXY 0) 4 201 ]})))
    (<[(1, 1000) := hello]> (<[(2, 2000) := message0]> {[ (2, 2500) := message0 ]}))
    (<[(3, 3000) := empty_cmd]> {[ (4, 4000) := empty_cmd ]})
    ∅ 100 2 [].

Definition exit_state {A} (r : res A) : kstate :=
  match r with Val _ s => s | Exit _ s => s end.

(** ** The client sends, and sleeps in the queue of the server *)

Definition run_send : res Empty_set := run_call 5 9 105 (C_SEND 6 1000 TIMEOUT_FOREVER) kernel0.
Definition kernel1 : kstate := exit_state run_send.
Definition sleep1 : kont := K_SEND_LOCAL (mk_frame client server 0 5 6 1000 TIMEOUT_FOREVER).

Lemma run_send_eq : run_send = Exit (X_SLEEP sleep1) kernel1.
Proof. vm_compute. reflexivity. Qed.

Definition sys1 : sys := (kernel1, {[ 105 := sleep1 ]}).

Lemma boot0 : boot (kernel0, ∅).
Proof.
  split; [done|]. intros p x Hx. unfold kernel0 in Hx. simpl in Hx.
  repeat (apply lookup_insert_Some in Hx as [[_ <-]|[_ Hx]]; [done|]).
  apply lookup_singleton_Some in Hx as [_ <-]. done.
Qed.

Lemma reachable1 : reachable sys1.
Proof.
  eapply reach_step; [apply reach_boot, boot0|].
  change sys1 with (kernel1, blocked_after 105 (X_SLEEP sleep1) ∅).
  eapply (step_call 5 9 105 (C_SEND 6 1000 TIMEOUT_FOREVER)); [done|done|done|apply run_send_eq|done].
Qed.

(** In [sys1] the client is in the queue of the server. *)
Lemma queue1 : exists y, k_procs kernel1 !! server = Some y /\ p_list y = [client].
Proof. eexists. split; vm_compute; reflexivity. Qed.

(** ** Witnesses *)

Lemma queues_well_formed_witness : reachable sys1 /\ queue_inv (k_procs kernel1).
Proof. split; [apply reachable1|exact (queues_well_formed sys1 reachable1)]. Defined.

Lemma queued_senders_pass_witness : exists y p,
  k_procs kernel1 !! server = Some y /\ client ∈ p_list y /\ k_procs kernel1 !! client = Some p /\
  (sender_status ANY (p_endpoint y) p = OK \/
   (rts BIT_SLOT_FREE p = true /\ sender_status ANY (p_endpoint y) p = EMOLSRCDIED)).
Proof.
  eexists _, _. split; [vm_compute; reflexivity|]. split; [left|]. split; [vm_compute; reflexivity|].
  apply (queued_senders_pass sys1 0 10 _ client _ reachable1); [vm_compute; reflexivity|left|].
  vm_compute; reflexivity.
Defined.

Definition xc : proc := local_desc 5 105.
Definition xs : proc := local_desc 6 106.

Lemma pair0 : pair kernel0 105 client xc (task_of client 1 105) 106 server xs
  (task_of server 2 106) dc0 ANY.
Proof.
  split; [split|split|split|..]; try (vm_compute; done); try done; try (by left);
    try (repeat constructor).
Qed.

Lemma buffers0 : buffers kernel0 (task_of client 1 105) (task_of server 2 106) 1000 2000 hello.
Proof. split; [reflexivity|eexists; reflexivity]. Qed.

Lemma rendezvous_witness :
  let send := mm_mini_send 2 105 6 1000 TIMEOUT_FOREVER in
  let receive := mm_mini_receive 106 ANY 2000 TIMEOUT_FOREVER in
  (exists k s1 s2, send kernel0 = Exit (X_SLEEP k) s1 /\ receive s1 = Exit (X_RET OK) s2 /\
     delivered kernel0 s2 client server client (task_of server 2 106) 2000 5 hello) /\
  (exists k s1 s2, receive kernel0 = Exit (X_SLEEP k) s1 /\ send s1 = Exit (X_RET OK) s2 /\
     delivered kernel0 s2 client server server (task_of server 2 106) 2000 5 hello).
Proof.
  exact (rendezvous kernel0 105 client xc _ 106 server xs _ dc0 ANY 0 1000 2000
    TIMEOUT_FOREVER TIMEOUT_FOREVER hello pair0 buffers0 ltac:(done) ltac:(done)).
Defined.

Lemma send_queues_last_witness :
  exists k s1, mm_mini_send 2 105 6 1000 TIMEOUT_FOREVER kernel0 = Exit (X_SLEEP k) s1 /\
    (exists y1, k_procs s1 !! server = Some y1 /\ p_list y1 = [] ++ [client]) /\
    (exists x1, k_procs s1 !! client = Some x1 /\ rts BIT_SENDING x1 = true /\ p_sendto x1 = 6 /\
       p_umsg x1 = 1000 /\ p_link x1 = Some server) /\
    k_umem s1 = k_umem kernel0 /\ k_held s1 = [].
Proof.
  exact (send_queues_last kernel0 105 client xc _ dc0 6 server xs 0 1000 TIMEOUT_FOREVER
    (pr_a _ _ _ _ _ _ _ _ _ _ _ pair0) (pr_dst _ _ _ _ _ _ _ _ _ _ _ pair0)
    ltac:(reflexivity) ltac:(done)).
Defined.

(** The descriptors of the two in [kernel1]. *)
Definition xc1 : proc := queued_send 6 1000 server xc.
Definition xs1 : proc := xs <| p_list ::= fun l => l ++ [client] |>.

Lemma server1 : calls_as kernel1 106 server xs1 (task_of server 2 106) dc0.
Proof. split; try (vm_compute; done); done. Qed.

Lemma sender1 : local_sender (k_procs kernel1) server xs1 ANY client xc1.
Proof. split; try (vm_compute; done). by left. Qed.

Lemma receive_takes_first_witness :
  exists s1, mm_mini_receive 106 ANY 2000 TIMEOUT_FOREVER kernel1 = Exit (X_RET OK) s1 /\
    k_umem s1 = <[(2, 2000) := hello <| m_source := 5 |>]> (k_umem kernel1) /\
    (exists x1, k_procs s1 !! server = Some x1 /\ p_list x1 = [] ++ []) /\
    (exists z1, k_procs s1 !! client = Some z1 /\ rts BIT_SENDING z1 = false /\ p_link z1 = None /\
       (p_rts_flags xc1 = Z.shiftl 1 BIT_SENDING -> p_pseudosem xc1 = -1 -> awake z1)) /\
    k_held s1 = [].
Proof.
  apply (receive_takes_first kernel1 106 server xs1 (task_of server 2 106) dc0 ANY 2000
    TIMEOUT_FOREVER [] client [] xc1 105 (task_of client 1 105) hello server1).
  - by left.
  - repeat constructor.
  - reflexivity.
  - reflexivity.
  - apply NoDup_singleton.
  - constructor.
  - exact sender1.
  - reflexivity.
  - vm_compute. reflexivity.
  - split; [vm_compute; reflexivity|eexists; vm_compute; reflexivity].
  - done.
Defined.

Lemma asleep1 : asleep kernel1 (mk_frame client server 0 5 6 1000 TIMEOUT_FOREVER) xc1 xs1.
Proof. split; try (vm_compute; done); done. Qed.

Lemma send_gives_up_witness :
  exists s1, resume_send_local 2 105 (mk_frame client server 0 5 6 1000 TIMEOUT_FOREVER)
      (- ERESTARTSYS) kernel1 = Exit (X_RET (- ERESTARTSYS)) s1 /\
    (exists x1, k_procs s1 !! client = Some x1 /\ p_rts_flags x1 = 0 /\ p_link x1 = None /\
       p_sendto x1 = NONE) /\
    (exists y1, k_procs s1 !! server = Some y1 /\ p_list y1 = del client (p_list xs1) /\
       client ∉ p_list y1) /\
    k_umem s1 = k_umem kernel1 /\ k_held s1 = [].
Proof.
  apply (send_gives_up kernel1 (mk_frame client server 0 5 6 1000 TIMEOUT_FOREVER) xc1 xs1 2 105
    (- ERESTARTSYS) asleep1); [by right|done|done|done].
Defined.

(** ** Notifications *)

Lemma limits0 : dc_limits dc0.
Proof. by split. Qed.

Lemma notifier0 : notifier client xc xs dc0.
Proof. by split. Qed.

Lemma notify_both_orders_witness :
  let notify := mm_mini_notify 1 105 SELF 6 0 in
  let receive := mm_mini_receive 106 ANY 2000 TIMEOUT_FOREVER in
  (exists s1 s2, notify kernel0 = Exit (X_RET OK) s1 /\ receive s1 = Exit (X_RET OK) s2 /\
     notify_seen kernel0 s2 server (task_of server 2 106) 2000 xc) /\
  (exists s1 s2 s3 s4, receive kernel0 = Exit (X_SLEEP (K_RECEIVE server TIMEOUT_FOREVER)) s1 /\
     notify s1 = Exit (X_RET OK) s2 /\
     (exists y, k_procs s2 !! server = Some y /\ awake y) /\
     (resume_receive 106 server TIMEOUT_FOREVER 0 s2 = Exit (X_RET OK) s3 /\
      notify_seen kernel0 s3 server (task_of server 2 106) 2000 xc) /\
     (resume_receive 106 server TIMEOUT_FOREVER (- ERESTARTSYS) s2 = Exit (X_RET (- ERESTARTSYS)) s4 /\
      notify_lost kernel0 s4 server)).
Proof.
  exact (notify_both_orders kernel0 105 client xc _ 106 server xs _ dc0 ANY 0 0 2000
    TIMEOUT_FOREVER 0 pair0 notifier0 ltac:(eexists; reflexivity) ltac:(done) ltac:(reflexivity)).
Defined.

(** ** Errors that keep a lock *)

(** The server on a node that is not of the DVS, and the server without privileges. *)
Definition bad_node : kstate := kernel0 <| k_procs ::= insert server (xs <| p_nodeid := 16 |>) |>.
Definition no_priv : kstate := kernel0 <| k_procs ::= insert server (xs <| s_id := 16 |>) |>.

(** C34. Errors that keep a lock.  [mm_mini_receive], [mm_mini_reply] and
    [mm_mini_notify], from any state without locks, always leave, and release every
    mutex they take but for one error each, [EMOLBADNODEID], [EMOLPROCSTS] and
    [EMOLPRIVILEGES]: on any other exit no lock is held, and on that error one lock of
    a process at most.  In each of the three there is a state from which exactly one is
    kept: the source stays locked when its node is out of range, the destination of a
    reply when it does not wait for it, and the notifier when the destination has no
    privileges. *)
Theorem ipc_keeps_at_most_one_lock fuel cur nr ep m_ptr timeout :
  lock_spec (keeps_on EMOLBADNODEID) (mm_mini_receive cur ep m_ptr timeout) /\
  lock_spec (keeps_on EMOLPROCSTS) (mm_mini_reply fuel cur ep m_ptr timeout) /\
  lock_spec (keeps_on EMOLPRIVILEGES) (mm_mini_notify fuel cur nr ep timeout) /\
  keeps_one EMOLBADNODEID (mm_mini_receive 105 6 1000 TIMEOUT_FOREVER) /\
  keeps_one EMOLPROCSTS (mm_mini_reply 2 105 6 1000 TIMEOUT_FOREVER) /\
  keeps_one EMOLPRIVILEGES (mm_mini_notify 1 105 SELF 6 0).
Proof.
  destruct (ipc_lock_specs fuel cur nr ep m_ptr timeout) as (H1 & H2 & H3). split_and!; [done..| | |].
  - eexists bad_node, _, server. split; [reflexivity|]. split; vm_compute; reflexivity.
  - eexists kernel0, _, server. split; [reflexivity|]. split; vm_compute; reflexivity.
  - eexists no_priv, _, client. split; [reflexivity|]. split; vm_compute; reflexivity.
Qed.

(** The server with the notifications of the processes 1 and 5 pending. *)
Definition xs2 : proc := xs <| s_notify_pending := [544; 0; 0; 0] |>.
Definition kernel2 : kstate := kernel0 <| k_procs ::= insert server xs2 |>.

Lemma server2 : calls_as kernel2 106 server xs2 (task_of server 2 106) dc0.
Proof. split; try (vm_compute; done); done. Qed.

Lemma receive_takes_notify_witness :
  exists s1 m x1, mm_mini_receive 106 ANY 2000 TIMEOUT_FOREVER kernel2 = Exit (X_RET OK) s1 /\
    k_umem s1 = <[(2, 2000) := m]> (k_umem kernel2) /\
    is_notify m 1 1 100 /\
    k_procs s1 = <[server := x1]> (k_procs kernel2) /\
    (forall j, 0 <= j -> get_sys_bit (s_notify_pending x1) j =
                         get_sys_bit (s_notify_pending xs2) j && negb (j =? 5)) /\
    p_list x1 = p_list xs2 /\ p_rts_flags x1 = 0 /\ k_held s1 = [].
Proof.
  apply (receive_takes_notify kernel2 106 server xs2 (task_of server 2 106) dc0 ANY 2000
    TIMEOUT_FOREVER 5 server2).
  - by left.
  - reflexivity.
  - apply limits0.
  - repeat constructor; done.
  - eexists. reflexivity.
  - done.
  - reflexivity.
  - intros j Hj. assert (j = 0 \/ j = 1 \/ j = 2 \/ j = 3 \/ j = 4) as Hc by lia.
    repeat destruct Hc as [->|Hc]; try subst j; reflexivity.
Defined.

(** ** Two nodes

    The other node is that of the process 7.  The proxies of both nodes are waiting
    for commands; the process 5 sends a message to the process 7, which receives. *)

Definition home : ptr := PROC 0 11.
Definition visitor : ptr := PROC 0 9.

(** Node 1: its proxies to node 0 are the pair 2. *)
Definition kernel_b : kstate :=
  mk_kstate 1 1 2 16 32 4 MAXCOPYBUF MAXCOPYLEN
    {[ 0 := dc0 ]}
    (<[1 := mk_node 1 1 (-1) 1 0 0 0 0]> {[ 0 := mk_node 0 1 2 1 0 0 0 0 ]})
    {[ 2 := mk_proxies 2 1 65536 1 ]}
    (<[home := desc 7 7 0 1 0 0 (Some 307)]>
     (<[visitor := desc 5 5 0 0 REMOTE 0 None]>
     (<[SPROXY 2 := (desc 2 NONE (-1) 1 0 3 (Some 300)) <| p_nodemap := 1 |>]>
      {[ RPROXY 2 := desc 2 NONE (-1) 1 0 3 (Some 301) ]})))
    (<[307 := task_of home 1 307]>
     (<[300 := task_of (SPROXY 2) 3 300]> {[ 301 := task_of (RPROXY 2) 4 301 ]}))
    {[ (1, 1000) := message0 ]}
    (<[(3, 3000) := empty_cmd]> {[ (4, 4000) := empty_cmd ]})
    ∅ 500 2 [].

(** The sender proxies call [mm_get2rmt] and sleep. *)
Definition node_a : kstate := exit_state (mm_get2rmt 2 200 3000 0 TIMEOUT_FOREVER kernel0).
Definition node_b : kstate := exit_state (mm_get2rmt 2 300 3000 0 TIMEOUT_FOREVER kernel_b).

Definition desc_at (s : kstate) (p : ptr) : proc := default (local_desc 0 0) (k_procs s !! p).

Definition wiring_a : wiring :=
  mk_wiring dc0 (mk_node 1 1 0 1 0 0 0 0) (desc_at node_a (SPROXY 0)) 200 (task_of (SPROXY 0) 3 200)
    (desc_at node_a (RPROXY 0)) 201 (task_of (RPROXY 0) 4 201) 3000 4000 0 TIMEOUT_FOREVER 0.
Definition wiring_b : wiring :=
  mk_wiring dc0 (mk_node 0 1 2 1 0 0 0 0) (desc_at node_b (SPROXY 2)) 300 (task_of (SPROXY 2) 3 300)
    (desc_at node_b (RPROXY 2)) 301 (task_of (RPROXY 2) 4 301) 3000 4000 0 TIMEOUT_FOREVER 0.

Ltac computes := first [ done | vm_compute; done | eexists; vm_compute; done ].

Lemma crossing_ab :
  crossing node_a node_b 0 1 0 wiring_a wiring_b
    client (desc_at node_a client) faraway (desc_at node_a faraway)
    home (desc_at node_b home) visitor (desc_at node_b visitor)
    105 307 (task_of client 1 105) (task_of home 1 307).
Proof. split; repeat first [computes | split | repeat constructor]. Qed.

Lemma remote_rendezvous_witness :
  let send := mm_mini_send 2 105 7 1000 TIMEOUT_FOREVER in
  let receive := mm_mini_receive 307 ANY 1000 TIMEOUT_FOREVER in
  exists f h a sa1 sa2 sa3 sa4,
    send node_a = Exit (X_SLEEP (K_SEND_REMOTE f)) sa1 /\ forwards 0 wiring_a sa1 sa2 h /\
    takes 9 wiring_a a sa2 sa3 /\ resume_send_remote 1 105 f 0 sa3 = Exit (X_RET OK) sa4 /\
    returned node_a sa4 wiring_a client (desc_at node_a client) faraway /\
    (exists sb1 sb2 sb3,
       takes 9 wiring_b h node_b sb1 /\ receive sb1 = Exit (X_RET OK) sb2 /\
       forwards 0 wiring_b sb2 sb3 a /\
       has_got node_b sb3 wiring_b home visitor 1 1000 5 hello) /\
    (exists k sb1 sb2 sb3,
       receive node_b = Exit (X_SLEEP k) sb1 /\ takes 9 wiring_b h sb1 sb2 /\
       forwards 0 wiring_b sb2 sb3 a /\
       has_got node_b sb3 wiring_b home visitor 1 1000 5 hello /\
       (exists y, k_procs sb3 !! home = Some y /\ awake y)).
Proof.
  apply (remote_rendezvous node_a node_b 0 1 0 wiring_a wiring_b _ _ _ _ _ _ _ _ 105 307
    (task_of client 1 105) (task_of home 1 307) 0 9 1000 1000 TIMEOUT_FOREVER TIMEOUT_FOREVER 0 hello message0
    crossing_ab).
  - vm_compute. reflexivity.
  - vm_compute. reflexivity.
  - done.
  - done.
  - reflexivity.
Defined.
