(* ===== verification/Members.v ===== *)
(** * Which nodes take part in which data containers

    The table of DCs has a bitmap of nodes per DC and the table of nodes a
    bitmap of DCs per node.  The hypervisor calls keep the two in agreement and
    no DC has more nodes than it was created for. *)

From S2P Require Import Prelude Types Endpoint Kernel Hoare Utils Unbind Hyper.

(** ** Routines that do not change what is observed of the state *)

Section Keeps.
Context {T : Type} (obs : kstate -> T).

Definition keeps {A} (m : M A) : Prop :=
  forall s, wp m (fun _ s' => obs s' = obs s) (fun _ s' => obs s' = obs s) s.

Lemma keeps_bind {A B} (m : M A) (k : A -> M B) :
  keeps m -> (forall a, keeps (k a)) -> keeps (mbind m k).
Proof.
  intros Hm Hk s. apply wp_bind. eapply wp_mono; [apply Hm| |done].
  intros a s' E. rewrite <- E. apply Hk.
Qed.

Lemma keeps_ret {A} (a : A) : keeps (mret a).
Proof. done. Qed.
Lemma keeps_leave {A} x : keeps (@leave A x).
Proof. done. Qed.
Lemma keeps_get : keeps get.
Proof. done. Qed.
Lemma keeps_when b m : keeps m -> keeps (when b m).
Proof. by destruct b. Qed.
Lemma keeps_modify f : (forall s, obs (f s) = obs s) -> keeps (modify f).
Proof. intros Hf s. apply Hf. Qed.
Lemma keeps_rd p : keeps (rd p).
Proof. intros s. unfold wp, rd. by destruct (k_procs s !! p). Qed.
Lemma keeps_rd_dc d : keeps (rd_dc d).
Proof. intros s. unfold wp, rd_dc. by destruct (k_dcs s !! d). Qed.
Lemma keeps_rd_node d : keeps (rd_node d).
Proof. intros s. unfold wp, rd_node. by destruct (k_nodes s !! d). Qed.
Lemma keeps_rd_proxies d : keeps (rd_proxies d).
Proof. intros s. unfold wp, rd_proxies. by destruct (k_proxies s !! d). Qed.
Lemma keeps_rd_task d : keeps (rd_task d).
Proof. intros s. unfold wp, rd_task. by destruct (k_tasks s !! d). Qed.

Context (obs_held : forall s f, obs (s <| k_held ::= f |>) = obs s).

Lemma keeps_lock l : keeps (lock_ l).
Proof using obs_held. intros s. unfold wp, lock_. case_bool_decide; [done|]. apply obs_held. Qed.
Lemma keeps_unlock l : keeps (unlock_ l).
Proof using obs_held. intros s. unfold wp, unlock_. case_bool_decide; [|done]. apply obs_held. Qed.

(** A step that keeps what the conclusion depends on. *)
Lemma wp_keeps {A B} (m : M A) (k : A -> M B) Q (R : exit -> kstate -> Prop) s :
  keeps m -> (forall a s', obs s' = obs s -> wp (k a) Q R s') ->
  (forall x s', obs s' = obs s -> R x s') -> wp (mbind m k) Q R s.
Proof.
  intros Hm Hk HR. apply wp_bind. eapply wp_mono; [apply Hm| |apply HR]. intros a s' E. by apply Hk.
Qed.
End Keeps.

Create HintDb keeps discriminated.
#[export] Hint Constants Opaque : keeps.
#[export] Hint Resolve keeps_ret keeps_leave keeps_get keeps_rd keeps_rd_dc keeps_rd_node
  keeps_rd_proxies keeps_rd_task : keeps.
#[export] Hint Extern 1 (keeps _ (lock_ _)) => (apply keeps_lock; done) : keeps.
#[export] Hint Extern 1 (keeps _ (unlock_ _)) => (apply keeps_unlock; done) : keeps.

Ltac keeps :=
  unfold check_root, check_dvs, CHECK_DCID, CHECK_NODEID, CHECK_PROXYID, RLOCK_NODE, RUNLOCK_NODE,
    WLOCK_NODE, WUNLOCK_NODE, WLOCK_PROXY, WUNLOCK_PROXY, RLOCK_PROXY, RUNLOCK_PROXY, WLOCK_DC,
    ERROR_RUNLOCK_DC, ERROR_WUNLOCK_DC, ERROR_WUNLOCK_PROC, WUNLOCK_DC, RLOCK_DC, RUNLOCK_DC,
    WLOCK_PROC, WUNLOCK_PROC, RLOCK_PROC, RUNLOCK_PROC, error_if, return_, faults, wr;
  repeat (cbv beta;
    lazymatch goal with
    | |- keeps _ (mbind _ _) => apply keeps_bind; [|intros ?]
    | |- keeps _ (if ?b then _ else _) => destruct b
    | |- keeps _ (match ?x with _ => _ end) => destruct x
    | |- keeps _ (when _ _) => apply keeps_when
    | |- keeps _ (modify _) => apply keeps_modify; done
    | |- keeps _ _ => solve [eauto with keeps]
    end).

(** ** The membership of nodes in DCs *)

Record mdc := mk_mdc { md_flags : Z; md_nodes : Z; md_max : Z }.
Record mnode := mk_mnode { mn_flags : Z; mn_dcs : Z }.

Definition mdc_of (dc : dc_t) : mdc := mk_mdc (dc_flags dc) (dc_nodes dc) (dc_nr_nodes dc).
Definition mnode_of (nd : node_t) : mnode := mk_mnode (n_flags nd) (n_dcs nd).

Definition members (s : kstate) : gmap Z mdc * gmap Z mnode * Z :=
  (mdc_of <$> k_dcs s, mnode_of <$> k_nodes s, k_local_nodeid s).

Definition count_nodes (b : Z) : Z := count_bits (Z.to_nat ULONG_BITS) 0 b.

Record member_inv (t : gmap Z mdc * gmap Z mnode * Z) : Prop := {
  mi_agree : forall d n dc nd, t.1.1 !! d = Some dc -> t.1.2 !! n = Some nd ->
    test_bit n (md_nodes dc) = test_bit d (mn_dcs nd);
  mi_dc : forall d dc, t.1.1 !! d = Some dc ->
    md_flags dc = DC_RUNNING /\ count_nodes (md_nodes dc) <= Z.max 1 (md_max dc) \/
    md_flags dc = DC_FREE /\ md_nodes dc = 0;
  mi_node : forall n nd, t.1.2 !! n = Some nd -> mn_flags nd = NODE_FREE -> mn_dcs nd = 0;
  mi_local : -1 <= t.2;
  mi_here : forall nd, 0 <= t.2 -> t.1.2 !! t.2 = Some nd -> mn_flags nd <> NODE_FREE;
  mi_att : forall n nd, t.1.2 !! n = Some nd -> mn_flags nd <> NODE_FREE ->
    test_bit NODE_BIT_ATTACHED (mn_flags nd) = true;
}.

(** *** Counting bits *)

Lemma count_bits_set n i j b : 0 <= j -> count_bits n i (set_bit j b) <= count_bits n i b + 1.
Proof.
  intros Hj.
  assert (H0 : forall n i, i > j -> count_bits n i (set_bit j b) = count_bits n i b).
  { clear -Hj. induction n as [|n IH]; intros i Hi; [done|]. cbn [count_bits].
    rewrite test_set_other, IH by lia. done. }
  revert i. induction n as [|n IH]; intros i; cbn [count_bits]; [lia|].
  destruct (decide (j = i)) as [->|].
  - rewrite H0 by lia. destruct (test_bit i (set_bit i b)), (test_bit i b); lia.
  - rewrite test_set_other by lia. specialize (IH (i + 1)). lia.
Qed.

Lemma count_bits_clear n i j b : count_bits n i (clear_bit j b) <= count_bits n i b.
Proof.
  revert i. induction n as [|n IH]; intros i; cbn [count_bits]; [lia|]. specialize (IH (i + 1)).
  destruct (decide (j = i)) as [->|].
  - rewrite test_clear_same. destruct (test_bit i b); lia.
  - rewrite test_clear_other by done. lia.
Qed.

Lemma count_bits_0 n i : count_bits n i 0 = 0.
Proof. revert i. induction n as [|n IH]; intros i; cbn [count_bits]; [done|]. by rewrite test_bit_0, IH. Qed.

Lemma count_bits_pos n i b : 0 <= count_bits n i b.
Proof.
  revert i. induction n as [|n IH]; intros i; cbn [count_bits]; [lia|]. specialize (IH (i + 1)).
  destruct (test_bit i b); lia.
Qed.

(** *** Changes of the membership *)

Section Change.
Context (D : gmap Z mdc) (N : gmap Z mnode) (loc : Z) (HI : member_inv (D, N, loc)).

Lemma member_link d n dc nd :
  D !! d = Some dc -> N !! n = Some nd -> 0 <= d -> 0 <= n ->
  md_flags dc = DC_RUNNING -> count_nodes (md_nodes dc) < md_max dc -> mn_flags nd <> NODE_FREE ->
  member_inv (<[d := mk_mdc (md_flags dc) (set_bit n (md_nodes dc)) (md_max dc)]> D,
              <[n := mk_mnode (mn_flags nd) (set_bit d (mn_dcs nd))]> N, loc).
Proof using HI.
  intros Hd Hn Pd Pn Hf Hc Hnf. destruct HI as [HA HD HN HL HH HT]. cbn in *. split; cbn.
  - intros d' n' dc' nd'. rewrite !lookup_insert_Some.
    intros [[<- <-]|[Ed Hd']] [[<- <-]|[En Hn']]; cbn.
    + by rewrite !test_set_same.
    + rewrite test_set_other by done. by apply HA.
    + rewrite test_set_other by done. by apply HA.
    + by apply HA.
  - intros d' dc'. rewrite lookup_insert_Some. intros [[<- <-]|[_ Hd']]; [|by apply (HD d')]. cbn.
    left. split; [done|]. unfold count_nodes in *. pose proof (count_bits_set (Z.to_nat ULONG_BITS) 0 n (md_nodes dc) Pn). lia.
  - intros n' nd'. rewrite lookup_insert_Some. intros [[<- <-]|[_ Hn']]; [done|by apply (HN n')].
  - done.
  - intros nd' Hl. rewrite lookup_insert_Some. intros [[_ <-]|[_ Hn']]; [done|by apply HH].
  - intros n' nd'. rewrite lookup_insert_Some. intros [[<- <-]|[_ Hn']]; [by apply (HT n nd)|by apply (HT n')].
Qed.

Lemma member_unlink d n dc nd :
  D !! d = Some dc -> N !! n = Some nd ->
  member_inv (<[d := mk_mdc (md_flags dc) (clear_bit n (md_nodes dc)) (md_max dc)]> D,
              <[n := mk_mnode (mn_flags nd) (clear_bit d (mn_dcs nd))]> N, loc).
Proof using HI.
  intros Hd Hn. destruct HI as [HA HD HN HL HH HT]. cbn in *. split; cbn.
  - intros d' n' dc' nd'. rewrite !lookup_insert_Some.
    intros [[<- <-]|[Ed Hd']] [[<- <-]|[En Hn']]; cbn.
    + by rewrite !test_clear_same.
    + rewrite test_clear_other by done. by apply HA.
    + rewrite test_clear_other by done. by apply HA.
    + by apply HA.
  - intros d' dc'. rewrite lookup_insert_Some. intros [[<- <-]|[_ Hd']]; [|by apply (HD d')]. cbn.
    destruct (HD d dc Hd) as [[? ?]|[? ->]]; [left|right; split; [done|apply Z.bits_inj_0; intros j]].
    + split; [done|]. unfold count_nodes in *.
      pose proof (count_bits_clear (Z.to_nat ULONG_BITS) 0 n (md_nodes dc)). lia.
    + change (test_bit j (clear_bit n 0) = false). destruct (decide (n = j)) as [->|].
      * apply test_clear_same.
      * rewrite test_clear_other by done. apply test_bit_0.
  - intros n' nd'. rewrite lookup_insert_Some. intros [[<- <-]|[_ Hn']]; [|by apply (HN n')]. cbn.
    intros Hf. rewrite (HN _ _ Hn Hf). apply Z.bits_inj_0. intros j.
    change (test_bit j (clear_bit d 0) = false). destruct (decide (d = j)) as [->|].
    + apply test_clear_same.
    + rewrite test_clear_other by done. apply test_bit_0.
  - done.
  - intros nd' Hl. rewrite lookup_insert_Some. intros [[<- <-]|[_ Hn']]; [|by apply HH].
    cbn. by apply HH.
  - intros n' nd'. rewrite lookup_insert_Some. intros [[<- <-]|[_ Hn']]; [by apply (HT n nd)|by apply (HT n')].
Qed.

Lemma member_flags n nd fl :
  N !! n = Some nd -> test_bit NODE_BIT_ATTACHED fl = true ->
  member_inv (D, <[n := mk_mnode fl (mn_dcs nd)]> N, loc).
Proof using HI.
  intros Hn Ht. assert (Hf : fl <> NODE_FREE) by by apply test_bit_nonzero in Ht. destruct HI as [HA HD HN HL HH HT]. cbn in *. split; cbn; [|done| |done| |].
  - intros d' n' dc' nd' Hd'. rewrite lookup_insert_Some. intros [[<- <-]|[_ Hn']]; [by apply (HA d' n dc' nd)|by apply HA].
  - intros n' nd'. rewrite lookup_insert_Some. intros [[<- <-]|[_ Hn']]; [done|by apply (HN n')].
  - intros nd' Hl. rewrite lookup_insert_Some. intros [[<- <-]|[_ Hn']]; [done|by apply HH].
  - intros n' nd'. rewrite lookup_insert_Some. intros [[<- <-]|[_ Hn']]; [done|by apply (HT n')].
Qed.

(** A new DC, on this node. *)
Lemma member_start d dc nd max :
  D !! d = Some dc -> md_flags dc <> DC_RUNNING -> N !! loc = Some nd -> 0 <= d -> 0 <= loc ->
  member_inv (<[d := mk_mdc DC_RUNNING (set_bit loc 0) max]> D,
              <[loc := mk_mnode (mn_flags nd) (set_bit d (mn_dcs nd))]> N, loc).
Proof using HI.
  intros Hd Hf Hn Pd Pl. destruct HI as [HA HD HN HL HH HT]. cbn in *.
  destruct (HD d dc Hd) as [[? _]|[_ H0]]; [done|]. split; cbn.
  - intros d' n' dc' nd'. rewrite !lookup_insert_Some.
    intros [[<- <-]|[Ed Hd']] [[<- <-]|[En Hn']]; cbn.
    + by rewrite !test_set_same.
    + rewrite test_set_other, <- (HA d n' dc nd' Hd Hn'), H0, test_bit_0 by done. done.
    + rewrite test_set_other by done. by apply HA.
    + by apply HA.
  - intros d' dc'. rewrite lookup_insert_Some. intros [[<- <-]|[_ Hd']]; [|by apply (HD d')]. cbn.
    left. split; [done|]. unfold count_nodes.
    pose proof (count_bits_set (Z.to_nat ULONG_BITS) 0 loc 0 Pl). rewrite count_bits_0 in *. lia.
  - intros n' nd'. rewrite lookup_insert_Some. intros [[<- <-]|[_ Hn']]; [|by apply (HN n')]. cbn.
    intros E. by destruct (HH nd Pl Hn).
  - done.
  - intros nd' Hl. rewrite lookup_insert_Some. intros [[_ <-]|[_ Hn']]; [by apply (HH nd)|by apply HH].
  - intros n' nd'. rewrite lookup_insert_Some. intros [[<- <-]|[_ Hn']]; [by apply (HT loc nd)|by apply (HT n')].
Qed.

Definition mrelease_node (d : Z) (nd : mnode) : mnode :=
  if mn_flags nd =? NODE_FREE then nd else mk_mnode (mn_flags nd) (clear_bit d (mn_dcs nd)).

Lemma member_release d :
  member_inv (alter (fun dc => mk_mdc DC_FREE 0 (md_max dc)) d D, mrelease_node d <$> N, loc).
Proof using HI.
  destruct HI as [HA HD HN HL HH HT]. cbn in *.
  assert (Hbit : forall n nd, N !! n = Some nd -> forall d', test_bit d' (mn_dcs (mrelease_node d nd)) =
    if decide (d = d') then false else test_bit d' (mn_dcs nd)).
  { intros n nd Hn d'. unfold mrelease_node. destruct (Z.eqb_spec (mn_flags nd) NODE_FREE) as [E|E].
    - rewrite (HN n nd Hn E), test_bit_0. by case_decide.
    - cbn. case_decide as Ed; [subst; apply test_clear_same|by apply test_clear_other]. }
  split; cbn.
  - intros d' n' dc' nd' Hd'. rewrite lookup_fmap_Some. intros (nd & <- & Hn).
    rewrite (Hbit n' nd Hn). destruct (decide (d = d')) as [<-|Hne].
    + rewrite lookup_alter_eq in Hd'. destruct (D !! d) as [dc|]; [|done]. cbn in Hd'.
      injection Hd' as <-. apply test_bit_0.
    + rewrite lookup_alter_ne in Hd' by done. by apply HA.
  - intros d' dc'. destruct (decide (d = d')) as [<-|Hne].
    + rewrite lookup_alter_eq. destruct (D !! d) as [dc|]; [|done]. cbn. intros [= <-]. by right.
    + rewrite lookup_alter_ne by done. apply HD.
  - intros n nd'. rewrite lookup_fmap_Some. intros (nd & <- & Hn). unfold mrelease_node.
    destruct (Z.eqb_spec (mn_flags nd) NODE_FREE) as [E|E]; [by apply (HN n)|done].
  - done.
  - intros nd' Hl. rewrite lookup_fmap_Some. intros (nd & <- & Hn). specialize (HH nd Hl Hn).
    unfold mrelease_node. by destruct (_ =? _).
  - intros n nd'. rewrite lookup_fmap_Some. intros (nd & <- & Hn). specialize (HT n nd Hn).
    unfold mrelease_node. by destruct (_ =? _).
Qed.
End Change.

(** ** The calls keep the membership *)

Definition mems (x : exit) (s : kstate) : Prop := is_fault x = false -> member_inv (members s).

Section Rules.
Context {B : Type} (Q : B -> kstate -> Prop).

Lemma mem_keeps {A} (m : M A) (k : A -> M B) s :
  keeps members m -> member_inv (members s) ->
  (forall a s', members s' = members s -> wp (k a) Q mems s') -> wp (mbind m k) Q mems s.
Proof. intros Hm HI Hk. eapply (wp_keeps members); [exact Hm|exact Hk|]. unfold mems. by intros x s' ->. Qed.

Lemma mem_rd_dc d (k : dc_t -> M B) s :
  member_inv (members s) -> (forall dc, k_dcs s !! d = Some dc -> wp (k dc) Q mems s) ->
  wp (mbind (rd_dc d) k) Q mems s.
Proof. intros HI Hk. apply wp_bind. unfold wp at 1, rd_dc. destruct (k_dcs s !! d); [by apply Hk|done]. Qed.

Lemma mem_rd_node d (k : node_t -> M B) s :
  member_inv (members s) -> (forall nd, k_nodes s !! d = Some nd -> wp (k nd) Q mems s) ->
  wp (mbind (rd_node d) k) Q mems s.
Proof. intros HI Hk. apply wp_bind. unfold wp at 1, rd_node. destruct (k_nodes s !! d); [by apply Hk|done]. Qed.

Lemma mem_get (k : kstate -> M B) s : wp (k s) Q mems s -> wp (mbind get k) Q mems s.
Proof. intros Hk. by apply wp_bind, wp_get. Qed.

Lemma mem_error_if b r (k : unit -> M B) s :
  member_inv (members s) -> (b = false -> wp (k tt) Q mems s) -> wp (mbind (error_if b r) k) Q mems s.
Proof. intros HI Hk. apply wp_bind. destruct b; cbn; [by intros _|auto]. Qed.

End Rules.

Lemma wp_wr_dc d f (Q : unit -> kstate -> Prop) R s dc :
  k_dcs s !! d = Some dc -> Q tt (s <| k_dcs ::= <[d := f dc]> |>) -> wp (wr_dc d f) Q R s.
Proof. intros Hd HQ. unfold wr_dc. apply wp_bind. unfold wp at 1, rd_dc. by rewrite Hd. Qed.

Lemma wp_wr_node n f (Q : unit -> kstate -> Prop) R s nd :
  k_nodes s !! n = Some nd -> Q tt (s <| k_nodes ::= <[n := f nd]> |>) -> wp (wr_node n f) Q R s.
Proof. intros Hd HQ. unfold wr_node. apply wp_bind. unfold wp at 1, rd_node. by rewrite Hd. Qed.

(** The observations after the two writes. *)
Lemma members_writes s d dc n nd :
  members (s <| k_dcs ::= <[d := dc]> |> <| k_nodes ::= <[n := nd]> |>) =
  (<[d := mdc_of dc]> (members s).1.1, <[n := mnode_of nd]> (members s).1.2, (members s).2).
Proof. unfold members. cbn. by rewrite !fmap_insert. Qed.

Lemma members_dc s d dc : k_dcs s !! d = Some dc -> (members s).1.1 !! d = Some (mdc_of dc).
Proof. intros H. cbn. by rewrite lookup_fmap, H. Qed.

Lemma members_node s n nd : k_nodes s !! n = Some nd -> (members s).1.2 !! n = Some (mnode_of nd).
Proof. intros H. cbn. by rewrite lookup_fmap, H. Qed.

Lemma other_node_spec cur d n s :
  wp (other_node cur d n)
    (fun _ s' => members s' = members s /\ 0 <= n /\ 0 <= d /\
       exists nd, (members s).1.2 !! n = Some nd /\ mn_flags nd <> NODE_FREE)
    (fun _ s' => members s' = members s) s.
Proof.
  unfold other_node.
  eapply (wp_keeps members); [keeps|intros _ s1 E1; cbv beta|done].
  eapply (wp_keeps members); [keeps|intros _ s2 E2; cbv beta|intros; congruence].
  unfold CHECK_NODEID. rewrite wp_bind, wp_bind, wp_get. unfold error_if.
  destruct ((n <? 0) || _) eqn:En; cbn [when]; [apply wp_leave; congruence|]. apply wp_ret.
  apply orb_false_iff in En as [En _]. apply Z.ltb_ge in En.
  apply wp_bind, wp_get.
  eapply (wp_keeps members); [keeps|intros _ s3 E3; cbv beta|intros; congruence].
  eapply (wp_keeps members); [keeps|intros _ s4 E4; cbv beta|intros; congruence].
  apply wp_bind. unfold wp at 1, rd_node. destruct (k_nodes s4 !! n) as [nd|] eqn:Hn; [|congruence].
  destruct (n_flags nd =? NODE_FREE) eqn:Ef; cbn [when].
  - rewrite wp_bind. eapply (wp_keeps members); [keeps|intros _ s5 E5; cbv beta|intros; congruence].
    cbn. congruence.
  - apply wp_bind, wp_ret.
    eapply (wp_keeps members); [keeps|intros _ s5 E5; cbv beta|intros; congruence].
    unfold CHECK_DCID. rewrite wp_bind, wp_get. unfold error_if.
    destruct ((d <? 0) || _) eqn:Ed; cbn [when]; [apply wp_leave; congruence|]. apply wp_ret.
    apply orb_false_iff in Ed as [Ed _]. apply Z.ltb_ge in Ed. split_and!; [congruence|done|done|].
    exists (mnode_of nd). split; [|by apply Z.eqb_neq]. rewrite <- E1, <- E2, <- E3, <- E4.
    by apply members_node.
Qed.

Lemma keeps_lock_sr cur px : keeps members (lock_sr_proxies cur px).
Proof. unfold lock_sr_proxies. keeps. Qed.
Lemma keeps_unlock_sr cur px : keeps members (unlock_sr_proxies cur px).
Proof. unfold unlock_sr_proxies. keeps. Qed.
Lemma keeps_finish_node d n r : keeps members (finish_node d n r).
Proof. unfold finish_node. keeps. Qed.
Lemma keeps_init_proc_desc p d i : keeps members (init_proc_desc p d i).
Proof. unfold init_proc_desc. keeps. Qed.
Lemma keeps_new_slot d t mem i : keeps members (new_slot d t mem i).
Proof. unfold new_slot. keeps. apply keeps_init_proc_desc. Qed.
#[export] Hint Resolve keeps_lock_sr keeps_unlock_sr keeps_finish_node keeps_init_proc_desc
  keeps_new_slot : keeps.

Lemma keeps_for_each n i body : (forall j, keeps members (body j)) -> keeps members (for_each n i body).
Proof. intros Hb. revert i. induction n as [|n IH]; intros i; cbn [for_each]; keeps; auto. Qed.

(** A handler that keeps the observations ends with the invariant. *)
Lemma mem_end (m : handler) s :
  keeps members m -> member_inv (members s) -> wp m (fun _ _ => True) mems s.
Proof.
  intros Hm HI. eapply wp_mono; [apply Hm|done|]. unfold mems. by intros x s' ->.
Qed.

Lemma mem_start_node {A} cur d n (k : unit -> M A) s :
  member_inv (members s) ->
  (forall s', members s' = members s -> 0 <= n -> 0 <= d ->
     (exists nd, (members s).1.2 !! n = Some nd /\ mn_flags nd <> NODE_FREE) ->
     wp (k tt) (fun _ _ => True) mems s') ->
  wp (mbind (other_node cur d n) k) (fun _ _ => True) mems s.
Proof.
  intros HI Hk. apply wp_bind. eapply wp_mono; [apply other_node_spec| |]; cbv beta.
  - intros [] s' (E & ? & ? & ?). by apply Hk.
  - unfold mems. by intros x s' ->.
Qed.

(** [mm_add_node] and [mm_del_node] are the same but for the condition and the
    change of the two bitmaps. *)
Lemma mem_node_op cur d n (status : dc_t -> node_t -> Z) f g s :
  member_inv (members s) ->
  (forall s dc nd, member_inv (members s) -> 0 <= n -> 0 <= d -> n_flags nd <> NODE_FREE ->
     (members s).1.1 !! d = Some (mdc_of dc) -> (members s).1.2 !! n = Some (mnode_of nd) ->
     status dc nd = OK ->
     member_inv (<[d := mdc_of (f dc)]> (members s).1.1, <[n := mnode_of (g nd)]> (members s).1.2,
                 (members s).2)) ->
  wp (other_node cur d n ;; WLOCK_DC d ;; WLOCK_NODE n ;; dc <- rd_dc d ;; nd <- rd_node n ;;
      let ret := status dc nd in
      when (ret =? OK) (wr_dc d f ;; wr_node n g) ;; finish_node d n ret) (fun _ _ => True) mems s.
Proof.
  intros HI HC. apply mem_start_node; [done|]. intros s1 E1 Hn Hd (ndm & Hndm & Hnf).
  apply mem_keeps; [keeps|by rewrite E1|]. intros _ s2 E2.
  apply mem_keeps; [keeps|congruence|]. intros _ s3 E3.
  assert (E : members s3 = members s) by congruence. clear E1 E2 E3 s1 s2.
  rewrite <- E in HI, Hndm. clear E s. rename s3 into s.
  apply mem_rd_dc; [done|]. intros dc Hdc. apply mem_rd_node; [done|]. intros nd Hnd. cbv zeta.
  rewrite (members_node _ _ _ Hnd) in Hndm. injection Hndm as <-.
  rewrite wp_bind. destruct (status dc nd =? OK) eqn:Es; cbn [when].
  2: { apply wp_ret, mem_end; [keeps|done]. }
  rewrite wp_bind. eapply wp_wr_dc; [exact Hdc|]. eapply wp_wr_node; [exact Hnd|].
  apply mem_end; [keeps|]. rewrite members_writes.
  apply HC; try done; [by apply members_dc|by apply members_node|by apply Z.eqb_eq].
Qed.

Lemma mem_add_node cur d n s :
  member_inv (members s) -> wp (mm_add_node cur d n) (fun _ _ => True) mems s.
Proof.
  intros HI. apply mem_node_op; [done|]. clear s HI. intros s dc nd HI Hn Hd Hnf H1 H2 Es.
  unfold add_node_status in Es.
  destruct (Z.eqb_spec (dc_flags dc) DC_FREE) as [|Hfr]; [done|].
  destruct (test_bit n _) eqn:T1; [done|]. destruct (test_bit d _) eqn:T2; [done|].
  destruct (nodes_of dc >=? dc_nr_nodes dc) eqn:Ec; [done|].
  destruct (members s) as [[D N] loc] eqn:EM.
  apply (member_link D N loc HI d n (mdc_of dc) (mnode_of nd)); try done.
  - destruct (mi_dc _ HI d _ H1) as [[? _]|[? _]]; done.
  - rewrite Z.geb_leb in Ec. by apply Z.leb_gt in Ec.
Qed.

Lemma mem_del_node cur d n s :
  member_inv (members s) -> wp (mm_del_node cur d n) (fun _ _ => True) mems s.
Proof.
  intros HI. apply mem_node_op; [done|]. clear s HI. intros s dc nd HI _ _ _ H1 H2 _.
  destruct (members s) as [[D N] loc]. by apply (member_unlink D N loc HI d n (mdc_of dc) (mnode_of nd)).
Qed.

(** *** Linking a node to its proxies *)

Lemma members_node_write s n nd :
  members (s <| k_nodes ::= <[n := nd]> |>) =
  ((members s).1.1, <[n := mnode_of nd]> (members s).1.2, (members s).2).
Proof. unfold members. cbn. by rewrite fmap_insert. Qed.

(** A node that is attached to a pair of proxies. *)
Definition is_attached (s : kstate) (n : Z) : Prop :=
  forall nd, (members s).1.2 !! n = Some nd -> test_bit NODE_BIT_ATTACHED (mn_flags nd) = true.

(** Changing the flags of a node that stays, or is now, attached. *)
Lemma mem_wr_flags n f (Q : unit -> kstate -> Prop) s :
  member_inv (members s) ->
  (forall nd, k_nodes s !! n = Some nd ->
     n_dcs (f nd) = n_dcs nd /\ test_bit NODE_BIT_ATTACHED (n_flags (f nd)) = true) ->
  (forall s', member_inv (members s') -> is_attached s' n ->
     (forall m, is_attached s m -> is_attached s' m) -> Q tt s') ->
  wp (wr_node n f) Q mems s.
Proof.
  intros HI Hf HQ. unfold wr_node. rewrite wp_bind. unfold wp at 1, rd_node.
  destruct (k_nodes s !! n) as [nd|] eqn:Hn; [|done]. destruct (Hf nd eq_refl) as [Hd Hfl]. apply wp_modify, HQ.
  - rewrite members_node_write. pose proof (members_node _ _ _ Hn) as H.
    destruct (members s) as [[D N] loc]. unfold mnode_of at 1. rewrite Hd.
    by apply (member_flags D N loc HI n (mnode_of nd)).
  - intros nd'. rewrite members_node_write. cbn [fst snd]. rewrite lookup_insert_eq. by intros [= <-].
  - intros m Hm nd'. rewrite members_node_write. cbn [fst snd]. rewrite lookup_insert_Some.
    intros [[_ <-]|[_ Hm']]; [done|by apply Hm].
Qed.

(** Setting or clearing another bit of an attached node. *)
Lemma is_attached_node s n nd :
  is_attached s n -> k_nodes s !! n = Some nd -> test_bit NODE_BIT_ATTACHED (n_flags nd) = true.
Proof. intros Ha Hn. by apply (Ha (mnode_of nd)), members_node. Qed.

Lemma mem_flag_bit n f (Q : unit -> kstate -> Prop) s :
  member_inv (members s) -> is_attached s n ->
  (forall nd, n_dcs (f nd) = n_dcs nd /\
     test_bit NODE_BIT_ATTACHED (n_flags (f nd)) = test_bit NODE_BIT_ATTACHED (n_flags nd)) ->
  (forall s', member_inv (members s') -> is_attached s' n ->
     (forall m, is_attached s m -> is_attached s' m) -> Q tt s') ->
  wp (wr_node n f) Q mems s.
Proof.
  intros HI Ha Hf. apply mem_wr_flags; [done|]. intros nd Hn. destruct (Hf nd) as [-> ->].
  split; [done|]. by eapply is_attached_node.
Qed.

Lemma mem_when_bit {A} b n f (k : unit -> M A) Q s :
  member_inv (members s) -> is_attached s n ->
  (forall nd, n_dcs (f nd) = n_dcs nd /\
     test_bit NODE_BIT_ATTACHED (n_flags (f nd)) = test_bit NODE_BIT_ATTACHED (n_flags nd)) ->
  (forall s', member_inv (members s') -> is_attached s' n -> wp (k tt) Q mems s') ->
  wp (mbind (when b (wr_node n f)) k) Q mems s.
Proof.
  intros HI Ha Hf Hk. rewrite wp_bind. destruct b; cbn [when]; [|by apply wp_ret, Hk].
  apply mem_flag_bit; [done..|]. intros s' HI' Ha' _. by apply Hk.
Qed.

(** The next step keeps the observations. *)
Ltac mem_next :=
  apply mem_keeps; [solve [keeps]|assumption|];
  let a := fresh "a" in let s' := fresh "s" in let E := fresh "E" in
  intros a s' E;
  match goal with H : member_inv (members ?t) |- _ => rewrite <- E in H; clear E end.

Lemma mem_node_up cur n px rc s :
  member_inv (members s) -> wp (mm_node_up cur n px rc) (fun _ _ => True) mems s.
Proof.
  intros HI. unfold mm_node_up. do 14 mem_next.
  rewrite wp_bind. apply mem_wr_flags; [done|by intros nd|]. clear HI. intros ? HI Ha _.
  apply mem_when_bit; [done|done|by split; [|apply test_set_other]|]. clear HI Ha. intros ? HI Ha.
  apply mem_when_bit; [done|done|by split; [|apply test_set_other]|]. clear HI Ha. intros ? HI Ha.
  apply mem_end; [keeps|done].
Qed.

(** *** Creating and releasing a DC *)

Lemma mem_DC_DECREF {A} d (k : unit -> M A) Q s :
  member_inv (members s) ->
  (forall s', member_inv (members s') -> wp (k tt) Q mems s') ->
  wp (mbind (DC_DECREF d) k) Q mems s.
Proof.
  intros HI Hk. unfold DC_DECREF. rewrite wp_bind. apply mem_rd_dc; [done|]. intros dc Hdc.
  rewrite wp_bind. eapply wp_wr_dc; [exact Hdc|].
  set (s1 := s <| k_dcs ::= _ |>).
  assert (E1 : members s1 = members s).
  { unfold members, s1. cbn. rewrite fmap_insert.
    do 2 f_equal. apply insert_id. by rewrite lookup_fmap, Hdc. }
  assert (HI1 : member_inv (members s1)) by by rewrite E1.
  clearbody s1. clear E1 HI Hdc s. destruct (_ =? 1); cbn [when]; [|by apply wp_ret, Hk].
  apply wp_modify, Hk.
  pose proof (member_release _ _ _ HI1 d) as HR.
  replace (members (dc_release d s1)) with
    (alter (fun dc => mk_mdc DC_FREE 0 (md_max dc)) d (mdc_of <$> k_dcs s1),
     mrelease_node d <$> (mnode_of <$> k_nodes s1), k_local_nodeid s1); [exact HR|].
  unfold members, dc_release. cbn. do 2 f_equal.
  - apply map_eq. intros i. destruct (decide (d = i)) as [->|].
    + rewrite lookup_alter_eq, !lookup_fmap, lookup_alter_eq. by destruct (k_dcs s1 !! i).
    + by rewrite lookup_alter_ne, !lookup_fmap, lookup_alter_ne by done.
  - rewrite <- !map_fmap_compose. apply map_fmap_ext. intros i nd _. unfold compose, mrelease_node, release_node.
    cbn. by destruct (_ =? _).
Qed.

Lemma keeps_dc_taken u i : keeps members (dc_taken u i).
Proof. unfold dc_taken. keeps. Qed.
#[export] Hint Resolve keeps_dc_taken : keeps.

Lemma dc_taken_one u i s :
  wp (dc_taken u i)
    (fun _ _ => forall dc, (members s).1.1 !! i = Some dc -> i = dcu_dcid u -> md_flags dc <> DC_RUNNING)
    (fun _ _ => True) s.
Proof.
  unfold dc_taken. eapply (wp_keeps members); [keeps|intros _ s1 E1; cbv beta|done].
  rewrite wp_bind. unfold wp at 1, rd_dc. destruct (k_dcs s1 !! i) as [dc|] eqn:Hdc; [|done].
  assert (Hfl : forall dc', (members s).1.1 !! i = Some dc' -> md_flags dc' = dc_flags dc).
  { intros dc' Hd'. rewrite <- E1, (members_dc _ _ _ Hdc) in Hd'. by injection Hd' as <-. }
  destruct (Z.eqb_spec (dc_flags dc) DC_RUNNING) as [Ef|Ef]; cbn [when]; rewrite wp_bind.
  - eapply (wp_keeps members); [keeps|intros _ s2 E2; cbv beta|done].
    destruct (Z.eqb_spec i (dcu_dcid u)) as [Ei|Ei]; cbn [when].
    + unfold ERROR_RUNLOCK_DC. eapply (wp_keeps members); [keeps| |done]. done.
    + apply wp_ret. unfold wp. destruct (RUNLOCK_DC i s2); done.
  - apply wp_ret. unfold wp. destruct (RUNLOCK_DC i s1); [|done]. intros dc' Hd' _.
    by rewrite (Hfl _ Hd').
Qed.

(** The DCs from [i] on that run have another number than the new one. *)
Lemma dc_taken_spec u n i s :
  wp (for_each n i (dc_taken u))
    (fun _ _ => forall dc, (members s).1.1 !! dcu_dcid u = Some dc ->
       i <= dcu_dcid u < i + Z.of_nat n -> md_flags dc <> DC_RUNNING)
    (fun _ _ => True) s.
Proof.
  revert i s. induction n as [|n IH]; intros i s; cbn [for_each]; [apply wp_ret; lia|].
  apply wp_bind. pose proof (dc_taken_one u i s) as H1. pose proof (keeps_dc_taken u i s) as H2.
  unfold wp at 1. unfold wp in H1, H2. destruct (dc_taken u i s) as [a s1|]; [|done].
  eapply wp_mono; [apply IH| |done]; cbv beta. intros _ s2 H3 dc Hd Hr.
  destruct (decide (i = dcu_dcid u)) as [->|]; [by apply H1|]. apply H3; [by rewrite H2|lia].
Qed.

Lemma members_dc_write s d dc :
  members (s <| k_dcs ::= <[d := dc]> |>) =
  (<[d := mdc_of dc]> (members s).1.1, (members s).1.2, (members s).2).
Proof. unfold members. cbn. by rewrite fmap_insert. Qed.

(** Changing what is not observed of a DC. *)
Lemma mem_wr_dc {A} d f (k : unit -> M A) s :
  member_inv (members s) -> (forall dc, mdc_of (f dc) = mdc_of dc) ->
  (forall s', members s' = members s -> wp (k tt) (fun _ _ => True) mems s') ->
  wp (mbind (wr_dc d f) k) (fun _ _ => True) mems s.
Proof.
  intros HI Hf Hk. unfold wr_dc. rewrite wp_bind. apply mem_rd_dc; [done|]. intros dc Hdc.
  apply wp_modify, Hk. rewrite members_dc_write, Hf.
  rewrite insert_id; [by destruct (members s) as [[]]|by apply members_dc].
Qed.

(** The part of [mm_dc_init] that starts the DC. *)
Lemma mem_start_dc {A} u n f (k : unit -> M A) s :
  member_inv (members s) -> 0 <= n -> n = k_local_nodeid s -> 0 <= dcu_dcid u ->
  (forall dc, (members s).1.1 !! dcu_dcid u = Some dc -> md_flags dc <> DC_RUNNING) ->
  (forall dc, exists max, mdc_of (f dc) = mk_mdc DC_RUNNING (set_bit n 0) max) ->
  (forall s', member_inv (members s') -> wp (k tt) (fun _ _ => True) mems s') ->
  wp (wr_dc (dcu_dcid u) f ;; WLOCK_NODE n ;;
      wr_node n (fun nd => nd <| n_dcs ::= set_bit (dcu_dcid u) |>) ;; k tt) (fun _ _ => True) mems s.
Proof.
  intros HI Hn Hloc Hd Hfree Hf Hk. unfold wr_dc. rewrite wp_bind. apply mem_rd_dc; [done|].
  intros dc Hdc. apply wp_modify. rewrite wp_bind. unfold WLOCK_NODE, lock_, wp at 1.
  case_bool_decide; [done|]. rewrite wp_bind. destruct (k_nodes s !! n) as [nd|] eqn:Hnd.
  2: { unfold wr_node. rewrite wp_bind. unfold wp at 1, rd_node. cbn. by rewrite Hnd. }
  eapply wp_wr_node; [exact Hnd|]. apply Hk.
  destruct (Hf dc) as (max & Ef).
  pose proof (member_start _ _ _ HI (dcu_dcid u) (mdc_of dc) (mnode_of nd) max) as HS.
  cbn [fst snd] in HS. rewrite <- Hloc in HS.
  match goal with |- member_inv ?t => replace t with
    (<[dcu_dcid u := mk_mdc DC_RUNNING (set_bit n 0) max]> (mdc_of <$> k_dcs s),
     <[n := mk_mnode (mn_flags (mnode_of nd)) (set_bit (dcu_dcid u) (mn_dcs (mnode_of nd)))]>
       (mnode_of <$> k_nodes s), n) end.
  - apply HS; try done; [by apply members_dc|by apply Hfree, members_dc|by apply members_node].
  - unfold members. cbn -[set_bit]. rewrite !fmap_insert, Ef, <- Hloc. done.
Qed.

(** The guards change nothing. *)
Lemma wp_check {A B} (m : M A) (k : A -> M B) Q (R : exit -> kstate -> Prop) s :
  keeps id m -> (forall a, wp (k a) Q R s) -> (forall x, R x s) -> wp (mbind m k) Q R s.
Proof.
  intros Hm Hk HR. eapply (wp_keeps id); [exact Hm|..].
  - intros a s' E. cbn in E. subst s'. apply Hk.
  - intros x s' E. cbn in E. subst s'. apply HR.
Qed.

(** The end of [mm_dc_init], once the table of processes is there. *)
Lemma mem_dc_finish d n files s :
  member_inv (members s) ->
  wp (wr_dc d (fun dc => dc <| dc_refcount := 1 |>) ;; KREF_GET ;;
      when (negb (files =? OK)) (DC_DECREF d ;; WUNLOCK_DC d ;; return_ files) ;;
      WUNLOCK_DC d ;; return_ n : handler) (fun _ _ => True) mems s.
Proof.
  intros HI. apply mem_wr_dc; [done..|]. intros s1 E. rewrite <- E in HI. clear E s.
  unfold KREF_GET. mem_next. destruct (files =? OK); cbn [negb when].
  - rewrite wp_bind. apply wp_ret, mem_end; [keeps|done].
  - rewrite wp_bind. apply mem_DC_DECREF; [done|]. clear HI. intros s2 HI.
    mem_next. by intros _.
Qed.

Lemma mem_dc_init cur u mem alloc dbg files s :
  member_inv (members s) -> 0 <= dcu_dcid u < k_nr_dcs s ->
  wp (mm_dc_init cur (inr u) mem alloc dbg files) (fun _ _ => True) mems s.
Proof.
  intros HI Hp. unfold mm_dc_init.
  eapply wp_check; [keeps|intros _|by intros x _].
  unfold check_dvs. rewrite wp_bind. apply mem_get. unfold error_if at 1.
  destruct (DVS_NOT_INIT s) eqn:Hi; cbn [when]; [by intros _|].
  apply wp_ret, mem_get. cbv zeta beta iota.
  assert (Hloc : 0 <= k_local_nodeid s).
  { pose proof (mi_local _ HI) as HL. cbn in HL. unfold DVS_NOT_INIT in Hi.
    apply Z.eqb_neq in Hi. unfold DVS_NO_INIT in Hi. lia. }
  destruct Hp as [Hd1 Hd2].
  eapply wp_check; [keeps|intros _|by intros x _].
  rewrite wp_bind. pose proof (dc_taken_spec u (Z.to_nat (k_nr_dcs s)) 0 s) as H1.
  pose proof (keeps_for_each (Z.to_nat (k_nr_dcs s)) 0 _ (keeps_dc_taken u) s) as H2.
  unfold wp in H1, H2. unfold wp at 1.
  destruct (for_each _ _ _ s) as [a s1|x s1]; [|unfold mems; by rewrite H2].
  rewrite <- H2 in H1, HI. assert (Hl1 : k_local_nodeid s1 = k_local_nodeid s).
  { change ((members s1).2 = (members s).2). by rewrite H2. }
  rewrite <- Hl1 in *. clear H2 Hl1 Hi a. revert H1. generalize (k_nr_dcs s) Hd2.
  intros N HdN H1. clear Hd2 s.
  assert (Hfree : forall dc, (members s1).1.1 !! dcu_dcid u = Some dc -> md_flags dc <> DC_RUNNING).
  { intros dc Hdc. apply (H1 dc Hdc). lia. }
  clear H1.
  apply mem_keeps; [keeps|done|]. intros _ s2 E. rewrite <- E in HI, Hfree.
  assert (Hl2 : k_local_nodeid s1 = k_local_nodeid s2).
  { change ((members s1).2 = (members s2).2). by rewrite E. }
  rewrite Hl2 in *. clear E Hl2 s1.
  match goal with |- wp (mbind (wr_dc ?d ?f) (fun _ => mbind (WLOCK_NODE ?n) (fun _ =>
      mbind ?w (fun _ => ?k)))) ?Q ?R ?s =>
    apply (mem_start_dc u n f (fun _ => k) s) end; try done.
  { intros dc. by exists (dcu_nr_nodes u). }
  clear Hfree HI Hloc. intros s HI. cbv beta.
  do 2 mem_next. apply mem_keeps; [apply keeps_for_each; intros; keeps|done|].
  intros _ s3 E. rewrite <- E in HI. clear E. mem_next. by apply mem_dc_finish.
Qed.
