(* ===== verification/Reach.v ===== *)
(** * The hypervisor calls as a transition system

    A state is reachable when it comes from the tables of a module that was
    just loaded by hypervisor calls, by releases of references to DCs, and by
    any other activity of the module that leaves the membership of nodes
    alone, such as the exchange of messages.  Every call is one step, as the
    locks it holds make it.  The calls that end whole nodes
    ([mm_proxies_unbind], [mm_dvs_end]) are not steps. *)

From S2P Require Import Prelude Types Endpoint Kernel Hoare Utils Unbind Hyper Bind Proxies Members.

(** ** Starting the DVS *)

Lemma wp_for_each (P : kstate -> Prop) R body :
  (forall j s, P s -> wp (body j) (fun _ => P) R s) ->
  forall n i s, P s -> wp (for_each n i body) (fun _ => P) R s.
Proof.
  intros Hb n. induction n as [|n IH]; intros i s Hs; cbn [for_each]; [by apply wp_ret|].
  apply wp_bind. eapply wp_mono; [by apply Hb|intros [] s' H; by apply IH|done].
Qed.

(** No node is in any DC, and the DVS is not started. *)
Record unlinked (t : gmap Z mdc * gmap Z mnode * Z) : Prop := {
  un_dc : forall d dc, t.1.1 !! d = Some dc -> md_nodes dc = 0 /\
    (md_flags dc = DC_RUNNING \/ md_flags dc = DC_FREE);
  un_node : forall n nd, t.1.2 !! n = Some nd -> mn_dcs nd = 0 /\
    (mn_flags nd <> NODE_FREE -> test_bit NODE_BIT_ATTACHED (mn_flags nd) = true);
  un_local : t.2 = DVS_NO_INIT;
}.

Lemma unlinked_inv t : unlinked t -> member_inv t.
Proof.
  intros [HD HN HL]. split.
  - intros d n dc nd Hd Hn. destruct (HD d dc Hd) as [-> _], (HN n nd Hn) as [-> _].
    by rewrite !test_bit_0.
  - intros d dc Hd. destruct (HD d dc Hd) as [H0 [?|?]]; [left|by right].
    split; [done|]. unfold count_nodes. rewrite H0, count_bits_0. lia.
  - intros n nd Hn _. by apply (HN n).
  - by rewrite HL.
  - rewrite HL. unfold DVS_NO_INIT. lia.
  - intros n nd Hn. by apply (HN n).
Qed.

Lemma unlinked_wr_dc d f s :
  (forall dc, md_nodes (mdc_of (f dc)) = md_nodes (mdc_of dc) /\ md_flags (mdc_of (f dc)) = DC_FREE) ->
  unlinked (members s) ->
  wp (wr_dc d f) (fun _ s' => unlinked (members s')) mems s.
Proof.
  intros Hf [HD HN HL]. unfold wr_dc. rewrite wp_bind. unfold wp at 1, rd_dc.
  destruct (k_dcs s !! d) as [dc|] eqn:Hdc; [|done]. apply wp_modify. rewrite members_dc_write.
  split; cbn [fst snd]; [|done..]. intros d' dc'. rewrite lookup_insert_Some.
  intros [[<- <-]|[_ Hd']]; [|by apply (HD d')]. destruct (Hf dc) as [-> ->].
  split; [|by right]. by apply (HD d _ (members_dc _ _ _ Hdc)).
Qed.

Lemma unlinked_wr_node n f s :
  (forall nd, (n_dcs (f nd) = 0 \/ n_dcs (f nd) = n_dcs nd) /\
     (n_flags (f nd) = NODE_FREE \/ test_bit NODE_BIT_ATTACHED (n_flags (f nd)) = true)) ->
  unlinked (members s) ->
  wp (wr_node n f) (fun _ s' => unlinked (members s') /\
    exists nd, (members s').1.2 !! n = Some (mnode_of (f nd))) mems s.
Proof.
  intros Hf [HD HN HL]. unfold wr_node. rewrite wp_bind. unfold wp at 1, rd_node.
  destruct (k_nodes s !! n) as [nd|] eqn:Hnd; [|done]. apply wp_modify. rewrite members_node_write.
  split; [|exists nd; apply lookup_insert_eq].
  split; cbn [fst snd]; [done| |done]. intros n' nd'. rewrite lookup_insert_Some.
  intros [[<- <-]|[_ Hn']]; [|by apply (HN n')]. cbn. destruct (Hf nd) as [Hd Hfl]. split.
  - destruct Hd as [->| ->]; [done|]. by apply (HN n _ (members_node _ _ _ Hnd)).
  - by destruct Hfl as [->| ->].
Qed.

(** Started at most once: the new local node is a free node no longer. *)
Lemma unlinked_start t n nd :
  unlinked t -> t.1.2 !! n = Some nd -> mn_flags nd <> NODE_FREE -> 0 <= n -> member_inv (t.1.1, t.1.2, n).
Proof.
  intros Hu Hn Hf H0. destruct (unlinked_inv t Hu) as [HA HD HN _ _ HT]. split; cbn; [done..|lia| |done].
  intros nd' _ Hn'. congruence.
Qed.

Lemma keeps_init_proxies px : keeps members (init_proxies px).
Proof. unfold init_proxies, wr_proxies. keeps. Qed.

Lemma wp_unlinked {A B} (m : M A) (k : A -> M B) Q s :
  keeps members m -> unlinked (members s) ->
  (forall a s', unlinked (members s') -> wp (k a) Q mems s') -> wp (mbind m k) Q mems s.
Proof.
  intros Hm Hu Hk. apply mem_keeps; [done|by apply unlinked_inv|]. intros a s' E.
  apply Hk. by rewrite E.
Qed.

(** The loops and the last writes of [mm_dvs_init]. *)
Lemma mem_dvs_tables n nd nn files s :
  unlinked (members s) -> 0 <= n ->
  wp (for_each nd 0 (fun i => wr_dc i (fun dc => dc <| dc_flags := DC_FREE |>)) ;;
      for_each nn 0 init_node ;; for_each nn 0 init_proxies ;;
      wr_node n (fun nd => nd <| n_flags := Z.lor NODE_ATTACHED (Z.lor NODE_SCONNECTED NODE_SCONNECTED) |>) ;;
      when (negb (files =? OK)) (modify dvs_release ;; unlock_ L_DVS ;; return_ files) ;;
      modify (fun s => s <| k_dvs_refs := 1 |> <| k_local_nodeid := n |>) ;;
      unlock_ L_DVS ;; return_ n : handler) (fun _ _ => True) mems s.
Proof.
  intros Hu Hn. rewrite wp_bind.
  eapply wp_mono; [apply wp_for_each; [intros; by apply unlinked_wr_dc|exact Hu]|cbv beta|done].
  clear Hu. intros _ s1 Hu. rewrite wp_bind.
  eapply wp_mono; [apply (wp_for_each (fun s => unlinked (members s))); [|exact Hu]|cbv beta|done].
  { intros j s2 H2. eapply wp_mono; [apply unlinked_wr_node; [by intros; split; left|done]|by intros ? ? []|done]. }
  clear Hu. intros _ s2 Hu. apply wp_unlinked; [apply keeps_for_each, keeps_init_proxies|done|].
  clear Hu. intros _ s3 Hu. rewrite wp_bind.
  eapply wp_mono; [apply unlinked_wr_node; [by intros; split; right|done]|cbv beta|done].
  clear Hu. intros _ s4 [Hu [nd4 Hn4]]. rewrite wp_bind.
  destruct (files =? OK); cbn [negb when].
  2: { rewrite wp_bind. apply wp_modify. pose proof (unlinked_inv _ Hu) as HI4.
    assert (E : members (dvs_release s4) = members s4).
    { pose proof (un_local _ Hu) as HL. unfold members, dvs_release. cbn in *. by rewrite HL. }
    rewrite <- E in HI4. apply mem_keeps; [keeps|done|]. intros _ s5 E5 _. by rewrite E5. }
  apply wp_ret. rewrite wp_bind. apply wp_modify.
  apply mem_end; [keeps|].
  change (member_inv ((members s4).1.1, (members s4).1.2, n)).
  eapply unlinked_start; [done|exact Hn4|done|done].
Qed.

Lemma mem_dvs_init cur n du files s :
  unlinked (members s) -> wp (mm_dvs_init cur n du files) (fun _ _ => True) mems s.
Proof.
  intros Hu. unfold mm_dvs_init. pose proof (unlinked_inv _ Hu) as HI.
  eapply wp_check; [keeps|intros _|by intros x _].
  apply mem_get. eapply wp_check; [keeps|intros _|by intros x _].
  unfold CHECK_NODEID. rewrite wp_bind. apply mem_get. unfold error_if at 1.
  destruct ((n <? 0) || _) eqn:En; cbn [when]; [by intros _|]. apply wp_ret.
  apply orb_false_iff in En as [En _]. apply Z.ltb_ge in En.
  apply wp_unlinked; [keeps|done|]. clear Hu HI. intros _ s1 Hu.
  apply wp_unlinked; [|done|].
  { destruct du as [[rc|d]|]; cbv zeta; keeps. }
  clear Hu s1. intros _ s1 Hu. apply mem_get. by apply mem_dvs_tables.
Qed.

(** ** Detaching a node *)

(** A node that [mm_node_up] attached is in the maps of its pair of proxies. *)
Definition attached (s : kstate) (n : Z) : Prop :=
  forall nd sp, k_nodes s !! n = Some nd -> k_procs s !! SPROXY (n_proxies nd) = Some sp ->
    test_bit n (p_nodemap sp) = true.

Definition tables (s : kstate) := (members s, k_nodes s, k_procs s).

Lemma keeps_tables_lock_sr cur px : keeps tables (lock_sr_proxies cur px).
Proof. unfold lock_sr_proxies. keeps. Qed.
Lemma keeps_tables_unlock_sr cur px : keeps tables (unlock_sr_proxies cur px).
Proof. unfold unlock_sr_proxies. keeps. Qed.
#[export] Hint Resolve keeps_tables_lock_sr keeps_tables_unlock_sr : keeps.

Lemma mem_node_down cur n s :
  attached s n -> member_inv (members s) -> wp (mm_node_down cur n) (fun _ _ => True) mems s.
Proof.
  intros Ha HI. unfold mm_node_down. do 3 (eapply wp_check; [keeps|intros _|by intros x _]).
  assert (HR : forall x s', tables s' = tables s -> mems x s').
  { intros x s' E _. by rewrite (f_equal (fun t => t.1.1) E : members s' = members s). }
  eapply (wp_keeps tables); [keeps|intros _ s1 E1; cbv beta|done].
  rewrite wp_bind. unfold wp at 1, rd_node.
  destruct (k_nodes s1 !! n) as [nd|] eqn:Hnd; [cbv zeta|by apply HR].
  eapply (wp_keeps tables); [keeps|intros r s2 E2; cbv beta|intros; apply HR; congruence].
  eapply (wp_keeps tables); [keeps|intros _ s3 E3; cbv beta|intros; apply HR; congruence].
  rewrite wp_bind. unfold wp at 1, rd.
  destruct (k_procs s3 !! SPROXY (n_proxies nd)) as [sp|] eqn:Hsp; [|apply HR; congruence].
  assert (E : tables s3 = tables s) by congruence.
  rewrite (f_equal (fun t => t.1.2) E1 : k_nodes s1 = k_nodes s) in Hnd.
  rewrite (f_equal (fun t => t.2) E : k_procs s3 = k_procs s) in Hsp.
  rewrite (Ha nd sp Hnd Hsp). cbn [negb]. rewrite wp_bind. apply wp_ret.
  apply mem_end; [keeps|]. by rewrite (f_equal (fun t => t.1.1) E : members s3 = members s).
Qed.

(** ** Unbinding keeps the membership

    [safe] is the judgement of a routine that keeps the invariant; what keeps
    the observations is safe, and so is what is built of safe routines. *)

Definition safe {A} (m : M A) : Prop :=
  forall s, member_inv (members s) -> wp m (fun _ s' => member_inv (members s')) mems s.

Lemma safe_keeps {A} (m : M A) : keeps members m -> safe m.
Proof.
  intros Hm s HI. eapply wp_mono; [apply Hm| |]; cbv beta; unfold mems; by intros ? ? ->.
Qed.

Lemma safe_bind {A B} (m : M A) (k : A -> M B) : safe m -> (forall a, safe (k a)) -> safe (mbind m k).
Proof.
  intros Hm Hk s HI. apply wp_bind. eapply wp_mono; [by apply Hm| |done].
  intros a s' HI'. by apply Hk.
Qed.

Lemma safe_when b m : safe m -> safe (when b m).
Proof. destruct b; [done|]. intros _. by apply safe_keeps, keeps_ret. Qed.

Lemma safe_catch {A} (m : M A) : safe m -> safe (catch m).
Proof.
  intros Hm s HI. specialize (Hm s HI). unfold wp, catch in *.
  destruct (m s) as [a s'|[r|k|w|f] s']; try done. by apply Hm.
Qed.

Lemma safe_for_each n i body : (forall j, safe (body j)) -> safe (for_each n i body).
Proof.
  intros Hb. revert i. induction n as [|n IH]; intros i; cbn [for_each].
  - apply safe_keeps, keeps_ret.
  - by apply safe_bind.
Qed.

Lemma safe_DC_DECREF d : safe (DC_DECREF d).
Proof.
  intros s HI. pose proof (mem_DC_DECREF d mret (fun _ s' => member_inv (members s')) s HI) as H.
  unfold wp, mbind in *. destruct (DC_DECREF d s); by apply H.
Qed.

Create HintDb safe discriminated.
#[export] Hint Constants Opaque : safe.
#[export] Hint Resolve safe_DC_DECREF : safe.

Ltac safe :=
  repeat (cbv beta;
    lazymatch goal with
    | |- safe (mbind _ _) => apply safe_bind; [|intros ?]
    | |- safe (if ?b then _ else _) => destruct b
    | |- safe (match ?x with _ => _ end) => destruct x
    | |- safe (when _ _) => apply safe_when
    | |- safe (catch _) => apply safe_catch
    | |- safe (for_each _ _ _) => apply safe_for_each; intros ?
    | |- safe _ => first [solve [eauto with safe] | apply safe_keeps; solve [keeps]]
    end).

(** *** Routines on descriptors *)

Lemma keeps_wr_dc d f : (forall dc, mdc_of (f dc) = mdc_of dc) -> keeps members (wr_dc d f).
Proof.
  intros Hf s. unfold wr_dc. rewrite wp_bind. unfold wp at 1, rd_dc.
  destruct (k_dcs s !! d) as [dc|] eqn:Hdc; [|done]. apply wp_modify. rewrite members_dc_write, Hf.
  rewrite insert_id; [by destruct (members s) as [[]]|by apply members_dc].
Qed.

Lemma keeps_LIST_DEL_P p : keeps members (LIST_DEL_P p).
Proof. unfold LIST_DEL_P. keeps. Qed.
Lemma keeps_LIST_DEL_M p : keeps members (LIST_DEL_M p).
Proof. unfold LIST_DEL_M. keeps. Qed.
Lemma keeps_LIST_DEL_U p : keeps members (LIST_DEL_U p).
Proof. unfold LIST_DEL_U. keeps. Qed.
Lemma keeps_LOCAL_PROC_UP p r : keeps members (LOCAL_PROC_UP p r).
Proof. unfold LOCAL_PROC_UP. keeps. Qed.
Lemma keeps_ORDERED2 p q : keeps members (WLOCK_ORDERED2 p q).
Proof. unfold WLOCK_ORDERED2. keeps. Qed.
#[export] Hint Resolve keeps_LIST_DEL_P keeps_LIST_DEL_M keeps_LIST_DEL_U keeps_LOCAL_PROC_UP
  keeps_ORDERED2 : keeps.

Lemma keeps_sproxy_enqueue p : keeps members (sproxy_enqueue p).
Proof. unfold sproxy_enqueue, NODE2SPROXY, LIST_ADD_TAIL_P. keeps. Qed.
#[export] Hint Resolve keeps_sproxy_enqueue : keeps.
Lemma keeps_generic_ack c r l rc : keeps members (generic_ack_lcl2rmt c r l rc).
Proof. unfold generic_ack_lcl2rmt. keeps. Qed.
#[export] Hint Resolve keeps_generic_ack : keeps.

(** *** [do_unbind] *)

Lemma keeps_unbind_senders p l : keeps members (unbind_senders p l).
Proof. induction l as [|q l IH]; cbn [unbind_senders]; unfold send_ack_lcl2rmt; keeps. Qed.
Lemma keeps_unbind_migrants p l : keeps members (unbind_migrants p l).
Proof. induction l as [|q l IH]; cbn [unbind_migrants]; unfold send_ack_lcl2rmt; keeps. Qed.
Lemma keeps_unbind_waiters p l : keeps members (unbind_waiters p l).
Proof. induction l as [|q l IH]; cbn [unbind_waiters]; unfold send_ack_lcl2rmt; keeps. Qed.
Lemma keeps_unbind_slots d dc p n i : keeps members (unbind_slots d dc p n i).
Proof.
  revert i. induction n as [|n IH]; intros i; cbn [unbind_slots]; unfold unbind_slot, check_sys_bit; keeps.
Qed.
Lemma keeps_unbind_check cur d dc x : keeps members (unbind_check cur d dc x).
Proof. unfold unbind_check. keeps. Qed.
Lemma keeps_unbind_other {A} sig p x : keeps members (@unbind_other A sig p x).
Proof. unfold unbind_other. keeps. Qed.
Lemma keeps_unbind_proxy p : keeps members (unbind_proxy p).
Proof. unfold unbind_proxy. keeps. Qed.
Lemma keeps_unbind_sending d dc p : keeps members (unbind_sending d dc p).
Proof. unfold unbind_sending. cbv zeta. keeps. Qed.
Lemma keeps_unbind_waitmigr d dc p : keeps members (unbind_waitmigr d dc p).
Proof. unfold unbind_waitmigr. cbv zeta. keeps. Qed.
Lemma keeps_unbind_waitunbind d dc p : keeps members (unbind_waitunbind d dc p).
Proof. unfold unbind_waitunbind. cbv zeta. keeps. Qed.
#[export] Hint Resolve keeps_unbind_senders keeps_unbind_migrants keeps_unbind_waiters
  keeps_unbind_slots keeps_unbind_check keeps_unbind_other keeps_unbind_proxy keeps_unbind_sending
  keeps_unbind_waitmigr keeps_unbind_waitunbind : keeps.

Lemma safe_do_unbind sig cur d p : safe (do_unbind sig cur d p).
Proof. unfold do_unbind, return_. safe. Qed.
#[export] Hint Resolve safe_do_unbind : safe.

(** *** The calls *)

Lemma keeps_lock_task t : keeps members (lock_task t).
Proof. unfold lock_task, WLOCK_TASK. keeps. Qed.
Lemma keeps_unlock_task t : keeps members (unlock_task t).
Proof. unfold unlock_task, WUNLOCK_TASK. keeps. Qed.
#[export] Hint Resolve keeps_lock_task keeps_unlock_task : keeps.

Lemma keeps_unbind_target cur tk p x : keeps members (unbind_target cur tk p x).
Proof. unfold unbind_target, WUNLOCK_TASK, ERROR_RUNLOCK_PROC. keeps. Qed.
Lemma keeps_unbind_failed cur d t r c p o : keeps members (unbind_failed cur d t r c p o).
Proof. unfold unbind_failed, unbind_sleep, LIST_ADD_TAIL_U. keeps. Qed.
Lemma keeps_unbind_done cur d n c p t : keeps members (unbind_done cur d n c p t).
Proof. unfold unbind_done. keeps. Qed.
#[export] Hint Resolve keeps_unbind_target keeps_unbind_failed keeps_unbind_done : keeps.

Lemma safe_mm_unbind sig cur d ep timeout : safe (mm_unbind sig cur d ep timeout).
Proof. unfold mm_unbind, WLOCK_TASK, WUNLOCK_TASK, ERROR_RUNLOCK_PROC. cbv zeta. safe. Qed.

(** The last reference to the DVS. *)
Lemma safe_KREF_PUT : safe KREF_PUT.
Proof.
  intros s HI. unfold KREF_PUT. rewrite wp_bind, wp_get, wp_bind. apply wp_modify.
  destruct (k_dvs_refs s =? 1); cbn [when]; [apply wp_modify|by apply wp_ret].
  destruct HI as [HA HD HN HL HH HT]. split; cbn; [done..| | |done]; unfold DVS_NO_INIT; lia.
Qed.
#[export] Hint Resolve safe_KREF_PUT : safe.

Lemma safe_dc_end_tail d i : safe (dc_end_tail d i).
Proof. unfold dc_end_tail, dc_end_wait. cbv zeta. safe. Qed.
#[export] Hint Resolve safe_dc_end_tail : safe.
Lemma safe_mm_dc_end sig cur d : safe (mm_dc_end sig cur d).
Proof. unfold mm_dc_end, do_dc_end, dc_end_slot. cbv zeta. safe. Qed.
Lemma safe_resume_dc_end d i : safe (resume_dc_end d i).
Proof. unfold resume_dc_end. safe. Qed.

Lemma keeps_bind_proxy p px t : keeps members (bind_proxy p px t).
Proof. unfold bind_proxy, get_task_struct, wr_task, WLOCK_TASK, WUNLOCK_TASK. keeps. Qed.
#[export] Hint Resolve keeps_bind_proxy : keeps.
Lemma safe_mm_proxies_bind cur px a b m : safe (mm_proxies_bind cur px a b m).
Proof. apply safe_keeps. unfold mm_proxies_bind, wr_proxies, KREF_GET. keeps. Qed.

Lemma keeps_bind_local cur o d pid n dc p i : keeps members (bind_local cur o d pid n dc p i).
Proof. unfold bind_local, bind_task, bind_leader, get_task_struct, wr_task, WLOCK_TASK, WUNLOCK_TASK. keeps. Qed.
Lemma keeps_bind_remote cur d n dc p i : keeps members (bind_remote cur d n dc p i).
Proof. unfold bind_remote. keeps. Qed.
Lemma keeps_bind_node o n : keeps members (bind_node o n).
Proof. unfold bind_node. keeps. Qed.
Lemma keeps_DC_INCREF d : keeps members (DC_INCREF d).
Proof. by apply keeps_wr_dc. Qed.
#[export] Hint Resolve keeps_bind_local keeps_bind_remote keeps_bind_node keeps_DC_INCREF : keeps.
Lemma safe_mm_bind cur o d pid ep n : safe (mm_bind cur o d pid ep n).
Proof. apply safe_keeps. unfold mm_bind, WUNLOCK_TASK. cbv zeta. keeps. Qed.

(** *** Connecting and disconnecting a pair of proxies *)

Lemma keeps_flush_senders n sp l : keeps members (flush_senders n sp l).
Proof. induction l as [|q l IH]; cbn [flush_senders]; keeps. Qed.
Lemma keeps_flush_sending n sp : keeps members (flush_sending_procs n sp).
Proof. unfold flush_sending_procs. apply keeps_bind; [keeps|]. intros. apply keeps_flush_senders. Qed.
Lemma keeps_flush_receiver d n dc i : keeps members (flush_receiver d n dc i).
Proof. unfold flush_receiver, flush_bit, names_node. cbv zeta. keeps. Qed.
Lemma keeps_flush_dc n rp d : keeps members (flush_dc n rp d).
Proof.
  unfold flush_dc, LOCK_ALL_PROCS, UNLOCK_ALL_PROCS.
  keeps; apply keeps_for_each; intros; first [apply keeps_flush_receiver|keeps].
Qed.
Lemma keeps_flush_receiving n rp : keeps members (flush_receiving_procs n rp).
Proof.
  unfold flush_receiving_procs. apply keeps_bind; [keeps|]. intros. apply keeps_for_each.
  intros. apply keeps_flush_dc.
Qed.
#[export] Hint Resolve keeps_flush_sending keeps_flush_receiving : keeps.

(** The nodes of a map are attached. *)
Definition map_attached (s : kstate) (map : Z) : Prop :=
  forall i, test_bit i map = true -> is_attached s i.

Lemma map_attached_eq s s' map : members s' = members s -> map_attached s map -> map_attached s' map.
Proof. intros E Ha i Hi nd. rewrite E. by apply Ha. Qed.

Lemma mem_for_nodes map before f s :
  (forall i, keeps members (before i)) ->
  (forall nd, n_dcs (f nd) = n_dcs nd /\
     test_bit NODE_BIT_ATTACHED (n_flags (f nd)) = test_bit NODE_BIT_ATTACHED (n_flags nd)) ->
  member_inv (members s) -> map_attached s map ->
  wp (for_nodes map before f) (fun _ s' => member_inv (members s')) mems s.
Proof.
  intros Hb Hf HI Ha. unfold for_nodes. apply mem_get.
  eapply wp_mono; [apply (wp_for_each (fun s => member_inv (members s) /\ map_attached s map))| |done];
    [|done|by intros ? ? []].
  clear HI Ha s. intros i s [HI Ha]. destruct (test_bit i map) eqn:Hi; cbn [when]; [|by apply wp_ret].
  apply mem_keeps; [apply Hb|done|]. intros _ s1 E1. apply (map_attached_eq s s1) in Ha; [|done].
  rewrite <- E1 in HI. clear E1. apply mem_keeps; [keeps|done|]. intros _ s2 E2.
  apply (map_attached_eq s1 s2) in Ha; [|done]. rewrite <- E2 in HI. clear E2.
  rewrite wp_bind. apply mem_flag_bit; [done|by apply Ha|done|]. intros s3 HI3 _ Hm.
  eapply wp_mono; [apply (keeps_unlock members); done| |]; cbv beta; unfold mems.
  - intros _ s4 E. rewrite E. split; [done|]. apply (map_attached_eq s3); [done|]. intros j Hj. by apply Hm, Ha.
  - by intros x s4 ->.
Qed.

(** [mm_node_up] puts only attached nodes in the maps of a pair. *)
Definition pair_attached (s : kstate) (px : Z) : Prop :=
  forall sender x, k_procs s !! proxy_of sender px = Some x -> map_attached s (p_nodemap x).

Lemma mem_conn_change px status sp rp s :
  member_inv (members s) -> map_attached s (p_nodemap sp) -> map_attached s (p_nodemap rp) ->
  wp (conn_change px status sp rp) (fun _ s' => member_inv (members s')) mems s.
Proof.
  intros HI Hs Hr. unfold conn_change.
  repeat match goal with |- wp (if ?b then _ else _) _ _ _ => destruct b end; [..|by apply wp_ret];
    unfold wr_proxies, wr;
    (apply mem_keeps; [keeps|done|]; intros _ s1 E1;
     apply mem_keeps; [keeps|congruence|]; intros _ s2 E2; assert (E : members s2 = members s) by congruence;
     rewrite wp_bind; eapply wp_mono; [apply mem_for_nodes| |done];
     [intros i; keeps
     |intros nd; split; [done|by first [apply test_set_other|apply test_clear_other]]
     |congruence|by apply (map_attached_eq s)|by intros [] s3 HI3]).
Qed.

Lemma mem_proxy_conn cur px status s :
  pair_attached s px -> member_inv (members s) ->
  wp (mm_proxy_conn cur px status) (fun _ _ => True) mems s.
Proof.
  intros Ha HI. unfold mm_proxy_conn.
  assert (HR : forall x s', tables s' = tables s -> mems x s').
  { intros x s' E _. by rewrite (f_equal (fun t => t.1.1) E : members s' = members s). }
  eapply (wp_keeps tables); [keeps|intros r s1 E1; cbv beta|done].
  eapply (wp_keeps tables); [keeps|intros _ s2 E2; cbv beta|intros; apply HR; congruence].
  assert (E : tables s2 = tables s) by congruence. clear E1 E2.
  pose proof (f_equal (fun t => t.1.1) E : members s2 = members s) as EM.
  pose proof (f_equal (fun t => t.2) E : k_procs s2 = k_procs s) as EP.
  rewrite wp_bind. unfold wp at 1, rd. destruct (k_procs s2 !! SPROXY px) as [sp|] eqn:Hsp; [|by apply HR].
  rewrite wp_bind. unfold wp at 1, rd. destruct (k_procs s2 !! RPROXY px) as [rp|] eqn:Hrp; [|by apply HR].
  rewrite EP in Hsp, Hrp. rewrite wp_bind.
  apply (wp_mono _ (fun _ s' => member_inv (members s')) _ mems mems); [| |done].
  - destruct (_ || _); [apply wp_ret; by rewrite EM|]. apply mem_conn_change; [by rewrite EM|..].
    + apply (map_attached_eq s); [done|]. by apply (Ha true).
    + apply (map_attached_eq s); [done|]. by apply (Ha false).
  - intros rc s3 HI3. apply mem_end; [keeps|done].
Qed.

(** ** Steps *)

Inductive hyper_call :=
| HC_DVSINIT (cur n : Z) (du : option (Z + dvs_usr)) (files : Z)
| HC_PROXIESBIND (cur px spid rpid maxbytes : Z)
| HC_PROXYCONN (cur px status : Z)
| HC_NODEUP (cur n px name_rc : Z)
| HC_NODEDOWN (cur n : Z)
| HC_ADDNODE (cur d n : Z)
| HC_DELNODE (cur d n : Z)
| HC_DCINIT (cur : Z) (u : dc_usr) (mem : Z -> proc) (alloc dbg files : Z)
| HC_BIND (cur oper d pid ep n : Z)
| HC_UNBIND (sig cur d ep timeout : Z)
| HC_DCEND (sig cur d : Z)
| HC_DCEND_RESUME (d i : Z).

Definition run_hyper (cl : hyper_call) : handler :=
  match cl with
  | HC_DVSINIT cur n du files => mm_dvs_init cur n du files
  | HC_PROXIESBIND cur px spid rpid maxbytes => mm_proxies_bind cur px spid rpid maxbytes
  | HC_PROXYCONN cur px status => mm_proxy_conn cur px status
  | HC_NODEUP cur n px rc => mm_node_up cur n px rc
  | HC_NODEDOWN cur n => mm_node_down cur n
  | HC_ADDNODE cur d n => mm_add_node cur d n
  | HC_DELNODE cur d n => mm_del_node cur d n
  | HC_DCINIT cur u mem alloc dbg files => mm_dc_init cur (inr u) mem alloc dbg files
  | HC_BIND cur oper d pid ep n => mm_bind cur oper d pid ep n
  | HC_UNBIND sig cur d ep timeout => mm_unbind sig cur d ep timeout
  | HC_DCEND sig cur d => mm_dc_end sig cur d
  | HC_DCEND_RESUME d i => resume_dc_end d i
  end.

(** The calls that keep the tables in agreement.  The DVS is started on tables where
    nothing is linked; a pair of proxies is connected when its nodes are attached to it;
    [mm_node_down] is called for a node that is in the map of its pair, where it has no
    effect: on any other it frees the node and leaves it in the bitmaps of the DCs
    ([HyperFlow.node_down_keeps_dcs]); and a DC is created at an index of the table,
    which [mm_dc_init] does not check. *)
Definition hyper_ok (s : kstate) (cl : hyper_call) : Prop :=
  match cl with
  | HC_DVSINIT _ _ _ _ => unlinked (members s)
  | HC_PROXYCONN _ px _ => pair_attached s px
  | HC_NODEDOWN _ n => attached s n
  | HC_DCINIT _ u _ _ _ _ => 0 <= dcu_dcid u < k_nr_dcs s
  | _ => True
  end.

Inductive hstep (s s' : kstate) : Prop :=
| h_call cl x : hyper_ok s cl -> run_hyper cl s = Exit x s' -> is_fault x = false -> hstep s s'
| h_decref d : DC_DECREF d s = Val tt s' -> hstep s s'
| h_other : members s' = members s -> hstep s s'.

Inductive hreach : kstate -> Prop :=
| h_boot s : unlinked (members s) -> hreach s
| h_step s s' : hreach s -> hstep s s' -> hreach s'.

Lemma safe_end (m : handler) s :
  safe m -> member_inv (members s) -> wp m (fun _ _ => True) mems s.
Proof. intros Hm HI. by eapply wp_mono; [apply Hm| |]. Qed.

Lemma run_hyper_inv cl s :
  hyper_ok s cl -> member_inv (members s) -> wp (run_hyper cl) (fun _ _ => True) mems s.
Proof.
  destruct cl; cbn [run_hyper hyper_ok]; intros Hok HI.
  - by apply mem_dvs_init.
  - apply safe_end; [apply safe_mm_proxies_bind|done].
  - by apply mem_proxy_conn.
  - by apply mem_node_up.
  - by apply mem_node_down.
  - by apply mem_add_node.
  - by apply mem_del_node.
  - by apply mem_dc_init.
  - apply safe_end; [apply safe_mm_bind|done].
  - apply safe_end; [apply safe_mm_unbind|done].
  - apply safe_end; [apply safe_mm_dc_end|done].
  - apply safe_end; [apply safe_resume_dc_end|done].
Qed.

Lemma hreach_inv s : hreach s -> member_inv (members s).
Proof.
  induction 1 as [s Hu|s s' _ IH [cl x Hok Hrun Hx|d Hd|E]].
  - by apply unlinked_inv.
  - pose proof (run_hyper_inv cl s Hok IH) as H. unfold wp in H. rewrite Hrun in H. by apply H.
  - pose proof (safe_DC_DECREF d s IH) as H. unfold wp in H. by rewrite Hd in H.
  - by rewrite E.
Qed.

(** ** Properties *)

(** C28. The two tables agree on the membership of nodes.  In every state reached by
    hypervisor calls that [hyper_ok] admits, from a module just loaded, node [n] is in
    the bitmap of data container [d] exactly when [d] is in the bitmap of [n]; a free DC
    has no nodes and a free node no DCs.  Not admitted are a start of the DVS on linked
    tables, a connection of a pair of proxies with nodes that are not attached to it, a
    DC created out of the range of the table, and [mm_node_down] on a node that is not
    in the map of its pair, which breaks the agreement. *)
Theorem membership_agrees s :
  hreach s ->
  (forall d n dc nd, k_dcs s !! d = Some dc -> k_nodes s !! n = Some nd ->
     test_bit n (dc_nodes dc) = test_bit d (n_dcs nd)) /\
  (forall d dc, k_dcs s !! d = Some dc -> dc_flags dc = DC_FREE -> dc_nodes dc = 0) /\
  (forall n nd, k_nodes s !! n = Some nd -> n_flags nd = NODE_FREE -> n_dcs nd = 0).
Proof.
  intros Hr. destruct (hreach_inv s Hr) as [HA HD HN _ _ _]. split_and!.
  - intros d n dc nd Hd Hn. apply (HA d n (mdc_of dc) (mnode_of nd)); [by apply members_dc|by apply members_node].
  - intros d dc Hd Hf. destruct (HD d _ (members_dc _ _ _ Hd)) as [[E _]|[_ E]]; [|exact E].
    cbn in E. by rewrite Hf in E.
  - intros n nd Hn Hf. by apply (HN n _ (members_node _ _ _ Hn)).
Qed.

(** ** The number of nodes of a DC

    Whatever the callers do: no condition on the calls, nor on the tables that
    the DVS is started on. *)

Definition bounded (dc : dc_t) : Prop := nodes_of dc <= Z.max 1 (dc_nr_nodes dc).

Record bound_inv (s : kstate) : Prop := {
  bi_dc : forall d dc, k_dcs s !! d = Some dc -> bounded dc;
  bi_local : -1 <= k_local_nodeid s;
}.

Definition sized (s : kstate) := (mdc_of <$> k_dcs s, k_local_nodeid s).

Lemma bound_sized s s' : sized s' = sized s -> bound_inv s -> bound_inv s'.
Proof.
  unfold sized. intros [= ED EL] [HB HL]. split; [|by rewrite EL]. intros d dc Hd.
  apply (f_equal (fun t => t !! d)) in ED. rewrite !lookup_fmap, Hd in ED. cbn in ED.
  destruct (k_dcs s !! d) as [dc'|] eqn:Hd'; [|done]. cbn in ED. injection ED as _ En Em.
  specialize (HB d dc' Hd'). unfold bounded, nodes_of in *. by rewrite En, Em.
Qed.

Definition bsafe {A} (m : M A) : Prop := forall s, bound_inv s -> wp m (fun _ => bound_inv) (fun _ => bound_inv) s.

Lemma bsafe_keeps {A} (m : M A) : keeps sized m -> bsafe m.
Proof. intros Hm s HI. eapply wp_mono; [apply Hm|intros a s' E|intros x s' E]; by apply (bound_sized s). Qed.

Lemma keeps_sized {A} (m : M A) : keeps members m -> keeps sized m.
Proof.
  assert (H : forall s s', members s' = members s -> sized s' = sized s).
  { unfold members, sized. by intros s s' [= -> _ ->]. }
  intros Hm s. eapply wp_mono; [apply Hm|intros a s'|intros x s']; apply H.
Qed.

Lemma bsafe_bind {A B} (m : M A) (k : A -> M B) : bsafe m -> (forall a, bsafe (k a)) -> bsafe (mbind m k).
Proof. intros Hm Hk s HI. apply wp_bind. eapply wp_mono; [by apply Hm| |done]. intros a s' HI'. by apply Hk. Qed.

Lemma bsafe_when b m : bsafe m -> bsafe (when b m).
Proof. destruct b; [done|]. intros _. apply bsafe_keeps, keeps_ret. Qed.

Lemma bsafe_catch {A} (m : M A) : bsafe m -> bsafe (catch m).
Proof. intros Hm s HI. specialize (Hm s HI). unfold wp, catch in *. by destruct (m s) as [|[] ?]. Qed.

Lemma bsafe_for_each n i body : (forall j, bsafe (body j)) -> bsafe (for_each n i body).
Proof.
  intros Hb. revert i. induction n as [|n IH]; intros i; cbn [for_each]; [apply bsafe_keeps, keeps_ret|].
  by apply bsafe_bind.
Qed.

Lemma bsafe_wr_dc d f : (forall dc, bounded dc -> bounded (f dc)) -> bsafe (wr_dc d f).
Proof.
  intros Hf s [HB HL]. unfold wr_dc. rewrite wp_bind. unfold wp at 1, rd_dc.
  destruct (k_dcs s !! d) as [dc|] eqn:Hd; [|done]. apply wp_modify. split; [|done].
  intros d' dc'. cbn. rewrite lookup_insert_Some. intros [[<- <-]|[_ Hd']]; [apply Hf|]; by eapply HB.
Qed.

Lemma keeps_wr_node n f : keeps sized (wr_node n f).
Proof. unfold wr_node. keeps. Qed.

Lemma bsafe_DECREF d : bsafe (DC_DECREF d).
Proof.
  unfold DC_DECREF. apply bsafe_bind; [apply bsafe_keeps; keeps|intros dc].
  apply bsafe_bind; [by apply bsafe_wr_dc|intros _]. apply bsafe_when. intros s [HB HL]. apply wp_modify.
  split; [|done]. intros d' dc'. unfold dc_release. cbn. rewrite lookup_alter_Some.
  intros [(-> & y & Hy & ->)|[_ Hd']]; [|by apply (HB d')]. unfold bounded, nodes_of. cbn [dc_nodes].
  rewrite count_bits_0. lia.
Qed.

Lemma bsafe_KREF_PUT : bsafe KREF_PUT.
Proof.
  intros s [HB HL]. unfold KREF_PUT. rewrite wp_bind, wp_get, wp_bind. apply wp_modify.
  destruct (_ =? 1); cbn [when]; [apply wp_modify|apply wp_ret]; by split.
Qed.
#[export] Hint Resolve bsafe_DECREF bsafe_KREF_PUT : safe.

Ltac bsafe :=
  repeat (cbv beta;
    lazymatch goal with
    | |- bsafe (mbind _ _) => apply bsafe_bind; [|intros ?]
    | |- bsafe (if ?b then _ else _) => destruct b
    | |- bsafe (match ?x with _ => _ end) => destruct x
    | |- bsafe (when _ _) => apply bsafe_when
    | |- bsafe (catch _) => apply bsafe_catch
    | |- bsafe (for_each _ _ _) => apply bsafe_for_each; intros ?
    | |- bsafe (wr_node _ _) => apply bsafe_keeps, keeps_wr_node
    | |- bsafe _ => first [solve [eauto with safe] | apply bsafe_keeps, keeps_sized; solve [keeps]
                          | apply bsafe_keeps; solve [keeps]]
    end).

Lemma bsafe_do_unbind sig cur d p : bsafe (do_unbind sig cur d p).
Proof. unfold do_unbind, return_. bsafe. Qed.
#[export] Hint Resolve bsafe_do_unbind : safe.
Lemma bsafe_unbind sig cur d ep timeout : bsafe (mm_unbind sig cur d ep timeout).
Proof. unfold mm_unbind, WLOCK_TASK, WUNLOCK_TASK, ERROR_RUNLOCK_PROC. cbv zeta. bsafe. Qed.
Lemma bsafe_end_tail d i : bsafe (dc_end_tail d i).
Proof. unfold dc_end_tail, dc_end_wait. cbv zeta. bsafe. Qed.
#[export] Hint Resolve bsafe_end_tail : safe.
Lemma bsafe_dc_end sig cur d : bsafe (mm_dc_end sig cur d).
Proof. unfold mm_dc_end, do_dc_end, dc_end_slot. cbv zeta. bsafe. Qed.
Lemma bsafe_resume_dc_end d i : bsafe (resume_dc_end d i).
Proof. unfold resume_dc_end. bsafe. Qed.
Lemma bsafe_node_up cur n px rc : bsafe (mm_node_up cur n px rc).
Proof. unfold mm_node_up. bsafe. Qed.
Lemma bsafe_node_down cur n : bsafe (mm_node_down cur n).
Proof. unfold mm_node_down. cbv zeta. bsafe. Qed.
Lemma bsafe_proxy_conn cur px status : bsafe (mm_proxy_conn cur px status).
Proof. unfold mm_proxy_conn, conn_change, for_nodes, wr_proxies. bsafe. Qed.

(** A new node is counted before it enters. *)
Lemma bsafe_node_op d n (status : dc_t -> node_t -> Z) f g :
  (forall dc nd, status dc nd = OK -> bounded dc -> bounded (f dc)) ->
  bsafe (dc <- rd_dc d ;; nd <- rd_node n ;;
         when (status dc nd =? OK) (wr_dc d f ;; wr_node n g) ;; finish_node d n (status dc nd)).
Proof.
  intros Hf s HI. rewrite wp_bind. unfold wp at 1, rd_dc. destruct (k_dcs s !! d) as [dc|] eqn:Hd; [|done].
  rewrite wp_bind. unfold wp at 1, rd_node. destruct (k_nodes s !! n) as [nd|] eqn:Hn; [|done].
  destruct (Z.eqb_spec (status dc nd) OK) as [E|E]; cbn [when].
  2: { rewrite wp_bind. apply wp_ret. apply (bsafe_keeps (finish_node d n _)), HI. apply keeps_sized. keeps. }
  rewrite wp_bind. rewrite wp_bind. eapply wp_wr_dc; [exact Hd|].
  assert (HI1 : bound_inv (s <| k_dcs ::= <[d := f dc]> |>)).
  { split; [|apply HI]. intros d' dc'. cbn. rewrite lookup_insert_Some.
    intros [[<- <-]|[_ Hd']]; [apply (Hf dc nd E)|]; by eapply HI. }
  clear Hf HI. eapply wp_mono; [apply (bsafe_keeps _ (keeps_wr_node n g)), HI1| |done].
  intros [] s2 HI2. apply (bsafe_keeps (finish_node d n _)), HI2. apply keeps_sized. keeps.
Qed.

Lemma set_bit_neg n b : n < 0 -> set_bit n b = b.
Proof. intros Hn. unfold set_bit, Z.setbit. by rewrite Z.shiftl_1_l, Z.pow_neg_r, Z.lor_0_r by lia. Qed.

Lemma nodes_of_set n dc : nodes_of (dc <| dc_nodes ::= set_bit n |>) <= nodes_of dc + 1.
Proof.
  change (count_bits (Z.to_nat ULONG_BITS) 0 (set_bit n (dc_nodes dc)) <= nodes_of dc + 1).
  destruct (Z.lt_ge_cases n 0); [rewrite set_bit_neg by done; unfold nodes_of; lia|].
  by apply count_bits_set.
Qed.

Lemma bsafe_add_node cur d n : bsafe (mm_add_node cur d n).
Proof.
  unfold mm_add_node. do 3 (apply bsafe_bind; [unfold other_node; cbv zeta; bsafe|intros _]).
  apply (bsafe_node_op d n (add_node_status d n)). intros dc nd E HB. unfold add_node_status in E.
  destruct (dc_flags dc =? DC_FREE); [done|]. destruct (test_bit n _); [done|]. destruct (test_bit d _); [done|].
  destruct (nodes_of dc >=? dc_nr_nodes dc) eqn:Ec; [done|]. rewrite Z.geb_leb in Ec. apply Z.leb_gt in Ec.
  unfold bounded. etransitivity; [apply nodes_of_set|]. change (nodes_of dc + 1 <= Z.max 1 (dc_nr_nodes dc)). lia.
Qed.

Lemma bsafe_del_node cur d n : bsafe (mm_del_node cur d n).
Proof.
  unfold mm_del_node. do 3 (apply bsafe_bind; [unfold other_node; cbv zeta; bsafe|intros _]).
  apply (bsafe_node_op d n (del_node_status d n)). intros dc nd _ HB. unfold bounded in *.
  etransitivity; [|exact HB]. apply count_bits_clear.
Qed.

Lemma bsafe_dvs_init cur n du files : bsafe (mm_dvs_init cur n du files).
Proof.
  unfold mm_dvs_init. apply bsafe_bind; [bsafe|intros _]. apply bsafe_bind; [bsafe|intros s0].
  apply bsafe_bind; [bsafe|intros _]. intros s HI. unfold CHECK_NODEID. rewrite wp_bind, wp_bind, wp_get.
  unfold error_if at 1. destruct ((n <? 0) || _) eqn:En; cbn [when]; [done|]. apply wp_ret.
  apply orb_false_iff in En as [En _]. apply Z.ltb_ge in En.
  revert s HI. apply (bsafe_bind (lock_ L_DVS)); [bsafe|intros _].
  apply bsafe_bind; [destruct du as [[rc|u]|]; cbv zeta; bsafe|intros _]. apply bsafe_bind; [bsafe|intros s1].
  apply bsafe_bind; [apply bsafe_for_each; intros i; by apply bsafe_wr_dc|intros _].
  apply bsafe_bind; [unfold init_node; bsafe|intros _].
  apply bsafe_bind; [apply bsafe_for_each; intros i; apply bsafe_keeps, keeps_sized, keeps_init_proxies|intros _].
  apply bsafe_bind; [bsafe|intros _].
  assert (HR : forall f, (forall s, k_dcs (f s) = k_dcs s) -> (forall s, -1 <= k_local_nodeid (f s)) -> bsafe (modify f)).
  { intros f H1 H2 s [HB _]. apply wp_modify. split; [by rewrite H1|done]. }
  apply bsafe_bind.
  - apply bsafe_when, bsafe_bind; [by apply HR|intros _]. bsafe.
  - intros _. apply bsafe_bind; [apply HR; [done|cbn; lia]|intros _]. bsafe.
Qed.

Lemma bsafe_dc_init cur u mem alloc dbg files : bsafe (mm_dc_init cur (inr u) mem alloc dbg files).
Proof.
  unfold mm_dc_init. apply bsafe_bind; [bsafe|intros _]. apply bsafe_bind; [bsafe|intros _].
  apply bsafe_bind; [bsafe|intros s0]. cbv zeta. apply bsafe_bind; [bsafe|intros _].
  apply bsafe_bind; [bsafe|intros _]. apply bsafe_bind; [bsafe|intros _]. apply bsafe_bind.
  { apply bsafe_wr_dc. intros dc _.
    pose proof (nodes_of_set (k_local_nodeid s0) (dc <| dc_nodes := 0 |>)) as H.
    change (nodes_of (dc <| dc_nodes := 0 |>)) with (count_bits (Z.to_nat ULONG_BITS) 0 0) in H.
    rewrite count_bits_0 in H. exact (Z.le_trans _ _ _ H (Z.le_max_l 1 _)). }
  intros _. do 3 (apply bsafe_bind; [bsafe|intros _]). apply bsafe_bind; [bsafe|intros _].
  apply bsafe_bind; [bsafe|intros _]. apply bsafe_bind; [unfold free_table; bsafe|intros _].
  apply bsafe_bind; [by apply bsafe_wr_dc|intros _]. unfold KREF_GET. bsafe.
Qed.

(** Any call, in any state that the module gets to. *)
Inductive breach : kstate -> Prop :=
| b_boot s : (forall d dc, k_dcs s !! d = Some dc -> dc_nodes dc = 0) -> -1 <= k_local_nodeid s -> breach s
| b_call cl s x s' : breach s -> run_hyper cl s = Exit x s' -> breach s'
| b_decref d s s' : breach s -> DC_DECREF d s = Val tt s' -> breach s'
| b_other s s' : breach s -> sized s' = sized s -> breach s'.

Lemma run_hyper_bound cl : bsafe (run_hyper cl).
Proof.
  destruct cl; cbn [run_hyper].
  - apply bsafe_dvs_init.
  - apply bsafe_keeps, keeps_sized. unfold mm_proxies_bind, wr_proxies, KREF_GET. keeps.
  - apply bsafe_proxy_conn.
  - apply bsafe_node_up.
  - apply bsafe_node_down.
  - apply bsafe_add_node.
  - apply bsafe_del_node.
  - apply bsafe_dc_init.
  - apply bsafe_keeps, keeps_sized. unfold mm_bind, WUNLOCK_TASK. cbv zeta. keeps.
  - apply bsafe_unbind.
  - apply bsafe_dc_end.
  - apply bsafe_resume_dc_end.
Qed.

Lemma breach_inv s : breach s -> bound_inv s.
Proof.
  induction 1 as [s H0 HL|cl s x s' _ IH Hrun|d s s' _ IH Hrun|s s' _ IH E].
  - split; [|done]. intros d dc Hd. unfold bounded, nodes_of. rewrite (H0 d dc Hd), count_bits_0. lia.
  - pose proof (run_hyper_bound cl s IH) as H. unfold wp in H. by rewrite Hrun in H.
  - pose proof (bsafe_DECREF d s IH) as H. unfold wp in H. by rewrite Hrun in H.
  - by eapply bound_sized.
Qed.

(** C29. A data container never has more nodes than it was created for.  In every
    state that calls of the hypervisor lead to ([run_hyper]: the start of the DVS, the
    binding and the connection of proxies, nodes up and down, nodes added to and taken
    from a DC, the creation and the end of DCs, the binding and the unbinding of
    processes), from tables where no DC has nodes, with any arguments and whatever
    else goes on between them, the number of bits set in the bitmap of nodes of a DC
    is at most its [dc_nr_nodes]; except that a DC made for no node or less, which
    [mm_dc_init] does not refuse, has one, the node that made it. *)
Theorem nodes_bounded s d dc :
  breach s -> k_dcs s !! d = Some dc -> 0 <= nodes_of dc <= Z.max 1 (dc_nr_nodes dc).
Proof. intros Hr Hd. split; [apply count_bits_pos|]. by apply (bi_dc s (breach_inv s Hr) d). Qed.
