(* ===== verification/HyperFlow.v ===== *)
(** * What the hypervisor calls do

    The calls run on a symbolic state in normal form: what they return, and
    the state they leave, on every branch past the guards. *)

From S2P Require Import Prelude Types Endpoint Kernel Utils IpcCommon Exec Unbind Hyper.

(** ** Running a call *)

(** The state [s] with the tables of DCs, nodes, descriptors and tasks, and the
    locks. *)
Definition hst (s : kstate) (D : gmap Z dc_t) (N : gmap Z node_t) (P : gmap ptr proc)
    (T : gmap Z task_t) (H : list lock) : kstate :=
  s <| k_dcs := D |> <| k_nodes := N |> <| k_procs := P |> <| k_tasks := T |> <| k_held := H |>.

Lemma hst_id s : s = hst s (k_dcs s) (k_nodes s) (k_procs s) (k_tasks s) (k_held s).
Proof. by destruct s. Qed.
Lemma hst_nr_dcs s D N P T H : k_nr_dcs (hst s D N P T H) = k_nr_dcs s.
Proof. done. Qed.
Lemma hst_nr_nodes s D N P T H : k_nr_nodes (hst s D N P T H) = k_nr_nodes s.
Proof. done. Qed.
Lemma hst_local s D N P T H : k_local_nodeid (hst s D N P T H) = k_local_nodeid s.
Proof. done. Qed.
Lemma hst_init s D N P T H : DVS_NOT_INIT (hst s D N P T H) = DVS_NOT_INIT s.
Proof. done. Qed.

Section Equations.
Context (s : kstate) (D : gmap Z dc_t) (N : gmap Z node_t) (P : gmap ptr proc).
Context (T : gmap Z task_t) (H : list lock).

Lemma hx_rd p x : P !! p = Some x -> rd p (hst s D N P T H) = Val x (hst s D N P T H).
Proof. intros E. unfold rd. simpl. by rewrite E. Qed.
Lemma hx_wr p f x : P !! p = Some x -> wr p f (hst s D N P T H) = Val tt (hst s D N (<[p := f x]> P) T H).
Proof. intros E. unfold wr, mbind. by rewrite (hx_rd _ _ E). Qed.
Lemma hx_rd_dc d x : D !! d = Some x -> rd_dc d (hst s D N P T H) = Val x (hst s D N P T H).
Proof. intros E. unfold rd_dc. simpl. by rewrite E. Qed.
Lemma hx_wr_dc d f x :
  D !! d = Some x -> wr_dc d f (hst s D N P T H) = Val tt (hst s (<[d := f x]> D) N P T H).
Proof. intros E. unfold wr_dc, mbind. by rewrite (hx_rd_dc _ _ E). Qed.
Lemma hx_rd_node d x : N !! d = Some x -> rd_node d (hst s D N P T H) = Val x (hst s D N P T H).
Proof. intros E. unfold rd_node. simpl. by rewrite E. Qed.
Lemma hx_wr_node d f x :
  N !! d = Some x -> wr_node d f (hst s D N P T H) = Val tt (hst s D (<[d := f x]> N) P T H).
Proof. intros E. unfold wr_node, mbind. by rewrite (hx_rd_node _ _ E). Qed.
Lemma hx_rd_task t x : T !! t = Some x -> rd_task t (hst s D N P T H) = Val x (hst s D N P T H).
Proof. intros E. unfold rd_task. simpl. by rewrite E. Qed.
Lemma hx_wr_task t f x :
  T !! t = Some x -> wr_task t f (hst s D N P T H) = Val tt (hst s D N P (<[t := f x]> T) H).
Proof. intros E. unfold wr_task, mbind. by rewrite (hx_rd_task _ _ E). Qed.
Lemma hx_rd_proxies t x :
  k_proxies s !! t = Some x -> rd_proxies t (hst s D N P T H) = Val x (hst s D N P T H).
Proof. intros E. unfold rd_proxies. simpl. by rewrite E. Qed.
Lemma hx_get : get (hst s D N P T H) = Val (hst s D N P T H) (hst s D N P T H).
Proof. done. Qed.
Lemma hx_ret {A} (a : A) : mret a (hst s D N P T H) = Val a (hst s D N P T H).
Proof. done. Qed.
Lemma hx_lock l : l ∉ H -> lock_ l (hst s D N P T H) = Val tt (hst s D N P T (l :: H)).
Proof. intros E. unfold lock_. simpl. by rewrite bool_decide_false. Qed.
Lemma hx_unlock l H' : l ∈ H -> del l H = H' -> unlock_ l (hst s D N P T H) = Val tt (hst s D N P T H').
Proof. intros E <-. unfold unlock_. simpl. by rewrite bool_decide_true. Qed.
End Equations.

Ltac h_prim :=
  lazymatch goal with
  | |- rd _ _ = _ => apply hx_rd; x_look
  | |- wr _ _ _ = _ => apply hx_wr; x_look
  | |- rd_dc _ _ = _ => apply hx_rd_dc; x_look
  | |- wr_dc _ _ _ = _ => apply hx_wr_dc; x_look
  | |- rd_node _ _ = _ => apply hx_rd_node; x_look
  | |- wr_node _ _ _ = _ => apply hx_wr_node; x_look
  | |- rd_task _ _ = _ => apply hx_rd_task; x_look
  | |- wr_task _ _ _ = _ => apply hx_wr_task; x_look
  | |- rd_proxies _ _ = _ => apply hx_rd_proxies; eassumption
  | |- get _ = _ => apply hx_get
  | |- mret _ _ = _ => apply hx_ret
  | |- lock_ _ _ = _ => apply hx_lock; x_notin
  | |- unlock_ _ _ = _ => eapply hx_unlock; [x_in | x_del]
  end.

Ltac h_unfold :=
  unfold check_root, check_dvs, CHECK_DCID, CHECK_NODEID, CHECK_PROXYID, RLOCK_NODE, RUNLOCK_NODE,
    WLOCK_NODE, WUNLOCK_NODE, WLOCK_TASK, WUNLOCK_TASK, WLOCK_PROXY, WUNLOCK_PROXY, RLOCK_PROXY, RUNLOCK_PROXY,
    ERROR_RUNLOCK_DC, ERROR_WUNLOCK_DC, ERROR_WUNLOCK_PROC, WUNLOCK_DC, WLOCK_DC, RLOCK_DC,
    RUNLOCK_DC, WLOCK_PROC, WUNLOCK_PROC, RLOCK_PROC, RUNLOCK_PROC, error_if.

Ltac h_red :=
  cbv beta iota zeta;
  rewrite ?hst_nr_dcs, ?hst_nr_nodes, ?hst_init, ?hst_local, ?Z.eqb_refl; cbn [negb andb orb].

(** One step; a test is decided by an equation of the context. *)
Ltac h_step :=
  h_red;
  lazymatch goal with
  | |- mbind (mbind _ _) _ _ = _ => rewrite bind_assoc
  | |- mbind (when false _) _ _ = _ => rewrite when_false
  | |- mbind (when true _) _ _ = _ => rewrite when_true
  | |- mbind (when ?b _) _ _ = _ =>
      match goal with E : b = _ |- _ => rewrite E | E : ?c = _ |- _ =>
        lazymatch b with context [c] => rewrite E end end
  | |- mbind (if ?b then _ else _) _ _ = _ =>
      match goal with E : ?c = _ |- _ => lazymatch b with context [c] => rewrite E end end
  | |- mbind _ _ _ = _ => eapply eq_trans; [eapply ex_bind; h_prim |]
  end; h_red.

Ltac h := repeat h_step.

(** ** A privileged task that holds no lock *)

Record privileged (s : kstate) (cur : Z) (tk : task_t) : Prop := {
  pv_task : k_tasks s !! cur = Some tk;
  pv_root : (t_euid tk =? USER_ROOT) = true;
  pv_init : DVS_NOT_INIT s = false;
  pv_held : k_held s = [];
}.

Definition in_range (i n : Z) : Prop := ((i <? 0) || (i >=? n)) = false.

Lemma in_range_iff i n : in_range i n <-> 0 <= i < n.
Proof. unfold in_range. rewrite orb_false_iff, Z.ltb_ge, Z.geb_leb, Z.leb_gt. lia. Qed.

(** ** Nodes of a data container *)

Definition linked (d n : Z) (dc : dc_t) (nd : node_t) (s : kstate) : kstate :=
  s <| k_dcs ::= <[d := dc <| dc_nodes ::= set_bit n |>]> |>
    <| k_nodes ::= <[n := nd <| n_dcs ::= set_bit d |>]> |>.

Definition unlinked_from (d n : Z) (dc : dc_t) (nd : node_t) (s : kstate) : kstate :=
  s <| k_dcs ::= <[d := dc <| dc_nodes ::= clear_bit n |>]> |>
    <| k_nodes ::= <[n := nd <| n_dcs ::= clear_bit d |>]> |>.

Section Nodes.
Context (s : kstate) (cur d n : Z) (tk : task_t) (dc : dc_t) (nd : node_t).
Context (Hp : privileged s cur tk) (Hn : in_range n (k_nr_nodes s)) (Hd : in_range d (k_nr_dcs s)).
Context (Hl : n <> k_local_nodeid s).
Context (Hdc : k_dcs s !! d = Some dc) (Hnd : k_nodes s !! n = Some nd).
Context (Hf : n_flags nd <> NODE_FREE).

Lemma run_other_node {A} (k : unit -> M A) : mbind (other_node cur d n) k s = k tt s.
Proof using Hp Hn Hd Hl Hnd Hf.
  destruct Hp as [Ht Hr Hi Hh]. unfold in_range in *. apply Z.eqb_neq in Hl, Hf.
  rewrite (hst_id s) at 1. rewrite Hh. unfold other_node. h_unfold. h.
  by rewrite <- Hh, <- hst_id.
Qed.

Lemma run_add_node :
  mm_add_node cur d n s =
    let r := add_node_status d n dc nd in
    Exit (X_RET r) (if r =? OK then linked d n dc nd s else s).
Proof using Hp Hn Hd Hl Hdc Hnd Hf.
  unfold mm_add_node. rewrite run_other_node. destruct Hp as [_ _ _ Hh].
  rewrite (hst_id s) at 1. rewrite Hh. unfold finish_node. h_unfold. h.
  destruct (add_node_status d n dc nd =? OK) eqn:E; h; unfold return_, leave.
  - f_equal. destruct s; cbn in *. by subst.
  - by rewrite <- Hh, <- hst_id.
Qed.

Lemma run_del_node :
  mm_del_node cur d n s =
    let r := del_node_status d n dc nd in
    Exit (X_RET r) (if r =? OK then unlinked_from d n dc nd s else s).
Proof using Hp Hn Hd Hl Hdc Hnd Hf.
  unfold mm_del_node. rewrite run_other_node. destruct Hp as [_ _ _ Hh].
  rewrite (hst_id s) at 1. rewrite Hh. unfold finish_node. h_unfold. h.
  destruct (del_node_status d n dc nd =? OK) eqn:E; h; unfold return_, leave.
  - f_equal. destruct s; cbn in *. by subst.
  - by rewrite <- Hh, <- hst_id.
Qed.
End Nodes.

Lemma clear_set n b : 0 <= n -> test_bit n b = false -> clear_bit n (set_bit n b) = b.
Proof.
  intros Hn Hb. apply Z.bits_inj. intros j. change (test_bit j (clear_bit n (set_bit n b)) = test_bit j b).
  destruct (decide (n = j)) as [<-|].
  - by rewrite test_clear_same.
  - by rewrite test_clear_other, test_set_other.
Qed.

Lemma add_node_status_ok d n dc nd :
  add_node_status d n dc nd = OK <->
  dc_flags dc <> DC_FREE /\ test_bit n (dc_nodes dc) = false /\ test_bit d (n_dcs nd) = false /\
  nodes_of dc < dc_nr_nodes dc.
Proof.
  unfold add_node_status. destruct (Z.eqb_spec (dc_flags dc) DC_FREE); [split; [done|tauto]|].
  destruct (test_bit n _); [split; [done|intuition done]|].
  destruct (test_bit d _); [split; [done|intuition done]|].
  rewrite Z.geb_leb. destruct (Z.leb_spec (dc_nr_nodes dc) (nodes_of dc)); split; try done; lia.
Qed.

Lemma add_del_node s cur d n tk dc nd :
  privileged s cur tk -> in_range n (k_nr_nodes s) -> in_range d (k_nr_dcs s) ->
  n <> k_local_nodeid s -> k_dcs s !! d = Some dc -> k_nodes s !! n = Some nd ->
  n_flags nd <> NODE_FREE -> dc_flags dc = DC_RUNNING -> add_node_status d n dc nd = OK ->
  mm_add_node cur d n s = Exit (X_RET OK) (linked d n dc nd s) /\
  mm_del_node cur d n (linked d n dc nd s) = Exit (X_RET OK) s.
Proof.
  intros Hp Hn Hd Hl Hdc Hnd Hf Hr Hs. split.
  - by rewrite (run_add_node s cur d n tk dc nd), Hs.
  - apply add_node_status_ok in Hs as (_ & H1 & H2 & _).
    pose proof (proj1 (in_range_iff _ _) Hn). pose proof (proj1 (in_range_iff _ _) Hd).
    rewrite (run_del_node _ cur d n tk (dc <| dc_nodes ::= set_bit n |>) (nd <| n_dcs ::= set_bit d |>)).
    + unfold del_node_status. cbn. rewrite Hr. cbn. rewrite !test_set_same by lia. cbn. f_equal.
      unfold unlinked_from, linked. destruct s. cbn in *.
      rewrite !insert_insert_eq. f_equal; apply insert_id.
      * rewrite Hdc, <- Hr, clear_set by (lia || done). by destruct dc.
      * rewrite Hnd, clear_set by (lia || done). by destruct nd.
    + destruct Hp. by split.
    + done.
    + done.
    + done.
    + apply lookup_insert_eq.
    + apply lookup_insert_eq.
    + done.
Qed.

(** ** Attaching and detaching a node *)

Section Attach.
Context (s : kstate) (cur n px : Z) (tk : task_t) (nd : node_t) (pxs : proxies_t) (sp rp : proc).
Context (Hp : privileged s cur tk) (Hn : in_range n (k_nr_nodes s)) (Hpx : in_range px (k_nr_nodes s)).
Context (Hnd : k_nodes s !! n = Some nd) (Hpxs : k_proxies s !! px = Some pxs).
Context (Huse : (px_flags pxs =? PROXIES_FREE) = false).
Context (Hsp : k_procs s !! SPROXY px = Some sp) (Hrp : k_procs s !! RPROXY px = Some rp).

Lemma run_node_down :
  n_proxies nd = px -> test_bit n (p_nodemap sp) = true ->
  mm_node_down cur n s = Exit (X_RET OK) s.
Proof using Hp Hn Hpx Hnd Hpxs Huse Hsp Hrp.
  destruct Hp as [Ht Hr Hi Hh]. unfold in_range in *. intros Ep Hbit.
  rewrite (hst_id s), Hh. unfold mm_node_down, lock_sr_proxies, unlock_sr_proxies. h_unfold. h.
  done.
Qed.

(** A node that is not in the map of its pair. *)
Definition node_detached : kstate :=
  s <| k_nodes ::= <[n := clear_node nd]> |>
    <| k_procs ::= fun P => <[RPROXY px := rp <| p_nodemap ::= clear_bit n |>]>
                              (<[SPROXY px := sp <| p_nodemap ::= clear_bit n |>]> P) |>.

Lemma run_node_down_cleared :
  n_proxies nd = px -> test_bit n (p_nodemap sp) = false ->
  mm_node_down cur n s = Exit (X_RET OK) node_detached.
Proof using Hp Hn Hpx Hnd Hpxs Huse Hsp Hrp.
  destruct Hp as [Ht Hr Hi Hh]. unfold in_range in *. intros Ep Hbit.
  rewrite (hst_id s) at 1. rewrite Hh. unfold mm_node_down, lock_sr_proxies, unlock_sr_proxies. h_unfold. h.
  unfold node_detached, return_, leave. destruct s; cbn in *; subst. by rewrite ?insert_insert_eq.
Qed.

(** The flags of an attached node tell which proxies are connected. *)
Definition attached_flags (fl : Z) : Z :=
  let f1 := if test_bit PX_BIT_SCONNECTED fl then set_bit NODE_BIT_SCONNECTED NODE_ATTACHED
            else NODE_ATTACHED in
  if test_bit PX_BIT_RCONNECTED fl then set_bit NODE_BIT_RCONNECTED f1 else f1.

Definition node_attached : kstate :=
  s <| k_nodes ::= <[n := nd <| n_flags := attached_flags (px_flags pxs) |> <| n_proxies := px |>]> |>
    <| k_procs ::= fun P => <[RPROXY px := rp <| p_nodemap ::= set_bit n |>]>
                              (<[SPROXY px := sp <| p_nodemap ::= set_bit n |>]> P) |>.

Lemma run_node_up rc : mm_node_up cur n px rc s = Exit (X_RET rc) node_attached.
Proof using Hp Hn Hpx Hnd Hpxs Huse Hsp Hrp.
  destruct Hp as [Ht Hr Hi Hh]. unfold in_range in *.
  rewrite (hst_id s) at 1. rewrite Hh. unfold mm_node_up, lock_sr_proxies, unlock_sr_proxies. h_unfold.
  destruct (test_bit PX_BIT_SCONNECTED (px_flags pxs)) eqn:E1,
    (test_bit PX_BIT_RCONNECTED (px_flags pxs)) eqn:E2; h;
    unfold node_attached, attached_flags, return_, leave; rewrite E1, E2; destruct s; cbn in *;
    subst; by rewrite ?insert_insert_eq.
Qed.

End Attach.

(** ** Properties *)

(** Adding a node to a data container and deleting it again is the
    identity.  For a privileged caller, a running DC with room for one more
    node, and a remote node in use that is in neither bitmap, [mm_add_node]
    returns [OK] with the two bits set and nothing else changed, and
    [mm_del_node] then returns [OK] and gives back the very state before. *)
Theorem node_add_del_roundtrip s cur d n tk dc nd :
  privileged s cur tk -> in_range n (k_nr_nodes s) -> in_range d (k_nr_dcs s) ->
  n <> k_local_nodeid s -> k_dcs s !! d = Some dc -> k_nodes s !! n = Some nd ->
  n_flags nd <> NODE_FREE -> dc_flags dc = DC_RUNNING -> add_node_status d n dc nd = OK ->
  exists s1,
    mm_add_node cur d n s = Exit (X_RET OK) s1 /\
    k_dcs s1 = <[d := dc <| dc_nodes ::= set_bit n |>]> (k_dcs s) /\
    k_nodes s1 = <[n := nd <| n_dcs ::= set_bit d |>]> (k_nodes s) /\
    mm_del_node cur d n s1 = Exit (X_RET OK) s.
Proof.
  intros Hp Hn Hd Hl Hdc Hnd Hf Hr Hs. exists (linked d n dc nd s).
  destruct (add_del_node s cur d n tk dc nd) as [? ?]; auto.
Qed.

(** Detaching a node has no effect.  A node that [mm_node_up] attached to a
    pair of proxies is marked in their maps; [mm_node_down] tests that mark
    the wrong way round, so it leaves the node attached and the whole state as
    it was, and still returns [OK]. *)
Theorem node_down_no_effect s cur n px tk nd pxs sp rp rc :
  privileged s cur tk -> in_range n (k_nr_nodes s) -> in_range px (k_nr_nodes s) ->
  k_nodes s !! n = Some nd -> k_proxies s !! px = Some pxs ->
  (px_flags pxs =? PROXIES_FREE) = false ->
  k_procs s !! SPROXY px = Some sp -> k_procs s !! RPROXY px = Some rp ->
  exists s1 nd1,
    mm_node_up cur n px rc s = Exit (X_RET rc) s1 /\
    k_nodes s1 !! n = Some nd1 /\ n_proxies nd1 = px /\ n_flags nd1 <> NODE_FREE /\
    mm_node_down cur n s1 = Exit (X_RET OK) s1.
Proof.
  intros Hp Hn Hpx Hnd Hpxs Huse Hsp Hrp. eexists (node_attached s n px nd pxs sp rp), _.
  split; [by eapply run_node_up|]. split; [apply lookup_insert_eq|]. split; [done|].
  split; [cbn; unfold attached_flags; by repeat destruct (test_bit _ _)|].
  destruct (proj1 (in_range_iff _ _) Hn). destruct Hp.
  eapply (run_node_down _ cur n px); try done.
  - apply lookup_insert_eq.
  - cbn. rewrite lookup_insert_ne by done. apply lookup_insert_eq.
  - apply lookup_insert_eq.
  - done.
  - by apply test_set_same.
Qed.

(** Detaching a node leaves it in the data containers.  A node in use whose bit is
    not in the map of its pair is freed by [mm_node_down], with its bitmap of DCs, and stays in the bitmaps of the
    DCs. *)
Theorem node_down_keeps_dcs s cur n px tk nd pxs sp rp :
  privileged s cur tk -> in_range n (k_nr_nodes s) -> in_range px (k_nr_nodes s) ->
  k_nodes s !! n = Some nd -> k_proxies s !! px = Some pxs -> (px_flags pxs =? PROXIES_FREE) = false ->
  k_procs s !! SPROXY px = Some sp -> k_procs s !! RPROXY px = Some rp ->
  n_proxies nd = px -> test_bit n (p_nodemap sp) = false ->
  exists s1 nd1,
    mm_node_down cur n s = Exit (X_RET OK) s1 /\ k_nodes s1 !! n = Some nd1 /\
    n_flags nd1 = NODE_FREE /\ n_dcs nd1 = 0 /\ k_dcs s1 = k_dcs s.
Proof.
  intros Hp Hn Hpx Hnd Hpxs Huse Hsp Hrp Hpr Hbit. exists (node_detached s n px nd sp rp), (clear_node nd).
  split; [by eapply run_node_down_cleared|]. split; [apply lookup_insert_eq|done].
Qed.
