(* ===== verification/BindFlow.v ===== *)
(** * Binding a process and asking for its endpoint

    [mm_bind] with [LCL_BIND] on a symbolic state, and [mm_getep] of the task it
    bound. *)

From S2P Require Import Prelude Types Endpoint Kernel Hoare Utils IpcCommon Exec Unbind Hyper Bind Proxies Wait HyperFlow.

(** A free slot [p] of the running DC [d], for the endpoint [ep]; the node is a
    node of the DC. *)
Record bindable (s : kstate) (d ep : Z) (dc : dc_t) (p : ptr) (x : proc) : Prop := {
  bd_dcid : in_range d (k_nr_dcs s);
  bd_dc : k_dcs s !! d = Some dc;
  bd_run : dc_flags dc = 0;
  bd_nr : (ENDPOINT_P ep <? - dc_nr_tasks dc) || (ENDPOINT_P ep >=? dc_nr_procs dc) = false;
  bd_node : test_bit (k_local_nodeid s) (dc_nodes dc) = true;
  bd_slot : p = DC_PROC d (ENDPOINT_P ep + dc_nr_tasks dc);
  bd_desc : k_procs s !! p = Some x;
  bd_free : rts BIT_SLOT_FREE x = true;
}.

(** A task that leads its thread group. *)
Record leads (s : kstate) (pid : Z) (t : task_t) : Prop := {
  ld_task : k_tasks s !! pid = Some t;
  ld_leader : t_leader t = Some pid;
}.

Section Bind.
Context (s : kstate) (cur d pid ep : Z) (tk t : task_t) (dc : dc_t) (p : ptr) (x : proc).
Context (Hp : privileged s cur tk) (Hb : bindable s d ep dc p x) (Hl : leads s pid t).

Definition bound_desc : proc :=
  let y := bind_flags LCL_BIND (k_local_nodeid s) (k_local_nodeid s) pid
    (bind_id dc (ENDPOINT_P ep + dc_nr_tasks dc)) true
    ((init_desc (ENDPOINT_P ep + dc_nr_tasks dc - dc_nr_tasks dc) d
       (zero_chunks (k_nr_sysprocs s) (s_notify_pending x)) x) <| p_task := Some pid |>) in
  y <| p_nodemap ::= set_bit (p_nodeid y) |>.

Definition bound_task : task_t := t <| t_usage ::= Z.succ |> <| task_proc := Some p |>.

Definition bound_state : kstate :=
  s <| k_dcs ::= <[d := dc <| dc_refcount ::= Z.succ |>]> |>
    <| k_procs ::= <[p := bound_desc]> |>
    <| k_tasks ::= <[pid := bound_task]> |>.

Lemma run_bind_node D N P T H :
  bind_node LCL_BIND LOCALNODE (hst s D N P T H) = Val (k_local_nodeid s) (hst s D N P T H).
Proof. done. Qed.

Lemma run_bind_status : bind_status (k_local_nodeid s) (ENDPOINT_P ep) dc = OK.
Proof using Hb. destruct Hb. unfold bind_status. by rewrite bd_run0, bd_nr0, bd_node0. Qed.

Lemma run_init_desc D N P T H y :
  D !! d = Some dc -> P !! p = Some y ->
  init_proc_desc p d (ENDPOINT_P ep + dc_nr_tasks dc) (hst s D N P T H) =
  Val tt (hst s D N (<[p := init_desc (ENDPOINT_P ep + dc_nr_tasks dc - dc_nr_tasks dc) d
       (zero_chunks (k_nr_sysprocs s) (s_notify_pending y)) y]> P) T H).
Proof using Hb.
  intros HD HP. destruct Hb as [Hd _ _ _ _ _ _ _]. apply in_range_iff in Hd.
  unfold init_proc_desc. h. assert (E : (d =? PROXY_NO_DC) = false).
  { apply Z.eqb_neq. unfold PROXY_NO_DC. lia. }
  rewrite E. h. by rewrite (hx_wr _ _ _ _ _ _ _ _ _ HP).
Qed.

Lemma run_bind_task D N P T H :
  T !! cur = Some tk -> T !! pid = Some t ->
  bind_task cur LCL_BIND d pid p (hst s D N P T H) = Val pid (hst s D N P T H).
Proof.
  intros H1 H2. unfold bind_task. h. destruct (Z.eqb_spec pid cur) as [->|]; [done|].
  change (LCL_BIND =? SELF_BIND) with false. cbn [andb]. change (k_tasks (hst s D N P T H)) with T.
  by rewrite H2.
Qed.

Lemma run_bind :
  mm_bind cur LCL_BIND d pid ep LOCALNODE s = Exit (X_RET (p_endpoint x)) bound_state.
Proof using Hp Hb Hl.
  destruct Hp as [Ht Hr Hi Hh]. pose proof Hb as [Hd Hdc Hrun Hnr Hnode Hs Hx Hfree].
  destruct Hl as [Hpt Hlead]. unfold in_range in Hd. rewrite (hst_id s) at 1. rewrite Hh.
  unfold mm_bind. h_unfold. h.
  rewrite (ex_bind _ _ _ _ _ (run_bind_node _ _ _ _ _)). h.
  rewrite run_bind_status. h. rewrite <- Hs. h.
  rewrite (ex_bind _ _ _ _ _ (run_init_desc _ _ _ _ _ _ Hdc Hx)).
  change (LCL_BIND =? RMT_BIND) with false. unfold bind_local. h_unfold. h.
  eapply eq_trans; [eapply ex_bind, run_bind_task; eassumption|]. h.
  unfold bind_leader. h. rewrite bool_decide_true by done. unfold DC_INCREF, get_task_struct. h.
  cbn [t_leader]. rewrite bool_decide_true by done.
  unfold return_, leave, bound_state. f_equal. rewrite !insert_insert_eq. fold bound_desc.
  generalize bound_desc. clear -Hh. intros y. destruct s. cbn in Hh. by subst.
Qed.

Lemma bound_calls : calls_as bound_state pid p bound_desc bound_task
  (dc <| dc_refcount ::= Z.succ |>).
Proof using Hp Hb Hl.
  destruct Hp, Hb. split; try done.
  - cbn. apply lookup_insert_eq.
  - cbn. apply lookup_insert_eq.
  - by apply in_range_iff.
  - apply lookup_insert_eq.
Qed.
End Bind.

Lemma run_getep s pid p y tk dc cl :
  calls_as s pid p y tk dc -> misc MIS_BIT_PROXY y = false -> 1 <= pid <= PID_MAX ->
  mm_getep pid cl pid s = Exit (X_RET (p_endpoint y)) s.
Proof.
  intros HC Hm Hpid. pose proof (ex_check_caller HC cl) as Hcc.
  destruct HC as [Hi Hh _ _ Hy _ Hlp Hfl _ Hd Hdc Hrun]. unfold mm_getep. h_unfold.
  assert (Er : (pid <? 1) || (pid >? PID_MAX) = false).
  { apply orb_false_iff. rewrite Z.gtb_ltb. split; apply Z.ltb_ge; lia. }
  rewrite (hst_id s), Hh. h. rewrite <- Hh, <- hst_id.
  rewrite (ex_bind _ _ _ _ _ Hcc). rewrite (hst_id s), Hh. cbn [fst snd]. h.
  assert (Es : getep_status pid y = OK).
  { unfold getep_status, rts. by rewrite Hlp, Z.eqb_refl, Hfl, Hm, test_bit_0. }
  rewrite Es. by h.
Qed.

(** C30. Binding and finding a process is a round trip.  When a privileged task
    binds the task [pid], which leads its thread group, to a free slot of a
    running DC, [mm_bind] returns the endpoint the slot already has; the descriptor
    then names the task and the task the descriptor, the process runs on the local
    node, the task and the DC have one reference more, and the whole rest of the
    state (the other descriptors, tasks and DCs, the nodes, the pairs of proxies, the
    count of references to the DVS, the memory) is as before, with no lock held; and
    [mm_getep], called by the bound task, gives that endpoint back without any
    effect. *)
Theorem bind_getep_roundtrip s cur d pid ep tk t dc p x cl :
  privileged s cur tk -> bindable s d ep dc p x -> leads s pid t -> 1 <= pid <= PID_MAX ->
  exists y,
    let s1 := s <| k_dcs ::= <[d := dc <| dc_refcount ::= Z.succ |>]> |>
                <| k_procs ::= <[p := y]> |>
                <| k_tasks ::= <[pid := t <| t_usage ::= Z.succ |> <| task_proc := Some p |>]> |> in
    mm_bind cur LCL_BIND d pid ep LOCALNODE s = Exit (X_RET (p_endpoint x)) s1 /\
    p_task y = Some pid /\ p_lpid y = pid /\ p_rts_flags y = PROC_RUNNING /\
    p_nodeid y = k_local_nodeid s /\ p_endpoint y = p_endpoint x /\ p_dcid y = d /\
    k_held s1 = [] /\
    mm_getep pid cl pid s1 = Exit (X_RET (p_endpoint x)) s1.
Proof.
  intros Hp Hb Hl Hpid. exists (bound_desc s d pid ep dc x). cbv zeta.
  split; [by eapply run_bind|]. do 6 (split; [done|]). split; [by destruct Hp|].
  eapply (run_getep _ _ _ _ _ _ cl (bound_calls s cur d pid ep tk t dc p x Hp Hb Hl)); done.
Qed.

(** ** Any [mm_bind]

    On every branch a [mm_bind] gives an error, or the endpoint the slot has. *)

Definition error_exit (x : exit) : Prop := match x with X_RET rc => rc < 0 | _ => True end.

(** [m] keeps [I], and what it returns, if it returns, is an error. *)
Definition errs (I : kstate -> Prop) {A} (m : M A) : Prop :=
  forall s, I s -> wp m (fun _ => I) (fun x s' => I s' /\ error_exit x) s.

Section Errs.
Context (I : kstate -> Prop) (I_held : forall s f, I s -> I (s <| k_held ::= f |>)).

Lemma errs_bind {A B} (m : M A) (k : A -> M B) : errs I m -> (forall a, errs I (k a)) -> errs I (mbind m k).
Proof. intros Hm Hk s HI. apply wp_bind. eapply wp_mono; [by apply Hm| |done]. intros a s' HI'. by apply Hk. Qed.
Lemma errs_ret {A} (a : A) : errs I (mret a).
Proof. by intros s. Qed.
Lemma errs_leave {A} x : error_exit x -> errs I (@leave A x).
Proof. by intros Hx s HI. Qed.
Lemma errs_when b m : (b = true -> errs I m) -> errs I (when b m).
Proof. destruct b; [auto|]. intros _. apply errs_ret. Qed.
Lemma errs_get : errs I get.
Proof. by intros s. Qed.
Lemma errs_rd p : errs I (rd p).
Proof. intros s HI. unfold wp, rd. by destruct (k_procs s !! p). Qed.
Lemma errs_rd_dc d : errs I (rd_dc d).
Proof. intros s HI. unfold wp, rd_dc. by destruct (k_dcs s !! d). Qed.
Lemma errs_rd_task t : errs I (rd_task t).
Proof. intros s HI. unfold wp, rd_task. by destruct (k_tasks s !! t). Qed.
Lemma errs_lock l : errs I (lock_ l).
Proof using I_held. intros s HI. unfold wp, lock_. case_bool_decide; [done|]. by apply I_held. Qed.
Lemma errs_unlock l : errs I (unlock_ l).
Proof using I_held. intros s HI. unfold wp, unlock_. case_bool_decide; [|done]. by apply I_held. Qed.
Lemma errs_wr_task t f : (forall s T, I s -> I (s <| k_tasks ::= T |>)) -> errs I (wr_task t f).
Proof. intros HT. apply errs_bind; [apply errs_rd_task|]. intros tk s HI. apply wp_modify. by apply HT. Qed.
End Errs.

Ltac errs :=
  unfold check_root, check_dvs, CHECK_DCID, CHECK_NODEID, ERROR_RUNLOCK_DC, RLOCK_DC, RUNLOCK_DC, WLOCK_PROC,
    WUNLOCK_PROC, RLOCK_PROC, RUNLOCK_PROC, WLOCK_TASK, WUNLOCK_TASK, error_if, return_, faults;
  repeat (cbv beta;
    lazymatch goal with
    | |- errs _ (mbind _ _) => apply errs_bind; [|intros ?]
    | |- errs _ (if ?b then _ else _) => destruct b
    | |- errs _ (match ?x with _ => _ end) => destruct x
    | |- errs _ (when _ _) => apply errs_when; intros _
    | |- errs _ (leave _) => apply errs_leave; done
    | |- errs _ (mret _) => apply errs_ret
    | |- errs _ get => apply errs_get
    | |- errs _ (rd _) => apply errs_rd
    | |- errs _ (rd_dc _) => apply errs_rd_dc
    | |- errs _ (rd_task _) => apply errs_rd_task
    | |- errs _ (lock_ _) => apply errs_lock; solve [auto]
    | |- errs _ (unlock_ _) => apply errs_unlock; solve [auto]
    | |- errs _ (wr_task _ _) => apply errs_wr_task; solve [auto]
    end).

Section Outcome.
Context (s0 : kstate) (cur d pid ep : Z) (dc : dc_t) (x : proc).
Context (Hdc : k_dcs s0 !! d = Some dc).
Abbreviation slot := (DC_PROC d (ENDPOINT_P ep + dc_nr_tasks dc)).
Context (Hx : k_procs s0 !! slot = Some x) (Hfree : p_rts_flags x = SLOT_FREE).

(** The slot holds [y], with the endpoint it had. *)
Definition slot_has (P : proc -> Prop) (s : kstate) : Prop :=
  k_dcs s = k_dcs s0 /\ exists y, k_procs s = <[slot := y]> (k_procs s0) /\ p_endpoint y = p_endpoint x /\ P y.

Definition still_free (y : proc) : Prop := p_rts_flags y = SLOT_FREE.
Definition blank (y : proc) : Prop := p_rts_flags y = SLOT_FREE /\ p_misc_flags y = GENERIC_PROC.
Definition taken (y : proc) : Prop := p_rts_flags y = PROC_RUNNING /\ misc MIS_BIT_KILLED y = false.

Lemma slot_held P s f : slot_has P s -> slot_has P (s <| k_held ::= f |>).
Proof. done. Qed.
Lemma slot_tasks P s T : slot_has P s -> slot_has P (s <| k_tasks ::= T |>).
Proof. done. Qed.
Hint Resolve slot_held slot_tasks : core.

Lemma slot_wr (P Q : proc -> Prop) f s (R : exit -> kstate -> Prop) :
  (forall e, R (X_FAULT e) s) -> (forall y, P y -> p_endpoint (f y) = p_endpoint y /\ Q (f y)) ->
  slot_has P s -> wp (wr slot f) (fun _ => slot_has Q) R s.
Proof.
  intros HR Hf (HD & y & Hp & He & HP). apply wp_wr; [|done]. intros y'. rewrite Hp, lookup_insert_eq. intros [= <-].
  destruct (Hf y HP) as [E HQ]. split; [done|]. exists (f y). split; [|by rewrite E].
  unfold set_proc. cbn. by rewrite Hp, insert_insert_eq.
Qed.

(** What the call is to leave. *)
Definition bound_as (e : exit) (s : kstate) : Prop :=
  match e with
  | X_RET rc => exists y, k_procs s = <[slot := y]> (k_procs s0) /\ bind_outcome x y rc
  | _ => True
  end.

Lemma error_bound P e s :
  (forall y, P y -> still_free y) -> slot_has P s /\ error_exit e -> bound_as e s.
Proof.
  intros HP [(_ & y & Hp & He & Hy) Hx']. destruct e as [rc|k|w|f]; [|done..]. exists y. split; [done|].
  split; [done|]. left. split; [done|by apply HP].
Qed.

Lemma bound_step {A B} P (m : M A) (k : A -> M B) Q s :
  (forall y, P y -> still_free y) -> errs (slot_has P) m -> slot_has P s ->
  (forall a s', slot_has P s' -> wp (k a) Q bound_as s') -> wp (mbind m k) Q bound_as s.
Proof.
  intros HP Hm Hs Hk. apply wp_bind. eapply wp_mono; [by apply Hm|apply Hk|]. intros e s'. by apply error_bound.
Qed.

Lemma bound_wr {B} (P P' : proc -> Prop) f (k : unit -> M B) Q s :
  (forall y, P y -> p_endpoint (f y) = p_endpoint y /\ P' (f y)) -> slot_has P s ->
  (forall s', slot_has P' s' -> wp (k tt) Q bound_as s') -> wp (mbind (wr slot f) k) Q bound_as s.
Proof.
  intros Hf Hs Hk. apply wp_bind. eapply wp_mono; [by apply (slot_wr P P' f s bound_as)| |done]. intros [] s'. apply Hk.
Qed.

Lemma bound_dc {B} P (k : dc_t -> M B) Q s :
  slot_has P s -> wp (k dc) Q bound_as s -> wp (mbind (rd_dc d) k) Q bound_as s.
Proof. intros [HD _] Hk. apply wp_bind. unfold wp at 1, rd_dc. by rewrite HD, Hdc. Qed.

Lemma blank_free y : blank y -> still_free y.
Proof. by intros []. Qed.

Ltac step P := apply (bound_step P); [by auto using blank_free|unfold get_task_struct; cbv zeta; errs|assumption|];
  let s' := fresh "s" in intros ? s' ?.

Lemma bound_init s : slot_has still_free s ->
  wp (init_proc_desc slot d (ENDPOINT_P ep + dc_nr_tasks dc)) (fun _ => slot_has blank) bound_as s.
Proof.
  intros Hs. unfold init_proc_desc. rewrite wp_bind, wp_get. destruct (d =? PROXY_NO_DC).
  - by apply (slot_wr still_free blank).
  - apply (bound_dc still_free); [done|]. by apply (slot_wr still_free blank).
Qed.

Lemma bound_local n i s : slot_has blank s ->
  wp (bind_local cur LCL_BIND d pid n dc slot i) (fun _ => slot_has taken) bound_as s.
Proof.
  intros Hs. unfold bind_local, bind_task, bind_leader. do 6 step blank.
  apply (bound_wr blank blank); [done..|]. intros ? ?. do 3 step blank. apply (bound_wr blank taken); [|done|by intros].
  intros y [Hy1 Hy2]. split; [by destruct (bool_decide _)|]. split; [by destruct (bool_decide _)|].
  unfold misc, bind_flags. destruct (bool_decide _); cbn; [done|]. by rewrite Hy2.
Qed.

(** The end: only what the descriptor has now is returned. *)
Lemma bound_end t s : slot_has taken s ->
  wp (wr slot (fun x => x <| p_nodemap ::= set_bit (p_nodeid x) |>) ;;
      y <- rd slot ;;
      WUNLOCK_PROC slot ;;
      match t with Some t => WUNLOCK_TASK t | None => mret tt end ;;
      DC_INCREF d ;; RUNLOCK_DC d ;; return_ (p_endpoint y) : handler) (fun _ _ => True) bound_as s.
Proof.
  intros Hs. apply (bound_wr taken taken); [done..|]. intros s1 (HD & y & Hp & He & H1 & H2).
  rewrite wp_bind. apply wp_rd; [|done]. rewrite Hp, lookup_insert_eq. intros _ [= <-].
  assert (H : forall s2, k_procs s2 = k_procs s1 -> bound_as (X_RET (p_endpoint y)) s2).
  { intros s2 E. exists y. split; [by rewrite E|]. split; [done|]. by right. }
  assert (HU : forall l s2 (k : unit -> handler), k_procs s2 = k_procs s1 ->
    (forall s3, k_procs s3 = k_procs s1 -> wp (k tt) (fun _ _ => True) bound_as s3) ->
    wp (mbind (unlock_ l) k) (fun _ _ => True) bound_as s2).
  { intros l s2 k E Hk. apply wp_bind. unfold wp, unlock_. case_bool_decide; [|done]. by apply Hk. }
  apply HU; [done|]. intros s3 E3.
  assert (HT : forall (k : unit -> handler), (forall s3, k_procs s3 = k_procs s1 -> wp (k tt) (fun _ _ => True) bound_as s3) ->
    wp (mbind (match t with Some t => WUNLOCK_TASK t | None => mret tt end) k) (fun _ _ => True) bound_as s3).
  { intros k Hk. destruct t; [by apply HU|]. apply wp_bind, wp_ret. by apply Hk. }
  apply HT. intros s4 E4. rewrite wp_bind. unfold DC_INCREF, wr_dc. rewrite wp_bind. unfold wp at 1, rd_dc.
  destruct (k_dcs s4 !! d); [|done]. apply wp_modify. apply HU; [done|]. intros s5 E5. by apply H.
Qed.

Lemma bind_outcome_wp : wp (mm_bind cur LCL_BIND d pid ep LOCALNODE) (fun _ _ => True) bound_as s0.
Proof.
  assert (Hs : slot_has still_free s0) by (split; [done|]; exists x; by rewrite insert_id).
  unfold mm_bind. do 2 step still_free.
  apply (bound_step still_free); [done|unfold bind_node; errs|done|]. intros n s3 H3. cbv zeta.
  do 2 step still_free. apply (bound_dc still_free); [done|].
  apply (bound_step still_free); [done| |done|].
  { apply errs_when. intros E. apply errs_bind; [errs|intros _]. apply errs_leave. cbn.
    unfold bind_status in *. by repeat case_match. }
  intros _ s6 H6. step still_free. step still_free. apply (bound_step still_free); [done|errs|done|]. intros _ s9 H9.
  apply wp_bind. eapply wp_mono; [by apply bound_init| |done]. intros [] s10 H10.
  change (LCL_BIND =? RMT_BIND) with false. cbn [negb].
  apply wp_bind. eapply wp_mono; [by apply bound_local| |done]. intros t s11 H11. by apply bound_end.
Qed.
End Outcome.

(** C24. Every branch of [mm_bind].  Binding a local process to a free slot gives an error
    and the slot is still free, or the slot runs the process and what is returned is
    the endpoint the slot had before; the endpoint in the descriptor is not changed,
    whatever generation the caller asks for, and no other descriptor is. *)
Theorem bind_keeps_endpoint s cur d pid ep dc x rc s' (p := DC_PROC d (ENDPOINT_P ep + dc_nr_tasks dc)) :
  k_dcs s !! d = Some dc -> k_procs s !! p = Some x -> p_rts_flags x = SLOT_FREE ->
  mm_bind cur LCL_BIND d pid ep LOCALNODE s = Exit (X_RET rc) s' ->
  exists y, k_procs s' = <[p := y]> (k_procs s) /\ bind_outcome x y rc.
Proof.
  intros Hd Hx Hf Hrun. pose proof (bind_outcome_wp s cur d pid ep dc x Hd Hx Hf) as H.
  unfold wp in H. by rewrite Hrun in H.
Qed.

(** ** Giving up a pair of proxies *)

Lemma run_no_nodes sig cur px n i sp s D N P T H :
  P !! SPROXY px = Some sp -> p_nodemap sp = 0 ->
  for_each n i (proxy_nodes sig cur true px) (hst s D N P T H) = Val tt (hst s D N P T H).
Proof.
  intros Hsp Hm. revert i. induction n as [|n IH]; intros i; cbn [for_each]; [done|].
  unfold proxy_nodes at 1. cbn [proxy_of]. rewrite bind_assoc. h_step. rewrite Hm, test_bit_0. h. apply IH.
Qed.

(** Two processes bound as a pair of proxies, for no node. *)
Record pair_bound (s : kstate) (px t t' : Z) (pxs : proxies_t) (sp rp : proc) : Prop := {
  pb_range : in_range px (k_nr_nodes s);
  pb_pair : k_proxies s !! px = Some pxs;
  pb_use : (px_flags pxs =? PROXIES_FREE) = false;
  pb_sp : k_procs s !! SPROXY px = Some sp;
  pb_rp : k_procs s !! RPROXY px = Some rp;
  pb_snr : p_nr sp = px;
  pb_stask : p_task sp = Some t;
  pb_rtask : p_task rp = Some t';
  pb_map : p_nodemap sp = 0;
  pb_live : exists tk, k_tasks s !! t = Some tk;
}.

Lemma run_proxies_unbind sig s cur px tk pxs sp rp t t' :
  privileged s cur tk -> pair_bound s px t t' pxs sp rp ->
  exists s1, mm_proxies_unbind sig cur px s = Exit (X_WAIT (W_PROXY true px t (p_lpid rp))) s1 /\
    k_held s1 = [L_TASK t; L_PROC (SPROXY px); L_PROXY px].
Proof.
  intros [Ht Hr Hi Hh] [Hpx Hpxs Huse Hsp Hrp Hnr Hst Hrt Hmap [tkt Htt]]. unfold in_range in Hpx.
  unfold mm_proxies_unbind, lock_sr_proxies, do_proxies_unbind. rewrite (hst_id s), Hh. h_unfold.
  destruct (p_rts_flags rp =? 0) eqn:Ef; (eexists; split; [h; rewrite Hnr, Hst|]).
  1,3: eapply eq_trans; [eapply ex_bind, run_no_nodes; eassumption|].
  1,2: unfold lock_task, mm_put_task_struct, init_proc_desc, stop_other, LOCAL_PROC_UP; cbn [proxy_of negb]; h_unfold; h.
  1,2: apply ex_leave.
  all: done.
Qed.

Lemma kref_put_held s : exists s', KREF_PUT s = Val tt s' /\ k_held s' = k_held s.
Proof.
  unfold KREF_PUT, mbind, get, modify. destruct (k_dvs_refs s =? 1); eexists; (split; [reflexivity|done]).
Qed.

Lemma lock_held l s : l ∈ k_held s -> lock_ l s = Exit (X_FAULT (F_SELF_DEADLOCK l)) s.
Proof. intros Hl. unfold lock_. by rewrite bool_decide_true. Qed.

(** A pair of proxies cannot be given up.  [mm_proxies_unbind] on a bound pair
    that serves no node goes to wait for the receiver proxy while it holds the
    mutexes of the pair, of the sender proxy and of its task; and when that
    wait is over, whatever the other tasks did in the meantime, it locks the
    mutex of the pair again, which it still holds. *)
Theorem proxies_unbind_deadlocks sig s cur px tk pxs sp rp t t' :
  privileged s cur tk -> pair_bound s px t t' pxs sp rp ->
  exists s1, mm_proxies_unbind sig cur px s = Exit (X_WAIT (W_PROXY true px t (p_lpid rp))) s1 /\
    k_held s1 = [L_TASK t; L_PROC (SPROXY px); L_PROXY px] /\
    (forall s2, k_held s2 = k_held s1 -> exists s3,
       resume_proxies_unbind true px t s2 = Exit (X_FAULT (F_SELF_DEADLOCK (L_PROXY px))) s3).
Proof.
  intros Hp Hb. destruct (run_proxies_unbind sig s cur px tk pxs sp rp t t' Hp Hb) as (s1 & E & Hh).
  exists s1. split; [exact E|]. split; [exact Hh|]. intros s2 H2. rewrite Hh in H2.
  unfold resume_proxies_unbind, proxies_free. cbn [negb proxy_of]. h_unfold.
  destruct (kref_put_held (hst s2 (k_dcs s2) (k_nodes s2) (k_procs s2) (k_tasks s2)
    [L_PROC (RPROXY px); L_PROC (SPROXY px); L_PROXY px])) as (s4 & E4 & H4).
  rewrite (hst_id s2), H2. eexists. do 2 h_step.
  rewrite (ex_bind _ _ _ _ _ E4). unfold mbind. rewrite lock_held; [reflexivity|].
  rewrite H4. cbn. set_solver.
Qed.

(** ** Waiting to be bound *)

Lemma run_wait_self s pid t cl timeout :
  leads s pid t -> task_proc t = None -> DVS_NOT_INIT s = false -> k_held s = [] ->
  mm_wait4bind pid cl WAIT_BIND SELF timeout s = Exit (X_WAIT (W_BIND WAIT_BIND SELF timeout)) s.
Proof.
  intros [Ht Hl] Hn Hi Hh. unfold mm_wait4bind. rewrite (hst_id s), Hh. h_unfold. h.
  assert (Ec : catch (check_caller pid cl) (hst s (k_dcs s) (k_nodes s) (k_procs s) (k_tasks s) []) =
    Val (inl EMOLNOTBIND) (hst s (k_dcs s) (k_nodes s) (k_procs s) (k_tasks s) [])).
  { unfold catch, check_caller, caller_binding, mbind.
    rewrite (hx_rd_task _ _ _ _ _ _ _ _ Ht), Hl, Hn. by rewrite bool_decide_true. }
  unfold wait4bind_turn. rewrite (ex_bind _ _ _ _ _ Ec). unfold wait4bind_wait. h_unfold. h.
  change (SELF =? SELF) with true. change (WAIT_BIND =? WAIT_BIND) with true. h.
  rewrite Hn. by h.
Qed.

Lemma run_wait_bound s pid p x tk dc cl timeout :
  calls_as s pid p x tk dc ->
  wait4bind_turn pid cl WAIT_BIND SELF timeout s = Exit (X_RET (p_endpoint x)) s.
Proof.
  intros HC. unfold wait4bind_turn.
  assert (Ec : catch (check_caller pid cl) s = Val (inr (p, pid)) s).
  { unfold catch. by rewrite (ex_check_caller HC cl). }
  rewrite (ex_bind _ _ _ _ _ Ec). destruct HC as [_ Hh _ _ Hx _ _ _ _ _ _ _].
  rewrite (hst_id s), Hh. h_unfold. by h.
Qed.

(** A wait without a time limit reports a timeout when it succeeds.  A task
    that is not bound waits for its own binding; another task binds it; the
    wait then ends, with a positive value when there was a time limit and with
    0 when there was none ([wait_event_interruptible]).  With a time limit
    [mm_wait4bind] returns the endpoint; without, it takes the 0 for a timeout
    and returns [EMOLTIMEDOUT] although the task is bound. *)
Theorem wait4bind_untimed s cur d pid ep tk t dc p x cl timeout w :
  privileged s cur tk -> bindable s d ep dc p x -> leads s pid t -> task_proc t = None -> 0 < w ->
  exists s1,
    mm_wait4bind pid cl WAIT_BIND SELF timeout s = Exit (X_WAIT (W_BIND WAIT_BIND SELF timeout)) s /\
    mm_bind cur LCL_BIND d pid ep LOCALNODE s = Exit (X_RET (p_endpoint x)) s1 /\
    resume_wait4bind pid cl WAIT_BIND SELF timeout w s1 = Exit (X_RET (p_endpoint x)) s1 /\
    resume_wait4bind pid cl WAIT_BIND SELF timeout 0 s1 = Exit (X_RET EMOLTIMEDOUT) s1.
Proof.
  intros Hp Hb Hl Hn Hw. exists (bound_state s d pid ep t dc p x). split.
  { by eapply run_wait_self; [done|done|apply Hp|apply Hp]. }
  split; [by eapply run_bind|]. split; [|done].
  unfold resume_wait4bind, error_if. destruct (Z.eqb_spec w 0); [lia|]. rewrite when_false.
  exact (run_wait_bound _ _ _ _ _ _ cl timeout (bound_calls s cur d pid ep tk t dc p x Hp Hb Hl)).
Qed.
