(* ===== verification/HyperScenario.v ===== *)
(** * A concrete configuration

    A module just loaded, with room for two DCs and three nodes: the DVS is
    started on node 0, a pair of proxies is bound and connected, node 1 is
    attached to it, a DC is created and node 1 joins it. *)

From S2P Require Import Prelude Types Endpoint Kernel Hoare Utils Scenario.
From S2P Require Import Unbind Hyper Bind Proxies Wait Members Reach HyperFlow BindFlow.

Definition slot0 : proc := desc 0 0 0 (-1) SLOT_FREE 0 None.
Definition dc_empty : dc_t := mk_dc 0 0 0 0 0 0 0 0 [] 0 0.
Definition node_empty : node_t := mk_node 0 0 0 0 0 0 0 0.
Definition root_task (pid : Z) : task_t := mk_task pid (Some pid) pid 0 1 None.

(** The tables of the module are zero when it is loaded. *)
Definition module0 : kstate :=
  mk_kstate DVS_NO_INIT NR_DCS NR_NODES NR_SYS_PROCS NR_PROCS NR_TASKS MAXCOPYBUF MAXCOPYLEN
    (<[0 := dc_empty]> {[ 1 := dc_empty ]})
    (<[0 := node_empty]> (<[1 := node_empty]> {[ 2 := node_empty ]}))
    (<[0 := mk_proxies 0 0 0 0]> (<[1 := mk_proxies 0 0 0 0]> {[ 2 := mk_proxies 0 0 0 0 ]}))
    (<[SPROXY 0 := slot0]> (<[RPROXY 0 := slot0]> (<[SPROXY 1 := slot0]> (<[RPROXY 1 := slot0]>
     (<[SPROXY 2 := slot0]> {[ RPROXY 2 := slot0 ]})))))
    (<[1 := root_task 1]> (<[200 := root_task 200]> {[ 201 := root_task 201 ]}))
    ∅ ∅ ∅ 0 0 [].

Definition dvs0 : dvs_usr := mk_dvs 2 3 NR_PROCS NR_TASKS NR_SYS_PROCS MAXCOPYBUF MAXCOPYLEN.
Definition dcu0 : dc_usr := mk_dcu 1 8 8 10 2 [68; 67; 49] NONE 0.

Definition after (cl : hyper_call) (s : kstate) : kstate := exit_state (run_hyper cl s).

Definition returns (cl : hyper_call) (s : kstate) : bool :=
  match run_hyper cl s with Exit x _ => negb (is_fault x) | Val _ _ => false end.

Lemma hreach_after cl s : hreach s -> hyper_ok s cl -> returns cl s = true -> hreach (after cl s).
Proof.
  unfold returns, after. intros Hr Hok Hx. eapply h_step; [exact Hr|].
  destruct (run_hyper cl s) as [a|x s'] eqn:E; [done|]. apply negb_true_iff in Hx.
  by eapply h_call.
Qed.

Lemma unlinked0 : unlinked (members module0).
Proof.
  split; [| |done]; cbn [fst]; unfold members, module0; cbn [fst snd k_dcs k_nodes].
  - intros d dc. rewrite lookup_fmap_Some. intros (x & <- & Hx).
    apply lookup_insert_Some in Hx as [[_ <-]|[_ Hx]];
      [|apply lookup_singleton_Some in Hx as [_ <-]]; (split; [done|by left]).
  - intros n nd. rewrite lookup_fmap_Some. intros (x & <- & Hx).
    repeat (apply lookup_insert_Some in Hx as [[_ <-]|[_ Hx]]; [done|]).
    by apply lookup_singleton_Some in Hx as [_ <-].
Qed.

Definition module1 : kstate := after (HC_DVSINIT 1 0 (Some (inr dvs0)) OK) module0.
Definition module2 : kstate := after (HC_PROXIESBIND 1 0 200 201 MAXCOPYBUF) module1.
Definition module3 : kstate := after (HC_NODEUP 1 1 0 OK) module2.
Definition module4 : kstate := after (HC_DCINIT 1 dcu0 (fun _ => slot0) OK OK OK) module3.
Definition module5 : kstate := after (HC_ADDNODE 1 1 1) module4.

Lemma hreach4 : hreach module4.
Proof.
  apply hreach_after; [|by vm_compute|vm_compute; reflexivity].
  apply hreach_after; [|done|vm_compute; reflexivity].
  apply hreach_after; [|done|vm_compute; reflexivity].
  apply hreach_after; [|exact unlinked0|vm_compute; reflexivity].
  apply h_boot, unlinked0.
Qed.

Lemma hreach5 : hreach module5.
Proof. apply hreach_after; [exact hreach4|done|vm_compute; reflexivity]. Qed.

Definition dc5 : dc_t := mk_dc 1 DC_RUNNING 8 8 10 3 1 2 [68; 67; 49] NONE 0.
Definition node5 : node_t := mk_node 1 NODE_ATTACHED 0 2 0 0 0 0.

Lemma membership_agrees_witness :
  k_dcs module5 !! 1 = Some dc5 /\ k_nodes module5 !! 1 = Some node5 /\
  test_bit 1 (dc_nodes dc5) = test_bit 1 (n_dcs node5).
Proof.
  split; [vm_compute; reflexivity|]. split; [vm_compute; reflexivity|].
  apply (proj1 (membership_agrees module5 hreach5)); vm_compute; reflexivity.
Defined.

Lemma breach_after cl s : breach s -> returns cl s = true -> breach (after cl s).
Proof.
  unfold returns, after. intros Hr Hx. destruct (run_hyper cl s) as [a|x s'] eqn:E; [done|].
  by eapply b_call.
Qed.

Lemma breach5 : breach module5.
Proof.
  do 5 (apply breach_after; [|vm_compute; reflexivity]). apply b_boot; [|done].
  intros d dc Hd. unfold module0 in Hd. cbn in Hd.
  apply lookup_insert_Some in Hd as [[_ <-]|[_ Hd]]; [done|]. by apply lookup_singleton_Some in Hd as [_ <-].
Qed.

Lemma nodes_bounded_witness : 0 <= nodes_of dc5 <= 2.
Proof. apply (nodes_bounded module5 1 dc5); [exact breach5|vm_compute; reflexivity]. Defined.

(** ** The calls on node 1 *)

Lemma privileged4 : privileged module4 1 (root_task 1).
Proof. split; vm_compute; reflexivity. Qed.

Definition dc4 : dc_t := mk_dc 1 DC_RUNNING 8 8 10 1 1 2 [68; 67; 49] NONE 0.
Definition node4 : node_t := mk_node 1 NODE_ATTACHED 0 0 0 0 0 0.

Lemma node_add_del_roundtrip_witness :
  exists s1,
    mm_add_node 1 1 1 module4 = Exit (X_RET OK) s1 /\
    k_dcs s1 = <[1 := dc4 <| dc_nodes ::= set_bit 1 |>]> (k_dcs module4) /\
    k_nodes s1 = <[1 := node4 <| n_dcs ::= set_bit 1 |>]> (k_nodes module4) /\
    mm_del_node 1 1 1 s1 = Exit (X_RET OK) module4.
Proof.
  apply (node_add_del_roundtrip module4 1 1 1 (root_task 1) dc4 node4 privileged4);
    vm_compute; first [reflexivity|discriminate].
Defined.

Definition pair2 : proxies_t := mk_proxies 0 PROXIES_INUSE MAXCOPYBUF 0.
Definition proxy2 (t : Z) : proc :=
  default slot0 (k_procs module2 !! (if t =? 200 then SPROXY 0 else RPROXY 0)).

Lemma node_down_no_effect_witness :
  exists s1 nd1,
    mm_node_up 1 1 0 OK module2 = Exit (X_RET OK) s1 /\
    k_nodes s1 !! 1 = Some nd1 /\ n_proxies nd1 = 0 /\ n_flags nd1 <> NODE_FREE /\
    mm_node_down 1 1 s1 = Exit (X_RET OK) s1.
Proof.
  apply (node_down_no_effect module2 1 1 0 (root_task 1)
    (node_empty <| n_nodeid := 1 |> <| n_proxies := NO_PROXIES |>) pair2 (proxy2 200) (proxy2 201) OK);
    [split| | | | | | |]; vm_compute; reflexivity.
Defined.

(** ** The parameters of a DC are not checked *)

(** A DC for no nodes at all, without room for the fixed tasks. *)
Definition dcu_bad : dc_usr := mk_dcu 0 1 2 1 0 [68; 67; 48] NONE 0.

(** [mm_dc_init] takes any parameters.  Its range checks leave the block
    with the status still 0: a DC for 0 nodes and with fewer tasks than the
    fixed ones is created, [mm_dc_init] returns the local node, and the DC then
    has one node more than its [dc_nr_nodes]. *)
Theorem dc_init_ignores_checks :
  dc_params_ok module3 dcu_bad = false /\
  exists s dc,
    mm_dc_init 1 (inr dcu_bad) (fun _ => slot0) OK OK OK module3 = Exit (X_RET (k_local_nodeid module3)) s /\
    k_dcs s !! 0 = Some dc /\ dc_flags dc = DC_RUNNING /\ dc_nr_tasks dc < NR_FIXED_TASKS /\
    dc_nr_nodes dc < nodes_of dc.
Proof.
  split; [vm_compute; reflexivity|].
  exists (exit_state (mm_dc_init 1 (inr dcu_bad) (fun _ => slot0) OK OK OK module3)),
    (mk_dc 0 DC_RUNNING 1 2 1 1 1 0 [68; 67; 48] NONE 0).
  split_and!; vm_compute; reflexivity.
Qed.

(** ** Task 1 binds itself to process 3 of DC 1 *)

Definition slot3 : proc := default slot0 (k_procs module4 !! PROC 1 11).

Lemma bindable4 : bindable module4 1 3 dc4 (PROC 1 11) slot3.
Proof. split; vm_compute; reflexivity. Qed.

Lemma bind_getep_roundtrip_witness :
  exists y,
    let s1 := module4 <| k_dcs ::= <[1 := dc4 <| dc_refcount ::= Z.succ |>]> |>
                <| k_procs ::= <[PROC 1 11 := y]> |>
                <| k_tasks ::= <[1 := (root_task 1) <| t_usage ::= Z.succ |> <| task_proc := Some (PROC 1 11) |>]> |> in
    mm_bind 1 LCL_BIND 1 1 3 LOCALNODE module4 = Exit (X_RET 3) s1 /\
    p_task y = Some 1 /\ p_lpid y = 1 /\ p_rts_flags y = PROC_RUNNING /\
    p_nodeid y = k_local_nodeid module4 /\ p_endpoint y = 3 /\ p_dcid y = 1 /\
    k_held s1 = [] /\
    mm_getep 1 (C_RCVRQST 0 0) 1 s1 = Exit (X_RET 3) s1.
Proof.
  apply (bind_getep_roundtrip module4 1 1 1 3 (root_task 1) (root_task 1) dc4 (PROC 1 11) slot3
    (C_RCVRQST 0 0) privileged4 bindable4).
  - split; vm_compute; reflexivity.
  - vm_compute. by split.
Defined.

(** The caller asks for the next generation of the endpoint 3, and gets 3. *)
Lemma bind_keeps_endpoint_witness :
  let s' := exit_state (mm_bind 1 LCL_BIND 1 1 (ENDPOINT 1 3) LOCALNODE module4) in
  mm_bind 1 LCL_BIND 1 1 (ENDPOINT 1 3) LOCALNODE module4 = Exit (X_RET 3) s' /\
  exists y, k_procs s' = <[DC_PROC 1 (ENDPOINT_P (ENDPOINT 1 3) + dc_nr_tasks dc4) := y]> (k_procs module4) /\
    bind_outcome slot3 y 3.
Proof.
  assert (mm_bind 1 LCL_BIND 1 1 (ENDPOINT 1 3) LOCALNODE module4 =
    Exit (X_RET 3) (exit_state (mm_bind 1 LCL_BIND 1 1 (ENDPOINT 1 3) LOCALNODE module4))) as Hrun
    by (vm_compute; reflexivity).
  split; [exact Hrun|].
  apply (bind_keeps_endpoint module4 1 1 1 (ENDPOINT 1 3) dc4 slot3 3 _); [vm_compute; reflexivity..|exact Hrun].
Defined.

(** The same with the task of the sender proxy not bound to anything. *)
Definition task_free4 : kstate := module4 <| k_tasks ::= <[200 := root_task 200]> |>.

Lemma wait4bind_untimed_witness :
  exists s1,
    mm_wait4bind 200 (C_RCVRQST 0 0) WAIT_BIND SELF (-1) task_free4 =
      Exit (X_WAIT (W_BIND WAIT_BIND SELF (-1))) task_free4 /\
    mm_bind 1 LCL_BIND 1 200 3 LOCALNODE task_free4 = Exit (X_RET 3) s1 /\
    resume_wait4bind 200 (C_RCVRQST 0 0) WAIT_BIND SELF (-1) 5 s1 = Exit (X_RET 3) s1 /\
    resume_wait4bind 200 (C_RCVRQST 0 0) WAIT_BIND SELF (-1) 0 s1 = Exit (X_RET EMOLTIMEDOUT) s1.
Proof.
  apply (wait4bind_untimed task_free4 1 1 200 3 (root_task 1) (root_task 200) dc4 (PROC 1 11) slot3);
    [split; vm_compute; reflexivity..|reflexivity|lia].
Defined.

(** ** The pair of proxies before any node is attached to it *)

Lemma proxies_unbind_deadlocks_witness :
  exists s1, mm_proxies_unbind OK 1 0 module2 = Exit (X_WAIT (W_PROXY true 0 200 201)) s1 /\
    k_held s1 = [L_TASK 200; L_PROC (SPROXY 0); L_PROXY 0] /\
    (forall s2, k_held s2 = k_held s1 -> exists s3,
       resume_proxies_unbind true 0 200 s2 = Exit (X_FAULT (F_SELF_DEADLOCK (L_PROXY 0))) s3).
Proof.
  apply (proxies_unbind_deadlocks OK module2 1 0 (root_task 1) pair2 (proxy2 200) (proxy2 201) 200 201);
    split; [vm_compute; reflexivity..|]. eexists. vm_compute. reflexivity.
Defined.
