(* ===== verification/ExitFlow.v ===== *)
(** * What happens when a process exits

    Two paths of [mm_exit_unbind] end in a fault of the kernel, on symbolic
    states; then both happen in the concrete configurations. *)

From S2P Require Import Prelude Types Endpoint Kernel Hoare Utils IpcCommon Exec Scenario.
From S2P Require Import Unbind Hyper Bind Proxies Vcopy Exit HyperFlow BindFlow HyperScenario.

Lemma unlock_free {B} l (k : unit -> M B) s :
  l ∉ k_held s -> mbind (unlock_ l) k s = Exit (X_FAULT (F_BAD_UNLOCK l)) s.
Proof. intros Hl. unfold mbind, unlock_. by rewrite bool_decide_false. Qed.

(** ** A proxy exits *)

Lemma run_no_nodes_of sender sig cur px n i y s D N P T H :
  P !! proxy_of sender px = Some y -> p_nodemap y = 0 ->
  for_each n i (proxy_nodes sig cur sender px) (hst s D N P T H) = Val tt (hst s D N P T H).
Proof.
  intros Hy Hm. revert i. induction n as [|n IH]; intros i; cbn [for_each]; [done|].
  unfold proxy_nodes at 1. rewrite bind_assoc. h_step. rewrite Hm, test_bit_0. h. apply IH.
Qed.

(** The task [cur] is a proxy of the pair [px], which serves no node. *)
Record exiting_proxy (s : kstate) (cur px : Z) (sender : bool) (tk : task_t) (pxs : proxies_t)
    (sp rp : proc) : Prop := {
  ep_init : DVS_NOT_INIT s = false;
  ep_held : k_held s = [];
  ep_task : k_tasks s !! cur = Some tk;
  ep_proc : task_proc tk = Some (proxy_of sender px);
  ep_pair : k_proxies s !! px = Some pxs;
  ep_use : (px_flags pxs =? PROXIES_FREE) = false;
  ep_sp : k_procs s !! SPROXY px = Some sp;
  ep_rp : k_procs s !! RPROXY px = Some rp;
  ep_range : 0 <= px < k_nr_nodes s;
  ep_nr : p_nr (if sender then sp else rp) = px;
  ep_flag : misc MIS_BIT_PROXY (if sender then sp else rp) = true;
  ep_own : p_task (if sender then sp else rp) = Some cur;
  ep_map : p_nodemap (if sender then sp else rp) = 0;
}.

Lemma nr_in_range px n : 0 <= px < n -> (0 <=? px) && (px <? n) = true.
Proof. intros [? ?]. by rewrite (proj2 (Z.leb_le _ _)), (proj2 (Z.ltb_lt _ _)). Qed.

(** A proxy that exits blocks on itself.  When the task of the sender or of
    the receiver of a bound pair that serves no node exits, [mm_exit_unbind]
    locks the mutex of the task, and [do_proxies_unbind] then locks the mutex
    of the task of the proxy, which is the same: the exit never returns, with the
    task and both proxies locked, and with nothing else changed. *)
Theorem exit_proxy_deadlocks sig s cur px code sender tk pxs sp rp :
  exiting_proxy s cur px sender tk pxs sp rp ->
  mm_exit_unbind sig cur code s =
    Exit (X_FAULT (F_SELF_DEADLOCK (L_TASK cur)))
      (s <| k_held := [L_PROC (SPROXY px); L_PROC (RPROXY px); L_TASK cur] |>).
Proof.
  intros [Hi Hh Ht Htp Hpx Huse Hsp Hrp Hr Hnr Hfl Hown Hmap]. pose proof (nr_in_range _ _ Hr) as Hin.
  rewrite (hst_id s) at 1. rewrite Hh. unfold mm_exit_unbind, exit_bound, exit_proxy. h_unfold.
  assert (forall H, hst s (k_dcs s) (k_nodes s) (k_procs s) (k_tasks s) H = s <| k_held := H |>) as Es
    by (intros H; by destruct s).
  destruct sender; cbn [proxy_of] in *.
  all: repeat first [progress h | rewrite Htp | rewrite Hnr | rewrite Hfl | rewrite Hin
    | rewrite bool_decide_true by done | rewrite bool_decide_false by done
    | progress (unfold do_proxies_unbind; cbn [proxy_of])
    | eapply eq_trans; [eapply ex_bind; eapply run_no_nodes_of; [first [exact Hsp | exact Hrp]|exact Hmap]|]
    | rewrite Hown; unfold lock_task; h_unfold].
  all: unfold mbind; rewrite lock_held; [by rewrite Es|cbn; x_in].
Qed.

(** ** The process to be told of the exit is remote *)

(** The process [c] of [cur] exits in the DC [d], whose [dc_warn2proc] is the
    remote process [w], with the descriptor [y]. *)
Record exiting_process (s : kstate) (cur d : Z) (c w : ptr) (tk : task_t) (x y : proc) (dc : dc_t)
    : Prop := {
  ex_init : DVS_NOT_INIT s = false;
  ex_held : k_held s = [];
  ex_task : k_tasks s !! cur = Some tk;
  ex_proc : task_proc tk = Some c;
  ex_desc : k_procs s !! c = Some x;
  ex_noproxy : misc MIS_BIT_PROXY x = false;
  ex_dcid : p_dcid x = d;
  ex_range : 0 <= d < k_nr_dcs s;
  ex_dc : k_dcs s !! d = Some dc;
  ex_run : dc_flags dc = DC_RUNNING;
  ex_used : (p_rts_flags x =? SLOT_FREE) = false;
  ex_warn : (dc_warn2proc dc =? NONE) = false;
  ex_slot : slot_in_range dc (ENDPOINT_P (dc_warn2proc dc)) = true;
  ex_target : ENDPOINT2PTR d dc (dc_warn2proc dc) = w;
  ex_other : c <> w;
  ex_ep : (p_endpoint x =? dc_warn2proc dc) = false;
  ex_wdesc : k_procs s !! w = Some y;
  ex_wused : (p_rts_flags y =? SLOT_FREE) = false;
  ex_wmigr : rts BIT_MIGRATE y = false;
  ex_remote : IT_IS_REMOTE y = true;
  ex_killed : misc MIS_BIT_KILLED x = false;
}.

(** An exit that cannot be told to a remote process unlocks twice.  When the
    process that [dc_warn2proc] names is remote and the sender proxy of its node
    is not there, [kernel_warn2proc] gives the error back with both processes
    unlocked, and [mm_exit_unbind] unlocks the remote process again. *)
Theorem exit_warn_bad_unlock sig s cur d code c w tk x y dc nd sp :
  exiting_process s cur d c w tk x y dc ->
  k_nodes s !! p_nodeid y = Some nd -> k_procs s !! SPROXY (n_proxies nd) = Some sp ->
  SPROXY (n_proxies nd) <> c -> SPROXY (n_proxies nd) <> w ->
  (sproxy_status sp =? OK) = false ->
  exists s1,
    mm_exit_unbind sig cur code s = Exit (X_FAULT (F_BAD_UNLOCK (L_PROC w))) s1 /\
    k_held s1 = [L_DC d; L_TASK cur].
Proof.
  intros [Hi Hh Ht Htp Hx Hnp Hd Hr Hdc Hrun Hu Hw Hs Htg Hcw Hep Hy Hyu Hym Hyr Hk] Hnd Hsp Hsc Hsw Hst.
  pose proof (nr_in_range _ _ Hr) as Hin.
  assert ((dc_flags dc =? 0) = true) as Hf by (by rewrite Hrun).
  destruct (p_nr y <? p_nr x) eqn:Hord;
    rewrite (hst_id s), Hh; unfold mm_exit_unbind, exit_bound, exit_process, exit_warn, warn_target,
      kernel_warn2proc, check_sproxy, NODE2SPROXY, WLOCK_PROC2, WUNLOCK_PROC2; h_unfold;
    (eexists; split).
  1,3: repeat first [progress h | rewrite Htp | rewrite Hnp | rewrite Hd | rewrite Hin | rewrite Hf | rewrite Htg].
  1,2: apply unlock_free; cbn; x_notin.
  all: done.
Qed.

(** ** The two exits, in the concrete configurations *)

Lemma exit_proxy_deadlocks_witness :
  mm_exit_unbind OK 200 0 module2 =
    Exit (X_FAULT (F_SELF_DEADLOCK (L_TASK 200)))
      (module2 <| k_held := [L_PROC (SPROXY 0); L_PROC (RPROXY 0); L_TASK 200] |>).
Proof.
  apply (exit_proxy_deadlocks OK module2 200 0 0 true
    ((root_task 200) <| t_usage := 2 |> <| task_proc := Some (SPROXY 0) |>) pair2 (proxy2 200) (proxy2 201)).
  split; lazymatch goal with |- _ <= _ < _ => vm_compute; split; congruence | _ => vm_compute; reflexivity end.
Defined.

(** The client exits while the proxies of node 1 are not connected, and the
    remote process 7 is to be told. *)
Definition dc_w : dc_t := dc0 <| dc_warn2proc := 7 |>.
Definition lone_sproxy : proc := desc 0 NONE (-1) 0 0 1 (Some 200).
Definition kernel_x : kstate :=
  kernel0 <| k_dcs := {[ 0 := dc_w ]} |> <| k_procs ::= <[SPROXY 0 := lone_sproxy]> |>.

Lemma exit_warn_bad_unlock_witness :
  exists s1,
    mm_exit_unbind OK 105 0 kernel_x = Exit (X_FAULT (F_BAD_UNLOCK (L_PROC faraway))) s1 /\
    k_held s1 = [L_DC 0; L_TASK 105].
Proof.
  apply (exit_warn_bad_unlock OK kernel_x 105 0 0 client faraway (task_of client 1 105)
    (local_desc 5 105) (desc 7 7 0 1 REMOTE 0 None) dc_w (mk_node 1 1 0 1 0 0 0 0) lone_sproxy);
    [split|..];
    lazymatch goal with
    | |- _ <= _ < _ => vm_compute; split; congruence
    | |- _ <> _ => discriminate
    | |- _ => vm_compute; reflexivity
    end.
Defined.
