(* ===== verification/MigrateFlow.v ===== *)
(** * What a migration does

    The calls of [mm_migrate] run on a symbolic state: the queues of the process
    that migrates are flushed, and its descriptor gets its new node. *)

From S2P Require Import Prelude Types Endpoint Kernel Utils IpcCommon Exec Unbind Hyper HyperFlow.
From S2P Require Import Rendezvous Vcopy Migrate.

Ltac hm_unfold := unfold WLOCK_ORDERED2, LIST_DEL_M, LIST_DEL_P, wake_if_ready, LOCAL_PROC_UP; h_unfold.

Ltac h_end := eapply eq_trans; [h_prim |]; rewrite ?insert_insert_eq; reflexivity.

(** ** Flushing a queue *)

(** A process that waited for the process with endpoint [ep]. *)
Definition migr_released (ep : Z) (y : proc) : proc :=
  let y1 := y <| p_mlink := None |> in
  if p_waitmigr y =? ep
  then woken EMOLMIGRATE ((rts_clear BIT_WAITMIGR y1) <| p_waitmigr := NONE |>) else y1.

(** A local process that was sending to the process. *)
Definition send_released (y : proc) : proc :=
  let y1 := rts_clear BIT_RECEIVING (rts_clear BIT_SENDING (y <| p_link := None |>)) in
  woken EMOLMIGRATE (y1 <| p_getfrom := NONE |> <| p_sendto := NONE |>).

Lemma foldl_del (l m : list ptr) :
  (forall x, x ∈ m -> x ∈ l) -> foldl (fun m x => del x m) m l = [].
Proof.
  revert m. induction l as [|x l IH]; intros m Hm; cbn.
  - destruct m as [|y m]; [done|]. by pose proof (Hm y (list_elem_of_here _ _)) as ?%not_elem_of_nil.
  - apply IH. intros y [Hy Hne]%elem_of_del. apply Hm in Hy. by apply elem_of_cons in Hy as [->|].
Qed.

Lemma foldl_mlist l z :
  foldl (fun z x => z <| p_mlist ::= del x |>) z l =
  z <| p_mlist := foldl (fun m x => del x m) (p_mlist z) l |>.
Proof. revert z. induction l as [|x l IH]; intros z; cbn [foldl]; [by destruct z|]. by rewrite IH. Qed.

Lemma foldl_list l z :
  foldl (fun z x => z <| p_list ::= del x |>) z l =
  z <| p_list := foldl (fun m x => del x m) (p_list z) l |>.
Proof. revert z. induction l as [|x l IH]; intros z; cbn [foldl]; [by destruct z|]. by rewrite IH. Qed.

Section Flush.
Context (s : kstate) (D : gmap Z dc_t) (N : gmap Z node_t) (T : gmap Z task_t).
Context (d : Z) (p : ptr).
Implicit Types (P : gmap ptr proc).
Notation "'HS' P" := (hst s D N P T [L_PROC p; L_DC d]) (at level 9, P at level 9).

Lemma run_flush_migr_one P x y z :
  P !! p = Some z -> P !! x = Some y -> x <> p -> p_mlink y = Some p ->
  flush_migr_one p x (HS P) =
    Val tt (HS (<[x := migr_released (p_endpoint z) y]> (<[p := z <| p_mlist ::= del x |>]> P))).
Proof.
  intros Hp Hx Hxp Hl. unfold flush_migr_one. hm_unfold. unfold migr_released, woken.
  destruct (p_nr z <? p_nr y) eqn:E; h; rewrite Hl; h;
    change (p_waitmigr (y <| p_mlink := None |>) =? p_endpoint (z <| p_mlist ::= del x |>))
      with (p_waitmigr y =? p_endpoint z);
    destruct (p_waitmigr y =? p_endpoint z); h;
    try (destruct (p_rts_flags _ =? 0); h); h_end.
Qed.

Lemma run_flush_sending_one P x y z :
  P !! p = Some z -> P !! x = Some y -> x <> p -> p_link y = Some p -> IT_IS_LOCAL y = true ->
  flush_sending_one p x (HS P) =
    Val tt (HS (<[x := send_released y]> (<[p := z <| p_list ::= del x |>]> P))).
Proof.
  intros Hp Hx Hxp Hl Hloc. unfold flush_sending_one. hm_unfold. unfold send_released, woken.
  destruct (p_nr z <? p_nr y) eqn:E; h; rewrite Hl; h;
    change (IT_IS_LOCAL (y <| p_link := None |>)) with (IT_IS_LOCAL y); rewrite Hloc; h;
    destruct (p_rts_flags _ =? 0); h; h_end.
Qed.

(** A loop whose body takes its entry [x] off the queue of [p] ([rm x]) and
    releases it ([rel]). *)
Section Loop.
Context (body : ptr -> M unit) (rm : ptr -> proc -> proc) (rel : proc -> proc).
Context (inv ok : proc -> Prop) (inv_rm : forall x z, inv z -> inv (rm x z)).
Context (one : forall P x y z, P !! p = Some z -> P !! x = Some y -> x <> p -> inv z -> ok y ->
  body x (HS P) = Val tt (HS (<[x := rel y]> (<[p := rm x z]> P)))).

Lemma run_flush_each l P z :
  P !! p = Some z -> inv z -> NoDup l -> p ∉ l ->
  (forall x, x ∈ l -> exists y, P !! x = Some y /\ ok y) ->
  exists P', flush_each body l (HS P) = Val tt (HS P') /\
    P' !! p = Some (foldl (fun z x => rm x z) z l) /\
    forall q, q <> p -> P' !! q = if decide (q ∈ l) then rel <$> P !! q else P !! q.
Proof using one inv_rm.
  revert P z. induction l as [|x l IH]; intros P z Hp Hi Hnd Hpl Hl.
  - exists P. split_and!; [done..|]. intros q _. by rewrite decide_False by apply not_elem_of_nil.
  - apply list.NoDup_cons in Hnd as [Hx Hnd]. apply not_elem_of_cons in Hpl as [Hxp Hpl].
    destruct (Hl x (list_elem_of_here _ _)) as (y & Hy & Hok).
    destruct (IH (<[x := rel y]> (<[p := rm x z]> P)) (rm x z)) as (P' & Hr & Hp' & Hq).
    { x_look. }
    { by apply inv_rm. }
    { done. }
    { done. }
    { intros q Hql. rewrite !lookup_insert_ne by congruence. apply Hl. by apply list_elem_of_further. }
    exists P'. cbn [flush_each]. rewrite (ex_bind _ _ _ _ _ (one _ _ _ _ Hp Hy (not_eq_sym Hxp) Hi Hok)).
    split_and!; [done..|]. intros q Hqp. rewrite (Hq _ Hqp).
    destruct (decide (q = x)) as [->|Hqx].
    + rewrite decide_False, decide_True by (done || apply list_elem_of_here).
      by rewrite lookup_insert_eq, Hy.
    + rewrite !lookup_insert_ne by done.
      destruct (decide (q ∈ l)); [rewrite decide_True|rewrite decide_False]; try done.
      * by apply list_elem_of_further.
      * by apply not_elem_of_cons.
Qed.
End Loop.

Lemma run_flush_migr_list P z :
  P !! p = Some z -> NoDup (p_mlist z) -> p ∉ p_mlist z ->
  (forall x, x ∈ p_mlist z -> exists y, P !! x = Some y /\ p_mlink y = Some p) ->
  exists P', flush_migr_list p (HS P) = Val tt (HS P') /\ P' !! p = Some (z <| p_mlist := [] |>) /\
    forall q, q <> p -> P' !! q =
      if decide (q ∈ p_mlist z) then migr_released (p_endpoint z) <$> P !! q else P !! q.
Proof.
  intros Hp Hnd Hpl Hl. unfold flush_migr_list. rewrite (ex_bind _ _ _ _ _ (hx_rd _ _ _ _ _ _ _ _ Hp)).
  destruct (run_flush_each (flush_migr_one p) (fun x z => z <| p_mlist ::= del x |>)
    (migr_released (p_endpoint z)) (fun z' => p_endpoint z' = p_endpoint z)
    (fun y => p_mlink y = Some p)) with (l := p_mlist z) (P := P) (z := z)
    as (P' & Hr & Hp' & Hq); try done.
  { intros P0 x y z0 H1 H2 H3 <- H4. by apply run_flush_migr_one. }
  exists P'. split_and!; [done| |done]. rewrite Hp'. f_equal.
  by rewrite foldl_mlist, foldl_del.
Qed.

Lemma run_flush_sending_list P z :
  P !! p = Some z -> NoDup (p_list z) -> p ∉ p_list z ->
  (forall x, x ∈ p_list z -> exists y, P !! x = Some y /\ p_link y = Some p /\ IT_IS_LOCAL y = true) ->
  exists P', flush_sending_list p (HS P) = Val tt (HS P') /\ P' !! p = Some (z <| p_list := [] |>) /\
    forall q, q <> p -> P' !! q =
      if decide (q ∈ p_list z) then send_released <$> P !! q else P !! q.
Proof.
  intros Hp Hnd Hpl Hl. unfold flush_sending_list.
  rewrite (ex_bind _ _ _ _ _ (hx_rd _ _ _ _ _ _ _ _ Hp)).
  destruct (run_flush_each (flush_sending_one p) (fun x z => z <| p_list ::= del x |>)
    send_released (fun _ => True) (fun y => p_link y = Some p /\ IT_IS_LOCAL y = true))
    with (l := p_list z) (P := P) (z := z) as (P' & Hr & Hp' & Hq); try done.
  { intros P0 x y z0 H1 H2 H3 _ [H4 H5]. by apply run_flush_sending_one. }
  exists P'. split_and!; [done| |done]. rewrite Hp'. f_equal. by rewrite foldl_list, foldl_del.
Qed.
End Flush.

(** ** The call *)

(** A call on the process [p] with descriptor [z] of the DC [d], past the guards. *)
Record migr_call (s : kstate) (cur d ep : Z) (tk : task_t) (dc : dc_t) (p : ptr) (z : proc)
    : Prop := {
  mc_priv : privileged s cur tk;
  mc_dcid : in_range d (k_nr_dcs s);
  mc_dc : k_dcs s !! d = Some dc;
  mc_slot : slot_in_range dc (ENDPOINT_P ep) = true;
  mc_ptr : ENDPOINT2PTR d dc ep = p;
  mc_proc : k_procs s !! p = Some z;
  mc_task : IT_IS_LOCAL z && bool_decide (p_task z = None) = false;
}.

(** The new node is in use and in the DC, and has the DC that is tested. *)
Record new_node (s : kstate) (dc : dc_t) (n : Z) : Prop := {
  nn_range : in_range n (k_nr_nodes s);
  nn_member : test_bit n (dc_nodes dc) = true;
  nn_tables : exists nd dc0, k_nodes s !! n = Some nd /\ k_dcs s !! 0 = Some dc0 /\
    (n_flags nd =? NODE_FREE) = false /\ test_bit (dc_dcid dc0) (n_dcs nd) = true;
}.

Definition is_oper (oper : Z) : Prop :=
  oper = MIGR_START \/ oper = MIGR_COMMIT \/ oper = MIGR_ROLLBACK.

Section Calls.
Context (threads : Z -> list Z) (s : kstate) (cur d ep : Z) (tk : task_t) (dc : dc_t).
Context (p : ptr) (z : proc) (Hc : migr_call s cur d ep tk dc p z).
Notation "'HS' P T" := (hst s (k_dcs s) (k_nodes s) P T [L_PROC p; L_DC d])
  (at level 9, P at level 9, T at level 9).

Lemma run_migrate oper pid n r P' T' :
  is_oper oper ->
  migr_oper threads oper d p pid n (HS (k_procs s) (k_tasks s)) = Val r (HS P' T') ->
  mm_migrate threads cur oper pid d ep n s =
    Exit (X_RET r) (s <| k_procs := P' |> <| k_tasks := T' |>).
Proof using Hc.
  intros Ho Hr. destruct Hc as [[Ht He Hi Hh] Hd Hdc Hsl Hptr Hz Hk]. unfold in_range in *.
  unfold mm_migrate, check_euid. h_unfold. rewrite (hst_id s) at 1. rewrite Hh.
  assert (negb (oper =? MIGR_START) && negb (oper =? MIGR_COMMIT) && negb (oper =? MIGR_ROLLBACK)
    = false) as Ho' by (by destruct Ho as [->|[->| ->]]).
  h. rewrite Hptr. h.
  rewrite (ex_bind _ _ _ _ _ Hr). h. unfold return_, leave. f_equal. destruct s; cbn in *. by subst.
Qed.

Definition committed (n : Z) (x : proc) : proc :=
  misc_clear MIS_BIT_NEEDMIGR (rts_clear BIT_MIGRATE (x <| p_nodemap ::= set_bit n |>)).

Lemma run_commit pid n P' T' x :
  new_node s dc n ->
  move_process threads p pid n (HS (k_procs s) (k_tasks s)) = Val OK (HS P' T') ->
  P' !! p = Some x ->
  migr_commit threads d p pid n (HS (k_procs s) (k_tasks s)) =
    Val OK (HS (<[p := committed n x]> P') T').
Proof using Hc.
  intros [Hn Hm (nd & dc0 & Hnd & Hdc0 & Hf & Hb)] Hr Hx. destruct Hc as [_ _ Hdc _ _ _ _].
  unfold in_range in *. unfold migr_commit, check_new_node. h_unfold. h. rewrite Hn. h.
  rewrite Hf, Hm, Hb. h_red. rewrite (ex_bind _ _ _ _ _ Hr). h. by rewrite !insert_insert_eq.
Qed.

Lemma run_other_commit pid n :
  new_node s dc n -> (k_local_nodeid s =? p_nodeid z) = false -> (k_local_nodeid s =? n) = false ->
  NoDup (p_mlist z) -> p ∉ p_mlist z ->
  (forall x, x ∈ p_mlist z -> exists y, k_procs s !! x = Some y /\ p_mlink y = Some p) ->
  exists P', mm_migrate threads cur MIGR_COMMIT pid d ep n s =
      Exit (X_RET OK) (s <| k_procs := P' |>) /\
    P' !! p = Some (committed n (z <| p_nodeid := n |> <| p_mlist := [] |>)) /\
    forall q, q <> p -> P' !! q =
      if decide (q ∈ p_mlist z) then migr_released (p_endpoint z) <$> k_procs s !! q
      else k_procs s !! q.
Proof using Hc.
  intros Hn Hold Hnew Hnd Hpl Hl. pose proof (mc_proc _ _ _ _ _ _ _ _ Hc) as Hz.
  destruct (run_flush_migr_list s (k_dcs s) (k_nodes s) (k_tasks s) d p
    (<[p := z <| p_nodeid := n |>]> (k_procs s)) (z <| p_nodeid := n |>)) as (P' & Hr & Hp & Hq).
  { x_look. }
  { done. }
  { done. }
  { intros x Hx. destruct (decide (x = p)) as [->|Hne]; [done|].
    rewrite lookup_insert_ne by done. by apply Hl. }
  exists (<[p := committed n (z <| p_nodeid := n |> <| p_mlist := [] |>)]> P').
  split_and!; [|x_look|].
  - assert (move_process threads p pid n (HS (k_procs s) (k_tasks s)) =
      Val OK (HS P' (k_tasks s))) as Hm.
    { unfold move_process. h. rewrite Hold, Hnew. h. by rewrite (ex_bind _ _ _ _ _ Hr). }
    rewrite (run_migrate MIGR_COMMIT _ _ _ _ _ ltac:(by right; left) (run_commit _ _ _ _ _ Hn Hm Hp)).
    by destruct s.
  - intros q Hqp. rewrite lookup_insert_ne by done. rewrite (Hq q Hqp).
    by rewrite lookup_insert_ne.
Qed.

(** *** On the node the process leaves *)

(** The descriptor of a thread that leaves for the node [n]. *)
Definition departed (n : Z) (x : proc) : proc :=
  let x1 := rts_clear BIT_MIGRATE
    ((misc_clear MIS_BIT_GRPLEADER x) <| p_lpid := PROC_NO_PID |> <| p_nodeid := n |>
       <| p_task := None |>) in
  let x2 := rts_set BIT_REMOTE x1 in
  if p_rts_flags x1 =? PROC_RUNNING then x2
  else x2 <| p_rcode := EMOLRMTPROC |> <| p_pseudosem ::= Z.add 1 |>.

(** What becomes of the process [q], a sender of the queue or a waiter. *)
Definition released (q : ptr) (y : proc) : proc :=
  let y1 := if decide (q ∈ p_list z) then send_released y else y in
  if decide (q ∈ p_mlist z) then migr_released (p_endpoint z) y1 else y1.

(** Tasks that are not bound. *)
Definition unbound (ts : list Z) (T : gmap Z task_t) : Prop :=
  forall t, t ∈ ts -> exists k, T !! t = Some k /\ task_proc k = None.

Lemma run_check_unbound body ts P T H :
  unbound ts T -> check_threads body ts (hst s (k_dcs s) (k_nodes s) P T H) =
    Val OK (hst s (k_dcs s) (k_nodes s) P T H).
Proof using.
  induction ts as [|t ts IH]; intros Hu; cbn [check_threads]; [done|].
  destruct (Hu t (list_elem_of_here _ _)) as (k & Hk & Hn).
  rewrite (ex_bind _ _ _ _ _ (hx_rd_task _ _ _ _ _ _ _ _ Hk)), Hn. apply IH.
  intros t' Ht'. apply Hu. by apply list_elem_of_further.
Qed.

Lemma run_each_unbound body ts P T H :
  unbound ts T -> each_thread body ts (hst s (k_dcs s) (k_nodes s) P T H) =
    Val tt (hst s (k_dcs s) (k_nodes s) P T H).
Proof using.
  induction ts as [|t ts IH]; intros Hu; cbn [each_thread]; [done|].
  destruct (Hu t (list_elem_of_here _ _)) as (k & Hk & Hn).
  rewrite (ex_bind _ _ _ _ _ (hx_rd_task _ _ _ _ _ _ _ _ Hk)), Hn. apply IH.
  intros t' Ht'. apply Hu. by apply list_elem_of_further.
Qed.

Section Leaving.
Context (t : Z) (ts : list Z) (kt : task_t).
Context (Hpt : p_task z = Some t) (Hth : threads t = t :: ts) (Hts : t ∉ ts).
Context (Hkt : k_tasks s !! t = Some kt) (Hbt : task_proc kt = Some p).
Context (Hun : unbound ts (k_tasks s)).
Context (Hs1 : NoDup (p_list z)) (Hs2 : p ∉ p_list z).
Context (Hs3 : forall x, x ∈ p_list z ->
  exists y, k_procs s !! x = Some y /\ p_link y = Some p /\ IT_IS_LOCAL y = true).
Context (Hw1 : NoDup (p_mlist z)) (Hw2 : p ∉ p_mlist z).
Context (Hw3 : forall x, x ∈ p_mlist z ->
  exists y, k_procs s !! x = Some y /\ p_mlink y = Some p).

Definition task_left : gmap Z task_t := <[t := kt <| task_proc := None |> <| t_usage ::= Z.pred |>]> (k_tasks s).

Lemma unbound_left : unbound ts task_left.
Proof using Hts Hun.
  intros t' Ht'. unfold task_left. rewrite lookup_insert_ne by congruence. by apply Hun.
Qed.

Lemma send_released_mlink y : p_mlink (send_released y) = p_mlink y.
Proof using. unfold send_released, woken. by destruct (_ =? 0). Qed.

Lemma departed_fields n :
  p_list (departed n z) = p_list z /\ p_mlist (departed n z) = p_mlist z /\
  p_endpoint (departed n z) = p_endpoint z.
Proof using. unfold departed. by destruct (_ =? PROC_RUNNING). Qed.

Lemma run_depart n :
  old_thread n t p (hst s (k_dcs s) (k_nodes s) (k_procs s) (k_tasks s) [L_DC d]) =
  (flush_sending_list p ;; flush_migr_list p ;; WUNLOCK_PROC p)
    (HS (<[p := departed n z]> (k_procs s)) task_left).
Proof using Hc Hkt.
  pose proof (mc_proc _ _ _ _ _ _ _ _ Hc) as Hz. unfold old_thread, mm_put_task_struct. hm_unfold. h. unfold departed, task_left.
  destruct (_ =? PROC_RUNNING); h; by rewrite !insert_insert_eq.
Qed.

Lemma run_old_thread n :
  exists P', old_thread n t p (hst s (k_dcs s) (k_nodes s) (k_procs s) (k_tasks s) [L_DC d]) =
      Val tt (hst s (k_dcs s) (k_nodes s) P' task_left [L_DC d]) /\
    P' !! p = Some ((departed n z) <| p_list := [] |> <| p_mlist := [] |>) /\
    forall q, q <> p -> P' !! q = released q <$> k_procs s !! q.
Proof using Hc Hkt Hs1 Hs2 Hs3 Hw1 Hw2 Hw3.
  rewrite run_depart. destruct (departed_fields n) as (El & Em & Ee).
  generalize dependent (departed n z). intros dz El Em Ee.
  destruct (run_flush_sending_list s (k_dcs s) (k_nodes s) task_left d p
    (<[p := dz]> (k_procs s)) dz) as (P1 & Hr1 & Hp1 & Hq1).
  { x_look. } { by rewrite El. } { by rewrite El. }
  { intros x Hx. rewrite El in Hx. rewrite lookup_insert_ne by congruence. by apply Hs3. }
  destruct (run_flush_migr_list s (k_dcs s) (k_nodes s) task_left d p P1
    (dz <| p_list := [] |>)) as (P2 & Hr2 & Hp2 & Hq2); [done| | |..].
  { cbn. by rewrite Em. } { cbn. by rewrite Em. }
  { cbn. rewrite Em. intros x Hx. destruct (Hw3 x Hx) as (y & Hy & Hyl).
    rewrite Hq1 by congruence. rewrite lookup_insert_ne, Hy by congruence.
    destruct (decide _); eexists; split; try done. by rewrite send_released_mlink. }
  exists P2. split_and!; [|done|].
  - rewrite (ex_bind _ _ _ _ _ Hr1), (ex_bind _ _ _ _ _ Hr2). unfold WUNLOCK_PROC. h_end.
  - intros q Hqp. rewrite Hq2, Hq1, lookup_insert_ne by done.
    change (p_mlist (dz <| p_list := [] |>)) with (p_mlist dz).
    change (p_endpoint (dz <| p_list := [] |>)) with (p_endpoint dz).
    rewrite Em, Ee, El. unfold released.
    destruct (k_procs s !! q); destruct (decide (q ∈ p_mlist z)), (decide (q ∈ p_list z));
      unfold fmap, option_fmap, option_map; reflexivity.
Qed.

Lemma run_old_migrate n :
  rts BIT_MIGRATE z = true -> misc MIS_BIT_GRPLEADER z = true ->
  exists P', old_migrate threads p n (HS (k_procs s) (k_tasks s)) = Val OK (HS P' task_left) /\
    P' !! p = Some ((departed n z) <| p_list := [] |> <| p_mlist := [] |>) /\
    forall q, q <> p -> P' !! q = released q <$> k_procs s !! q.
Proof using Hc Hpt Hth Hts Hkt Hbt Hun Hs1 Hs2 Hs3 Hw1 Hw2 Hw3.
  intros Hm Hg. pose proof (mc_proc _ _ _ _ _ _ _ _ Hc) as Hz.
  destruct (run_old_thread n) as (P' & Hr & Hp & Hq). exists P'. split_and!; [|done..].
  unfold old_migrate, check_all_threads, check_migrating, p_task_of. h_unfold. h. rewrite Hpt. h.
  rewrite Hth. cbn [check_threads each_thread]. h. rewrite Hbt. h.
  rewrite (ex_bind _ _ _ _ _ (run_check_unbound _ _ _ _ _ Hun)). h. rewrite ?Hg. h. rewrite Hpt. h.
  rewrite Hth. cbn [each_thread]. h. rewrite Hbt. h_red.
  rewrite (ex_bind _ _ _ _ _ Hr), (ex_bind _ _ _ _ _ (run_each_unbound _ ts _ _ _ unbound_left)).
  by h.
Qed.
End Leaving.
End Calls.

(** *** On a node that sees the process as remote *)

Definition rolled_back (x : proc) : proc :=
  rts_clear BIT_MIGRATE (misc_clear MIS_BIT_NEEDMIGR x).

Section Remote.
Context (threads : Z -> list Z) (s : kstate) (cur d ep : Z) (tk : task_t) (dc : dc_t).
Context (p : ptr) (z : proc) (Hc : migr_call s cur d ep tk dc p z) (Hrem : IT_IS_REMOTE z = true).

Lemma run_remote_start pid n :
  migr_status false z = OK ->
  mm_migrate threads cur MIGR_START pid d ep n s =
    Exit (X_RET OK) (s <| k_procs ::= <[p := rts_set BIT_MIGRATE z]> |>).
Proof using Hc Hrem.
  intros Hst. pose proof (mc_proc _ _ _ _ _ _ _ _ Hc) as Hz.
  rewrite (run_migrate threads _ _ _ _ _ _ _ _ Hc _ _ _ OK (<[p := rts_set BIT_MIGRATE z]> (k_procs s))
    (k_tasks s)); [by destruct s|by left|].
  change (migr_oper threads MIGR_START d p pid n) with (migr_start threads p). unfold migr_start. h. rewrite Hrem, Hst. by h.
Qed.

Lemma run_remote_rollback pid n :
  migr_status true z = OK ->
  mm_migrate threads cur MIGR_ROLLBACK pid d ep n s =
    Exit (X_RET OK) (s <| k_procs ::= <[p := rolled_back z]> |>).
Proof using Hc Hrem.
  intros Hst. pose proof (mc_proc _ _ _ _ _ _ _ _ Hc) as Hz.
  rewrite (run_migrate threads _ _ _ _ _ _ _ _ Hc _ _ _ OK (<[p := rolled_back z]> (k_procs s))
    (k_tasks s)); [by destruct s|by right; right|].
  change (migr_oper threads MIGR_ROLLBACK d p pid n) with (migr_rollback threads p).
  unfold migr_rollback, clear_migr. h. rewrite Hrem, Hst. h. by rewrite !insert_insert_eq.
Qed.

Lemma run_remote_restart pid n :
  migr_status false z = EMOLMIGRATE ->
  mm_migrate threads cur MIGR_START pid d ep n s = Exit (X_RET EMOLMIGRATE) s.
Proof using Hc Hrem.
  intros Hst. pose proof (mc_proc _ _ _ _ _ _ _ _ Hc) as Hz.
  rewrite (run_migrate threads _ _ _ _ _ _ _ _ Hc _ _ _ EMOLMIGRATE (k_procs s) (k_tasks s));
    [by destruct s|by left|].
  change (migr_oper threads MIGR_START d p pid n) with (migr_start threads p). unfold migr_start. h.
  by rewrite Hrem, Hst.
Qed.

(** The descriptor of a process that arrives, with its task [pid]. *)
Definition arrived (pid n : Z) (x : proc) : proc :=
  x <| p_task := Some pid |> <| p_lpid := pid |> <| p_nodeid := n |> <| p_rts_flags := PROC_RUNNING |>.

Lemma run_new_commit pid n kt :
  new_node s dc n -> k_local_nodeid s = n -> (n =? p_nodeid z) = false ->
  misc MIS_BIT_RMTBACKUP z = false -> k_tasks s !! pid = Some kt ->
  mm_migrate threads cur MIGR_COMMIT pid d ep n s =
    Exit (X_RET OK) (s <| k_procs ::= <[p := committed n (arrived pid n z)]> |>
                       <| k_tasks ::= <[pid := kt <| t_usage ::= Z.succ |> <| task_proc := Some p |>]> |>).
Proof using Hc.
  intros Hn Hl Hold Hb Hkt. pose proof (mc_proc _ _ _ _ _ _ _ _ Hc) as Hz.
  assert (move_process threads p pid n
      (hst s (k_dcs s) (k_nodes s) (k_procs s) (k_tasks s) [L_PROC p; L_DC d]) =
    Val OK (hst s (k_dcs s) (k_nodes s) (<[p := arrived pid n z]> (k_procs s))
      (<[pid := kt <| t_usage ::= Z.succ |> <| task_proc := Some p |>]> (k_tasks s)) [L_PROC p; L_DC d])) as Hm.
  { unfold move_process, new_migrate, get_task_struct. h_unfold. h. rewrite Hl, Hold. h. rewrite ?Hb. h.
    change (k_tasks (hst s (k_dcs s) (k_nodes s) (k_procs s) (k_tasks s) [L_PROC p; L_DC d]))
      with (k_tasks s). rewrite Hkt. h. rewrite Hl. by rewrite !insert_insert_eq. }
  rewrite (run_migrate threads _ _ _ _ _ _ _ _ Hc _ _ _ _ _ _ ltac:(by right; left)
    (run_commit threads _ _ _ _ _ _ _ _ Hc _ _ _ _ _ Hn Hm (lookup_insert_eq _ _ _))).
  rewrite insert_insert_eq. by destruct s.
Qed.
End Remote.

Lemma run_commit_dc0 threads s cur d ep tk dc p z pid n nd dc0 :
  migr_call s cur d ep tk dc p z -> in_range n (k_nr_nodes s) ->
  k_nodes s !! n = Some nd -> k_dcs s !! 0 = Some dc0 -> (n_flags nd =? NODE_FREE) = false ->
  test_bit n (dc_nodes dc) = true -> test_bit (dc_dcid dc0) (n_dcs nd) = false ->
  mm_migrate threads cur MIGR_COMMIT pid d ep n s = Exit (X_RET EMOLDCNODE) s.
Proof.
  intros Hc Hn Hnd Hdc0 Hf Hm Hb. pose proof (mc_dc _ _ _ _ _ _ _ _ Hc) as Hdc. unfold in_range in *.
  rewrite (run_migrate threads _ _ _ _ _ _ _ _ Hc _ _ _ EMOLDCNODE (k_procs s) (k_tasks s));
    [by destruct s|by right; left|].
  change (migr_oper threads MIGR_COMMIT d p pid n) with (migr_commit threads d p pid n).
  unfold migr_commit, check_new_node. h_unfold. h. rewrite Hn. h. by rewrite Hf, Hm, Hb.
Qed.

(** ** Properties *)

(** The members of the two queues of [p] are linked to it. *)
Record queues_of (P : gmap ptr proc) (p : ptr) (z : proc) : Prop := {
  qo_senders : NoDup (p_list z) /\ p ∉ p_list z;
  qo_sender : forall x, x ∈ p_list z ->
    exists y, P !! x = Some y /\ p_link y = Some p /\ IT_IS_LOCAL y = true;
  qo_waiters : NoDup (p_mlist z) /\ p ∉ p_mlist z;
  qo_waiter : forall x, x ∈ p_mlist z -> exists y, P !! x = Some y /\ p_mlink y = Some p;
}.

(** The process has one bound thread, its group leader [t]. *)
Record bound_thread (threads : Z -> list Z) (s : kstate) (p : ptr) (z : proc) (t : Z) (kt : task_t)
    : Prop := {
  bt_task : p_task z = Some t;
  bt_leader : misc MIS_BIT_GRPLEADER z = true;
  bt_lookup : k_tasks s !! t = Some kt;
  bt_bound : task_proc kt = Some p;
  bt_others : exists ts, threads t = (t :: ts) /\ t ∉ ts /\ unbound ts (k_tasks s);
}.

Lemma departed_remote n z :
  IT_IS_REMOTE (departed n z) = true /\ p_nodeid (departed n z) = n /\
  p_lpid (departed n z) = PROC_NO_PID /\ p_task (departed n z) = None.
Proof.
  unfold departed. destruct (_ =? PROC_RUNNING); (split_and!; [|done..]); by apply test_set_same.
Qed.

Lemma committed_remote n x : IT_IS_REMOTE (committed n x) = IT_IS_REMOTE x.
Proof. unfold IT_IS_REMOTE, rts, committed. cbn. by rewrite test_clear_other. Qed.

(** A process that was ready for a start is ready for a rollback, and not for
    another start. *)
Lemma migr_status_start z :
  migr_status false z = OK ->
  migr_status true (rts_set BIT_MIGRATE z) = OK /\
  migr_status false (rts_set BIT_MIGRATE z) = EMOLMIGRATE.
Proof.
  unfold migr_status, rts. cbn. rewrite !test_set_other, test_set_same by done.
  by repeat destruct (test_bit _ _).
Qed.

Lemma clear_bit_id n f : test_bit n f = false -> clear_bit n f = f.
Proof.
  intros Hb. apply Z.bits_inj. intros j. change (test_bit j (clear_bit n f) = test_bit j f).
  destruct (decide (n = j)) as [<-|]; [by rewrite test_clear_same|by rewrite test_clear_other].
Qed.

Lemma rolled_back_start z :
  migr_status false z = OK -> misc MIS_BIT_NEEDMIGR z = false ->
  rolled_back (rts_set BIT_MIGRATE z) = z.
Proof.
  unfold migr_status, rts, misc. intros Hs Hm.
  assert (test_bit BIT_MIGRATE (p_rts_flags z) = false) as Hb by (by repeat destruct (test_bit _ _)).
  unfold rolled_back, rts_clear, misc_clear, rts_set. destruct z. cbn in *.
  by rewrite clear_set, clear_bit_id.
Qed.

(** C25. Migration on the node the process leaves.  A migrating process [p], with
    one bound thread, its group leader, and with senders in its queue that are all
    processes of this node, is committed to another node [n] of its DC.  [mm_migrate]
    returns [OK]: the descriptor of [p] becomes a remote one of node [n], without pid
    and task, no longer migrating and with empty queues; its Linux task is unbound
    and has one reference less; every process of its two queues is taken off them
    ([released]): a sender stops sending and receiving, a waiter that names [p] stops
    waiting, and those with no other bit set are woken up with [EMOLMIGRATE] to
    replay their call; every other descriptor is as it was. *)
Theorem commit_old_node threads s cur d ep tk dc p z pid n t kt :
  migr_call s cur d ep tk dc p z -> new_node s dc n -> k_local_nodeid s = p_nodeid z ->
  bound_thread threads s p z t kt -> rts BIT_MIGRATE z = true -> queues_of (k_procs s) p z ->
  exists P' z',
    mm_migrate threads cur MIGR_COMMIT pid d ep n s =
      Exit (X_RET OK) (s <| k_procs := P' |> <| k_tasks ::= <[t := kt <| task_proc := None |> <| t_usage ::= Z.pred |>]> |>) /\
    P' !! p = Some z' /\ IT_IS_REMOTE z' = true /\ rts BIT_MIGRATE z' = false /\
    p_nodeid z' = n /\ p_lpid z' = PROC_NO_PID /\ p_task z' = None /\
    p_list z' = [] /\ p_mlist z' = [] /\
    forall q, q <> p -> P' !! q = released z q <$> k_procs s !! q.
Proof.
  intros Hc Hn Hl [H1 H2 H3 H4 (ts & H5 & H6 & H7)] Hm [[Hs1 Hs2] Hs3 [Hw1 Hw2] Hw3].
  destruct (run_old_migrate threads _ _ _ _ _ _ _ _ Hc t ts kt H1 H5 H6 H3 H4 H7 Hs1 Hs2 Hs3 Hw1 Hw2
    Hw3 n Hm H2) as (P' & Hr & Hp & Hq).
  assert (move_process threads p pid n
      (hst s (k_dcs s) (k_nodes s) (k_procs s) (k_tasks s) [L_PROC p; L_DC d]) =
    Val OK (hst s (k_dcs s) (k_nodes s) P' (task_left s t kt) [L_PROC p; L_DC d])) as Hmv.
  { pose proof (mc_proc _ _ _ _ _ _ _ _ Hc) as Hz. unfold move_process. h.
    by rewrite Hl, Z.eqb_refl. }
  pose proof (departed_remote n z) as Hd.
  generalize dependent (departed n z). intros dz Hp (Hd1 & Hd2 & Hd3 & Hd4).
  eexists _, _. split; [|split; [apply lookup_insert_eq|]].
  - rewrite (run_migrate threads _ _ _ _ _ _ _ _ Hc _ _ _ _ _ _ ltac:(by right; left)
      (run_commit threads _ _ _ _ _ _ _ _ Hc _ _ _ _ _ Hn Hmv Hp)). reflexivity.
  - split_and!; [by rewrite committed_remote|apply test_clear_same|done..|].
    intros q Hqp. by rewrite lookup_insert_ne, Hq.
Qed.

(** Migration seen from another node.  Where the process neither was nor is
    going to be, the commit records its new node [n], ends its migration, and
    wakes up every process that waited for it, which then sends to node [n]; no
    other descriptor changes. *)
Theorem commit_other_node threads s cur d ep tk dc p z pid n :
  migr_call s cur d ep tk dc p z -> new_node s dc n ->
  k_local_nodeid s <> p_nodeid z -> k_local_nodeid s <> n -> queues_of (k_procs s) p z ->
  exists P' z',
    mm_migrate threads cur MIGR_COMMIT pid d ep n s = Exit (X_RET OK) (s <| k_procs := P' |>) /\
    P' !! p = Some z' /\ p_nodeid z' = n /\ rts BIT_MIGRATE z' = false /\
    test_bit n (p_nodemap z') = true /\ p_mlist z' = [] /\ p_list z' = p_list z /\
    forall q, q <> p -> P' !! q =
      if decide (q ∈ p_mlist z) then migr_released (p_endpoint z) <$> k_procs s !! q
      else k_procs s !! q.
Proof.
  intros Hc Hn Ho Hw [_ _ [Hw1 Hw2] Hw3]. apply Z.eqb_neq in Ho, Hw.
  destruct (run_other_commit threads s cur d ep tk dc p z Hc pid n Hn Ho Hw Hw1 Hw2 Hw3)
    as (P' & Hr & Hp & Hq).
  exists P'. eexists. split_and!; [exact Hr|exact Hp|done| | |done|done|exact Hq].
  - apply test_clear_same.
  - apply test_set_same. destruct Hn as [Hn _ _]. apply in_range_iff in Hn. lia.
Qed.

(** Starting the migration of a remote process and rolling it back is the
    identity on a process that was not asked to migrate before. *)
Theorem start_rollback_roundtrip threads s cur d ep tk dc p z pid n :
  migr_call s cur d ep tk dc p z -> IT_IS_REMOTE z = true -> migr_status false z = OK ->
  misc MIS_BIT_NEEDMIGR z = false ->
  exists s1,
    mm_migrate threads cur MIGR_START pid d ep n s = Exit (X_RET OK) s1 /\
    mm_migrate threads cur MIGR_START pid d ep n s1 = Exit (X_RET EMOLMIGRATE) s1 /\
    mm_migrate threads cur MIGR_ROLLBACK pid d ep n s1 = Exit (X_RET OK) s.
Proof.
  intros Hc Hr Hs Hm. eexists. split; [by eapply run_remote_start|].
  assert (migr_call (s <| k_procs ::= <[p := rts_set BIT_MIGRATE z]> |>) cur d ep tk dc p
    (rts_set BIT_MIGRATE z)) as Hc1.
  { destruct Hc as [[] ? ? ? ? ? Hk]. split; try done; [apply lookup_insert_eq|].
    unfold IT_IS_LOCAL, rts. cbn. by rewrite test_set_other. }
  assert (IT_IS_REMOTE (rts_set BIT_MIGRATE z) = true) as Hr1
    by (unfold IT_IS_REMOTE, rts; cbn; by rewrite test_set_other).
  apply migr_status_start in Hs as Hs1. destruct Hs1 as [Hs1 Hs2].
  split; [by eapply run_remote_restart|].
  rewrite (run_remote_rollback threads _ _ _ _ _ _ _ _ Hc1 Hr1 pid n).
  - rewrite (rolled_back_start z Hs Hm). f_equal. destruct Hc as [_ _ _ _ _ Hz _]. clear -Hz.
    destruct s; cbn in *. f_equal. rewrite insert_insert_eq. by apply insert_id.
  - done.
Qed.

(** A rollback forgets those that wait.  On a node that sees the process as
    remote, [MIGR_ROLLBACK] ends the migration and returns [OK], but the
    processes that waited for it stay in its queue with their descriptors
    untouched: nobody wakes them up, against the comment of [migr_rollback]. *)
Theorem rollback_forgets_waiters threads s cur d ep tk dc p z pid n :
  migr_call s cur d ep tk dc p z -> IT_IS_REMOTE z = true -> migr_status true z = OK ->
  exists P' z',
    mm_migrate threads cur MIGR_ROLLBACK pid d ep n s = Exit (X_RET OK) (s <| k_procs := P' |>) /\
    P' !! p = Some z' /\ rts BIT_MIGRATE z' = false /\ p_mlist z' = p_mlist z /\
    forall q, q <> p -> P' !! q = k_procs s !! q.
Proof.
  intros Hc Hr Hs. eexists (<[p := rolled_back z]> (k_procs s)), _.
  split; [rewrite (run_remote_rollback threads _ _ _ _ _ _ _ _ Hc Hr pid n Hs); by destruct s|].
  split; [apply lookup_insert_eq|]. split_and!; [apply test_clear_same|done|].
  intros q Hq. by rewrite lookup_insert_ne.
Qed.

(** Migration on the node the process comes to.  The commit binds the task
    [pid] to the descriptor, which becomes a running one of this node; but the
    processes that waited for the migration stay in its queue, asleep. *)
Theorem commit_new_node threads s cur d ep tk dc p z pid n kt :
  migr_call s cur d ep tk dc p z -> new_node s dc n -> k_local_nodeid s = n -> n <> p_nodeid z ->
  misc MIS_BIT_RMTBACKUP z = false -> k_tasks s !! pid = Some kt ->
  exists z',
    mm_migrate threads cur MIGR_COMMIT pid d ep n s =
      Exit (X_RET OK) (s <| k_procs ::= <[p := z']> |>
                         <| k_tasks ::= <[pid := kt <| t_usage ::= Z.succ |> <| task_proc := Some p |>]> |>) /\
    IT_IS_REMOTE z' = false /\ p_rts_flags z' = PROC_RUNNING /\ p_nodeid z' = n /\ p_lpid z' = pid /\
    p_task z' = Some pid /\ p_mlist z' = p_mlist z.
Proof.
  intros Hc Hn Hl Ho Hb Hkt. apply Z.eqb_neq in Ho. exists (committed n (arrived pid n z)).
  split; [by eapply run_new_commit|]. by split_and!.
Qed.

(** The commit asks for the wrong DC.  When the new node does not have the
    first DC of the table, the migration of a process of any DC to it is
    refused with [EMOLDCNODE] and without effect, although both its DC and the
    node say that the node belongs to it. *)
Theorem commit_tests_dc0 threads s cur d ep tk dc p z pid n nd dc0 :
  migr_call s cur d ep tk dc p z -> in_range n (k_nr_nodes s) ->
  k_nodes s !! n = Some nd -> k_dcs s !! 0 = Some dc0 -> n_flags nd <> NODE_FREE ->
  test_bit n (dc_nodes dc) = true -> test_bit d (n_dcs nd) = true ->
  test_bit (dc_dcid dc0) (n_dcs nd) = false ->
  mm_migrate threads cur MIGR_COMMIT pid d ep n s = Exit (X_RET EMOLDCNODE) s.
Proof. intros Hc Hn H1 H2 H3%Z.eqb_neq H4 _ H5. by eapply run_commit_dc0. Qed.
