(* ===== verification/VcopyFlow.v ===== *)
(** * What [mm_vcopy] does

    A copy in parts is the copy of the whole block; a copy between local
    processes moves the bytes and leaves the descriptors as they were; and what
    happens to a caller that waits. *)

From S2P Require Import Prelude Types Endpoint Copy Kernel Utils IpcCommon Exec Unbind Hyper HyperFlow.
From S2P Require Import Vcopy Migrate.

(** The flag of a copy goes on and off. *)
Lemma oncopy_on_off z : rts BIT_ONCOPY z = false -> rts_clear BIT_ONCOPY (rts_set BIT_ONCOPY z) = z.
Proof.
  unfold rts, rts_clear, rts_set. destruct z. cbn. intros Hon. by rewrite clear_set.
Qed.

Lemma oncopy_ok r z :
  p_rts_flags z = 0 ->
  rts_clear BIT_ONCOPY (rts_clear BIT_ONCOPY
    ((rts_set BIT_ONCOPY (rts_set BIT_ONCOPY z)) <| p_rcode := r |>)) = z <| p_rcode := r |>.
Proof. destruct z. cbn. by intros ->. Qed.

Lemma oncopy_error r z :
  p_rts_flags z = 0 ->
  rts_clear BIT_ONCOPY (rts_clear BIT_ONCOPY
    ((rts_clear BIT_RMTOPER ((rts_set BIT_ONCOPY (rts_set BIT_ONCOPY z)) <| p_rcode := r |>))
       <| p_proxy := NONE |> <| p_rcode := r |>)) = z <| p_rcode := r |> <| p_proxy := NONE |>.
Proof. destruct z. cbn. by intros ->. Qed.

(** ** Copies in parts *)

Section Parts.
Context (smm dmm : Z) (Hne : smm <> dmm).
Abbreviation U f sa da n m := (usr2usr_loop f NONE smm sa dmm da n m).

Lemma fill_none bytes off p : fill_source NONE bytes off p = p.
Proof. done. Qed.

(** The fuel does not matter when there is enough of it. *)
Lemma usr2usr_fuel f f' sa da n m :
  n <= Z.of_nat f -> n <= Z.of_nat f' -> U f sa da n m = U f' sa da n m.
Proof.
  revert f' sa da n m. induction f as [|f IH]; intros f' sa da n m Hf Hf'.
  - destruct f'; cbn [usr2usr_loop]; [done|]. by destruct (Z.leb_spec n 0); [|lia].
  - destruct f' as [|f']; cbn [usr2usr_loop]; [by destruct (Z.leb_spec n 0); [|lia]|].
    destruct (Z.leb_spec n 0); [done|].
    destruct (m !! (smm, _)); [|done]. destruct (m !! (dmm, _)); [|done]. cbv zeta.
    pose proof (chunk_len_bounds sa da n ltac:(lia)) as Hl. cbv zeta in Hl. apply IH; lia.
Qed.

(** Two writes one after the other on a page. *)
Lemma page_write_twice soff doff a l sp dp :
  0 <= soff -> 0 <= doff -> 0 <= a -> 0 <= l -> soff + a + l <= Z.of_nat (length sp) ->
  page_write (doff + a) (page_read (soff + a) l sp) (page_write doff (page_read soff a sp) dp) =
  page_write doff (page_read soff (a + l) sp) dp.
Proof.
  intros. unfold page_write. assert (page_read soff (a + l) sp =
    page_read soff a sp ++ page_read (soff + a) l sp) as ->.
  { unfold page_read. rewrite !Z2Nat.inj_add, <- drop_drop by lia. symmetry. apply take_take_drop. }
  rewrite list_inserts_app_l, length_page_read by lia. f_equal. lia.
Qed.

(** Copying [a + b] bytes is copying [a] bytes, and then [b] bytes if that went
    well. *)
Lemma usr2usr_split f f1 f2 sa da a b m :
  wf_pages m -> 0 <= a -> 0 <= b ->
  a + b <= Z.of_nat f -> a <= Z.of_nat f1 -> b <= Z.of_nat f2 ->
  U f sa da (a + b) m =
    let r := U f1 sa da a m in
    if fst r =? OK then U f2 (sa + a) (da + a) b (snd r) else r.
Proof using Hne.
  cbv zeta. revert f1 f2 sa da a b m.
  induction f as [|f IH]; intros f1 f2 sa da a b m Hwf Ha Hb Hf Hf1 Hf2.
  { assert (a = 0) as -> by lia. assert (b = 0) as -> by lia.
    rewrite (usr2usr_fuel f1 0), (usr2usr_fuel f2 0) by lia. done. }
  destruct (decide (a = 0)) as [->|Ha0].
  { rewrite (usr2usr_fuel f1 0) by lia. change (U 0 sa da 0 m) with (OK, m). cbn [fst snd].
    change (OK =? OK) with true. cbn iota. rewrite !Z.add_0_r, Z.add_0_l. apply usr2usr_fuel; lia. }
  destruct f1 as [|f1]; [lia|]. cbn [usr2usr_loop].
  destruct (Z.leb_spec (a + b) 0); [lia|]. destruct (Z.leb_spec a 0); [lia|].
  destruct (m !! (smm, page_nr sa)) as [sp|] eqn:Hsp; [|done].
  destruct (m !! (dmm, page_nr da)) as [dp|] eqn:Hdp; [|done]. cbv zeta. rewrite !fill_none.
  pose proof (page_off_bound sa) as Bs. pose proof (page_off_bound da) as Bd.
  set (w := Z.min (PAGE_SIZE - page_off sa) (PAGE_SIZE - page_off da)).
  assert (forall n, chunk_len (page_off sa) (page_off da) n = Z.min w n) as Hcl by done.
  rewrite !Hcl. destruct (Z.le_gt_cases w a) as [Hwa|Hwa].
  - rewrite !Z.min_l by lia. replace (a + b - w) with (a - w + b) by lia.
    rewrite (IH f1 f2) by (try lia; by apply wf_page_write).
    by replace (sa + w + (a - w)) with (sa + a) by lia; replace (da + w + (a - w)) with (da + a) by lia.
  - rewrite (Z.min_r w a) by lia. rewrite Z.sub_diag, (usr2usr_fuel f1 0) by lia.
    cbn [usr2usr_loop fst snd]. change (OK =? OK) with true. cbn iota.
    destruct (decide (b = 0)) as [->|Hb0].
    { rewrite Z.add_0_r, Z.min_r, Z.sub_diag, (usr2usr_fuel f 0), (usr2usr_fuel f2 0) by lia. done. }
    destruct f2 as [|f2]; [lia|]. cbn [usr2usr_loop]. destruct (Z.leb_spec b 0); [lia|].
    destruct (page_split sa a) as [-> ->]; [lia..|]. destruct (page_split da a) as [-> ->]; [lia..|].
    rewrite lookup_insert_ne, Hsp, lookup_insert_eq by congruence. cbv zeta. rewrite fill_none.
    assert (chunk_len (page_off sa + a) (page_off da + a) b = Z.min w (a + b) - a) as ->
      by (unfold chunk_len; lia).
    set (l := Z.min w (a + b) - a). replace (Z.min w (a + b)) with (a + l) by lia.
    rewrite insert_insert_eq, page_write_twice by (rewrite ?(Hwf _ _ _ Hsp); lia).
    rewrite !Z.add_assoc. replace (a + b - (a + l)) with (b - l) by lia. apply usr2usr_fuel; lia.
Qed.

Lemma usr2usr_wf f sa da n m : wf_pages m -> wf_pages (snd (U f sa da n m)).
Proof using.
  revert sa da n m. induction f as [|f IH]; intros sa da n m Hwf; [done|]. cbn [usr2usr_loop].
  destruct (n <=? 0); [done|]. destruct (m !! (smm, _)); [|done].
  destruct (m !! (dmm, _)) eqn:Hdp; [|done]. cbv zeta. apply IH. by apply wf_page_write.
Qed.
End Parts.

(** ** Copies between local processes *)

(** [p] is a process whose task has the address space [mm] and the thread group
    [g]. *)
Definition in_space (s : kstate) (p : ptr) (mm g : Z) : Prop :=
  exists x t k, k_procs s !! p = Some x /\ p_task x = Some t /\ k_tasks s !! t = Some k /\
    t_mm k = mm /\ t_tgid k = g.

Section Local.
Context (s : kstate) (src dst : ptr) (smm dmm sg dg : Z).
Context (Hs : in_space s src smm sg) (Hd : in_space s dst dmm dg) (Hne : smm <> dmm).
Context (Hbuf : 0 < k_max_copybuf s <= MAXCOPYLEN).
Abbreviation U f sa da n m := (usr2usr_loop f NONE smm sa dmm da n m).

Lemma run_mm_of p mm g m :
  in_space s p mm g -> mm_of p (s <| k_pages := m |>) = Val mm (s <| k_pages := m |>).
Proof using.
  intros (x & t & k & Hx & Ht & Hk & <- & _). unfold mm_of, mbind, rd, rd_task. cbn.
  rewrite Hx, Ht. cbn. by rewrite Hk.
Qed.

Lemma run_tgid_of p mm g : in_space s p mm g -> tgid_of p s = Val g s.
Proof using.
  intros (x & t & k & Hx & Ht & Hk & _ & <-). unfold tgid_of, mbind, rd, rd_task. cbn.
  by rewrite Hx, Ht, Hk.
Qed.

Lemma run_copy_block sa da n m :
  0 < n <= MAXCOPYLEN ->
  copy_block src sa dst da n (s <| k_pages := m |>) =
    let r := U (Z.to_nat n) sa da n m in Val (fst r) (s <| k_pages := snd r |>).
Proof using Hs Hd Hbuf.
  intros Hn. unfold copy_block.
  assert ((n <? 0) || (n >? MAXCOPYLEN) = false) as Hb
    by (apply orb_false_iff; rewrite Z.gtb_ltb, !Z.ltb_ge; lia).
  rewrite Hb. destruct (Z.eqb_spec n 0); [lia|]. unfold mbind.
  rewrite (run_mm_of _ _ _ _ Hs), (run_mm_of _ _ _ _ Hd). cbn [get].
  unfold copy_usr2usr. cbn [k_pages]. rewrite Hb. by destruct s.
Qed.

(** The loop of [mm_vcopy] does what one copy of the whole block would do. *)
Lemma run_local_loop f sa da n m :
  wf_pages m -> n <= Z.of_nat f ->
  local_loop f src sa dst da n (s <| k_pages := m |>) =
    let r := U (Z.to_nat n) sa da n m in Val (fst r) (s <| k_pages := snd r |>).
Proof using Hs Hd Hne Hbuf.
  cbv zeta. revert sa da n m. induction f as [|f IH]; intros sa da n m Hwf Hf; cbn [local_loop];
    (destruct (Z.leb_spec n 0); [rewrite (usr2usr_fuel _ _ _ 0) by lia; done|]); [lia|].
  eapply eq_trans; [by eapply ex_bind|]. cbv beta zeta.
  change (k_max_copybuf (s <| k_pages := m |>)) with (k_max_copybuf s).
  set (l := Z.min (k_max_copybuf s) n).
  eapply eq_trans; [eapply ex_bind, run_copy_block; lia|].
  pose proof (usr2usr_split _ _ Hne (Z.to_nat n) (Z.to_nat l) (Z.to_nat (n - l)) sa da l (n - l) m
    Hwf ltac:(lia) ltac:(lia) ltac:(lia) ltac:(lia) ltac:(lia)) as Hu.
  replace (l + (n - l)) with n in Hu by lia. rewrite Hu.
  pose proof (usr2usr_wf smm dmm (Z.to_nat l) sa da l m Hwf) as Hwf1.
  destruct (U (Z.to_nat l) sa da l m) as [r m1]. cbn [fst snd] in *. cbv zeta.
  destruct (r =? OK); cbn [negb]; [|done]. apply IH; [done|lia].
Qed.
End Local.

(** *** The caller copies from itself to a process that waits for a message *)

(** [y] is blocked receiving and no copy with it is going on. *)
Record copy_dst (s : kstate) (c : ptr) (x : proc) (dc : dc_t) (ep : Z) (dst : ptr) (y : proc)
    : Prop := {
  cd_local : local_dst s c x dc ep dst y;
  cd_receiving : rts BIT_RECEIVING y = true;
  cd_idle : rts BIT_ONCOPY y = false;
}.

(** The caller's own endpoint leads to its descriptor, on a node of its DC. *)
Record copy_self (s : kstate) (c : ptr) (x : proc) (dc : dc_t) : Prop := {
  cs_ptr : ENDPOINT2PTR (p_dcid x) dc (p_endpoint x) = c;
  cs_range : slot_in_range dc (ENDPOINT_P (p_endpoint x)) = true;
  cs_node : in_range (p_nodeid x) (k_nr_nodes s);
  cs_member : test_bit (p_nodeid x) (dc_nodes dc) = true;
}.

(** [y] is the descriptor of the endpoint [ep], not the caller's. *)
Record peer (s : kstate) (c : ptr) (x : proc) (dc : dc_t) (ep : Z) (dst : ptr) (y : proc)
    : Prop := {
  pe_ptr : dst = ENDPOINT2PTR (p_dcid x) dc ep;
  pe_range : dst_in_range dc ep;
  pe_desc : k_procs s !! dst = Some y;
  pe_other : dst <> c;
}.

Lemma copy_dst_peer s c x dc ep dst y : copy_dst s c x dc ep dst y -> peer s c x dc ep dst y.
Proof. intros [[] _ _]. by split. Qed.

Section Self.
Context (s : kstate) (cur : Z) (c : ptr) (x : proc) (tk : task_t) (dc : dc_t).
Context (ep : Z) (dst : ptr) (y : proc) (cl : call) (saddr daddr bytes : Z).
Context (HC : calls_as s cur c x tk dc) (HPe : peer s c x dc ep dst y).
Context (HS : copy_self s c x dc) (Hroot : (t_euid tk =? USER_ROOT) = true).
Context (Hep : bad_endpoints (p_endpoint x) ep = false).
Context (Hlen : (bytes <? 0) || (bytes >? k_max_copylen s) = false).

Definition self_frame : vframe :=
  mk_vframe c c dst (p_dcid x) (dc_nr_tasks dc) 0 (p_endpoint x) ep saddr daddr bytes 0.

Definition self_locks : list lock :=
  if p_nr x <? p_nr y then [L_PROC dst; L_PROC c] else [L_PROC c; L_PROC dst].

Abbreviation HX P H := (hst s (k_dcs s) (k_nodes s) P (k_tasks s) H).

Lemma ca_hst : s = HX (k_procs s) [].
Proof using HC. rewrite (hst_id s) at 1. by rewrite (ca_held HC). Qed.

Lemma slot_in_range_dst : slot_in_range dc (ENDPOINT_P ep) = true.
Proof using HPe. unfold slot_in_range. by rewrite (dst_range dc ep (pe_range _ _ _ _ _ _ _ HPe)). Qed.

Lemma self_parties : vcopy_parties self_frame = (dst, None).
Proof using HPe.
  unfold vcopy_parties. cbn [vf_c vf_src vf_dst self_frame].
  rewrite bool_decide_false by tauto.
  by rewrite (bool_decide_true _ (pe_other _ _ _ _ _ _ _ HPe)).
Qed.

Lemma run_self_lock :
  vcopy_lock self_frame (HX (k_procs s) [L_DC (p_dcid x)]) =
  Val tt (HX (k_procs s) (self_locks ++ [L_DC (p_dcid x)])).
Proof using HC HPe.
  pose proof (ca_desc HC) as Hx. pose proof (pe_desc _ _ _ _ _ _ _ HPe) as Hy.
  pose proof (pe_other _ _ _ _ _ _ _ HPe) as Hne.
  unfold vcopy_lock. rewrite self_parties. unfold lock_others, WLOCK_PROC2, self_locks. cbn [fst snd].
  change (vf_c self_frame) with c. h_unfold. h.
  destruct (p_nr x <? p_nr y); h; h_prim.
Qed.

Lemma run_vcopy_lock :
  mm_vcopy cur cl SELF saddr ep daddr bytes s =
  vcopy_checked self_frame (HX (k_procs s) (self_locks ++ [L_DC (p_dcid x)])).
Proof using HC HPe HS Hroot Hep Hlen.
  pose proof (ca_range _ _ _ _ _ _ HC) as Hr. pose proof slot_in_range_dst as Hdr.
  destruct HS as [Hcp Hcr _ _]. destruct HPe as [Hptr _ Hy Hne]. pose proof (ca_desc HC) as Hx.
  unfold mm_vcopy. unfold check_euid at 1.
  assert (check_euid cur s = Val tt s) as Heu.
  { unfold check_euid, mbind, rd_task. by rewrite (ca_task HC), Hroot. }
  rewrite (ex_bind _ _ _ _ _ Heu). eapply eq_trans; [by eapply ex_bind|]. cbv beta.
  unfold error_if at 1. rewrite Hlen, when_false.
  assert (check_dvs s = Val tt s) as Hdv.
  { unfold check_dvs, error_if, mbind, get. by rewrite (ca_init HC). }
  rewrite (ex_bind _ _ _ _ _ Hdv), (ex_bind _ _ _ _ _ (ex_check_caller HC _)). cbn [fst snd].
  rewrite ca_hst at 1. unfold vcopy_body, vcopy_endpoints, ERROR_RUNLOCK_PROC. h_unfold.
  change (SELF =? SELF) with true. pose proof (ca_pid HC) as Hpid. pose proof (ca_dc HC) as Hdc.
  pose proof (ca_run HC) as Hrun. h. rewrite Hcp, <- Hptr. fold self_frame.
  by rewrite (ex_bind _ _ _ _ _ run_self_lock).
Qed.

Lemma caller_flag b : rts b x = false.
Proof using HC. unfold rts. rewrite (ca_flags HC). apply test_bit_0. Qed.

Lemma self_party a H :
  check_party V_MIGR_SRC self_frame c (p_endpoint x) a (HX (k_procs s) H) =
  Val OK (HX (k_procs s) H).
Proof using HC HS.
  pose proof (ca_desc HC) as Hx. pose proof (ca_dc HC) as Hdc. destruct HS as [_ _ Hn Hmb].
  unfold in_range in Hn. unfold check_party. cbn [vf_dcid vf_c self_frame]. h.
  rewrite bool_decide_true by done. unfold party_status, IT_IS_REMOTE.
  by rewrite Z.eqb_refl, !caller_flag, Hn, Hmb.
Qed.

(** A destination that migrates: the caller joins its queue and sleeps. *)
Definition waits_copy : gmap ptr proc :=
  let x1 := (rts_set BIT_WAITMIGR x) <| p_waitmigr := ep |> <| p_mlink := Some dst |>
              <| p_pseudosem := -1 |> <| p_rcode := OK |> in
  <[c := x1]> (<[dst := y <| p_mlist ::= fun l => l ++ [c] |>]> (k_procs s)).

Lemma run_vcopy_waits :
  party_status (k_nr_nodes s) dc false ep EMOLDSTDIED y = OK -> rts BIT_MIGRATE y = true ->
  mm_vcopy cur cl SELF saddr ep daddr bytes s =
  Exit (X_WAIT (W_VCOPY V_MIGR_DST self_frame)) (HX waits_copy [L_DC (p_dcid x)]).
Proof using HC HPe HS Hroot Hep Hlen.
  intros Hst Hm. rewrite run_vcopy_lock. pose proof (ca_desc HC) as Hx. pose proof (ca_dc HC) as Hdc.
  destruct HPe as [_ _ Hy Hne].
  unfold vcopy_checked, check_parties. rewrite bind_assoc.
  cbn [vf_src vf_dst vf_src_ep vf_dst_ep self_frame].
  rewrite (ex_bind _ _ _ _ _ (self_party _ _)). cbn [negb Z.eqb OK].
  unfold check_party. cbn [vf_dcid vf_c self_frame]. h. rewrite bool_decide_false by done.
  rewrite Hst, Hm. h_red. unfold vcopy_wait_migr, vcopy_sleep, INIT_P_MLINK, LIST_ADD_TAIL_M.
  assert (sleep_others V_MIGR_DST self_frame = (dst, None)) as ->
    by (unfold sleep_others; cbn; by rewrite bool_decide_true).
  change (vf_c self_frame) with c. unfold unlock_others, WUNLOCK_PROC2. cbn [fst snd]. h_unfold.
  unfold self_locks. destruct (p_nr x <? p_nr y); cbn [app]; h;
    (replace (<[c:=_]> _) with waits_copy by (unfold waits_copy; x_map_eq)); done.
Qed.

Context (HD : copy_dst s c x dc ep dst y).

(** The descriptor of the caller after a copy with the result [r]. *)
Definition copied_by (r : Z) : proc :=
  (if r =? OK then x <| p_rcode := r |> else x <| p_rcode := r |> <| p_proxy := NONE |>)
    <| p_lclcopy ::= ulong_inc |>.

Lemma self_checked H :
  L_DC (p_dcid x) ∈ H -> 
  vcopy_checked self_frame (HX (k_procs s) H) =
  vcopy_start self_frame (HX (k_procs s) (del (L_DC (p_dcid x)) H)).
Proof using HC HPe HD HS.
  intros Hin. pose proof (ca_desc HC) as Hx. pose proof (ca_dc HC) as Hdc.
  destruct HD as [HL Hrc Hon].
  pose proof (ld_desc HL) as Hy. pose proof (ld_other HL) as Hne.
  assert (forall a, check_party V_MIGR_DST self_frame dst ep a (HX (k_procs s) H) =
    Val OK (HX (k_procs s) H)) as E2.
  { intros a. unfold check_party. cbn [vf_dcid vf_c self_frame]. h.
    rewrite bool_decide_false by done. unfold party_status, IT_IS_LOCAL.
    pose proof (ld_local HL) as Hlo. unfold IT_IS_REMOTE in *.
    rewrite (ld_ep HL), Z.eqb_refl, (ld_bound HL), Hon, Hlo, Hrc, (ld_member HL), (ld_settled HL).
    assert ((p_nodeid y <? 0) || (p_nodeid y >=? k_nr_nodes s) = false) as ->
      by (apply in_range_iff, (ld_node HL)). done. }
  unfold vcopy_checked, check_parties. rewrite bind_assoc. cbn [vf_src vf_dst vf_src_ep vf_dst_ep self_frame].
  rewrite (ex_bind _ _ _ _ _ (self_party _ _)). cbn [negb Z.eqb OK]. rewrite (ex_bind _ _ _ _ _ (E2 _)).
  cbn [vf_dcid self_frame]. unfold RUNLOCK_DC.
  by rewrite (ex_bind _ _ _ _ _ (hx_unlock _ _ _ _ _ _ _ _ Hin eq_refl)).
Qed.

Section Copy.
Context (ty : Z) (tky : task_t) (Hty : p_task y = Some ty) (Htk : k_tasks s !! ty = Some tky).
Context (Hmm : t_mm tk <> t_mm tky) (Htg : (t_tgid tky =? t_tgid tk) = false).
Context (Hbuf : 0 < k_max_copybuf s <= MAXCOPYLEN) (Hwf : wf_pages (k_pages s)).

(** The descriptors during the copy. *)
Definition on_copy : gmap ptr proc :=
  <[c := (rts_set BIT_ONCOPY (rts_set BIT_ONCOPY x)) <| p_rcode := OK |>]>
    (<[dst := rts_set BIT_ONCOPY y]> (k_procs s)).

Definition start_frame : vframe := self_frame <| vf_caller_nr := p_nr x |>.

Lemma run_self_start :
  vcopy_start self_frame (HX (k_procs s) self_locks) = vcopy_local start_frame (HX on_copy self_locks).
Proof using HC HPe HD.
  destruct HD as [HL Hrc Hon]. pose proof (ca_desc HC) as Hx. pose proof (ld_desc HL) as Hy.
  pose proof (ld_other HL) as Hne. unfold vcopy_start. change (vf_c self_frame) with c.
  eapply eq_trans; [eapply ex_bind; h_prim|]. cbv beta zeta. fold start_frame.
  change (vf_c start_frame) with c. change (vf_src start_frame) with c.
  change (vf_dst start_frame) with dst. h.
  assert (IT_IS_LOCAL ((rts_set BIT_ONCOPY (rts_set BIT_ONCOPY x)) <| p_rcode := OK |>) = true) as ->.
  { unfold IT_IS_LOCAL, rts. cbn. rewrite (ca_flags HC). done. }
  assert (IT_IS_LOCAL (rts_set BIT_ONCOPY y) = true) as ->.
  { unfold IT_IS_LOCAL, rts. cbn. rewrite test_set_other by done. pose proof (ld_local HL) as Hl.
    unfold IT_IS_REMOTE, rts in Hl. by rewrite Hl. }
  f_equal. f_equal. unfold on_copy. x_map_eq.
Qed.

Abbreviation HP m P H := (hst (s <| k_pages := m |>) (k_dcs s) (k_nodes s) P (k_tasks s) H).
Abbreviation copy_all :=
  (usr2usr_loop (Z.to_nat bytes) NONE (t_mm tk) saddr (t_mm tky) daddr bytes (k_pages s)).

Lemma run_self_local :
  vcopy_local start_frame (HX on_copy self_locks) =
  vcopy_end start_frame (fst copy_all)
    (HP (snd copy_all)
       (<[c := (rts_set BIT_ONCOPY (rts_set BIT_ONCOPY x)) <| p_rcode := fst copy_all |>]> on_copy)
       self_locks).
Proof using HC HPe HD HS Hty Htk Hmm Htg Hbuf Hwf Hlen.
  pose proof (ca_task HC) as Ht. pose proof (ca_ptask HC) as Hp.
  pose proof (ld_other (cd_local _ _ _ _ _ _ _ HD)) as Hne.
  unfold vcopy_local, tgid_of. change (vf_c start_frame) with c. change (vf_src start_frame) with c.
  change (vf_dst start_frame) with dst. change (vf_bytes start_frame) with bytes.
  change (vf_saddr start_frame) with saddr. change (vf_daddr start_frame) with daddr.
  assert (in_space (HX on_copy self_locks) c (t_mm tk) (t_tgid tk)) as H1.
  { eexists _, cur, tk. split; [apply lookup_insert_eq|]. by split_and!. }
  assert (in_space (HX on_copy self_locks) dst (t_mm tky) (t_tgid tky)) as H2.
  { eexists _, ty, tky. split; [unfold on_copy; cbn; by rewrite lookup_insert_ne, lookup_insert_eq|].
    by split_and!. }
  rewrite (ex_bind _ _ _ _ _ (run_tgid_of _ _ _ _ H1)), (ex_bind _ _ _ _ _ (run_tgid_of _ _ _ _ H2)).
  rewrite Htg.
  pose proof (run_local_loop _ _ _ _ _ _ _ H1 H2 Hmm Hbuf (Z.to_nat bytes) saddr daddr bytes _ Hwf
    ltac:(lia)) as Hll.
  replace ((HX on_copy self_locks) <| k_pages := k_pages s |>) with (HX on_copy self_locks) in Hll
    by (by destruct s).
  rewrite (ex_bind _ _ _ _ _ Hll).
  change ((HX on_copy self_locks) <| k_pages := snd copy_all |>)
    with (HP (snd copy_all) on_copy self_locks).
  unfold on_copy. h. unfold on_copy. by rewrite !insert_insert_eq.
Qed.

(** The end of the call, once the flags are as they were before it. *)
Definition self_finish (r : Z) : handler :=
  count_copy start_frame ;;
  x <- rd c ;;
  when (rts BIT_SIGNALED x)
    (init_proc_desc c (vf_dcid start_frame) (vf_caller_nr start_frame + vf_nr_tasks start_frame)) ;;
  wake_parties start_frame r ;;
  vcopy_unlock start_frame ;;
  return_ r.

Lemma run_self_finish r m xx :
  p_rts_flags xx = 0 ->
  self_finish r (HP m (<[c := xx]> (k_procs s)) self_locks) =
  Exit (X_RET r) (HP m (<[c := xx <| p_lclcopy ::= ulong_inc |>]> (k_procs s)) []).
Proof using HC HPe HD.
  intros Hxx. destruct HD as [HL Hrc Hon]. pose proof (ld_other HL) as Hne.
  pose proof (ld_desc HL) as Hy. pose proof (ld_local HL) as Hl.
  unfold self_finish, count_copy, wake_parties, vcopy_unlock, wake_if_ready.
  change (vcopy_parties start_frame) with (vcopy_parties self_frame). rewrite self_parties.
  change (vf_c start_frame) with c. change (vf_src start_frame) with c.
  change (vf_dst start_frame) with dst. unfold unlock_others. cbn [fst snd].
  rewrite bool_decide_true by done. h. rewrite insert_insert_eq.
  assert (rts BIT_SIGNALED (xx <| p_lclcopy ::= ulong_inc |>) = false) as Hsg
    by (unfold rts; cbn; rewrite Hxx; done).
  assert ((p_rts_flags y =? 0) = false) as Hyf.
  { apply Z.eqb_neq. intros E. unfold rts in Hrc. by rewrite E, test_bit_0 in Hrc. }
  rewrite Hsg. h. unfold WUNLOCK_PROC2, self_locks. h_unfold. destruct (p_nr x <? p_nr y); by h.
Qed.

Lemma run_self_end r m :
  vcopy_end start_frame r
    (HP m (<[c := (rts_set BIT_ONCOPY (rts_set BIT_ONCOPY x)) <| p_rcode := r |>]> on_copy)
       self_locks) =
  Exit (X_RET r) (HP m (<[c := copied_by r]> (k_procs s)) []).
Proof using HC HPe HD.
  destruct HD as [HL Hrc Hon]. pose proof (ld_other HL) as Hne. pose proof (ld_desc HL) as Hy.
  unfold vcopy_end, vcopy_result. change (vf_c start_frame) with c.
  change (vf_src start_frame) with c. change (vf_dst start_frame) with dst. unfold on_copy, copied_by.
  destruct (r =? OK) eqn:Er; h;
    match goal with |- mbind (count_copy _) _ (hst _ _ _ ?P _ _) = _ =>
      replace P with (<[c := if r =? OK then x <| p_rcode := r |>
                             else x <| p_rcode := r |> <| p_proxy := NONE |>]> (k_procs s)) end;
    rewrite ?Er.
  - apply (run_self_finish r m (x <| p_rcode := r |>)), (ca_flags HC).
  - rewrite (oncopy_ok r x (ca_flags HC)), (oncopy_on_off y Hon). x_map_eq.
  - apply (run_self_finish r m (x <| p_rcode := r |> <| p_proxy := NONE |>)), (ca_flags HC).
  - rewrite (oncopy_error r x (ca_flags HC)), (oncopy_on_off y Hon). x_map_eq.
Qed.

Lemma run_vcopy_self :
  mm_vcopy cur cl SELF saddr ep daddr bytes s =
  Exit (X_RET (fst copy_all))
    (s <| k_pages := snd copy_all |> <| k_procs ::= <[c := copied_by (fst copy_all)]> |>).
Proof using HC HPe HD HS Hroot Hep Hlen Hty Htk Hmm Htg Hbuf Hwf.
  rewrite run_vcopy_lock, self_checked by (apply elem_of_app; right; apply list_elem_of_here).
  replace (del (L_DC (p_dcid x)) (self_locks ++ [L_DC (p_dcid x)])) with self_locks
    by (unfold self_locks; destruct (p_nr x <? p_nr y); cbn [app]; symmetry; x_del).
  rewrite run_self_start, run_self_local, run_self_end. f_equal. pose proof (ca_held HC) as Hh.
  destruct s; cbn in *. by rewrite Hh.
Qed.
End Copy.
End Self.

(** ** A third process that waits for an answer *)

Lemma lock3_unlock3 s D N P P' T p q r a b e :
  P !! p = Some a -> P !! q = Some b -> P !! r = Some e -> p <> q -> p <> r -> q <> r ->
  exists H, WLOCK_PROC3 p q r (hst s D N P T []) = Val tt (hst s D N P T H) /\
    WUNLOCK_PROC3 p q r (hst s D N P' T H) = Val tt (hst s D N P' T []).
Proof.
  intros Hp Hq Hr Hpq Hpr Hqr.
  assert (forall p q r, p <> q -> p <> r -> q <> r -> forall H,
    H = [L_PROC p; L_PROC q; L_PROC r] \/ H = [L_PROC p; L_PROC r; L_PROC q] \/
    H = [L_PROC q; L_PROC p; L_PROC r] \/ H = [L_PROC q; L_PROC r; L_PROC p] \/
    H = [L_PROC r; L_PROC p; L_PROC q] \/ H = [L_PROC r; L_PROC q; L_PROC p] ->
    WUNLOCK_PROC3 p q r (hst s D N P' T H) = Val tt (hst s D N P' T [])) as Hun.
  { clear. intros p q r Hpq Hpr Hqr H HH. unfold WUNLOCK_PROC3. h_unfold.
    by destruct HH as [->|[->|[->|[->|[->| ->]]]]]; h; h_prim. }
  unfold WLOCK_PROC3, WLOCK_PROC2. h_unfold.
  destruct (p_nr a <? p_nr b) eqn:E1;
    [destruct (p_nr e <? p_nr b) eqn:E2; [destruct (p_nr a <? p_nr e) eqn:E3|]
    |destruct (p_nr e <? p_nr a) eqn:E2;
       [destruct (p_nr b <? p_nr e) eqn:E3|destruct (p_nr b <? p_nr a) eqn:E3]];
    (eexists; split; [h; rewrite E1, ?E2; h; h_prim|apply Hun; tauto]).
Qed.

Section Third.
Context (s : kstate) (v : vpoint) (f : vframe) (c q r : ptr) (x b e : proc).
Context (Hf : vf_c f = c) (Ho : sleep_others v f = (q, Some r)) (Hh : k_held s = []).
Context (Hx : k_procs s !! c = Some x) (Hb : k_procs s !! q = Some b) (He : k_procs s !! r = Some e).
Context (Hcq : c <> q) (Hcr : c <> r) (Hqr : q <> r) (Hon : rts BIT_ONCOPY x = true).

Lemma run_oncopy_turn : resume_oncopy v f s = Exit (X_WAIT (W_VCOPY_ONCOPY v f)) s.
Proof using Hf Ho Hh Hx Hb He Hcq Hcr Hqr Hon.
  rewrite (hst_id s), Hh.
  destruct (lock3_unlock3 s (k_dcs s) (k_nodes s) (k_procs s) (k_procs s) (k_tasks s) c q r x b e)
    as (H & Hl & Hu); try done.
  unfold resume_oncopy, oncopy_loop, lock_others, unlock_others. rewrite Hf, Ho. cbn [fst snd].
  rewrite (ex_bind _ _ _ _ _ Hl). h. rewrite ?Hon. h. by rewrite (ex_bind _ _ _ _ _ Hu).
Qed.

Lemma wake_desc3_oncopy w : rts BIT_ONCOPY (wake_desc3 TIMEOUT_MOLCALL w x) = true.
Proof using Hon. unfold wake_desc3. by destruct (_ && _). Qed.

Lemma run_wake_error w :
  wake_rcode (p_rcode x) TIMEOUT_MOLCALL w <> OK ->
  resume_vcopy v f w s =
  Exit (X_WAIT (W_VCOPY_ONCOPY v f)) (set_proc c (wake_desc3 TIMEOUT_MOLCALL w x) s).
Proof using Hf Ho Hh Hx Hb He Hcq Hcr Hqr Hon.
  intros Hw%Z.eqb_neq. pose proof (wake_desc3_oncopy w) as Hon3.
  assert ((p_rcode (wake_desc3 TIMEOUT_MOLCALL w x) =? OK) = false) as Hrc.
  { unfold wake_desc3. by destruct (_ && _). }
  rewrite (hst_id s), Hh at 1.
  destruct (lock3_unlock3 s (k_dcs s) (k_nodes s) (k_procs s)
    (<[c := wake_desc3 TIMEOUT_MOLCALL w x]> (k_procs s)) (k_tasks s) c q r x b e)
    as (H & Hl & Hu); try done.
  unfold resume_vcopy, vcopy_wake, oncopy_loop, lock_others, unlock_others.
  rewrite Hf, Ho. cbn [fst snd]. h. rewrite (ex_bind _ _ _ _ _ Hl). h.
  rewrite ?Hrc. h. rewrite ?Hon3. h. rewrite (ex_bind _ _ _ _ _ Hu).
  unfold leave. f_equal. destruct s; cbn in *; by rewrite Hh.
Qed.
End Third.

(** ** Properties *)

(** C27. A copy in parts is a copy of the whole block.  The loop of [mm_vcopy]
    between local processes, which calls [copy_usr2usr] on parts of at most
    [d_max_copybuf] bytes, gives the same result and leaves the same memory as
    one run of the loop of [copy_usr2usr] over the block, also when a page is
    missing in the middle of it and whatever the size of the block. *)
Theorem local_loop_whole s src dst smm dmm sg dg saddr daddr bytes :
  in_space s src smm sg -> in_space s dst dmm dg -> smm <> dmm ->
  0 < k_max_copybuf s <= MAXCOPYLEN -> wf_pages (k_pages s) ->
  local_loop (Z.to_nat bytes) src saddr dst daddr bytes s =
    let r := usr2usr_loop (Z.to_nat bytes) NONE smm saddr dmm daddr bytes (k_pages s) in
    Val (fst r) (s <| k_pages := snd r |>).
Proof.
  intros Hs Hd Hne Hb Hwf.
  rewrite <- (run_local_loop s src dst smm dmm sg dg Hs Hd Hne Hb (Z.to_nat bytes)) by (done || lia).
  f_equal. by destruct s.
Qed.

(** C26. A copy from the caller to a local process that waits for a message.  When
    both ranges of addresses are mapped, [mm_vcopy] returns [OK] and the memory
    changes by exactly the bytes of the block; in the descriptors only the
    caller's result and count of copies change, the flags of a copy in progress
    are off again, the receiver still waits, and no lock is held.  When a byte
    of the source is not mapped it returns [EMOLADDRNOTAVAIL]. *)
Theorem vcopy_self_exact s cur c x tk dc ep dst y cl saddr daddr bytes ty tky :
  calls_as s cur c x tk dc -> copy_dst s c x dc ep dst y -> copy_self s c x dc ->
  t_euid tk = USER_ROOT -> bad_endpoints (p_endpoint x) ep = false ->
  0 <= bytes <= k_max_copylen s -> p_task y = Some ty -> k_tasks s !! ty = Some tky ->
  t_mm tk <> t_mm tky -> t_tgid tky <> t_tgid tk ->
  0 < k_max_copybuf s <= MAXCOPYLEN -> wf_pages (k_pages s) ->
  (mapped (k_pages s) (t_mm tk) saddr bytes -> mapped (k_pages s) (t_mm tky) daddr bytes ->
   exists m',
     mm_vcopy cur cl SELF saddr ep daddr bytes s =
       Exit (X_RET OK) (s <| k_pages := m' |>
         <| k_procs ::= <[c := x <| p_rcode := OK |> <| p_lclcopy ::= ulong_inc |>]> |>) /\
     copied (k_pages s) m' (t_mm tk) saddr (t_mm tky) daddr bytes) /\
  (forall a, saddr <= a < saddr + bytes -> k_pages s !! (t_mm tk, page_nr a) = None ->
   exists s', mm_vcopy cur cl SELF saddr ep daddr bytes s = Exit (X_RET EMOLADDRNOTAVAIL) s').
Proof.
  intros HC HD HS Hroot%Z.eqb_eq Hep Hlen Hty Htk Hmm Htg%Z.eqb_neq Hbuf Hwf.
  pose proof (copy_dst_peer _ _ _ _ _ _ _ HD) as HP.
  assert ((bytes <? 0) || (bytes >? k_max_copylen s) = false) as Hlen'
    by (apply orb_false_iff; rewrite Z.gtb_ltb, !Z.ltb_ge; lia).
  pose proof (run_vcopy_self s cur c x tk dc ep dst y cl saddr daddr bytes HC HP HS Hroot Hep Hlen'
    HD ty tky Hty Htk Hmm Htg Hbuf Hwf) as Hr.
  split.
  - intros Hm1 Hm2.
    destruct (usr2usr_loop_ok (Z.to_nat bytes) (t_mm tk) saddr (t_mm tky) daddr bytes (k_pages s))
      as (m' & Hl & Hcp); [done|done|lia|done..|].
    exists m'. split; [|done]. rewrite Hr, Hl. done.
  - intros a Ha Hn. eexists. rewrite Hr.
    by rewrite (usr2usr_loop_fault _ _ _ _ _ _ _ _ a) by (done || lia).
Qed.

(** Waiting for a migration keeps the DC locked.  When the destination is
    migrating, [mm_vcopy] puts the caller to sleep with the mutex of the DC
    held; so a [mm_migrate] on that DC, which takes that mutex first, cannot
    run: the commit or rollback that would wake the caller up is the call that
    waits for it. *)
Theorem vcopy_waits_with_dc s cur c x tk dc ep dst y cl saddr daddr bytes :
  calls_as s cur c x tk dc -> peer s c x dc ep dst y -> copy_self s c x dc ->
  t_euid tk = USER_ROOT -> bad_endpoints (p_endpoint x) ep = false ->
  0 <= bytes <= k_max_copylen s ->
  party_status (k_nr_nodes s) dc false ep EMOLDSTDIED y = OK -> rts BIT_MIGRATE y = true ->
  exists f s1,
    mm_vcopy cur cl SELF saddr ep daddr bytes s = Exit (X_WAIT (W_VCOPY V_MIGR_DST f)) s1 /\
    k_held s1 = [L_DC (p_dcid x)] /\
    forall threads oper pid ep' n, (oper = MIGR_COMMIT \/ oper = MIGR_ROLLBACK) ->
      mm_migrate threads cur oper pid (p_dcid x) ep' n s1 =
        Exit (X_FAULT (F_SELF_DEADLOCK (L_DC (p_dcid x)))) s1.
Proof.
  intros HC HP HS Hroot Hep Hlen Hst Hm. pose proof Hroot as Hroot'. apply Z.eqb_eq in Hroot'.
  assert ((bytes <? 0) || (bytes >? k_max_copylen s) = false) as Hlen'
    by (apply orb_false_iff; rewrite Z.gtb_ltb, !Z.ltb_ge; lia).
  rewrite (run_vcopy_waits s cur c x tk dc ep dst y cl saddr daddr bytes HC HP HS Hroot' Hep Hlen' Hst Hm).
  eexists _, _. split; [reflexivity|]. split; [done|]. intros threads oper pid ep' n Ho.
  assert (negb (oper =? MIGR_START) && negb (oper =? MIGR_COMMIT) && negb (oper =? MIGR_ROLLBACK)
    = false) as Ho' by (by destruct Ho as [-> | ->]).
  pose proof (ca_task HC) as Ht. pose proof (ca_init HC) as Hi. pose proof (ca_range _ _ _ _ _ _ HC) as Hr.
  unfold mm_migrate, check_euid. h_unfold. h.
  unfold mbind at 1, lock_. rewrite bool_decide_true by apply list_elem_of_here. done.
Qed.

(** A third process never comes back from an error.  A requester that is
    neither the source nor the destination sleeps with its own [BIT_ONCOPY] set;
    when the answer is an error, or does not come in time, it enters the loop of
    [sleep_proc3] that waits for this very bit to go off, and every turn of the
    loop leads to the same state again. *)
Theorem third_party_error_hangs s v f q r x b e w :
  sleep_others v f = (q, Some r) -> k_held s = [] ->
  k_procs s !! vf_c f = Some x -> k_procs s !! q = Some b -> k_procs s !! r = Some e ->
  vf_c f <> q -> vf_c f <> r -> q <> r -> rts BIT_ONCOPY x = true ->
  wake_rcode (p_rcode x) TIMEOUT_MOLCALL w <> OK ->
  exists s1,
    resume_vcopy v f w s = Exit (X_WAIT (W_VCOPY_ONCOPY v f)) s1 /\
    resume_oncopy v f s1 = Exit (X_WAIT (W_VCOPY_ONCOPY v f)) s1 /\
    forall p, p <> vf_c f -> k_procs s1 !! p = k_procs s !! p.
Proof.
  intros Ho Hh Hx Hb He Hcq Hcr Hqr Hon Hw.
  exists (set_proc (vf_c f) (wake_desc3 TIMEOUT_MOLCALL w x) s). split_and!.
  - eapply run_wake_error; done.
  - apply (run_oncopy_turn _ v f (vf_c f) q r (wake_desc3 TIMEOUT_MOLCALL w x) b e); try done.
    + apply lookup_insert_eq.
    + etrans; [by apply lookup_insert_ne|done].
    + etrans; [by apply lookup_insert_ne|done].
    + by apply wake_desc3_oncopy.
  - intros p Hp. by apply lookup_insert_ne.
Qed.
