(* ===== verification/MigrateScenario.v ===== *)
(** * Migrations of the concrete kernel

    The server of [Scenario], with the client in its queue of senders, leaves
    for node 1; the remote process [faraway] is waited for, and moves. *)

From S2P Require Import Prelude Types Endpoint Kernel Hoare Utils IpcCommon Exec Scenario.
From S2P Require Import Unbind Hyper HyperFlow Vcopy Migrate MigrateFlow.

Definition at_ptr (s : kstate) (p : ptr) : proc := default (desc 0 0 0 0 0 0 None) (k_procs s !! p).
Definition lone (t : Z) : list Z := [t].

(** ** The server leaves *)

Definition leaver : proc :=
  misc_set MIS_BIT_GRPLEADER (rts_set BIT_MIGRATE (at_ptr kernel1 server)).
Definition kernel_m : kstate := set_proc server leaver kernel1.
Definition task105 : task_t := task_of client 1 105.
Definition task106 : task_t := task_of server 2 106.

Lemma privileged_m : privileged kernel_m 105 task105.
Proof. split; vm_compute; reflexivity. Qed.

Lemma migr_call_m : migr_call kernel_m 105 0 6 task105 dc0 server leaver.
Proof. split; [exact privileged_m|vm_compute; reflexivity..]. Qed.

Lemma new_node_m n nd :
  n = 1 -> nd = mk_node 1 1 0 1 0 0 0 0 -> new_node kernel_m dc0 n.
Proof.
  intros -> ->. split; [vm_compute; reflexivity..|].
  eexists _, dc0. split_and!; vm_compute; reflexivity.
Qed.

Lemma bound_m : bound_thread lone kernel_m server leaver 106 task106.
Proof.
  split; [vm_compute; reflexivity..|]. exists []. split_and!; [reflexivity|apply not_elem_of_nil|].
  intros t Ht. by apply not_elem_of_nil in Ht.
Qed.

Lemma queues_m : queues_of (k_procs kernel_m) server leaver.
Proof.
  assert (p_list leaver = [client]) as El by (vm_compute; reflexivity).
  assert (p_mlist leaver = []) as Em by (vm_compute; reflexivity).
  split; rewrite ?El, ?Em.
  - split; [apply list.NoDup_singleton|]. by intros ?%list_elem_of_singleton.
  - intros x ->%list_elem_of_singleton. eexists. split_and!; vm_compute; reflexivity.
  - split; [apply NoDup_nil_2|apply not_elem_of_nil].
  - intros x Hx. by apply not_elem_of_nil in Hx.
Qed.

(** The client is sent back to replay its call, and will find the server remote. *)
Lemma commit_old_node_witness :
  exists P' z',
    mm_migrate lone 105 MIGR_COMMIT 0 0 6 1 kernel_m =
      Exit (X_RET OK) (kernel_m <| k_procs := P' |>
                                <| k_tasks ::= <[106 := task106 <| task_proc := None |> <| t_usage ::= Z.pred |>]> |>) /\
    P' !! server = Some z' /\ IT_IS_REMOTE z' = true /\ p_nodeid z' = 1 /\ p_list z' = [].
Proof.
  destruct (commit_old_node lone kernel_m 105 0 6 task105 dc0 server leaver 0 1 106 task106)
    as (P' & z' & H1 & H2 & H3 & H4 & H5 & H6 & H7 & H8 & _).
  - exact migr_call_m.
  - by eapply new_node_m.
  - vm_compute; reflexivity.
  - exact bound_m.
  - vm_compute; reflexivity.
  - exact queues_m.
  - exists P', z'. by split_and!.
Defined.

(** ** The remote process moves from node 1 to node 2, with the client waiting *)

Definition mover : proc := rts_set BIT_MIGRATE ((at_ptr kernel0 faraway) <| p_mlist := [client] |>).
Definition dc3 : dc_t := dc0 <| dc_nodes := 7 |>.
Definition node2 : node_t := mk_node 2 1 0 1 0 0 0 0.

Definition kernel_w : kstate :=
  (set_proc client ((rts_set BIT_WAITMIGR (at_ptr kernel0 client)) <| p_waitmigr := 7 |>
                      <| p_mlink := Some faraway |>)
     (set_proc faraway mover kernel0))
  <| k_nr_nodes := 3 |> <| k_dcs := {[ 0 := dc3 ]} |> <| k_nodes ::= <[2 := node2]> |>.

Lemma migr_call_w : migr_call kernel_w 105 0 7 task105 dc3 faraway mover.
Proof. split; [split; vm_compute; reflexivity|vm_compute; reflexivity..]. Qed.

Lemma queues_w : queues_of (k_procs kernel_w) faraway mover.
Proof.
  assert (p_list mover = []) as El by (vm_compute; reflexivity).
  assert (p_mlist mover = [client]) as Em by (vm_compute; reflexivity).
  split; rewrite ?El, ?Em.
  - split; [apply NoDup_nil_2|apply not_elem_of_nil].
  - intros x Hx. by apply not_elem_of_nil in Hx.
  - split; [apply list.NoDup_singleton|]. by intros ?%list_elem_of_singleton.
  - intros x ->%list_elem_of_singleton. eexists. split; vm_compute; reflexivity.
Qed.

Lemma commit_other_node_witness :
  exists P' z',
    mm_migrate lone 105 MIGR_COMMIT 0 0 7 2 kernel_w = Exit (X_RET OK) (kernel_w <| k_procs := P' |>) /\
    P' !! faraway = Some z' /\ p_nodeid z' = 2 /\ p_mlist z' = [].
Proof.
  destruct (commit_other_node lone kernel_w 105 0 7 task105 dc3 faraway mover 0 2)
    as (P' & z' & H1 & H2 & H3 & _ & _ & H4 & _).
  - exact migr_call_w.
  - split; [vm_compute; reflexivity..|]. eexists node2, dc3. split_and!; vm_compute; reflexivity.
  - vm_compute; discriminate.
  - vm_compute; discriminate.
  - exact queues_w.
  - exists P', z'. by split_and!.
Defined.

(** The client is left in the queue of a process that no longer migrates. *)
Lemma rollback_forgets_waiters_witness :
  exists P' z',
    mm_migrate lone 105 MIGR_ROLLBACK 0 0 7 0 kernel_w = Exit (X_RET OK) (kernel_w <| k_procs := P' |>) /\
    P' !! faraway = Some z' /\ rts BIT_MIGRATE z' = false /\ p_mlist z' = [client].
Proof.
  destruct (rollback_forgets_waiters lone kernel_w 105 0 7 task105 dc3 faraway mover 0 0)
    as (P' & z' & H1 & H2 & H3 & H4 & _).
  - exact migr_call_w.
  - vm_compute; reflexivity.
  - vm_compute; reflexivity.
  - exists P', z'. split_and!; [done..|]. rewrite H4. vm_compute; reflexivity.
Defined.

Lemma start_rollback_roundtrip_witness :
  exists s1,
    mm_migrate lone 105 MIGR_START 0 0 7 0 kernel0 = Exit (X_RET OK) s1 /\
    mm_migrate lone 105 MIGR_START 0 0 7 0 s1 = Exit (X_RET EMOLMIGRATE) s1 /\
    mm_migrate lone 105 MIGR_ROLLBACK 0 0 7 0 s1 = Exit (X_RET OK) kernel0.
Proof.
  apply (start_rollback_roundtrip lone kernel0 105 0 7 task105 dc0 faraway (at_ptr kernel0 faraway));
    [|vm_compute; reflexivity..].
  split; [split; vm_compute; reflexivity|vm_compute; reflexivity..].
Defined.

(** ** The remote process comes to this node, as the task 300 *)

Definition task300 : task_t := mk_task 300 (Some 300) 9 0 1 None.
Definition kernel_n : kstate := kernel_w <| k_tasks ::= <[300 := task300]> |>.

Lemma commit_new_node_witness :
  exists z',
    mm_migrate lone 105 MIGR_COMMIT 300 0 7 0 kernel_n =
      Exit (X_RET OK) (kernel_n <| k_procs ::= <[faraway := z']> |>
                                <| k_tasks ::= <[300 := task300 <| t_usage ::= Z.succ |> <| task_proc := Some faraway |>]> |>) /\
    p_nodeid z' = 0 /\ p_mlist z' = [client].
Proof.
  destruct (commit_new_node lone kernel_n 105 0 7 task105 dc3 faraway mover 300 0 task300)
    as (z' & H1 & _ & _ & H2 & _ & _ & H3).
  - split; [split; vm_compute; reflexivity|vm_compute; reflexivity..].
  - split; [vm_compute; reflexivity..|]. eexists _, dc3. split_and!; vm_compute; reflexivity.
  - vm_compute; reflexivity.
  - vm_compute; discriminate.
  - vm_compute; reflexivity.
  - vm_compute; reflexivity.
  - exists z'. split_and!; [done..|]. rewrite H3. vm_compute; reflexivity.
Defined.

(** ** A process of DC 1 cannot go to a node that does not have DC 0 *)

Definition dc_one : dc_t := dc0 <| dc_dcid := 1 |> <| dc_nodes := 7 |>.
Definition node2_one : node_t := mk_node 2 1 0 2 0 0 0 0.
Definition far_one : proc := rts_set BIT_MIGRATE (desc 7 7 1 1 REMOTE 0 None).
Definition kernel_d : kstate :=
  (set_proc (PROC 1 11) far_one kernel_w)
  <| k_nr_dcs := 2 |> <| k_dcs ::= <[1 := dc_one]> |> <| k_nodes ::= <[2 := node2_one]> |>.

Lemma commit_tests_dc0_witness :
  test_bit 2 (dc_nodes dc_one) = true /\ test_bit 1 (n_dcs node2_one) = true /\
  mm_migrate lone 105 MIGR_COMMIT 0 1 7 2 kernel_d = Exit (X_RET EMOLDCNODE) kernel_d.
Proof.
  split; [vm_compute; reflexivity|]. split; [vm_compute; reflexivity|].
  apply (commit_tests_dc0 lone kernel_d 105 1 7 task105 dc_one (PROC 1 11) far_one 0 2 node2_one dc3).
  - split; [split; vm_compute; reflexivity|vm_compute; reflexivity..].
  - vm_compute; reflexivity.
  - vm_compute; reflexivity.
  - vm_compute; reflexivity.
  - vm_compute; discriminate.
  - vm_compute; reflexivity.
  - vm_compute; reflexivity.
  - vm_compute; reflexivity.
Defined.
