(* ===== verification/VcopyScenario.v ===== *)
(** * Copies in the concrete kernel

    The client of [Scenario] copies from its memory to the server's, which is
    blocked receiving; then it has the server's memory copied to the remote
    process, which does not answer; and it copies to a server that migrates. *)

From S2P Require Import Prelude Types Endpoint Copy Kernel Hoare Utils IpcCommon Exec Scenario.
From S2P Require Import Unbind Hyper HyperFlow Vcopy Migrate VcopyFlow MigrateScenario.

Definition task105 : task_t := task_of client 1 105.
Definition task106 : task_t := task_of server 2 106.
Definition client_v : proc := local_desc 5 105.
Definition server_v : proc := rts_set BIT_RECEIVING (local_desc 6 106).

(** The copy buffer of 1000 bytes makes six parts of a copy of 5000. *)
Definition kernel_v : kstate :=
  (set_proc server server_v kernel0) <| k_pages := two_spaces |> <| k_max_copybuf := 1000 |>.

Definition vcall : call := C_RCVRQST 0 0.

Lemma calls_v : calls_as kernel_v 105 client client_v task105 dc0.
Proof. split; try (vm_compute; reflexivity). vm_compute; split; [discriminate|reflexivity]. Qed.

Lemma copy_self_v : copy_self kernel_v client client_v dc0.
Proof. split; vm_compute; reflexivity. Qed.

Lemma copy_dst_v : copy_dst kernel_v client client_v dc0 6 server server_v.
Proof.
  split; [split|vm_compute; reflexivity..]; try (vm_compute; reflexivity);
    try (vm_compute; discriminate); vm_compute; (split; [discriminate|reflexivity]).
Qed.

Lemma local_loop_whole_witness :
  local_loop 5000 client 100 server 3000 5000 kernel_v =
    let r := usr2usr_loop 5000 NONE 1 100 2 3000 5000 two_spaces in
    Val (fst r) (kernel_v <| k_pages := snd r |>).
Proof.
  apply (local_loop_whole kernel_v client server 1 2 105 106 100 3000 5000).
  - exists client_v, 105, task105. split_and!; vm_compute; reflexivity.
  - exists server_v, 106, task106. split_and!; vm_compute; reflexivity.
  - lia.
  - vm_compute; split; [reflexivity|discriminate].
  - exact two_spaces_wf.
Defined.

Lemma vcopy_self_exact_witness :
  exists m',
    mm_vcopy 105 vcall SELF 100 6 3000 5000 kernel_v =
      Exit (X_RET OK) (kernel_v <| k_pages := m' |>
        <| k_procs ::= <[client := client_v <| p_rcode := OK |> <| p_lclcopy ::= ulong_inc |>]> |>) /\
    copied two_spaces m' 1 100 2 3000 5000.
Proof.
  apply (vcopy_self_exact kernel_v 105 client client_v task105 dc0 6 server server_v vcall 100 3000 5000
    106 task106).
  - exact calls_v.
  - exact copy_dst_v.
  - exact copy_self_v.
  - vm_compute; reflexivity.
  - vm_compute; reflexivity.
  - vm_compute; split; discriminate.
  - vm_compute; reflexivity.
  - vm_compute; reflexivity.
  - vm_compute; discriminate.
  - vm_compute; discriminate.
  - vm_compute; split; [reflexivity|discriminate].
  - exact two_spaces_wf.
  - intros b Hb. apply two_spaces_page; [by left|lia].
  - intros b Hb. apply two_spaces_page; [by right|lia].
Defined.

(** ** The server migrates *)

Definition server_w : proc := rts_set BIT_MIGRATE server_v.
Definition kernel_x : kstate := set_proc server server_w kernel_v.

Lemma vcopy_waits_with_dc_witness :
  exists f s1,
    mm_vcopy 105 vcall SELF 100 6 3000 5000 kernel_x = Exit (X_WAIT (W_VCOPY V_MIGR_DST f)) s1 /\
    k_held s1 = [L_DC 0] /\
    mm_migrate lone 105 MIGR_COMMIT 0 0 6 1 s1 = Exit (X_FAULT (F_SELF_DEADLOCK (L_DC 0))) s1.
Proof.
  destruct (vcopy_waits_with_dc kernel_x 105 client client_v task105 dc0 6 server server_w vcall 100 3000
    5000) as (f & s1 & H1 & H2 & H3).
  - split; try (vm_compute; reflexivity). vm_compute; split; [discriminate|reflexivity].
  - split; try (vm_compute; reflexivity); [vm_compute; split; [discriminate|reflexivity]|].
    vm_compute; discriminate.
  - split; vm_compute; reflexivity.
  - vm_compute; reflexivity.
  - vm_compute; reflexivity.
  - vm_compute; split; discriminate.
  - vm_compute; reflexivity.
  - vm_compute; reflexivity.
  - exists f, s1. split; [exact H1|]. split; [exact H2|]. apply (H3 lone MIGR_COMMIT). by left.
Defined.

(** ** The client has the server's memory copied to the remote process *)

Definition run_third : res Empty_set := mm_vcopy 105 vcall 6 100 7 200 50 kernel_v.
Definition kernel_t : kstate := exit_state run_third.
Definition frame_t : vframe := mk_vframe client server faraway 0 4 5 6 7 100 200 50 50.

Lemma run_third_eq : run_third = Exit (X_WAIT (W_VCOPY V_COPYIN frame_t)) kernel_t.
Proof. vm_compute. reflexivity. Qed.

Lemma third_party_error_hangs_witness :
  run_third = Exit (X_WAIT (W_VCOPY V_COPYIN frame_t)) kernel_t /\
  exists s1,
    resume_vcopy V_COPYIN frame_t 0 kernel_t = Exit (X_WAIT (W_VCOPY_ONCOPY V_COPYIN frame_t)) s1 /\
    resume_oncopy V_COPYIN frame_t s1 = Exit (X_WAIT (W_VCOPY_ONCOPY V_COPYIN frame_t)) s1.
Proof.
  split; [exact run_third_eq|].
  destruct (third_party_error_hangs kernel_t V_COPYIN frame_t server faraway
    (at_ptr kernel_t client) (at_ptr kernel_t server) (at_ptr kernel_t faraway) 0)
    as (s1 & H1 & H2 & _).
  - vm_compute; reflexivity.
  - vm_compute; reflexivity.
  - vm_compute; reflexivity.
  - vm_compute; reflexivity.
  - vm_compute; reflexivity.
  - discriminate.
  - discriminate.
  - discriminate.
  - vm_compute; reflexivity.
  - vm_compute; discriminate.
  - exists s1. split; [exact H1|exact H2].
Defined.
