(* ===== verification/Timers.v ===== *)
(** * Watchdog timers ([lib/timers/timers.c])

    The queue of watchdog timers that the clock of the system task, the
    process manager and the terminal share.  The queue is a chain of timer
    structures in memory: the model keeps the memory, and walks the chain
    through the address of the pointer it is about to change, as the code
    does with [moltimer_t **atp].

    The operations refine a list of timers ordered by expiration time. *)

From stdpp Require Import sorting.
From S2P Require Import Prelude.

(** ** Memory *)

Definition TMR_NEVER : Z := 2147483647.

Record moltimer := mk_timer {
  tmr_next : option Z;                      (* NULL or the address of a timer *)
  tmr_exp_time : Z;                         (* molclock_t *)
  tmr_func : Z;                             (* the watchdog function *)
  tmr_arg : Z;
}.

#[export] Instance eta_moltimer : Eta moltimer := fun r =>
  mk_timer (tmr_next r) (tmr_exp_time r) (tmr_func r) (tmr_arg r).

(** The head pointer [*tmrs] of a queue and the timers in memory. *)
Record tqueue := mk_tqueue {
  tmrs : option Z;
  theap : gmap Z moltimer;
}.

#[export] Instance eta_tqueue : Eta tqueue := fun r => mk_tqueue (tmrs r) (theap r).

(** What [atp] points to: the head pointer, or the [tmr_next] of a timer. *)
Inductive cell := HEAD | NEXT (t : Z).

(** [*atp]; [None] is an access to memory that is not there. *)
Definition load (c : cell) (q : tqueue) : option (option Z) :=
  match c with
  | HEAD => Some (tmrs q)
  | NEXT t => x ← theap q !! t; Some (tmr_next x)
  end.

Definition set_timer_at (t : Z) (f : moltimer -> moltimer) (q : tqueue) : option tqueue :=
  x ← theap q !! t; Some (q <| theap ::= <[t := f x]> |>).

(** [*atp = v]. *)
Definition store (c : cell) (v : option Z) (q : tqueue) : option tqueue :=
  match c with
  | HEAD => Some (q <| tmrs := v |>)
  | NEXT t => set_timer_at t (fun x => x <| tmr_next := v |>) q
  end.

(** The expiration time of the first timer, 0 when there is none. *)
Definition head_time (q : tqueue) : option Z :=
  match tmrs q with
  | None => Some 0
  | Some t => x ← theap q !! t; Some (tmr_exp_time x)
  end.

(** ** Operations

    A walk visits a timer of a chain at most once: one step more than there
    are timers in memory is enough for every chain that ends.  On a chain
    that does not end the walk of the code does not either. *)

Definition walk_fuel (q : tqueue) : nat := S (size (theap q)).

Fixpoint clr_loop (fuel : nat) (atp : cell) (tp : Z) (q : tqueue) : option tqueue :=
  match fuel with
  | O => None
  | S n =>
      p ← load atp q;
      match p with
      | None => Some q
      | Some t =>
          if t =? tp then (x ← theap q !! tp; store atp (tmr_next x) q)
          else clr_loop n (NEXT t) tp q
      end
  end.

(** Gives the queue, the value returned and what is stored through
    [next_time] when it is not [NULL]. *)
Definition tmrs_clrtimer (tp : Z) (q : tqueue) : option (tqueue * Z * Z) :=
  prev_time ← head_time q;
  q1 ← set_timer_at tp (fun x => x <| tmr_exp_time := TMR_NEVER |>) q;
  q2 ← clr_loop (walk_fuel q1) HEAD tp q1;
  next_time ← head_time q2;
  Some (q2, prev_time, next_time).

(** The place of a timer that expires at [exp_time]. *)
Fixpoint set_loop (fuel : nat) (atp : cell) (exp_time : Z) (q : tqueue) : option cell :=
  match fuel with
  | O => None
  | S n =>
      p ← load atp q;
      match p with
      | None => Some atp
      | Some t =>
          x ← theap q !! t;
          if exp_time <? tmr_exp_time x then Some atp else set_loop n (NEXT t) exp_time q
      end
  end.

Definition tmrs_settimer (tp exp_time watchdog : Z) (q : tqueue) : option (tqueue * Z * Z) :=
  old_head ← head_time q;
  r ← tmrs_clrtimer tp q;
  let q1 := fst (fst r) in
  q2 ← set_timer_at tp (fun x => x <| tmr_exp_time := exp_time |> <| tmr_func := watchdog |>) q1;
  atp ← set_loop (walk_fuel q2) HEAD exp_time q2;
  p ← load atp q2;
  q3 ← set_timer_at tp (fun x => x <| tmr_next := p |>) q2;
  q4 ← store atp (Some tp) q3;
  new_head ← head_time q4;
  Some (q4, old_head, new_head).

(** The watchdog functions are code of the client: [call f t] runs the
    function [f] on the timer [t].  The second component of the result is the
    list of the timers whose function was called. *)
Section Watchdogs.
Context (call : Z -> Z -> tqueue -> option tqueue).

Fixpoint exp_loop (fuel : nat) (now : Z) (q : tqueue) : option (tqueue * list Z) :=
  match fuel with
  | O => None
  | S n =>
      match tmrs q with
      | None => Some (q, [])
      | Some tp =>
          x ← theap q !! tp;
          if tmr_exp_time x <=? now then
            q1 ← store HEAD (tmr_next x) q;
            q2 ← set_timer_at tp (fun y => y <| tmr_exp_time := TMR_NEVER |>) q1;
            q3 ← call (tmr_func x) tp q2;
            r ← exp_loop n now q3;
            Some (fst r, tp :: snd r)
          else Some (q, [])
      end
  end.

Definition tmrs_exptimers (fuel : nat) (now : Z) (q : tqueue)
    : option (tqueue * list Z * Z) :=
  r ← exp_loop fuel now q;
  new_head ← head_time (fst r);
  Some (r, new_head).
End Watchdogs.

(** ** The abstract queue: timers and their expiration times, in order *)

Definition clear_entry (tp : Z) (l : list (Z * Z)) : list (Z * Z) :=
  filter (fun e => e.1 <> tp) l.

(** After the timers that expire at the same time. *)
Fixpoint insert_entry (e : Z * Z) (l : list (Z * Z)) : list (Z * Z) :=
  match l with
  | [] => [e]
  | e' :: l' => if e.2 <? e'.2 then e :: l else e' :: insert_entry e l'
  end.

Definition expired (now : Z) (e : Z * Z) : Prop := e.2 <= now.
#[export] Instance expired_dec now e : Decision (expired now e).
Proof. unfold expired. apply _. Defined.

Definition first_time (l : list (Z * Z)) : Z :=
  match l with [] => 0 | e :: _ => e.2 end.

Definition ordered (l : list (Z * Z)) : Prop := StronglySorted Z.le l.*2.

(** ** Chains

    [seg H h l e]: following [tmr_next] in the memory [H] from the pointer [h]
    passes through the timers [l] and reaches the pointer [e]. *)

Fixpoint seg (H : gmap Z moltimer) (h : option Z) (l : list Z) (e : option Z) : Prop :=
  match l with
  | [] => h = e
  | t :: l' => h = Some t /\ exists x, H !! t = Some x /\ seg H (tmr_next x) l' e
  end.

(** The queue [q] holds the timers [l]. *)
Record repr (q : tqueue) (l : list (Z * Z)) : Prop := {
  re_chain : seg (theap q) (tmrs q) l.*1 None;
  re_nodup : NoDup l.*1;
  re_times : Forall (fun e => tmr_exp_time <$> theap q !! e.1 = Some e.2) l;
}.

Lemma seg_app H h l1 l2 e :
  seg H h (l1 ++ l2) e <-> exists m, seg H h l1 m /\ seg H m l2 e.
Proof.
  revert h. induction l1 as [|t l1 IH]; intros h; cbn.
  - split; [eauto|]. by intros (m & -> & ?).
  - split.
    + intros (-> & x & Hx & (m & ? & ?)%IH). eauto 10.
    + intros (m & (-> & x & Hx & Hs) & ?). split; [done|]. exists x. rewrite IH. eauto.
Qed.

Lemma seg_insert H h l e t x : t ∉ l -> seg H h l e -> seg (<[t := x]> H) h l e.
Proof.
  revert h. induction l as [|t' l IH]; intros h Ht; cbn; [done|].
  intros (-> & y & Hy & Hs). split; [done|]. exists y.
  rewrite lookup_insert_ne by set_solver. split; [done|]. apply IH; [set_solver|done].
Qed.

(** Memory in which the links are the same. *)
Lemma seg_same H H' h l e :
  (forall t x, t ∈ l -> H !! t = Some x ->
     exists y, H' !! t = Some y /\ tmr_next y = tmr_next x) ->
  seg H h l e -> seg H' h l e.
Proof.
  revert h. induction l as [|t l IH]; intros h Hs; cbn; [done|].
  intros (-> & x & Hx & Ht). split; [done|].
  destruct (Hs t x) as (y & Hy & E); [left|done|]. exists y. rewrite E. split; [done|].
  apply IH; [|done]. intros t' x' Hl. apply Hs. by right.
Qed.

Lemma seg_dom H h l e t : seg H h l e -> t ∈ l -> is_Some (H !! t).
Proof.
  revert h. induction l as [|t' l IH]; intros h; cbn; [by intros _ ?%elem_of_nil|].
  intros (-> & x & Hx & Hs) [->|Ht]%elem_of_cons; eauto.
Qed.

Lemma seg_size H h l : seg H h l None -> NoDup l -> (length l <= size H)%nat.
Proof.
  intros Hs Hn. rewrite <- size_dom, <- (size_list_to_set (C := gset Z)) by done.
  apply subseteq_size. intros t Ht%elem_of_list_to_set. apply elem_of_dom. by eapply seg_dom.
Qed.

(** The cell at the end of a walk. *)
Definition last_cell (c : cell) (l : list Z) : cell :=
  match list.last l with Some t => NEXT t | None => c end.

Lemma last_cell_cons c t l : last_cell c (t :: l) = last_cell (NEXT t) l.
Proof. unfold last_cell. rewrite last_cons. by destruct (list.last l). Qed.

Lemma load_last q c h l e :
  load c q = Some h -> seg (theap q) h l e -> load (last_cell c l) q = Some e.
Proof.
  revert c h. induction l as [|t l IH]; intros c h Hc; cbn; [by intros <-|].
  intros (-> & x & Hx & Hs). rewrite last_cell_cons. eapply IH; [|done]. cbn. by rewrite Hx.
Qed.

(** Redirecting the end of a segment. *)
Lemma store_last q h l e v :
  tmrs q = h -> seg (theap q) h l e -> NoDup l ->
  exists q', store (last_cell HEAD l) v q = Some q' /\
    seg (theap q') (tmrs q') l v /\
    (forall t, (forall x, theap q !! t = Some x -> list.last l <> Some t) ->
       theap q' !! t = theap q !! t) /\
    (forall t x, theap q !! t = Some x -> exists y, theap q' !! t = Some y /\
       tmr_exp_time y = tmr_exp_time x /\ tmr_func y = tmr_func x /\ tmr_arg y = tmr_arg x).
Proof.
  intros Hh Hs Hn. destruct (list.last l) as [t|] eqn:El.
  - apply last_Some in El as [l' ->]. unfold last_cell. rewrite last_snoc. cbn.
    apply seg_app in Hs as (m & Hs & Ht). cbn in Ht. destruct Ht as (-> & x & Hx & _).
    unfold set_timer_at. rewrite Hx. cbn. eexists. split; [done|]. cbn.
    apply list.NoDup_app in Hn as (Hn & Hd & _).
    assert (t ∉ l') by (intros Hin; apply (Hd _ Hin); left). split_and!.
    + apply seg_app. exists (Some t). rewrite Hh. split; [by apply seg_insert|]. cbn. split; [done|].
      eexists. by rewrite lookup_insert_eq.
    + intros t' Hne. destruct (decide (t = t')) as [<-|]; [|by rewrite lookup_insert_ne].
      by destruct (Hne x Hx).
    + intros t' x' Hx'. destruct (decide (t = t')) as [<-|].
      * rewrite lookup_insert_eq. eexists. split; [done|]. by simplify_eq.
      * rewrite lookup_insert_ne by done. eauto.
  - apply last_None in El. subst l. cbn in *. eexists. split; [done|]. cbn. eauto 10.
Qed.

(** ** The walks *)

Lemma clr_loop_found q c h l1 tp l2 n :
  load c q = Some h -> seg (theap q) h (l1 ++ tp :: l2) None -> tp ∉ l1 -> (length l1 < n)%nat ->
  clr_loop n c tp q = (x ← theap q !! tp; store (last_cell c l1) (tmr_next x) q).
Proof.
  revert c h n. induction l1 as [|t l1 IH]; intros c h [|n] Hc Hs Ht Hn; cbn in *; try lia.
  - destruct Hs as (-> & x & Hx & Hs). rewrite Hc. cbn. by rewrite Z.eqb_refl.
  - destruct Hs as (-> & x & Hx & Hs). rewrite Hc. cbn.
    destruct (Z.eqb_spec t tp) as [->|]; [set_solver|]. rewrite last_cell_cons.
    eapply IH; [|exact Hs|set_solver|lia]. cbn. by rewrite Hx.
Qed.

Lemma clr_loop_missing q c h l tp n :
  load c q = Some h -> seg (theap q) h l None -> tp ∉ l -> (length l < n)%nat ->
  clr_loop n c tp q = Some q.
Proof.
  revert c h n. induction l as [|t l IH]; intros c h [|n] Hc Hs Ht Hn; cbn in *; try lia.
  - subst h. by rewrite Hc.
  - destruct Hs as (-> & x & Hx & Hs). rewrite Hc. cbn.
    destruct (Z.eqb_spec t tp) as [->|]; [set_solver|].
    eapply IH; [|exact Hs|set_solver|lia]. cbn. by rewrite Hx.
Qed.

(** Where the walk of [tmrs_settimer] stops. *)
Definition stops_before (H : gmap Z moltimer) (t : Z) (l : list Z) : Prop :=
  match l with
  | [] => True
  | a :: _ => forall x, H !! a = Some x -> t < tmr_exp_time x
  end.

Lemma set_loop_at q c h l1 l2 t n :
  load c q = Some h -> seg (theap q) h (l1 ++ l2) None -> (length l1 < n)%nat ->
  Forall (fun a => forall x, theap q !! a = Some x -> tmr_exp_time x <= t) l1 ->
  stops_before (theap q) t l2 ->
  set_loop n c t q = Some (last_cell c l1).
Proof.
  revert c h n. induction l1 as [|a l1 IH]; intros c h [|n] Hc Hs Hn Hl Hst; cbn in *; try lia.
  - rewrite Hc. cbn. destruct l2 as [|b l2]; cbn in *; [by subst h|].
    destruct Hs as (-> & x & Hx & Hs). rewrite Hx. cbn. specialize (Hst x Hx).
    by destruct (Z.ltb_spec t (tmr_exp_time x)); [|lia].
  - destruct Hs as (-> & x & Hx & Hs). rewrite Hc. cbn. rewrite Hx. cbn.
    apply list.Forall_cons in Hl as [Ha Hl]. specialize (Ha x Hx).
    destruct (Z.ltb_spec t (tmr_exp_time x)); [lia|]. rewrite last_cell_cons.
    eapply IH; [|exact Hs|lia|done|done]. cbn. by rewrite Hx.
Qed.

(** ** The abstract queue *)

Lemma insert_entry_split e l : exists l1 l2,
  l = l1 ++ l2 /\ insert_entry e l = l1 ++ e :: l2 /\
  Forall (fun a => a.2 <= e.2) l1 /\ match l2 with [] => True | a :: _ => e.2 < a.2 end.
Proof.
  induction l as [|a l (l1 & l2 & -> & E & H1 & H2)]; cbn.
  - exists [], []. done.
  - destruct (Z.ltb_spec e.2 a.2) as [H|H].
    + exists [], (a :: l1 ++ l2). done.
    + exists (a :: l1), l2. rewrite E. split_and!; try done. by constructor.
Qed.

Lemma insert_entry_perm e l : insert_entry e l ≡ₚ e :: l.
Proof.
  destruct (insert_entry_split e l) as (l1 & l2 & -> & -> & _). symmetry. apply Permutation_middle.
Qed.

Lemma ordered_cons e l : ordered (e :: l) <-> ordered l /\ Forall (fun a => e.2 <= a.2) l.
Proof.
  unfold ordered. cbn. rewrite <- (Forall_fmap snd (fun t => e.2 <= t)). split.
  - intros H. by apply StronglySorted_inv in H.
  - intros [H1 H2]. by constructor.
Qed.

Lemma insert_entry_ordered e l : ordered l -> ordered (insert_entry e l).
Proof.
  induction l as [|a l IH]; cbn; [intros _; apply ordered_cons; repeat constructor|].
  intros [Hl Ha]%ordered_cons. destruct (Z.ltb_spec e.2 a.2) as [H|H]; apply ordered_cons.
  - split; [by apply ordered_cons|]. constructor; [lia|]. eapply list.Forall_impl; [exact Ha|].
    cbn. lia.
  - split; [by apply IH|]. rewrite insert_entry_perm. by constructor.
Qed.

Lemma filter_ordered (P : Z * Z -> Prop) `{forall e, Decision (P e)} l :
  ordered l -> ordered (filter P l).
Proof.
  induction l as [|a l IH]; [done|]. intros [Hl Ha]%ordered_cons.
  rewrite filter_cons. case_decide; [|by apply IH]. apply ordered_cons.
  split; [by apply IH|]. rewrite list.Forall_forall in *.
  intros b [_ Hb]%list_elem_of_filter. by apply Ha.
Qed.

Lemma clear_entry_ordered tp l : ordered l -> ordered (clear_entry tp l).
Proof. apply filter_ordered. Qed.

Lemma clear_entry_fst tp l : (clear_entry tp l).*1 = del tp l.*1.
Proof.
  unfold clear_entry, del. induction l as [|a l IH]; [done|].
  rewrite fmap_cons, !filter_cons. repeat case_decide; try done. cbn. by rewrite IH.
Qed.

Lemma clear_entry_notin tp l : tp ∉ l.*1 -> clear_entry tp l = l.
Proof.
  unfold clear_entry. induction l as [|a l IH]; [done|]. rewrite fmap_cons.
  intros [Ha Hl]%not_elem_of_cons. rewrite filter_cons_True by congruence. by rewrite IH.
Qed.

Lemma clear_entry_middle tp t l1 l2 : NoDup (l1 ++ (tp, t) :: l2).*1 ->
  clear_entry tp (l1 ++ (tp, t) :: l2) = l1 ++ l2.
Proof.
  rewrite fmap_app, fmap_cons. intros (_ & Hd & [H2 _]%list.NoDup_cons)%list.NoDup_app.
  unfold clear_entry. rewrite list.filter_app, filter_cons_False by (cbn; tauto).
  f_equal; apply clear_entry_notin; [|done]. intros H1. apply (Hd _ H1). left.
Qed.

Lemma head_time_repr q l : repr q l -> head_time q = Some (first_time l).
Proof.
  intros [Hc _ Ht]. unfold head_time. destruct l as [|[t v] l]; cbn in *; [by rewrite Hc|].
  destruct Hc as [-> (x & Hx & _)]. apply list.Forall_cons in Ht as [Ht _]. cbn in Ht.
  rewrite Hx in *. cbn in *. congruence.
Qed.

Ltac ob := cbn [mbind option_bind fst snd].

(** ** The operations refine the abstract queue *)

(** [q'] has the timers of [q]; only the times of [tp] and the links differ. *)
Definition kept (tp v : Z) (q q' : tqueue) : Prop :=
  forall t x, theap q !! t = Some x -> exists y, theap q' !! t = Some y /\
    tmr_exp_time y = (if t =? tp then v else tmr_exp_time x) /\ tmr_arg y = tmr_arg x /\
    (t <> tp -> tmr_func y = tmr_func x).

Lemma kept_times tp v q q' (l : list (Z * Z)) :
  kept tp v q q' -> Forall (fun e => tmr_exp_time <$> theap q !! e.1 = Some e.2) l ->
  Forall (fun e => tmr_exp_time <$> theap q' !! e.1 = Some (if e.1 =? tp then v else e.2)) l.
Proof.
  intros Hk Hl. eapply list.Forall_impl; [exact Hl|]. intros [t v'] Ht. cbn in *.
  destruct (theap q !! t) as [x|] eqn:Hx; [|done]. cbn in Ht. simplify_eq.
  destruct (Hk t x Hx) as (y & -> & E & _). cbn. by rewrite E.
Qed.

Lemma times_notin tp v q (l : list (Z * Z)) : tp ∉ l.*1 ->
  Forall (fun e => tmr_exp_time <$> theap q !! e.1 = Some (if e.1 =? tp then v else e.2)) l ->
  Forall (fun e => tmr_exp_time <$> theap q !! e.1 = Some e.2) l.
Proof.
  intros Ht. rewrite !list.Forall_forall. intros Hf [t v'] He. rewrite (Hf _ He). cbn.
  destruct (Z.eqb_spec t tp) as [->|]; [|done]. destruct Ht. by apply (list_elem_of_fmap_2 fst) in He.
Qed.

(** Changing a timer but its link. *)
Lemma set_timer_kept q l tp v f x0 :
  repr q l -> theap q !! tp = Some x0 ->
  tmr_next (f x0) = tmr_next x0 -> tmr_exp_time (f x0) = v -> tmr_arg (f x0) = tmr_arg x0 ->
  exists q1, set_timer_at tp f q = Some q1 /\ kept tp v q q1 /\ theap q1 !! tp = Some (f x0) /\
    tmrs q1 = tmrs q /\ seg (theap q1) (tmrs q1) l.*1 None.
Proof.
  intros [Hc Hn Ht] Hx Hl Hv Ha. unfold set_timer_at. rewrite Hx. cbn. eexists. split; [done|].
  cbn. rewrite lookup_insert_eq. split_and!; [|done|done|].
  - intros t x Htx. cbn. destruct (Z.eqb_spec t tp) as [->|Hne].
    + simplify_eq. rewrite lookup_insert_eq. eexists. by split_and!.
    + rewrite lookup_insert_ne by congruence. eexists. by split_and!.
  - eapply seg_same; [|exact Hc]. intros t x _ Htx. destruct (decide (tp = t)) as [->|].
    + simplify_eq. rewrite lookup_insert_eq. eauto.
    + rewrite lookup_insert_ne by done. eauto.
Qed.

(** Unlinking a timer that is in the chain. *)
Lemma unlink_timer q l1 tp l2 x :
  seg (theap q) (tmrs q) (l1 ++ tp :: l2) None -> NoDup (l1 ++ tp :: l2) ->
  theap q !! tp = Some x ->
  exists q', store (last_cell HEAD l1) (tmr_next x) q = Some q' /\
    seg (theap q') (tmrs q') (l1 ++ l2) None /\
    (forall t y, theap q !! t = Some y -> exists z, theap q' !! t = Some z /\
       tmr_exp_time z = tmr_exp_time y /\ tmr_func z = tmr_func y /\ tmr_arg z = tmr_arg y).
Proof.
  intros (m & H1 & H2)%seg_app (Hn1 & Hd & [Ht2 Hn2]%list.NoDup_cons)%list.NoDup_app Hx.
  cbn in H2. destruct H2 as (-> & y & Hy & H2). rewrite Hx in Hy. injection Hy as <-.
  destruct (store_last q _ l1 _ (tmr_next x) eq_refl H1 Hn1) as (q' & E & S1 & Hsame & Hkeep).
  exists q'. split_and!; [done| |done]. apply seg_app. exists (tmr_next x). split; [done|].
  eapply seg_same; [|exact H2]. intros t z Hz Htz. exists z. split; [|done]. rewrite Hsame; [done|].
  intros z' _ (l' & ->)%last_Some. apply (Hd t); [set_solver|]. by right.
Qed.

Lemma clrtimer_refines q l tp x0 :
  repr q l -> theap q !! tp = Some x0 ->
  exists q', tmrs_clrtimer tp q = Some (q', first_time l, first_time (clear_entry tp l)) /\
    repr q' (clear_entry tp l) /\ kept tp TMR_NEVER q q'.
Proof.
  intros HR Hx. unfold tmrs_clrtimer. rewrite (head_time_repr _ _ HR). ob.
  destruct (set_timer_kept q l tp TMR_NEVER (fun x => x <| tmr_exp_time := TMR_NEVER |>) x0 HR Hx)
    as (q1 & E1 & Hk & Hx1 & Et1 & Hs1); [done..|].
  rewrite E1. ob. pose proof (re_nodup _ _ HR) as Hn. pose proof (re_times _ _ HR) as Htm.
  pose proof (seg_size _ _ _ Hs1 Hn) as Hsz.
  assert (Hm : exists q2, clr_loop (walk_fuel q1) HEAD tp q1 = Some q2 /\
    repr q2 (clear_entry tp l) /\ kept tp TMR_NEVER q q2).
  { unfold walk_fuel. destruct (decide (tp ∈ l.*1)) as [Hin|Hin].
    - apply list_elem_of_fmap_1 in Hin as ([tp' t] & E & Hin). cbn in E. subst tp'.
      apply list_elem_of_split in Hin as (l1 & l2 & ->).
      rewrite clear_entry_middle by done. rewrite fmap_app, fmap_cons in *. cbn [fst] in *.
      destruct (unlink_timer _ _ _ _ _ Hs1 Hn Hx1) as (q2 & E2 & Hs2 & Hk2).
      assert (Hk' : kept tp TMR_NEVER q q2).
      { intros t' y Hy. destruct (Hk t' y Hy) as (z & Hz & Z1 & Z2 & Z3).
        destruct (Hk2 t' z Hz) as (w & Hw & W1 & W2 & W3). exists w.
        rewrite W1, W3. split_and!; [done..|]. rewrite W2. done. }
      apply list.NoDup_app in Hn as (Hn1 & Hd & [Ht2 Hn2]%list.NoDup_cons).
      exists q2. split_and!; [| |done].
      + rewrite (clr_loop_found q1 HEAD (tmrs q1) l1.*1 tp l2.*1); [by rewrite Hx1| | | |]; try done.
        * intros H1. apply (Hd _ H1). left.
        * rewrite length_app in Hsz. cbn in Hsz. lia.
      + split; rewrite ?fmap_app; [done| |].
        * apply list.NoDup_app. split_and!; [done| |done]. intros a H1 H2. apply (Hd a H1). by right.
        * apply list.Forall_app in Htm as [T1 [_ T2]%list.Forall_cons].
          apply (kept_times _ _ _ _ _ Hk'), times_notin in T1; [|intros H1; apply (Hd _ H1); left].
          apply (kept_times _ _ _ _ _ Hk'), times_notin in T2; [|done].
          by apply list.Forall_app.
    - exists q1. rewrite clear_entry_notin by done. split_and!; [| |done].
      + by eapply clr_loop_missing; [| |exact Hin|apply le_n_S].
      + split; [done..|]. by eapply times_notin, kept_times. }
  destruct Hm as (q2 & E2 & HR2 & Hk2). rewrite E2. ob. rewrite (head_time_repr _ _ HR2). ob.
  eauto.
Qed.

Lemma clear_entry_gone tp l : tp ∉ (clear_entry tp l).*1.
Proof. rewrite clear_entry_fst, elem_of_del. tauto. Qed.

(** Linking a timer between two parts of a chain that it is not in. *)
Lemma link_timer q l1 l2 e tp x :
  seg (theap q) (tmrs q) l1 e -> seg (theap q) e l2 None -> NoDup (l1 ++ l2) ->
  tp ∉ l1 ++ l2 -> theap q !! tp = Some x -> tmr_next x = e ->
  exists q', store (last_cell HEAD l1) (Some tp) q = Some q' /\
    seg (theap q') (tmrs q') (l1 ++ tp :: l2) None /\
    (forall t y, theap q !! t = Some y -> exists z, theap q' !! t = Some z /\
       tmr_exp_time z = tmr_exp_time y /\ tmr_func z = tmr_func y /\ tmr_arg z = tmr_arg y).
Proof.
  intros H1 H2 (Hn1 & Hd & Hn2)%list.NoDup_app Htp Hx He.
  destruct (store_last q _ l1 _ (Some tp) eq_refl H1 Hn1) as (q' & E & S1 & Hsame & Hkeep).
  assert (Hs : forall t, t ∉ l1 -> theap q' !! t = theap q !! t).
  { intros t Ht. apply Hsame. intros z _ (l' & ->)%last_Some. set_solver. }
  exists q'. split_and!; [done| |done]. apply seg_app. exists (Some tp). split; [done|].
  split; [done|]. exists x. rewrite Hs by set_solver. split; [done|]. rewrite He.
  eapply seg_same; [|exact H2]. intros t z Hz Htz. exists z. split; [|done].
  rewrite Hs; [done|]. intros Hin. by apply (Hd t).
Qed.

(** The place of the walk of [tmrs_settimer]. *)
Lemma set_loop_repr q l1 l2 t :
  repr q (l1 ++ l2) -> Forall (fun a => a.2 <= t) l1 ->
  match l2 with [] => True | a :: _ => t < a.2 end ->
  set_loop (walk_fuel q) HEAD t q = Some (last_cell HEAD l1.*1).
Proof.
  intros [Hc Hn [T1 T2]%list.Forall_app] H1 H2. pose proof (seg_size _ _ _ Hc Hn) as Hsz.
  rewrite fmap_app, length_app in Hsz. rewrite fmap_app in Hc.
  eapply set_loop_at; [done|exact Hc|unfold walk_fuel; lia| |].
  - rewrite list.Forall_fmap. rewrite list.Forall_forall in *. intros a Ha x Hx. cbn in Hx.
    specialize (T1 a Ha). rewrite Hx in T1. injection T1 as E. specialize (H1 a Ha). cbn in H1. lia.
  - destruct l2 as [|[b v] l2]; [done|]. cbn. intros x Hx.
    apply list.Forall_cons in T2 as [T2 _]. cbn in T2. rewrite Hx in T2. injection T2 as E.
    cbn in H2. lia.
Qed.

Lemma kept_trans tp v1 v2 q1 q2 q3 : kept tp v1 q1 q2 -> kept tp v2 q2 q3 -> kept tp v2 q1 q3.
Proof.
  intros K1 K2 t x Hx. destruct (K1 t x Hx) as (y & Hy & Y1 & Y2 & Y3).
  destruct (K2 t y Hy) as (z & Hz & Z1 & Z2 & Z3). exists z. split; [done|].
  rewrite Z1, Z2, Y1, Y2. split_and!; [by case_match|done|]. intros Hne. by rewrite Z3, Y3.
Qed.

Lemma insert_entry_repr q q' l1 l2 tp t :
  repr q (l1 ++ l2) -> tp ∉ (l1 ++ l2).*1 -> kept tp t q q' -> is_Some (theap q !! tp) ->
  seg (theap q') (tmrs q') (l1.*1 ++ tp :: l2.*1) None -> repr q' (l1 ++ (tp, t) :: l2).
Proof.
  intros [_ Hn Ht] Hin Hk [x Hx] Hs. split.
  - by rewrite fmap_app, fmap_cons.
  - rewrite fmap_app in *. apply list.NoDup_app in Hn as (H1 & Hd & H2).
    apply list.NoDup_app. split_and!; [done| |apply list.NoDup_cons; set_solver].
    intros a Ha [->|Ha2]%elem_of_cons; [set_solver|]. by apply (Hd a).
  - pose proof (times_notin _ _ _ _ Hin (kept_times _ _ _ _ _ Hk Ht)) as [T1 T2]%list.Forall_app.
    apply list.Forall_app. split; [done|]. apply list.Forall_cons. split; [|done]. cbn.
    destruct (Hk tp x Hx) as (y & -> & E & _). cbn. by rewrite E, Z.eqb_refl.
Qed.

(** The second half of [tmrs_settimer]. *)
Lemma place_timer q l1 l2 tp t x :
  repr q (l1 ++ l2) -> tp ∉ (l1 ++ l2).*1 -> theap q !! tp = Some x -> tmr_exp_time x = t ->
  Forall (fun a => a.2 <= t) l1 -> match l2 with [] => True | a :: _ => t < a.2 end ->
  exists p q3 q4, set_loop (walk_fuel q) HEAD t q = Some (last_cell HEAD l1.*1) /\
    load (last_cell HEAD l1.*1) q = Some p /\
    set_timer_at tp (fun x => x <| tmr_next := p |>) q = Some q3 /\
    store (last_cell HEAD l1.*1) (Some tp) q3 = Some q4 /\
    repr q4 (l1 ++ (tp, t) :: l2) /\ kept tp t q q4 /\
    tmr_func <$> theap q4 !! tp = Some (tmr_func x).
Proof.
  intros HR Hgone Hx Hxt F1 F2. pose proof (re_chain _ _ HR) as Hs.
  rewrite fmap_app in Hs, Hgone. apply seg_app in Hs as (e & S1 & S2).
  set (x3 := x <| tmr_next := e |>). set (q3 := q <| theap ::= <[tp := x3]> |>).
  assert (Hx3 : theap q3 !! tp = Some x3) by apply lookup_insert_eq.
  destruct (link_timer q3 l1.*1 l2.*1 e tp x3) as (q4 & E4 & S4 & K4); [..|done|done|done|].
  1,2: apply seg_insert; [set_solver|done].
  { rewrite <- fmap_app. apply HR. }
  assert (K : kept tp t q q4).
  { intros a y Hy. destruct (decide (a = tp)) as [->|Hne].
    - destruct (K4 tp x3 Hx3) as (z & Hz & Z1 & _ & Z3). simplify_eq. exists z.
      rewrite Z1, Z3, Z.eqb_refl. done.
    - destruct (K4 a y) as (z & Hz & Z1 & Z2 & Z3).
      { cbn. by rewrite lookup_insert_ne by congruence. }
      exists z. rewrite Z1, Z2, Z3. apply Z.eqb_neq in Hne as ->. done. }
  exists e, q3, q4. split_and!; [by apply set_loop_repr with l2| | |done| |done|].
  - exact (load_last q HEAD (tmrs q) _ _ eq_refl S1).
  - unfold set_timer_at. by rewrite Hx.
  - eapply insert_entry_repr; [exact HR|by rewrite fmap_app|exact K|by eexists|exact S4].
  - destruct (K4 tp x3 Hx3) as (z & -> & _ & Z2 & _). cbn. by rewrite Z2.
Qed.

Lemma settimer_refines q l tp x0 t w :
  repr q l -> theap q !! tp = Some x0 ->
  let l' := insert_entry (tp, t) (clear_entry tp l) in
  exists q', tmrs_settimer tp t w q = Some (q', first_time l, first_time l') /\
    repr q' l' /\ kept tp t q q' /\ tmr_func <$> theap q' !! tp = Some w.
Proof.
  intros HR Hx l'. unfold tmrs_settimer. rewrite (head_time_repr _ _ HR). ob.
  destruct (clrtimer_refines _ _ _ _ HR Hx) as (q1 & -> & HR1 & K1). ob.
  destruct (K1 tp x0 Hx) as (x1 & Hx1 & _).
  pose proof (clear_entry_gone tp l) as Hgone.
  destruct (insert_entry_split (tp, t) (clear_entry tp l)) as (l1 & l2 & El & Ei & F1 & F2).
  unfold l'. rewrite Ei. rewrite El in HR1, Hgone. clear l' El Ei.
  destruct (set_timer_kept q1 (l1 ++ l2) tp t
    (fun x => x <| tmr_exp_time := t |> <| tmr_func := w |>) x1 HR1 Hx1)
    as (q2 & -> & K2 & Hx2 & Et2 & Hs2); [done..|]. ob.
  assert (HR2 : repr q2 (l1 ++ l2)).
  { split; [done|apply HR1|]. eapply times_notin; [exact Hgone|]. eapply kept_times, HR1. done. }
  destruct (place_timer q2 l1 l2 tp t _ HR2 Hgone Hx2 eq_refl F1 F2)
    as (p & q3 & q4 & -> & E2 & E3 & E4 & HR4 & K4 & W4).
  ob. rewrite E2. ob. rewrite E3. ob. rewrite E4. ob. rewrite (head_time_repr _ _ HR4). ob.
  exists q4. split_and!; [done..| |done].
  eapply kept_trans; [|exact K4]. eapply kept_trans; [exact K1|exact K2].
Qed.

(** ** Expiration *)

(** Taking the first timer off the queue. *)
Lemma expire_head q tp t l :
  repr q ((tp, t) :: l) -> exists x q2, tmrs q = Some tp /\ theap q !! tp = Some x /\
    tmr_exp_time x = t /\
    (q1 ← store HEAD (tmr_next x) q; set_timer_at tp (fun y => y <| tmr_exp_time := TMR_NEVER |>) q1)
      = Some q2 /\ repr q2 l /\ is_Some (theap q2 !! tp).
Proof.
  intros [Hc Hn Ht]. cbn in Hc. destruct Hc as (Hh & x & Hx & Hs).
  rewrite fmap_cons in Hn. apply list.NoDup_cons in Hn as [Htp Hn]. cbn in Htp.
  apply list.Forall_cons in Ht as [Ht0 Ht]. cbn in Ht0. rewrite Hx in Ht0. injection Ht0 as E.
  exists x. eexists. do 3 (split; [done|]). split.
  - unfold store, set_timer_at. ob. change (theap (q <| tmrs := tmr_next x |>)) with (theap q).
    rewrite Hx. ob. reflexivity.
  - cbn. rewrite lookup_insert_eq. split; [|done]. split; [|done|]; cbn.
    + by apply seg_insert.
    + rewrite list.Forall_forall in *. intros e He. rewrite lookup_insert_ne; [by apply Ht|].
      intros E'. apply Htp. rewrite E'. by apply list_elem_of_fmap_2.
Qed.

Lemma first_pending now e l :
  ordered (e :: l) -> ~ expired now e -> Forall (fun a => ~ expired now a) (e :: l).
Proof.
  intros [_ Ha]%ordered_cons He. constructor; [done|]. eapply list.Forall_impl; [exact Ha|].
  unfold expired in *. cbn. lia.
Qed.

Lemma none_expired now l :
  Forall (fun e => ~ expired now e) l ->
  filter (expired now) l = [] /\ filter (fun e => ~ expired now e) l = l.
Proof.
  induction 1 as [|e l He _ [IH1 IH2]]; [done|].
  rewrite filter_cons_False, filter_cons_True by done. by rewrite IH1, IH2.
Qed.

Section Expire.
Context (call : Z -> Z -> tqueue -> option tqueue) (now : Z).

(** A watchdog function may change the queue through the operations above, if
    it sets no timer to a time that has passed already. *)
Definition polite : Prop := forall f t q l,
  repr q l -> ordered l -> is_Some (theap q !! t) ->
  exists q' l', call f t q = Some q' /\ repr q' l' /\ ordered l' /\
    (length (filter (expired now) l') <= length (filter (expired now) l))%nat.

Lemma exp_loop_head n q tp x q2 :
  tmrs q = Some tp -> theap q !! tp = Some x -> tmr_exp_time x <= now ->
  (q1 ← store HEAD (tmr_next x) q; set_timer_at tp (fun y => y <| tmr_exp_time := TMR_NEVER |>) q1)
    = Some q2 ->
  exp_loop call (S n) now q =
    (q3 ← call (tmr_func x) tp q2; r ← exp_loop call n now q3; Some (fst r, tp :: snd r)).
Proof.
  intros Hh Hx Ht Hq2. cbn [exp_loop]. rewrite Hh, Hx. ob.
  destruct (Z.leb_spec (tmr_exp_time x) now); [|lia].
  destruct (store HEAD _ q) as [q1|]; [|done]. ob. cbn [mbind option_bind] in Hq2.
  by rewrite Hq2.
Qed.

Lemma exp_loop_stops n q l :
  repr q l -> ordered l -> Forall (fun e => ~ expired now e) l ->
  exp_loop call (S n) now q = Some (q, []).
Proof.
  intros [Hc _ Ht] _ Hp. cbn [exp_loop]. destruct l as [|[t v] l]; cbn in Hc; [by rewrite Hc|].
  destruct Hc as (-> & x & Hx & _). rewrite Hx. ob.
  apply list.Forall_cons in Ht as [Ht _], Hp as [Hp _]. cbn in Ht. rewrite Hx in Ht.
  injection Ht as Ht. unfold expired in Hp. cbn in Hp.
  by destruct (Z.leb_spec (tmr_exp_time x) now); [lia|].
Qed.

Lemma exp_loop_ends n q l :
  polite -> repr q l -> ordered l -> (length (filter (expired now) l) < n)%nat ->
  exists q' fired l', exp_loop call n now q = Some (q', fired) /\ repr q' l' /\ ordered l' /\
    Forall (fun e => ~ expired now e) l'.
Proof.
  intros HP. revert q l. induction n as [|n IH]; intros q l HR HO Hn; [lia|].
  destruct (decide (Forall (fun e => ~ expired now e) l)) as [Hp|Hp].
  { exists q, [], l. by rewrite (exp_loop_stops n q l). }
  destruct l as [|e l]; [by destruct Hp|].
  destruct (decide (expired now e)) as [He|He]; [|by destruct Hp; apply first_pending].
  destruct e as [tp t]. destruct (expire_head _ _ _ _ HR) as (x & q2 & Hh & Hx & Ht & Hq2 & HR2 & Hin).
  apply ordered_cons in HO as [HO _]. rewrite filter_cons_True in Hn by done. cbn in Hn.
  destruct (HP (tmr_func x) tp q2 l HR2 HO Hin) as (q3 & l3 & E3 & HR3 & HO3 & Hl3).
  destruct (IH q3 l3 HR3 HO3) as (q' & fired & l' & E' & HR' & HO' & Hp'); [lia|].
  exists q', (tp :: fired), l'. rewrite (exp_loop_head n q tp x q2); [|done|done| |done].
  - rewrite E3. ob. by rewrite E'.
  - unfold expired in He. cbn in He. lia.
Qed.

(** Watchdog functions that leave the timers alone. *)
Context (Hquiet : forall f t q, call f t q = Some q).

Lemma exp_loop_quiet n q l :
  repr q l -> ordered l -> (length (filter (expired now) l) < n)%nat ->
  exists q', exp_loop call n now q = Some (q', (filter (expired now) l).*1) /\
    repr q' (filter (fun e => ~ expired now e) l).
Proof.
  revert q l. induction n as [|n IH]; intros q l HR HO Hn; [lia|].
  destruct (decide (Forall (fun e => ~ expired now e) l)) as [Hp|Hp].
  { exists q. rewrite (exp_loop_stops n q l) by done. by destruct (none_expired _ _ Hp) as [-> ->]. }
  destruct l as [|e l]; [by destruct Hp|].
  destruct (decide (expired now e)) as [He|He]; [|by destruct Hp; apply first_pending].
  destruct e as [tp t]. destruct (expire_head _ _ _ _ HR) as (x & q2 & Hh & Hx & Ht & Hq2 & HR2 & Hin).
  apply ordered_cons in HO as [HO _]. rewrite filter_cons_True in Hn by done. cbn in Hn.
  rewrite filter_cons_True, filter_cons_False by tauto.
  destruct (IH q2 l HR2 HO) as (q' & E' & HR'); [lia|].
  exists q'. rewrite (exp_loop_head n q tp x q2); [|done|done| |done].
  - rewrite Hquiet. ob. by rewrite E'.
  - unfold expired in He. cbn in He. lia.
Qed.
End Expire.

(** Changing a timer but its link: the queue holds the same timers, in the
    same order, at the same times but for the one changed. *)
Lemma retime q l tp x f :
  repr q l -> theap q !! tp = Some x -> tmr_next (f x) = tmr_next x ->
  exists q1 l1, set_timer_at tp f q = Some q1 /\ repr q1 l1 /\
    clear_entry tp l1 = clear_entry tp l /\ theap q1 !! tp = Some (f x) /\
    (tmr_exp_time (f x) = tmr_exp_time x -> l1 = l).
Proof.
  intros [Hc Hn Ht] Hx Hf. unfold set_timer_at. rewrite Hx. ob.
  set (g := fun e : Z * Z => if e.1 =? tp then (tp, tmr_exp_time (f x)) else e).
  assert (Hg : (g <$> l).*1 = l.*1).
  { rewrite <- list_fmap_compose. apply list_fmap_ext. intros _ e _. unfold g, compose.
    by destruct (Z.eqb_spec e.1 tp). }
  eexists _, (g <$> l). split; [done|]. cbn. rewrite lookup_insert_eq. split_and!; [split|..]; cbn.
  - rewrite Hg. eapply seg_same; [|exact Hc]. intros t y _ Hy. destruct (decide (tp = t)) as [->|].
    + simplify_eq. rewrite lookup_insert_eq. eauto.
    + rewrite lookup_insert_ne by done. eauto.
  - by rewrite Hg.
  - rewrite list.Forall_fmap. eapply list.Forall_impl; [exact Ht|]. intros e He. unfold compose, g.
    cbv beta in *. destruct (Z.eqb_spec e.1 tp) as [E|E].
    + cbn. by rewrite lookup_insert_eq.
    + by rewrite lookup_insert_ne by congruence.
  - clear. unfold clear_entry. induction l as [|e l IH]; [done|].
    rewrite fmap_cons, !filter_cons, IH. unfold g. destruct (Z.eqb_spec e.1 tp) as [E|E].
    + repeat case_decide; cbn in *; congruence.
    + done.
  - done.
  - intros E. rewrite <- (list_fmap_id l) at 2. apply list_fmap_ext. intros i e He. unfold g. cbn.
    destruct (Z.eqb_spec e.1 tp) as [E'|]; [|done]. rewrite list.Forall_forall in Ht.
    specialize (Ht e (list_elem_of_lookup_2 _ _ _ He)). destruct e as [a v]. cbn in *. subst a.
    rewrite Hx in Ht. cbn in Ht. congruence.
Qed.

(** ** Properties *)

(** C31. the timer queue is an ordered list.  On a chain in memory that holds
    the timers [l] in order of expiration, [tmrs_clrtimer] removes the timer
    and nothing else and [tmrs_settimer] moves it to its place by time, after
    the timers that expire at the same time; both return the expiration time
    of the first timer before and store the one after, keep the arguments and
    the other watchdogs, and leave the queue in order. *)
Theorem timers_refine q l tp x0 t w :
  repr q l -> ordered l -> theap q !! tp = Some x0 ->
  let lc := clear_entry tp l in
  let ls := insert_entry (tp, t) lc in
  (exists q', tmrs_clrtimer tp q = Some (q', first_time l, first_time lc) /\
     repr q' lc /\ ordered lc /\ kept tp TMR_NEVER q q') /\
  (exists q', tmrs_settimer tp t w q = Some (q', first_time l, first_time ls) /\
     repr q' ls /\ ordered ls /\ kept tp t q q' /\ tmr_func <$> theap q' !! tp = Some w).
Proof.
  intros HR HO Hx lc ls. assert (HOc : ordered lc) by by apply clear_entry_ordered.
  assert (HOs : ordered ls) by by apply insert_entry_ordered. split.
  - destruct (clrtimer_refines _ _ _ _ HR Hx) as (q' & ? & ? & ?). eauto 10.
  - destruct (settimer_refines _ _ _ _ t w HR Hx) as (q' & ? & ? & ? & ?). eauto 10.
Qed.

(** C32. expiration ends.  As long as the watchdog functions set no timer to a
    time that has passed, [tmrs_exptimers] ends, after at most as many steps
    as there are expired timers plus one; it leaves the queue in order and
    without expired timers, and stores the time of the first one left. *)
Theorem exptimers_ends call now q l fuel :
  polite call now -> repr q l -> ordered l -> (length (filter (expired now) l) < fuel)%nat ->
  exists q' fired l', tmrs_exptimers call fuel now q = Some (q', fired, first_time l') /\
    repr q' l' /\ ordered l' /\ Forall (fun e => ~ expired now e) l'.
Proof.
  intros HP HR HO Hn. unfold tmrs_exptimers.
  destruct (exp_loop_ends call now fuel q l HP HR HO Hn) as (q' & fired & l' & E & HR' & HO' & Hp).
  exists q', fired, l'. rewrite E. ob. by rewrite (head_time_repr _ _ HR').
Qed.

(** the watchdogs run in order.  When the watchdog functions leave the
    timers alone, they are called for exactly the timers that have expired,
    in order of expiration, and the other timers stay. *)
Theorem exptimers_order call now q l fuel :
  (forall f t q, call f t q = Some q) -> repr q l -> ordered l ->
  (length (filter (expired now) l) < fuel)%nat ->
  exists q', tmrs_exptimers call fuel now q =
      Some (q', (filter (expired now) l).*1, first_time (filter (fun e => ~ expired now e) l)) /\
    repr q' (filter (fun e => ~ expired now e) l).
Proof.
  intros HQ HR HO Hn. unfold tmrs_exptimers.
  destruct (exp_loop_quiet call now HQ fuel q l HR HO Hn) as (q' & E & HR').
  exists q'. rewrite E. ob. by rewrite (head_time_repr _ _ HR').
Qed.

(** *** Three timers: 1 and 3 are queued, 2 is not *)

Definition timers0 : tqueue :=
  mk_tqueue (Some 1)
    (<[1 := mk_timer (Some 3) 10 0 7]> (<[2 := mk_timer None TMR_NEVER 0 8]>
     {[ 3 := mk_timer None 20 0 9 ]})).

Lemma timers0_repr : repr timers0 [(1, 10); (3, 20)].
Proof.
  split.
  - cbn. split; [done|]. eexists. split; [reflexivity|]. cbn. split; [done|]. eexists.
    split; [reflexivity|done].
  - cbn. apply list.NoDup_cons. split; [set_solver|]. apply NoDup_singleton.
  - repeat constructor.
Qed.

Lemma timers0_ordered : ordered [(1, 10); (3, 20)].
Proof. repeat constructor; done. Qed.

Lemma timers_refine_witness :
  (exists q', tmrs_clrtimer 2 timers0 = Some (q', 10, 10) /\
     repr q' [(1, 10); (3, 20)] /\ ordered [(1, 10); (3, 20)] /\ kept 2 TMR_NEVER timers0 q') /\
  (exists q', tmrs_settimer 2 10 5 timers0 = Some (q', 10, 10) /\
     repr q' [(1, 10); (2, 10); (3, 20)] /\ ordered [(1, 10); (2, 10); (3, 20)] /\
     kept 2 10 timers0 q' /\ tmr_func <$> theap q' !! 2 = Some 5).
Proof.
  exact (timers_refine timers0 _ 2 (mk_timer None TMR_NEVER 0 8) 10 5 timers0_repr timers0_ordered
    eq_refl).
Defined.

(** A watchdog that sets its timer again. *)
Definition periodic (next : Z) (f t : Z) (q : tqueue) : option tqueue :=
  r ← tmrs_settimer t next f q; Some (fst (fst r)).

Lemma clear_entry_filter now tp l :
  (length (filter (expired now) (clear_entry tp l)) <= length (filter (expired now) l))%nat.
Proof.
  unfold clear_entry. induction l as [|e l IH]; [done|]. rewrite !filter_cons.
  destruct (decide (e.1 <> tp)); rewrite ?filter_cons; case_decide; cbn; lia.
Qed.

Lemma periodic_polite now next : now < next -> polite (periodic next) now.
Proof.
  intros Hlt f t q l HR HO [x Hx]. unfold periodic.
  destruct (settimer_refines _ _ _ _ next f HR Hx) as (q' & -> & HR' & _). ob.
  eexists _, _. split_and!; [done|exact HR'|by apply insert_entry_ordered, clear_entry_ordered|].
  rewrite insert_entry_perm, filter_cons_False by (unfold expired; cbn; lia).
  apply clear_entry_filter.
Qed.

Lemma exptimers_ends_witness :
  exists q' fired l', tmrs_exptimers (periodic 1000) 2 15 timers0 = Some (q', fired, first_time l') /\
    repr q' l' /\ ordered l' /\ Forall (fun e => ~ expired 15 e) l'.
Proof.
  exact (exptimers_ends (periodic 1000) 15 timers0 _ 2 (periodic_polite 15 1000 ltac:(lia))
    timers0_repr timers0_ordered ltac:(vm_compute; lia)).
Defined.

Lemma exptimers_order_witness :
  exists q', tmrs_exptimers (fun _ _ q => Some q) 2 15 timers0 = Some (q', [1], 20) /\
    repr q' [(3, 20)].
Proof.
  exact (exptimers_order (fun _ _ q => Some q) 15 timers0 _ 2 (fun _ _ _ => eq_refl)
    timers0_repr timers0_ordered ltac:(vm_compute; lia)).
Defined.
