(* ===== verification/Clock.v ===== *)
(** * The clock of the system task and the alarms of the process manager

    [tasks/systask/clock.c] keeps a queue of watchdog timers and programs the
    interval timer of Linux, whose signal runs [clock_handler];
    [tasks/systask/do_setalarm.c] gives each process one timer of that queue.
    [servers/pm/timers.c] multiplexes its own queue of timers over its alarm.

    The process manager is proved against the interface [AlarmService]; the
    system task implements it.  What carries the request between the two (the
    message of [sys_setalarm] and its reply) is not modelled here. *)

From S2P Require Import Prelude Timers.

(** ** State of the clock *)

Definition INTERVAL_SECS : Z := 1.
Definition INTERVAL_USECS : Z := 0.

(** The interval timer [ITIMER_REAL]: seconds and microseconds to the next
    signal and between signals.  It is disarmed when [it_value] is zero. *)
Record itimerval := mk_itimer { it_interval : Z * Z; it_value : Z * Z }.

Definition armed_itimer (t : itimerval) : bool := negb (bool_decide (it_value t = (0, 0))).

(** The signal: the timer is loaded with the interval. *)
Definition itimer_fires (t : itimerval) : itimerval := mk_itimer (it_interval t) (it_interval t).

Record clock := mk_clock {
  clock_q : tqueue;                         (* clock_timers *)
  next_timeout : Z;
  realtime : Z;
  itimer : itimerval;
}.

#[export] Instance eta_clock : Eta clock := fun r =>
  mk_clock (clock_q r) (next_timeout r) (realtime r) (itimer r).

Definition set_shot (sec usec : Z) (c : clock) : clock :=
  c <| itimer := mk_itimer (0, 0) (sec, usec) |>.

Definition set_interval (sec usec : Z) (c : clock) : clock :=
  c <| itimer := mk_itimer (sec, usec) (sec, usec) |>.

(** Ticks since the host started; [sec] and [nsec] are what [clock_gettime]
    gives. *)
Definition get_uptime (clockTicks sec nsec : Z) : Z :=
  let td := 1000000000 / clockTicks in
  (nsec / td + sec * clockTicks) mod ULONG_MOD.

(** [next_timeout = clock_timers == NULL ? TMR_NEVER : clock_timers->tmr_exp_time]. *)
Definition head_or_never (q : tqueue) : option Z :=
  match tmrs q with
  | None => Some TMR_NEVER
  | Some t => x ← theap q !! t; Some (tmr_exp_time x)
  end.

Definition init_clock (q : tqueue) : clock :=
  set_interval INTERVAL_SECS INTERVAL_USECS (mk_clock q TMR_NEVER 0 (mk_itimer (0, 0) (0, 0))).

Definition set_timer (tp exp_time watchdog : Z) (c : clock) : option clock :=
  r ← tmrs_settimer tp exp_time watchdog (clock_q c);
  let q := fst (fst r) in
  t ← tmrs q; x ← theap q !! t;
  Some (c <| clock_q := q |> <| next_timeout := tmr_exp_time x |>).

Definition reset_timer (tp : Z) (c : clock) : option clock :=
  r ← tmrs_clrtimer tp (clock_q c);
  let q := fst (fst r) in
  n ← head_or_never q;
  Some (c <| clock_q := q |> <| next_timeout := n |>).

(** [next_timeout - realtime] of unsigned longs. *)
Definition ticks_left (c : clock) : Z := (next_timeout c - realtime c) mod ULONG_MOD.

Section Handler.
Context (call : Z -> Z -> tqueue -> option tqueue) (clockTicks : Z).

(** [0 < ticks left < INTERVAL_SECS*clockTicks]. *)
Definition due_soon (c : clock) : bool :=
  (0 <? ticks_left c) && (ticks_left c <? INTERVAL_SECS * clockTicks).

(** The handler of [SIGALRM]; [uptime] is what [get_uptime] returns.  Also
    gives the timers whose watchdog ran. *)
Definition clock_handler (fuel : nat) (uptime : Z) (c : clock) : option (clock * list Z) :=
  let c1 := c <| realtime := uptime |> in
  if due_soon c1 then
    let delta_sec := ticks_left c1 in
    let delta_usec := (delta_sec mod clockTicks) * 1000 / clockTicks in
    Some (set_shot (delta_sec / clockTicks) (delta_usec * 1000) c1, [])
  else if next_timeout c1 >? realtime c1 then Some (c1, [])
  else
    r ← tmrs_exptimers call fuel (realtime c1) (clock_q c1);
    let q := fst (fst r) in
    n ← head_or_never q;
    let c2 := c1 <| clock_q := q |> <| next_timeout := n |> in
    if negb (n =? TMR_NEVER) && due_soon c2 then
      Some (set_shot (ticks_left c2 / clockTicks) ((ticks_left c2 mod clockTicks) * 1000) c2,
            snd (fst r))
    else Some (set_interval INTERVAL_SECS INTERVAL_USECS c2, snd (fst r)).

(** The signal arrives. *)
Definition sigalrm (fuel : nat) (uptime : Z) (c : clock) : option (clock * list Z) :=
  if armed_itimer (itimer c)
  then clock_handler fuel uptime (c <| itimer ::= itimer_fires |>) else None.
End Handler.

(** ** [do_setalarm]

    [tp] is the timer in the entry of the caller in the table of privileges of
    the system task.  [mnx_getpriv] fills that entry with the copy of the
    kernel, the timer included: [kt] is the kernel's copy of the timer, and
    [rcode] what the call returns.  Gives the return code and the ticks left
    on the previous alarm. *)
Definition cause_alarm : Z := 1.

Definition do_setalarm (tp who_e exp_time : Z) (use_abs_time : bool) (rcode : Z) (kt : moltimer)
    (now : Z) (c : clock) : option (clock * Z * Z) :=
  if negb (rcode =? 0) then Some (c, rcode, 0)
  else
    q1 ← set_timer_at tp (fun _ => kt) (clock_q c);
    q2 ← set_timer_at tp (fun x => x <| tmr_arg := who_e |> <| tmr_func := cause_alarm |>) q1;
    x ← theap q2 !! tp;
    let c2 := c <| clock_q := q2 |> in
    let left := if negb (tmr_exp_time x =? TMR_NEVER) && (now <? tmr_exp_time x)
                then tmr_exp_time x - now else 0 in
    if exp_time =? 0 then (c3 ← reset_timer tp c2; Some (c3, 0, left))
    else
      let exp := if use_abs_time then exp_time mod ULONG_MOD else (exp_time + now) mod ULONG_MOD in
      q3 ← set_timer_at tp (fun x => x <| tmr_exp_time := exp |>) q2;
      c3 ← set_timer tp exp cause_alarm (c2 <| clock_q := q3 |>);
      Some (c3, 0, left).

(** ** The process manager *)

(** What the process manager relies on: an alarm of its own, at an absolute
    time, that is set by [sys_setalarm] and cancelled by time 0. *)
Class AlarmService (Svc : Type) := {
  sys_setalarm : Z -> Svc -> option (Svc * Z);
  alarm : Svc -> option Z -> Prop;
  setalarm_set : forall s a t, alarm s a -> 0 < t < ULONG_MOD ->
    exists s', sys_setalarm t s = Some (s', 0) /\ alarm s' (Some t);
  setalarm_cancel : forall s a, alarm s a ->
    exists s', sys_setalarm 0 s = Some (s', 0) /\ alarm s' None;
}.

Section PM.
Context `{AlarmService Svc}.
Context (call : Z -> Z -> tqueue -> option tqueue).

(** The queue [pm_timers] and the alarm service. *)
Record pm := mk_pm { pm_q : tqueue; pm_svc : Svc }.

(** [if (b && sys_setalarm(t, 1) != OK) ERROR_RETURN(rcode); return OK]. *)
Definition reschedule (b : bool) (t : Z) (q : tqueue) (s : Svc) : option (pm * Z) :=
  if b then (r ← sys_setalarm t s; Some (mk_pm q (fst r), snd r)) else Some (mk_pm q s, 0).

(** [uptime] is the result of [sys_getuptime]: an error, or the time. *)
Definition pm_set_timer (tp ticks watchdog arg : Z) (uptime : Z + Z) (p : pm) : option (pm * Z) :=
  match uptime with
  | inl rcode => Some (p, rcode)
  | inr now =>
      q1 ← set_timer_at tp (fun x => x <| tmr_arg := arg |>) (pm_q p);
      r ← tmrs_settimer tp ((now + ticks) mod ULONG_MOD) watchdog q1;
      let '(q, prev_time, next_time) := r in
      reschedule ((prev_time =? 0) || (prev_time >? next_time)) next_time q (pm_svc p)
  end.

Definition pm_expire_timers (fuel : nat) (now : Z) (p : pm) : option (pm * list Z * Z) :=
  r ← tmrs_exptimers call fuel now (pm_q p);
  let '(q, fired, next_time) := r in
  r' ← reschedule (0 <? next_time) next_time q (pm_svc p);
  Some (fst r', fired, snd r').

Definition pm_cancel_timer (tp : Z) (p : pm) : option (pm * Z) :=
  r ← tmrs_clrtimer tp (pm_q p);
  let '(q, prev_time, next_time) := r in
  reschedule ((prev_time <? next_time) || (next_time =? 0)) next_time q (pm_svc p).

(** The invariant: the queue is in order, no time is zero, and when there is
    a timer the alarm goes off no later than the first one. *)
Definition pm_covered (p : pm) (l : list (Z * Z)) : Prop :=
  repr (pm_q p) l /\ ordered l /\ Forall (fun e => 0 < e.2 < ULONG_MOD) l /\
  exists a, alarm (pm_svc p) a /\ (l <> [] -> exists t, a = Some t /\ t <= first_time l).

Lemma first_time_pos (l : list (Z * Z)) :
  Forall (fun e => 0 < e.2 < ULONG_MOD) l ->
  l = [] /\ first_time l = 0 \/ l <> [] /\ 0 < first_time l < ULONG_MOD.
Proof using.
  intros Hl. destruct Hl as [|e l He _]; [by left|]. right. done.
Qed.

(** Rescheduling restores the invariant. *)
Lemma reschedule_covers b q l s a :
  repr q l -> ordered l -> Forall (fun e => 0 < e.2 < ULONG_MOD) l -> alarm s a ->
  (b = false -> l <> [] -> exists t, a = Some t /\ t <= first_time l) ->
  exists p', reschedule b (first_time l) q s = Some (p', 0) /\ pm_covered p' l.
Proof using.
  intros HR HO HT HA HB. unfold reschedule. destruct b.
  - destruct (first_time_pos l HT) as [[E1 E2]|[E1 E2]].
    + destruct (setalarm_cancel _ _ HA) as (s' & E & HA'). rewrite E2, E. ob.
      eexists. split; [done|]. split_and!; [done..|]. exists None. done.
    + destruct (setalarm_set _ _ _ HA E2) as (s' & E & HA'). rewrite E. ob.
      eexists. split; [done|]. split_and!; [done..|]. exists (Some (first_time l)).
      split; [done|]. intros _. eexists. split; [done|]. lia.
  - eexists. split; [done|]. split_and!; [done..|]. exists a. split; [done|]. by apply HB.
Qed.

Lemma first_clear tp l : ordered l -> clear_entry tp l <> [] ->
  first_time l <= first_time (clear_entry tp l).
Proof using.
  intros HO Hne. destruct l as [|e l]; [done|]. apply ordered_cons in HO as [_ Ha].
  unfold clear_entry in *. rewrite filter_cons in *. case_decide; [cbn; lia|].
  destruct (filter _ l) as [|e' l'] eqn:E; [done|]. cbn.
  rewrite list.Forall_forall in Ha. apply Ha.
  assert (e' ∈ filter (fun e => e.1 <> tp) l) as [_ ?]%list_elem_of_filter by (rewrite E; left).
  done.
Qed.

Lemma clear_forall (P : Z * Z -> Prop) tp l : Forall P l -> Forall P (clear_entry tp l).
Proof using.
  rewrite !list.Forall_forall. intros HF e [_ He]%list_elem_of_filter. by apply HF.
Qed.

Lemma pm_cancel_covers tp x p l :
  pm_covered p l -> theap (pm_q p) !! tp = Some x ->
  exists p', pm_cancel_timer tp p = Some (p', 0) /\ pm_covered p' (clear_entry tp l).
Proof using.
  intros (HR & HO & HT & a & HA & Hcov) Hx. unfold pm_cancel_timer.
  destruct (clrtimer_refines _ _ _ _ HR Hx) as (q & -> & HR' & _). ob.
  apply (reschedule_covers _ _ _ _ a); [done|by apply clear_entry_ordered|by apply clear_forall|done|].
  intros [Hb1 Hb2]%orb_false_iff Hne. apply Z.ltb_ge in Hb1.
  destruct Hcov as (t & -> & Ht); [by intros ->|]. exists t. split; [done|].
  pose proof (first_clear tp l HO Hne). lia.
Qed.

Lemma pm_set_covers tp x ticks w arg now p l :
  pm_covered p l -> theap (pm_q p) !! tp = Some x -> (now + ticks) mod ULONG_MOD <> 0 ->
  exists p', pm_set_timer tp ticks w arg (inr now) p = Some (p', 0) /\
    pm_covered p' (insert_entry (tp, (now + ticks) mod ULONG_MOD) (clear_entry tp l)).
Proof using.
  intros (HR & HO & HT & a & HA & Hcov) Hx Hnz. unfold pm_set_timer.
  destruct (retime _ _ _ _ (fun x => x <| tmr_arg := arg |>) HR Hx)
    as (q1 & l1 & -> & HR1 & _ & Hx1 & El); [done|]. rewrite El in HR1 by done. ob.
  set (t := (now + ticks) mod ULONG_MOD) in *.
  destruct (settimer_refines _ _ _ _ t w HR1 Hx1) as (q & -> & HR' & _). ob.
  apply (reschedule_covers _ _ _ _ a); [done|by apply insert_entry_ordered, clear_entry_ordered| |done|].
  - rewrite insert_entry_perm. constructor; [|by apply clear_forall]. cbn.
    pose proof (Z.mod_pos_bound (now + ticks) ULONG_MOD ltac:(done)). lia.
  - intros [Hb1 Hb2]%orb_false_iff _. apply Z.eqb_neq in Hb1. rewrite Z.gtb_ltb in Hb2.
    apply Z.ltb_ge in Hb2. destruct Hcov as (t' & -> & Ht'); [by intros ->|].
    exists t'. split; [done|]. lia.
Qed.

(** The alarm that went off is gone; expiring the timers sets the next one. *)
Lemma pm_expire_covers fuel now p l a :
  (forall f t q, call f t q = Some q) ->
  repr (pm_q p) l -> ordered l -> Forall (fun e => 0 < e.2 < ULONG_MOD) l -> alarm (pm_svc p) a ->
  (length (filter (expired now) l) < fuel)%nat ->
  exists p', pm_expire_timers fuel now p = Some (p', (filter (expired now) l).*1, 0) /\
    pm_covered p' (filter (fun e => ~ expired now e) l).
Proof using.
  intros HQ HR HO HT HA Hn. unfold pm_expire_timers, tmrs_exptimers.
  destruct (exp_loop_quiet call now HQ fuel _ l HR HO Hn) as (q & -> & HR'). ob.
  rewrite (head_time_repr _ _ HR'). ob.
  set (l' := filter (fun e => ~ expired now e) l) in *.
  assert (HO' : ordered l') by by apply filter_ordered.
  assert (HT' : Forall (fun e => 0 < e.2 < ULONG_MOD) l').
  { rewrite list.Forall_forall in *. intros e [_ He]%list_elem_of_filter. by apply HT. }
  destruct (reschedule_covers (0 <? first_time l') q l' (pm_svc p) a) as (p' & E & HC); try done.
  { intros Hb Hne. apply Z.ltb_ge in Hb. destruct (first_time_pos l' HT') as [[]|[]]; [done|lia]. }
  exists p'. rewrite E. done.
Qed.
End PM.
Arguments pm _ : clear implicits.

(** ** The system task implements the service *)

Definition first_or_never (l : list (Z * Z)) : Z :=
  match l with [] => TMR_NEVER | e :: _ => e.2 end.

(** The invariant of the clock: [next_timeout] is the time of the first timer. *)
Definition clock_ok (c : clock) (l : list (Z * Z)) : Prop :=
  repr (clock_q c) l /\ ordered l /\ next_timeout c = first_or_never l.

Lemma head_or_never_repr q l : repr q l -> head_or_never q = Some (first_or_never l).
Proof.
  intros HR. pose proof (head_time_repr _ _ HR) as E. unfold head_or_never, head_time in *.
  destruct l as [|e l].
  - by rewrite (re_chain _ _ HR).
  - destruct (re_chain _ _ HR) as [Hh _]. cbn in Hh. rewrite Hh in *. exact E.
Qed.

Lemma set_timer_ok tp x t w c l :
  repr (clock_q c) l -> ordered (clear_entry tp l) -> theap (clock_q c) !! tp = Some x ->
  exists c', set_timer tp t w c = Some c' /\
    clock_ok c' (insert_entry (tp, t) (clear_entry tp l)) /\ itimer c' = itimer c /\
    is_Some (theap (clock_q c') !! tp).
Proof.
  intros HR HO Hx. unfold set_timer.
  destruct (settimer_refines _ _ _ _ t w HR Hx) as (q & -> & HR' & HK & _). ob.
  set (l' := insert_entry _ _) in *. pose proof (head_or_never_repr _ _ HR') as E.
  unfold head_or_never in E. destruct (tmrs q) as [h|] eqn:Eh.
  - ob. destruct (theap q !! h) as [y|]; [|done]. ob. cbn [mbind option_bind] in E.
    injection E as E. eexists. split; [done|]. cbn.
    destruct (HK tp x Hx) as (z & Hz & _). split_and!; [|done|by rewrite Hz].
    split_and!; [done|by apply insert_entry_ordered|done].
  - pose proof (re_chain _ _ HR') as Hc. rewrite Eh in Hc.
    assert (l' ≡ₚ (tp, t) :: clear_entry tp l) as Hp by apply insert_entry_perm.
    destruct l' as [|e l'']; [by apply Permutation_nil_cons in Hp|]. by destruct Hc.
Qed.

Lemma reset_timer_ok tp x c l :
  repr (clock_q c) l -> ordered (clear_entry tp l) -> theap (clock_q c) !! tp = Some x ->
  exists c', reset_timer tp c = Some c' /\ clock_ok c' (clear_entry tp l) /\
    itimer c' = itimer c /\ is_Some (theap (clock_q c') !! tp).
Proof.
  intros HR HO Hx. unfold reset_timer.
  destruct (clrtimer_refines _ _ _ _ HR Hx) as (q & -> & HR' & HK). ob.
  rewrite (head_or_never_repr _ _ HR'). ob. eexists. split; [done|].
  destruct (HK tp x Hx) as (z & Hz & _). cbn. split_and!; [|done|by rewrite Hz].
  by split_and!.
Qed.

(** The kernel's copy of a timer is in no queue. *)
Lemma overwrite_truncates q l1 tp t l2 kt :
  repr q (l1 ++ (tp, t) :: l2) -> tmr_next kt = None ->
  exists q1, set_timer_at tp (fun _ => kt) q = Some q1 /\
    repr q1 (l1 ++ [(tp, tmr_exp_time kt)]) /\ theap q1 !! tp = Some kt.
Proof.
  intros [Hc Hn Ht] Hk. rewrite fmap_app, fmap_cons in *. cbn [fst] in *.
  apply seg_app in Hc as (m & S1 & S2). cbn in S2. destruct S2 as (-> & x & Hx & _).
  apply list.NoDup_app in Hn as (Hn1 & Hd & _).
  assert (Htp : tp ∉ l1.*1) by (intros H1; apply (Hd _ H1); left).
  unfold set_timer_at. rewrite Hx. ob. eexists. split; [done|]. cbn. rewrite lookup_insert_eq.
  split; [|done]. split; cbn; rewrite ?fmap_app.
  - apply seg_app. exists (Some tp). split; [by apply seg_insert|]. split; [done|].
    exists kt. rewrite lookup_insert_eq. done.
  - by apply NoDup_snoc.
  - apply list.Forall_app in Ht as [T1 _]. apply list.Forall_app. split.
    + rewrite list.Forall_forall in *. intros e He. rewrite lookup_insert_ne; [by apply T1|].
      intros E. apply Htp. rewrite E. by apply list_elem_of_fmap_2.
    + constructor; [|constructor]. cbn. by rewrite lookup_insert_eq.
Qed.

Lemma overwrite_unqueued q l tp x kt :
  repr q l -> tp ∉ l.*1 -> theap q !! tp = Some x ->
  exists q1, set_timer_at tp (fun _ => kt) q = Some q1 /\ repr q1 l /\ theap q1 !! tp = Some kt.
Proof.
  intros [Hc Hn Ht] Htp Hx. unfold set_timer_at. rewrite Hx. ob. eexists. split; [done|].
  cbn. rewrite lookup_insert_eq. split; [|done]. split; cbn; [by apply seg_insert|done|].
  rewrite list.Forall_forall in *. intros e He. rewrite lookup_insert_ne; [by apply Ht|].
  intros E. apply Htp. rewrite E. by apply list_elem_of_fmap_2.
Qed.

(** What is left of a queue after the fetch of the privileges. *)
Definition before (tp : Z) (l : list (Z * Z)) : list (Z * Z) :=
  (fix go l := match l with
               | [] => []
               | e :: l' => if e.1 =? tp then [] else e :: go l'
               end) l.

Lemma before_middle tp t l1 l2 : tp ∉ l1.*1 -> before tp (l1 ++ (tp, t) :: l2) = l1.
Proof.
  induction l1 as [|e l1 IH]; cbn; [by rewrite Z.eqb_refl|]. intros Ht.
  destruct (Z.eqb_spec e.1 tp); [set_solver|]. f_equal. apply IH. set_solver.
Qed.

Lemma before_notin tp l : tp ∉ l.*1 -> before tp l = l.
Proof.
  induction l as [|e l IH]; cbn; [done|]. intros Ht.
  destruct (Z.eqb_spec e.1 tp); [set_solver|]. f_equal. apply IH. set_solver.
Qed.

Lemma ordered_app_l l1 l2 : ordered (l1 ++ l2) -> ordered l1.
Proof.
  induction l1 as [|e l1 IH]; [intros _; constructor|]. cbn. intros [HO Ha]%ordered_cons.
  apply ordered_cons. split; [by apply IH|]. by apply list.Forall_app in Ha as [? _].
Qed.

(** What [do_setalarm] does to the queue before it sets the timer. *)
Lemma fetch_priv q l tp x kt who_e :
  repr q l -> theap q !! tp = Some x -> tmr_next kt = None ->
  exists q1 q2 l2 y, set_timer_at tp (fun _ => kt) q = Some q1 /\
    set_timer_at tp (fun x => x <| tmr_arg := who_e |> <| tmr_func := cause_alarm |>) q1 = Some q2 /\
    repr q2 l2 /\ clear_entry tp l2 = before tp l /\ theap q2 !! tp = Some y /\
    tmr_exp_time y = tmr_exp_time kt.
Proof.
  intros HR Hx Hk.
  assert (exists q1 l1, set_timer_at tp (fun _ => kt) q = Some q1 /\ repr q1 l1 /\
    clear_entry tp l1 = before tp l /\ theap q1 !! tp = Some kt) as (q1 & l1 & E1 & HR1 & Hb & Hx1).
  { destruct (decide (tp ∈ l.*1)) as [Hin|Hin].
    - apply list_elem_of_fmap_1 in Hin as ([tp' t] & E & Hin). cbn in E. subst tp'.
      apply list_elem_of_split in Hin as (l1 & l2 & ->).
      destruct (overwrite_truncates _ _ _ _ _ _ HR Hk) as (q1 & E1 & HR1 & Hx1).
      exists q1, (l1 ++ [(tp, tmr_exp_time kt)]). split_and!; [done..| |done].
      rewrite clear_entry_middle by apply HR1. rewrite app_nil_r, before_middle; [done|].
      pose proof (re_nodup _ _ HR) as Hn. rewrite fmap_app, fmap_cons in Hn.
      apply list.NoDup_app in Hn as (_ & Hd & _). intros H1. apply (Hd _ H1). left.
    - destruct (overwrite_unqueued _ _ _ _ kt HR Hin Hx) as (q1 & E1 & HR1 & Hx1).
      exists q1, l. rewrite clear_entry_notin, before_notin by done. done. }
  destruct (retime _ _ _ _ (fun x => x <| tmr_arg := who_e |> <| tmr_func := cause_alarm |>)
    HR1 Hx1) as (q2 & l2 & E2 & HR2 & _ & Hx2 & El); [done|].
  rewrite El in HR2 by done. exists q1, q2, l1. eexists. by split_and!.
Qed.

Lemma before_prefix tp l : exists l2, l = before tp l ++ l2.
Proof.
  induction l as [|e l [l2 IH]]; [by exists []|]. cbn. destruct (e.1 =? tp); [by eexists|].
  exists l2. cbn. by f_equal.
Qed.

Lemma before_ordered tp l : ordered l -> ordered (before tp l).
Proof. intros HO. destruct (before_prefix tp l) as [l2 E]. rewrite E in HO. by eapply ordered_app_l. Qed.

Lemma before_gone tp l : tp ∉ (before tp l).*1.
Proof.
  induction l as [|e l IH]; [apply not_elem_of_nil|]. cbn.
  destruct (Z.eqb_spec e.1 tp); [apply not_elem_of_nil|]. cbn. apply not_elem_of_cons. auto.
Qed.

(** Setting and cancelling the alarm of the process that owns [tp]. *)
Lemma do_setalarm_ok tp who_e exp_time kt now c l x :
  clock_ok c l -> theap (clock_q c) !! tp = Some x -> tmr_next kt = None ->
  0 <= exp_time < ULONG_MOD ->
  exists c' left, do_setalarm tp who_e exp_time true 0 kt now c = Some (c', 0, left) /\
    clock_ok c' (if exp_time =? 0 then before tp l else insert_entry (tp, exp_time) (before tp l)) /\
    is_Some (theap (clock_q c') !! tp) /\ itimer c' = itimer c.
Proof.
  intros (HR & HO & _) Hx Hk Hexp. unfold do_setalarm. cbn [Z.eqb negb].
  destruct (fetch_priv _ _ _ _ _ who_e HR Hx Hk) as (q1 & q2 & l2 & y & E1 & E2 & HR2 & Hb & Hy & _).
  pose proof (before_ordered tp l HO) as HOb. rewrite E1. ob. rewrite E2. ob. rewrite Hy. ob.
  destruct (exp_time =? 0) eqn:E0.
  - destruct (reset_timer_ok tp y (c <| clock_q := q2 |>) l2) as (c' & -> & Hok & Hi & Hin); try done.
    { by rewrite Hb. }
    ob. rewrite Hb in Hok. eauto 10.
  - rewrite Z.mod_small by done.
    destruct (retime _ _ _ _ (fun x => x <| tmr_exp_time := exp_time |>) HR2 Hy)
      as (q3 & l3 & -> & HR3 & Ec & Hx3 & _); [done|]. ob.
    destruct (set_timer_ok tp (y <| tmr_exp_time := exp_time |>) exp_time cause_alarm
      (c <| clock_q := q2 |> <| clock_q := q3 |>) l3)
      as (c' & E & Hok & Hi & Hin); [exact HR3|by rewrite Ec, Hb|exact Hx3|].
    rewrite E. ob. rewrite Ec, Hb in Hok. eauto 10.
Qed.

(** ** The service *)

Section Service.
Context (tp who_e : Z) (kt : moltimer) (now : Z) (Hkt : tmr_next kt = None).

Definition clock_setalarm (t : Z) (c : clock) : option (clock * Z) :=
  r ← do_setalarm tp who_e t true 0 kt now c; Some (fst (fst r), snd (fst r)).

Definition clock_alarm (c : clock) (a : option Z) : Prop :=
  is_Some (theap (clock_q c) !! tp) /\ exists l, clock_ok c l /\
  match a with Some t => (tp, t) ∈ l | None => tp ∉ l.*1 end.

Lemma clock_setalarm_set c a t : clock_alarm c a -> 0 < t < ULONG_MOD ->
  exists c', clock_setalarm t c = Some (c', 0) /\ clock_alarm c' (Some t).
Proof using Hkt.
  intros ([x Hx] & l & Hok & _) Ht. unfold clock_setalarm.
  destruct (do_setalarm_ok tp who_e t kt now c l x Hok Hx Hkt) as (c' & left & -> & Hok' & Hin & _).
  { lia. }
  ob. exists c'. split; [done|]. split; [done|].
  destruct (Z.eqb_spec t 0); [lia|]. eexists. split; [exact Hok'|]. cbn.
  rewrite insert_entry_perm. left.
Qed.

Lemma clock_setalarm_cancel c a : clock_alarm c a ->
  exists c', clock_setalarm 0 c = Some (c', 0) /\ clock_alarm c' None.
Proof using Hkt.
  intros ([x Hx] & l & Hok & _). unfold clock_setalarm.
  destruct (do_setalarm_ok tp who_e 0 kt now c l x Hok Hx Hkt) as (c' & left & -> & Hok' & Hin & _).
  { done. }
  ob. exists c'. split; [done|]. split; [done|].
  eexists. split; [exact Hok'|]. cbn. apply before_gone.
Qed.

Definition clock_service : AlarmService clock := {|
  sys_setalarm := clock_setalarm;
  alarm := clock_alarm;
  setalarm_set := clock_setalarm_set;
  setalarm_cancel := clock_setalarm_cancel;
|}.
End Service.

(** ** Properties *)

(** C33. the process manager is always woken in time.  Against any alarm
    service: as long as the alarm is set no later than the first timer of the
    process manager, setting a timer and cancelling one keep it so; and when
    the alarm goes off, [pm_expire_timers] runs the watchdogs of exactly the
    timers that have expired and the alarm is set for the first of the rest.
    The sum of the uptime and the ticks must not wrap around to 0, the time
    that cancels an alarm. *)
Theorem pm_alarm_covers `{AlarmService Svc} (p : pm Svc) l :
  (forall tp x ticks w arg now, pm_covered p l -> theap (pm_q p) !! tp = Some x ->
     (now + ticks) mod ULONG_MOD <> 0 ->
     exists p', pm_set_timer tp ticks w arg (inr now) p = Some (p', 0) /\
       pm_covered p' (insert_entry (tp, (now + ticks) mod ULONG_MOD) (clear_entry tp l))) /\
  (forall tp x, pm_covered p l -> theap (pm_q p) !! tp = Some x ->
     exists p', pm_cancel_timer tp p = Some (p', 0) /\ pm_covered p' (clear_entry tp l)) /\
  (forall call fuel now a, (forall f t q, call f t q = Some q) ->
     repr (pm_q p) l -> ordered l -> Forall (fun e => 0 < e.2 < ULONG_MOD) l ->
     alarm (pm_svc p) a -> (length (filter (expired now) l) < fuel)%nat ->
     exists p', pm_expire_timers call fuel now p = Some (p', (filter (expired now) l).*1, 0) /\
       pm_covered p' (filter (fun e => ~ expired now e) l)).
Proof.
  split_and!; intros.
  - by eapply pm_set_covers.
  - by eapply pm_cancel_covers.
  - by eapply pm_expire_covers.
Qed.

(** an alarm request drops the timers behind it.  When a process whose
    alarm is in the queue of the system task sets it again (or cancels it),
    the fetch of its privileges overwrites the link of the timer, and the
    timers of other processes that expire later are no longer in the queue:
    only the timers before it are left, and the new one. *)
Theorem do_setalarm_drops_timers c l1 tp t l2 who_e exp_time kt now :
  clock_ok c (l1 ++ (tp, t) :: l2) -> tmr_next kt = None -> 0 <= exp_time < ULONG_MOD ->
  exists c' left l', do_setalarm tp who_e exp_time true 0 kt now c = Some (c', 0, left) /\
    clock_ok c' l' /\
    l' = (if exp_time =? 0 then l1 else insert_entry (tp, exp_time) l1) /\
    forall e, e ∈ l2 -> e.1 ∉ l'.*1.
Proof.
  intros Hok Hk Hexp. pose proof Hok as (HR & _ & _). destruct HR as [Hc Hn _].
  rewrite fmap_app, fmap_cons in *. cbn [fst] in *. pose proof Hn as Hnd.
  apply list.NoDup_app in Hn as (_ & Hd & [Ht2 _]%list.NoDup_cons).
  assert (Ht1 : tp ∉ l1.*1) by (intros H1; apply (Hd _ H1); left).
  destruct (seg_dom _ _ _ _ tp Hc) as [x Hx]; [set_solver|].
  destruct (do_setalarm_ok tp who_e exp_time kt now c _ x Hok Hx Hk Hexp)
    as (c' & left & E & Hok' & _). rewrite before_middle in Hok' by done.
  exists c', left. eexists. split_and!; [done|exact Hok'|done|].
  intros e He%(list_elem_of_fmap_2 fst).
  assert (e.1 ∉ l1.*1) by (intros H1; apply (Hd _ H1); by right).
  destruct (exp_time =? 0); [done|].
  rewrite insert_entry_perm. cbn. apply not_elem_of_cons. split; [|done]. intros <-. done.
Qed.

(** What can happen to the clock: a process sets or cancels a timer, or the
    signal of the interval timer arrives. *)
Inductive clock_step (call : Z -> Z -> tqueue -> option tqueue) (clockTicks : Z)
    : clock -> list Z -> clock -> Prop :=
| CS_SET c tp exp w c' : set_timer tp exp w c = Some c' -> clock_step call clockTicks c [] c'
| CS_RESET c tp c' : reset_timer tp c = Some c' -> clock_step call clockTicks c [] c'
| CS_ALARM c tp who e abs rcode kt now c' r left :
    do_setalarm tp who e abs rcode kt now c = Some (c', r, left) ->
    clock_step call clockTicks c [] c'
| CS_SIGNAL c fuel uptime fired c' :
    sigalrm call clockTicks fuel uptime c = Some (c', fired) ->
    clock_step call clockTicks c fired c'.

Inductive clock_run (call : Z -> Z -> tqueue -> option tqueue) (clockTicks : Z)
    : clock -> list Z -> clock -> Prop :=
| CR_REFL c : clock_run call clockTicks c [] c
| CR_STEP c f1 c1 f2 c2 : clock_step call clockTicks c f1 c1 ->
    clock_run call clockTicks c1 f2 c2 -> clock_run call clockTicks c (f1 ++ f2) c2.

(** Only the handler programs the interval timer. *)
Lemma set_timer_itimer tp e w c c' : set_timer tp e w c = Some c' -> itimer c' = itimer c.
Proof.
  unfold set_timer. destruct (tmrs_settimer tp e w _) as [[[q a] b]|]; [|done]. ob.
  destruct (tmrs q); [|done]. ob. destruct (theap q !! _); [|done]. ob. by intros [= <-].
Qed.

Lemma reset_timer_itimer tp c c' : reset_timer tp c = Some c' -> itimer c' = itimer c.
Proof.
  unfold reset_timer. destruct (tmrs_clrtimer tp _) as [[[q a] b]|]; [|done]. ob.
  destruct (head_or_never q); [|done]. ob. by intros [= <-].
Qed.

Lemma do_setalarm_itimer tp who e abs rcode kt now c c' r left :
  do_setalarm tp who e abs rcode kt now c = Some (c', r, left) -> itimer c' = itimer c.
Proof.
  unfold do_setalarm. destruct (negb _); [by intros [= <- _ _]|].
  destruct (set_timer_at tp _ (clock_q c)) as [q1|]; [|done]. ob.
  destruct (set_timer_at tp _ q1) as [q2|]; [|done]. ob.
  destruct (theap q2 !! tp) as [x|]; [|done]. ob. destruct (e =? 0).
  - destruct (reset_timer tp _) as [c3|] eqn:E; [|done]. ob. intros [= <- _ _].
    by apply reset_timer_itimer in E.
  - destruct (set_timer_at tp _ q2) as [q3|]; [|done]. ob.
    destruct (set_timer tp _ _ _) as [c3|] eqn:E; [|done]. ob. intros [= <- _ _].
    by apply set_timer_itimer in E.
Qed.

Lemma silent_run call ticks c fired c' :
  clock_run call ticks c fired c' -> armed_itimer (itimer c) = false ->
  fired = [] /\ armed_itimer (itimer c') = false.
Proof.
  induction 1 as [c|c f1 c1 f2 c2 Hs _ IH]; intros Ha; [done|].
  assert (f1 = [] /\ itimer c1 = itimer c) as [-> E].
  { destruct Hs as [? ? ? ? ? E|? ? ? E|? ? ? ? ? ? ? ? ? ? ? E|? ? ? ? ? E].
    - by apply set_timer_itimer in E.
    - by apply reset_timer_itimer in E.
    - by apply do_setalarm_itimer in E.
    - unfold sigalrm in E. by rewrite Ha in E. }
  apply IH. by rewrite E.
Qed.

(** the clock can stop for ever.  When the one-shot signal programmed for
    a timer arrives after that timer was cancelled or moved more than an
    interval away, the handler returns without programming the interval timer
    again; from then on, whatever timers are set, no signal comes and no
    watchdog ever runs. *)
Theorem clock_goes_silent call ticks fuel c uptime :
  armed_itimer (itimer c) = true -> it_interval (itimer c) = (0, 0) ->
  0 <= uptime < ULONG_MOD -> 0 < ticks -> uptime + INTERVAL_SECS * ticks <= next_timeout c < ULONG_MOD ->
  exists c1, sigalrm call ticks fuel uptime c = Some (c1, []) /\
    forall fired c2, clock_run call ticks c1 fired c2 ->
      fired = [] /\ armed_itimer (itimer c2) = false.
Proof.
  intros Ha Hi Hu Ht Hn. unfold sigalrm. rewrite Ha.
  unfold clock_handler, due_soon, ticks_left. cbn.
  unfold INTERVAL_SECS in *. rewrite Z.mod_small by lia.
  assert ((next_timeout c - uptime <? 1 * ticks) = false) as -> by (apply Z.ltb_ge; lia).
  rewrite andb_false_r. assert ((next_timeout c >? uptime) = true) as -> by (apply Z.gtb_lt; lia).
  eexists. split; [done|]. intros fired c2 Hr. apply (silent_run _ _ _ _ _ Hr). cbn.
  unfold armed_itimer, itimer_fires. cbn. by rewrite Hi.
Qed.

(** *** The handler *)

Section HandlerOk.
Context (call : Z -> Z -> tqueue -> option tqueue) (ticks : Z).
Context (Hquiet : forall f t q, call f t q = Some q) (Hticks : 0 < ticks <= 1000).

(** A delay of less than an interval arms the timer. *)
Lemma shot_armed d : 0 < d < INTERVAL_SECS * ticks ->
  forall c, armed_itimer (itimer (set_shot (d / ticks) ((d mod ticks) * 1000 / ticks * 1000) c)) = true /\
            armed_itimer (itimer (set_shot (d / ticks) ((d mod ticks) * 1000) c)) = true.
Proof using Hticks.
  unfold INTERVAL_SECS. intros Hd c. rewrite Z.mul_1_l in Hd.
  rewrite (Z.mod_small d ticks) by lia. unfold armed_itimer. cbn.
  assert (1 <= d * 1000 / ticks) by (apply Z.div_le_lower_bound; lia).
  split; (rewrite bool_decide_false; [done|]); intros [= _ E]; lia.
Qed.

(** The unsigned difference is small only when the time is ahead and near. *)
Lemma due_soon_spec c : 0 <= realtime c < TMR_NEVER -> 0 < next_timeout c <= TMR_NEVER ->
  due_soon ticks c = true <-> realtime c < next_timeout c < realtime c + INTERVAL_SECS * ticks.
Proof using Hticks.
  intros Hr Hn. unfold due_soon, ticks_left. rewrite andb_true_iff, !Z.ltb_lt.
  unfold INTERVAL_SECS, TMR_NEVER, ULONG_MOD in *.
  destruct (decide (realtime c <= next_timeout c)) as [Hle|Hgt].
  - rewrite Z.mod_small by lia. lia.
  - rewrite <- (Z_mod_plus_full _ 1), Z.mod_small by lia. lia.
Qed.

Lemma due_soon_left c : due_soon ticks c = true -> 0 < ticks_left c < INTERVAL_SECS * ticks.
Proof using. unfold due_soon. rewrite andb_true_iff, !Z.ltb_lt. done. Qed.

Lemma first_or_never_bound (l : list (Z * Z)) :
  Forall (fun e => 0 < e.2 <= TMR_NEVER) l -> 0 < first_or_never l <= TMR_NEVER.
Proof using. intros [|e l' He _]; cbn; [unfold TMR_NEVER; lia|done]. Qed.

Lemma handler_expires fuel c l :
  clock_ok c l -> 0 <= realtime c < TMR_NEVER -> Forall (fun e => 0 < e.2 <= TMR_NEVER) l ->
  (length (filter (expired (realtime c)) l) < fuel)%nat ->
  exists c', (r ← tmrs_exptimers call fuel (realtime c) (clock_q c);
    let q := fst (fst r) in
    n ← head_or_never q;
    let c2 := c <| clock_q := q |> <| next_timeout := n |> in
    if negb (n =? TMR_NEVER) && due_soon ticks c2 then
      Some (set_shot (ticks_left c2 / ticks) ((ticks_left c2 mod ticks) * 1000) c2, snd (fst r))
    else Some (set_interval INTERVAL_SECS INTERVAL_USECS c2, snd (fst r)))
  = Some (c', (filter (expired (realtime c)) l).*1) /\
    clock_ok c' (filter (fun e => ~ expired (realtime c) e) l) /\ armed_itimer (itimer c') = true.
Proof using Hquiet Hticks.
  intros (HR & HO & Hnt) Hu HT Hn. unfold tmrs_exptimers.
  destruct (exp_loop_quiet call (realtime c) Hquiet fuel _ l HR HO Hn) as (q & -> & HR'). ob.
  rewrite (head_time_repr _ _ HR'). ob. rewrite (head_or_never_repr _ _ HR'). ob.
  set (l' := filter (fun e => ~ expired (realtime c) e) l) in *.
  assert (HO' : ordered l') by by apply filter_ordered.
  assert (HT' : Forall (fun e => 0 < e.2 <= TMR_NEVER) l').
  { rewrite list.Forall_forall in *. intros e [_ He]%list_elem_of_filter. by apply HT. }
  apply first_or_never_bound in HT'.
  set (c2 := c <| clock_q := q |> <| next_timeout := first_or_never l' |>).
  destruct (negb _ && due_soon ticks c2) eqn:E; eexists; (split; [done|]); (split; [done|]).
  - apply andb_true_iff in E as [_ E]. apply shot_armed.
    by apply due_soon_left.
  - done.
Qed.
End HandlerOk.

(** C38. The clock handler, when watchdogs set and clear no timers and every timer ends
    before [TMR_NEVER].  At each signal the handler runs the watchdogs of exactly the timers that have expired, in order, and leaves [next_timeout]
    at the time of the first timer left.  It leaves the interval timer armed,
    except when nothing is due within the interval: then it leaves it as it
    was. *)
Theorem clock_handler_fires call ticks fuel uptime c l :
  (forall f t q, call f t q = Some q) -> 0 < ticks <= 1000 ->
  clock_ok c l -> 0 <= uptime < TMR_NEVER -> Forall (fun e => 0 < e.2 <= TMR_NEVER) l ->
  (length (filter (expired uptime) l) < fuel)%nat ->
  exists c', clock_handler call ticks fuel uptime c = Some (c', (filter (expired uptime) l).*1) /\
    clock_ok c' (filter (fun e => ~ expired uptime e) l) /\
    (armed_itimer (itimer c') = true \/
     itimer c' = itimer c /\ uptime + INTERVAL_SECS * ticks <= next_timeout c').
Proof.
  intros HQ Hticks Hok Hu HT Hn. unfold clock_handler. cbv zeta.
  set (c1 := c <| realtime := uptime |>). assert (Hok1 : clock_ok c1 l) by exact Hok.
  destruct Hok as (HR & HO & Hnt).
  assert (Hb : 0 < next_timeout c1 <= TMR_NEVER).
  { change (next_timeout c1) with (next_timeout c). rewrite Hnt. by apply first_or_never_bound. }
  assert (Hpend : uptime < next_timeout c1 ->
    (filter (expired uptime) l).*1 = [] /\ filter (fun e => ~ expired uptime e) l = l).
  { intros Hlt. destruct (none_expired uptime l) as [-> ->]; [|done].
    destruct l as [|e l]; [done|]. apply first_pending; [done|]. unfold expired.
    change (next_timeout c1) with (next_timeout c) in Hlt. cbn in Hnt. lia. }
  pose proof (due_soon_spec ticks Hticks c1 Hu Hb) as Hs. change (realtime c1) with uptime in *.
  destruct (due_soon ticks c1) eqn:E.
  - destruct Hpend as [-> ->]; [by apply Hs|]. eexists. split; [done|]. split; [exact Hok1|]. left.
    apply shot_armed; [done|]. by apply due_soon_left.
  - destruct (Z.gtb_spec (next_timeout c1) uptime) as [Hgt|Hle].
    + destruct Hpend as [-> ->]; [done|]. eexists. split; [done|]. split; [exact Hok1|]. right.
      split; [done|]. destruct (decide (uptime + INTERVAL_SECS * ticks <= next_timeout c1)); [done|].
      assert (false = true) by (apply Hs; lia). done.
    + destruct (handler_expires call ticks HQ Hticks fuel c1 l) as (c' & E' & Hok' & Ha); try done.
      exists c'. eauto.
Qed.

(** *** A clock with the alarm of the process manager *)

Definition clock0 : clock :=
  mk_clock (mk_tqueue (Some 50) (<[50 := mk_timer (Some 60) 10 cause_alarm 0]>
    {[ 60 := mk_timer None 400 cause_alarm 3 ]})) 10 0 (mk_itimer (0, 0) (0, 100000)).

Definition kernel_timer : moltimer := mk_timer None 0 0 0.

Definition service0 : AlarmService clock := clock_service 50 0 kernel_timer 5 eq_refl.

Lemma clock0_ok : clock_ok clock0 [(50, 10); (60, 400)].
Proof.
  split_and!; [split| |done].
  - split; [done|]. eexists. split; [reflexivity|]. split; [done|]. eexists. done.
  - cbn. apply list.NoDup_cons. split; [set_solver|]. apply NoDup_singleton.
  - repeat constructor.
  - repeat constructor. done.
Qed.

Lemma pm0_covered : pm_covered (H := service0) (mk_pm timers0 clock0) [(1, 10); (3, 20)].
Proof.
  split_and!; [apply timers0_repr|apply timers0_ordered|by repeat constructor|].
  exists (Some 10). split; [|intros _; exists 10; done]. split; [by eexists|].
  eexists. split; [exact clock0_ok|]. left.
Qed.

(** Cancelling the first timer moves the alarm; setting one before it does
    too; and the alarm at time 10 runs its watchdog. *)
Lemma pm_alarm_covers_witness :
  (exists p', pm_set_timer (H := service0) 2 3 9 0 (inr 5) (mk_pm timers0 clock0) = Some (p', 0) /\
     pm_covered (H := service0) p' [(2, 8); (1, 10); (3, 20)]) /\
  (exists p', pm_cancel_timer (H := service0) 1 (mk_pm timers0 clock0) = Some (p', 0) /\
     pm_covered (H := service0) p' [(3, 20)]) /\
  (exists p', pm_expire_timers (H := service0) (fun _ _ q => Some q) 2 10 (mk_pm timers0 clock0)
       = Some (p', [1], 0) /\ pm_covered (H := service0) p' [(3, 20)]).
Proof.
  destruct (pm_alarm_covers (H := service0) (mk_pm timers0 clock0) [(1, 10); (3, 20)])
    as (H1 & H2 & H3).
  pose proof pm0_covered as (HR & HO & HT & a & HA & _). split_and!.
  - apply (H1 2 (mk_timer None TMR_NEVER 0 8) 3 9 0 5); [exact pm0_covered|reflexivity|done].
  - apply (H2 1 (mk_timer (Some 3) 10 0 7)); [exact pm0_covered|reflexivity].
  - apply (H3 (fun _ _ q => Some q) 2%nat 10 a); try done. vm_compute. lia.
Defined.

Lemma do_setalarm_drops_timers_witness :
  exists c' left l', do_setalarm 50 0 30 true 0 kernel_timer 5 clock0 = Some (c', 0, left) /\
    clock_ok c' l' /\ l' = [(50, 30)] /\ forall e, e ∈ [(60, 400)] -> e.1 ∉ l'.*1.
Proof.
  exact (do_setalarm_drops_timers clock0 [] 50 10 [(60, 400)] 0 30 kernel_timer 5 clock0_ok
    eq_refl ltac:(done)).
Defined.

(** The first timer is cancelled before its one-shot signal arrives. *)
Definition clock1 : clock :=
  default clock0 (reset_timer 50 clock0).

Lemma clock_goes_silent_witness :
  exists c1, sigalrm (fun _ _ q => Some q) 100 1 10 clock1 = Some (c1, []) /\
    forall fired c2, clock_run (fun _ _ q => Some q) 100 c1 fired c2 ->
      fired = [] /\ armed_itimer (itimer c2) = false.
Proof.
  apply clock_goes_silent; vm_compute; [done|done|done|done|split; congruence].
Defined.

Lemma clock_handler_fires_witness :
  exists c', clock_handler (fun _ _ q => Some q) 100 2 10 clock0 = Some (c', [50]) /\
    clock_ok c' [(60, 400)] /\
    (armed_itimer (itimer c') = true \/
     itimer c' = itimer clock0 /\ 10 + INTERVAL_SECS * 100 <= next_timeout c').
Proof.
  apply (clock_handler_fires (fun _ _ q => Some q) 100 2 10 clock0 [(50, 10); (60, 400)]);
    [done|done|exact clock0_ok|done|by repeat constructor|vm_compute; lia].
Defined.
