(* ===== verification/Slots.v ===== *)
(** * The slot table of the system tasks ([src/tasks/systask/slots.c])

    The system task of every node of a DC keeps a copy of the slot table: the
    node that owns each slot of the process table.  The copies are kept equal
    with messages multicast to the group of the DC in a total order (Spread);
    a node that runs out of free slots asks the others to donate some.

    The globals of [glo.h] are the record [sys].  What the task calls - the
    kernel, whose process table is mapped in its memory, and Spread - is the
    interface [Host].  A message of [slots.c] is a value of [smsg]; what the
    task does on the group is recorded in [out].  A handler gives a return code
    and the new state, or stops: the process exits, an assertion fails, an
    uninitialised pointer is used, or the thread waits for good. *)

From S2P Require Import Prelude Types Endpoint.

(** ** Constants ([config.h], [slots.h], [ipc.h], [com.h]) *)

Definition SYS_REQ_SLOTS : Z := 1.
Definition SYS_DON_SLOTS : Z := 2.
Definition SYS_PUT_STATUS : Z := 3.
Definition SYS_MERGE_STATUS : Z := 4.
Definition SYS_SYSCALL : Z := 20.

Definition BIT_REQUESTING : Z := 8.
Definition BIT_INITIALIZED : Z := 12.
Definition BIT_RUNNING : Z := 13.
Definition BIT_MERGING : Z := 14.
Definition MASK_REQUESTING : Z := Z.shiftl 1 BIT_REQUESTING.
Definition MASK_INITIALIZED : Z := Z.shiftl 1 BIT_INITIALIZED.
Definition MASK_RUNNING : Z := Z.shiftl 1 BIT_RUNNING.
Definition MASK_MERGING : Z := Z.shiftl 1 BIT_MERGING.

Definition STS_NEW : Z := 0.
Definition STS_WAIT_STATUS : Z := 1.
Definition STS_DISCONNECTED : Z := 4.
Definition STS_RUNNING : Z := Z.lor MASK_RUNNING MASK_INITIALIZED.
Definition STS_REQ_SLOTS : Z := Z.lor MASK_REQUESTING MASK_INITIALIZED.
Definition STS_MERGE_STATUS : Z :=
  Z.lor (Z.lor (Z.lor 0x20 MASK_RUNNING) MASK_INITIALIZED) MASK_MERGING.

Definition NO_PRIMARY_MBR : Z := LOCALNODE.
Definition NO_NEXT_MBR : Z := NO_PRIMARY_MBR.
Definition NO_SLOT_OWNER : Z := NO_PRIMARY_MBR.

Definition BIT_SLOT_DONATING : Z := 1.
Definition BIT_SLOT_PARTITION : Z := 2.
Definition SLOTS_BY_MSG : Z := 4.

Definition SYSTASK (n : Z) : Z := SYSTEM - n.

Definition EMOLACCES : Z := -13.
Definition EMOLNOSPC : Z := -28.
Definition EMOLNAMETOOLONG : Z := -36.
Definition EMOLGENERIC : Z := -99.
Definition EMOLERRCODE : Z := -300.
Definition EMOLBADOWNER : Z := -331.
Definition EMOLNOREPLICA : Z := -402.

Definition MOLEXIT : Z := 1.
Definition MOLFORK : Z := 2.
Definition MOLEXEC : Z := 59.
Definition MOLBINDPROC : Z := 96.
Definition MOLMIGRPROC : Z := 97.

(** [1 << bit_nr] on the 32-bit target: the processor takes the count modulo
    32, so the owner -1 of a slot without owner stands for bit 31. *)
Definition TEST_BIT (bitmap bit_nr : Z) : bool := test_bit (bit_nr mod 32) bitmap.
Definition SET_BIT (bitmap bit_nr : Z) : Z := set_bit (bit_nr mod 32) bitmap.
Definition CLR_BIT (bitmap bit_nr : Z) : Z := clear_bit (bit_nr mod 32) bitmap.

Definition CEILING (x y : Z) : Z := Z.quot x y + (if Z.rem x y =? 0 then 0 else 1).

(** ** Data *)

Record slot_t := mk_slot { s_nr : Z; s_endpoint : Z; s_flags : Z; s_owner : Z }.
#[export] Instance eta_slot : Eta slot_t := fun r =>
  mk_slot (s_nr r) (s_endpoint r) (s_flags r) (s_owner r).
#[export] Instance slot_eq_dec : EqDecision slot_t.
Proof. solve_decision. Defined.

(** The messages of the group, by [mess_type]; the name of a process in a
    [SYS_SYSCALL] message is left out.  A donation carries the first [nr] of the
    four entries of [mA_ia]. *)
Inductive smsg :=
| M_REQ_SLOTS (source need free owned : Z)
| M_DON_SLOTS (source dst nr : Z) (ia : list Z)
| M_STATUS (mtype source dest bmi bmw : Z) (d : dc_t) (table : list slot_t)
| M_SYSCALL (source mtype nr endpt : Z).

#[export] Instance dc_eq_dec : EqDecision dc_t.
Proof. solve_decision. Defined.
#[export] Instance smsg_eq_dec : EqDecision smsg.
Proof. solve_decision. Defined.

Inductive action := A_MCAST (m : smsg) | A_DISCONNECT | A_JOIN.
#[export] Instance action_eq_dec : EqDecision action.
Proof. solve_decision. Defined.

Record sys := mk_sys {
  s_dc : dc_t;                        (* the descriptor dc_ptr of the DC *)
  local_nodeid : Z;
  FSM_state : Z;
  primary_mbr : Z; waitsts_mbr : Z; active_nodes : Z; init_nodes : Z;
  bm_active : Z; bm_init : Z; bm_waitsts : Z; bm_donors : Z; bm_pending : Z;
  bm_init_mrg : Z; bm_waitsts_mrg : Z;
  slot : list slot_t; slot_merge : list slot_t;
  free_slots : Z; free_slots_low : Z; owned_slots : Z;
  total_slots : Z; min_owned_slots : Z; max_owned_slots : Z;
  last_rqst : Z; next_child : Z;      (* of SYSTASK: the last request, the last slot looked at *)
  barrier : bool;                     (* sys_barrier signalled: SYSTASK may start *)
  syscall_done : bool;                (* sys_syscall signalled *)
  out : list action;                  (* what was sent to the group, oldest first *)
}.
#[export] Instance eta_sys : Eta sys := fun r =>
  mk_sys (s_dc r) (local_nodeid r) (FSM_state r) (primary_mbr r) (waitsts_mbr r) (active_nodes r)
    (init_nodes r) (bm_active r) (bm_init r) (bm_waitsts r) (bm_donors r) (bm_pending r)
    (bm_init_mrg r) (bm_waitsts_mrg r) (slot r) (slot_merge r) (free_slots r) (free_slots_low r)
    (owned_slots r) (total_slots r) (min_owned_slots r) (max_owned_slots r) (last_rqst r) (next_child r)
    (barrier r)
    (syscall_done r) (out r).

Definition dc_nr_slots (d : dc_t) : Z := dc_nr_tasks d + dc_nr_procs d.
Definition nr_slots (g : sys) : Z := dc_nr_slots (s_dc g).
Definition nr_sysprocs (g : sys) : Z := dc_nr_sysprocs (s_dc g).
Definition nr_nodes (g : sys) : Z := dc_nr_nodes (s_dc g).

(** ** What the task calls

    [E] is the state of the kernel and of the network.  [proc_mapped e i] is
    the entry [i] of the process table of the DC, which the task has mapped;
    [poke] writes there.  The calls give their return code. *)

Class Host (E : Type) := {
  proc_mapped : E -> Z -> proc;
  poke : Z -> (proc -> proc) -> E -> E;
  mnx_rmtbind : Z -> Z -> Z -> E -> Z * E;
  mnx_lclbind : Z -> Z -> Z -> E -> Z * E;
  mnx_unbind : Z -> Z -> E -> Z * E;
  mnx_migr_start : Z -> Z -> E -> Z * E;
  mnx_migr_commit : Z -> Z -> Z -> Z -> E -> Z * E;
  mnx_migr_rollback : Z -> Z -> E -> Z * E;
  mnx_getpriv : Z -> Z -> E -> Z * E;
  SP_multicast : smsg -> E -> Z * E;
}.

(** ** Running a handler *)

Inductive stop := S_EXIT (rcode : Z) | S_ASSERT | S_WILD | S_WAIT (rcode : Z).

Inductive outcome (E A : Type) :=
| Ok (a : A) (g : sys) (e : E)
| Stop (x : stop) (g : sys) (e : E).
Arguments Ok {E A} a g e.
Arguments Stop {E A} x g e.

Definition act (E A : Type) : Type := sys -> E -> outcome E A.

Definition ret {E A} (a : A) : act E A := fun g e => Ok a g e.
Definition bind {E A B} (m : act E A) (k : A -> act E B) : act E B := fun g e =>
  match m g e with
  | Ok a g e => k a g e
  | Stop x g e => Stop x g e
  end.

Declare Scope sys_scope.
Delimit Scope sys_scope with sys.
Notation "x <- m ;; k" := (bind m (fun x => k))
  (at level 100, m at next level, right associativity) : sys_scope.
Notation "m ;; k" := (bind m (fun _ => k)) (at level 100, right associativity) : sys_scope.
Open Scope sys_scope.

Section Handlers.
Context {E : Type} `{!Host E}.
Implicit Types (g : sys) (e : E).

Definition globals : act E sys := fun g e => Ok g g e.
Definition upd (f : sys -> sys) : act E unit := fun g e => Ok tt (f g) e.
Definition stops {A} (x : stop) : act E A := fun g e => Stop x g e.
Definition only_if (b : bool) (m : act E unit) : act E unit := if b then m else ret tt.
Definition assert_ (b : bool) : act E unit := if b then ret tt else stops S_ASSERT.
Definition calls {A} (f : E -> A * E) : act E A := fun g e => let (a, e) := f e in Ok a g e.

(** An entry of the slot table, or of the table of a merge: [i] must be in it. *)
Definition rd_in (get : sys -> list slot_t) (i : Z) : act E slot_t := fun g e =>
  match (if i <? 0 then None else get g !! Z.to_nat i) with
  | Some x => Ok x g e
  | None => Stop S_WILD g e
  end.
Definition rd_slot : Z -> act E slot_t := rd_in slot.
Definition wr_slot (i : Z) (f : slot_t -> slot_t) : act E unit :=
  x <- rd_slot i ;; upd (fun g => g <| slot ::= <[Z.to_nat i := f x]> |>).
Definition rd_merge : Z -> act E slot_t := rd_in slot_merge.
Definition wr_merge (i : Z) (f : slot_t -> slot_t) : act E unit :=
  x <- rd_merge i ;; upd (fun g => g <| slot_merge ::= <[Z.to_nat i := f x]> |>).

(** The mapped descriptor of the slot [i], and of the process [nr]. *)
Definition PROC_MAPPED (i : Z) : act E proc := fun g e => Ok (proc_mapped e i) g e.
Definition proc_poke (i : Z) (f : proc -> proc) : act E unit := fun g e => Ok tt g (poke i f e).
Definition PROC2PTR (nr : Z) : act E proc := fun g e => Ok (proc_mapped e (nr + dc_nr_tasks (s_dc g))) g e.

(** [for(i = first; i < first + n; i++)], with a return from inside the body. *)
Fixpoint for_ret (n : nat) (i : Z) (body : Z -> act E (option Z)) : act E (option Z) :=
  match n with
  | O => ret None
  | S n =>
      r <- body i ;;
      match r with
      | None => for_ret n (i + 1) body
      | Some r => ret (Some r)
      end
  end.

Fixpoint for_upto (n : nat) (i : Z) (body : Z -> act E unit) : act E unit :=
  match n with
  | O => ret tt
  | S n => body i ;; for_upto n (i + 1) body
  end.

(** [SP_multicast] to the group; it gives the number of bytes, or an error. *)
Definition mcast (m : smsg) : act E Z :=
  r <- calls (SP_multicast m) ;;
  only_if (0 <=? r) (upd (fun g => g <| out ::= fun l => l ++ [A_MCAST m] |>)) ;;
  ret r.

Definition on_group (a : action) : act E unit := upd (fun g => g <| out ::= fun l => l ++ [a] |>).

(** The DC of the calls to the kernel. *)
Definition kcall {A} (f : Z -> E -> A * E) : act E A :=
  g <- globals ;; calls (f (dc_dcid (s_dc g))).

(** ** Members *)

(** The first member of a bitmap, among [n] members from [i]. *)
Fixpoint first_mbr (bm : Z) (n : nat) (i : Z) : Z :=
  match n with
  | O => NO_PRIMARY_MBR
  | S n => if TEST_BIT bm i then i else first_mbr bm n (i + 1)
  end.

Definition get_primary_mbr (g : sys) : Z := first_mbr (bm_init g) (Z.to_nat (nr_nodes g)) 0.

Fixpoint count_mbrs (bm : Z) (n : nat) (i : Z) : Z :=
  match n with
  | O => 0
  | S n => (if TEST_BIT bm i then 1 else 0) + count_mbrs bm n (i + 1)
  end.

Definition get_init_nodes (g : sys) : Z := count_mbrs (bm_init g) (Z.to_nat (nr_nodes g)) 0.

(** The members after [mbr], round the group. *)
Fixpoint next_mbr (nr bm : Z) (n : nat) (mbr : Z) : Z :=
  match n with
  | O => NO_NEXT_MBR
  | S n =>
      let mbr := (mbr + 1) mod nr in
      if TEST_BIT bm mbr then mbr else next_mbr nr bm n mbr
  end.

Definition get_next_mbr (node bm : Z) : act E Z :=
  if bm =? 0 then ret NO_NEXT_MBR
  else
    g <- globals ;;
    let node := if node =? NO_NEXT_MBR then 0 else node in
    assert_ ((0 <=? node) && (node <? nr_nodes g)) ;;
    ret (next_mbr (nr_nodes g) bm (Z.to_nat (nr_nodes g)) node).

(** ** Requests *)

Definition mcast_rqst_slots (nr : Z) : act E Z :=
  g <- globals ;;
  if negb (bm_waitsts g =? 0) then ret OK
  else if TEST_BIT (FSM_state g) BIT_MERGING then ret OK
  else
    let donors := CLR_BIT (bm_init g) (local_nodeid g) in
    upd (fun g => g <| bm_donors := donors |>) ;;
    if donors =? 0 then ret OK
    else mcast (M_REQ_SLOTS (local_nodeid g) nr (free_slots g) (owned_slots g)).

Definition new_rqst_slots (nr : Z) : act E Z :=
  g <- globals ;;
  if (bm_donors g =? 0) && (owned_slots g =? 0) then
    upd (fun g => g <| FSM_state := STS_REQ_SLOTS |>) ;;
    mcast_rqst_slots nr
  else ret OK.

(** ** Notices of what a local process did

    The thread of SYSTASK waits until its own message comes back. *)
Definition mcast_proc (mtype nr endpt : Z) : act E Z :=
  g <- globals ;;
  if init_nodes g =? 1 then ret OK
  else
    rcode <- mcast (M_SYSCALL (local_nodeid g) mtype nr endpt) ;;
    stops (S_WAIT rcode).

Definition mcast_exit_proc (x : proc) : act E Z := mcast_proc MOLEXIT (p_nr x) (p_endpoint x).
Definition mcast_fork_proc (x : proc) : act E Z := mcast_proc MOLFORK (p_nr x) (p_endpoint x).
Definition mcast_bind_proc (x : proc) : act E Z := mcast_proc MOLBINDPROC (p_nr x) (p_endpoint x).
Definition mcast_migr_proc (x : proc) : act E Z := mcast_proc MOLMIGRPROC (p_nr x) (p_endpoint x).
Definition mcast_exec_proc (x : proc) : act E Z := mcast_proc MOLEXEC (p_nr x) (p_endpoint x).

(** ** Status information *)

(** The slots of the system processes are read off the process table. *)
Definition status_slot (i : Z) : act E unit :=
  x <- PROC_MAPPED i ;;
  if negb (p_rts_flags x =? SLOT_FREE) then
    wr_slot i (fun t => t <| s_owner := p_nodeid x |> <| s_endpoint := p_endpoint x |>)
  else wr_slot i (fun t => t <| s_owner := NO_PRIMARY_MBR |> <| s_endpoint := NONE |>).

(** [part] is the table to send, if it is not [slot] itself. *)
Definition mcast_status_info (dest mtype : Z) (part : option (list slot_t)) : act E Z :=
  g <- globals ;;
  for_upto (Z.to_nat (nr_sysprocs g)) 0 status_slot ;;
  h <- globals ;;
  mcast (M_STATUS mtype (local_nodeid g) dest (bm_init g) (bm_waitsts g) (s_dc g)
           (default (slot h) part)).

Definition primary_sts_mcast : act E Z :=
  g <- globals ;;
  if primary_mbr g =? local_nodeid g then
    w <- get_next_mbr (waitsts_mbr g) (bm_waitsts g) ;;
    upd (fun g => g <| waitsts_mbr := w |>) ;;
    if negb (w =? NO_NEXT_MBR) then mcast_status_info w SYS_PUT_STATUS None
    else ret OK
  else ret OK.

Definition init_global_vars (g : sys) : sys :=
  g <| FSM_state := STS_NEW |> <| primary_mbr := NO_PRIMARY_MBR |> <| init_nodes := 0 |>
    <| waitsts_mbr := 0 |> <| bm_init := 0 |> <| bm_active := 0 |> <| bm_waitsts := 0 |>
    <| bm_donors := 0 |> <| bm_pending := 0 |>.

(** The task leaves the group and joins it again. *)
Definition rejoin : act E unit :=
  upd init_global_vars ;; on_group A_DISCONNECT ;; on_group A_JOIN.

Definition set_max_owned (g : sys) : sys :=
  g <| max_owned_slots := total_slots g - min_owned_slots g * (init_nodes g - 1) |>.

Definition copy_to_mrg (g : sys) : sys :=
  g <| slot_merge := slot g |> <| bm_waitsts_mrg := bm_waitsts g |> <| bm_init_mrg := bm_init g |>.
Definition copy_from_mrg (g : sys) : sys :=
  g <| slot := slot_merge g |> <| bm_waitsts := bm_waitsts_mrg g |> <| bm_init := bm_init_mrg g |>.

(** ** Remote system tasks ([system.c]) *)

Definition bind_rmt_systask (node : Z) : act E Z :=
  _ <- kcall (fun d => mnx_rmtbind d (SYSTASK node) node) ;;
  x <- PROC2PTR (SYSTASK node) ;;
  assert_ (p_nodeid x =? node) ;;
  g <- globals ;;
  wr_slot (SYSTASK node + dc_nr_tasks (s_dc g))
    (fun t => t <| s_endpoint := SYSTASK node |> <| s_flags := 0 |> <| s_owner := node |>) ;;
  ret OK.

Definition unbind_rmt_sysproc (ep : Z) : act E Z :=
  _ <- kcall (fun d => mnx_unbind d ep) ;;
  g <- globals ;;
  wr_slot (ENDPOINT_P ep + dc_nr_tasks (s_dc g))
    (fun t => t <| s_endpoint := NONE |> <| s_flags := 0 |> <| s_owner := local_nodeid g |>) ;;
  ret OK.

(** ** A member joins the group *)

(** The only member: it owns all the slots, and SYSTASK may start. *)
Definition lonely (g : sys) : sys :=
  g <| FSM_state := STS_RUNNING |> <| primary_mbr := local_nodeid g |>
    <| bm_init ::= fun b => SET_BIT b (local_nodeid g) |> <| init_nodes := 1 |>
    <| owned_slots := total_slots g |>
    <| slot ::= map (fun t => t <| s_owner := local_nodeid g |>) |>
    <| barrier := true |>.

(** A slot of a member that was taken for a member of another partition. *)
Definition restore_slot (new_mbr i : Z) : act E unit :=
  t <- rd_slot i ;;
  g <- globals ;;
  if (s_owner t =? new_mbr) && TEST_BIT (s_flags t) BIT_SLOT_PARTITION then
    if i <? nr_sysprocs g then
      x <- PROC_MAPPED i ;;
      _ <- unbind_rmt_sysproc (p_endpoint x) ;;
      ret tt
    else
      only_if (primary_mbr g =? local_nodeid g)
        (upd (fun g => g <| free_slots ::= Z.succ |> <| owned_slots ::= Z.succ |>)) ;;
      upd (fun g => g <| total_slots ::= Z.succ |>) ;;
      wr_slot i (fun t => t <| s_owner := primary_mbr g |> <| s_flags := 0 |>)
  else ret tt.

Definition sp_join (new_mbr : Z) : act E Z :=
  g <- globals ;;
  if new_mbr =? local_nodeid g then
    if active_nodes g =? 1 then upd lonely ;; ret OK
    else
      upd (fun g => g <| bm_waitsts ::= fun b => SET_BIT b (local_nodeid g) |>
                      <| FSM_state := STS_WAIT_STATUS |>) ;;
      ret OK
  else
    upd (fun g => g <| bm_waitsts ::= fun b => SET_BIT b new_mbr |>) ;;
    if FSM_state g =? STS_WAIT_STATUS then ret OK
    else
      for_upto (Z.to_nat (nr_slots g)) 0 (restore_slot new_mbr) ;;
      upd (fun g => g <| bm_donors := 0 |> <| bm_pending := 0 |>) ;;
      _ <- primary_sts_mcast ;;
      g <- globals ;;
      rcode <- new_rqst_slots (min_owned_slots g) ;;
      ret (if rcode =? 0 then OK else rcode).

(** ** Somebody requests slots *)

(** How many slots a member that requests none itself gives away. *)
Definition donation (g : sys) (needed : Z) : Z :=
  let surplus := free_slots g - free_slots_low g in
  if surplus <=? 0 then 0
  else Z.min surplus (CEILING needed (init_nodes g - 1)).

(** The search for free slots of its own, of which [left] are to be given. *)
Fixpoint donate (n : nat) (i : Z) (requester left : Z) : act E (list Z) :=
  match n with
  | O => ret []
  | S n =>
      if left <=? 0 then ret []
      else
        x <- PROC_MAPPED i ;;
        t <- rd_slot i ;;
        g <- globals ;;
        if (p_rts_flags x =? SLOT_FREE) && (s_owner t =? local_nodeid g) then
          upd (fun g => g <| free_slots ::= Z.pred |> <| owned_slots ::= Z.pred |>) ;;
          proc_poke i (fun x => x <| p_rts_flags ::= fun f => SET_BIT f BIT_NO_MAP |>) ;;
          wr_slot i (fun t => t <| s_owner := requester |>
                                <| s_flags ::= fun f => SET_BIT f BIT_SLOT_DONATING |>) ;;
          l <- donate n (i + 1) requester (left - 1) ;;
          ret (i :: l)
        else donate n (i + 1) requester left
  end.

(** The four entries of [mA_ia]. *)
Definition mA_ia (l : list Z) : list Z := take 4 (l ++ [0; 0; 0; 0]).

Definition send_donation (requester donated : Z) : act E Z :=
  g <- globals ;;
  let donated := if donated >? SLOTS_BY_MSG then SLOTS_BY_MSG else donated in
  l <- donate (Z.to_nat (nr_slots g - nr_sysprocs g)) (nr_sysprocs g) requester donated ;;
  mcast (M_DON_SLOTS (local_nodeid g) requester donated (mA_ia l)).

(** A donation of no slots is put off, except by the member next to the
    requester. *)
Definition answer_request (requester donated : Z) : act E Z :=
  g <- globals ;;
  next <- (if (donated =? 0) && negb (TEST_BIT (bm_pending g) requester)
           then get_next_mbr requester (bm_init g) else ret (local_nodeid g)) ;;
  if negb (next =? local_nodeid g) then
    upd (fun g => g <| bm_pending ::= fun b => SET_BIT b requester |>) ;; ret OK
  else send_donation requester donated.

Definition sp_req_slots (requester needed : Z) : act E Z :=
  g <- globals ;;
  if negb (TEST_BIT (FSM_state g) BIT_INITIALIZED) then ret OK
  else if requester =? local_nodeid g then ret OK
  else
    assert_ (TEST_BIT (bm_init g) requester) ;;
    if negb (bm_donors g =? 0) then
      next <- (if TEST_BIT (bm_donors g) requester
               then get_next_mbr requester (bm_init g) else ret (local_nodeid g)) ;;
      if negb (next =? local_nodeid g) then
        upd (fun g => g <| bm_donors ::= fun b => CLR_BIT b requester |>) ;; ret OK
      else answer_request requester 0
    else
      assert_ (0 <? init_nodes g - 1) ;;
      answer_request requester (donation g needed).

(** ** A donation *)

(** The donor takes only the first slot of its own donation to be delivered. *)
Fixpoint don_loop (n : nat) (j source dst : Z) (ia : list Z) : act E bool :=
  match n with
  | O => ret false
  | S n =>
      match ia !! Z.to_nat j with
      | None => stops S_WILD
      | Some i =>
          g <- globals ;;
          wr_slot i (fun t => t <| s_owner := dst |>) ;;
          if source =? local_nodeid g then
            proc_poke i (fun x => x <| p_rts_flags ::= fun f => CLR_BIT f BIT_NO_MAP |>) ;;
            wr_slot i (fun t => t <| s_flags ::= fun f => CLR_BIT f BIT_SLOT_DONATING |>) ;;
            ret true
          else don_loop n (j + 1) source dst ia
      end
  end.

(** The slots are for this node. *)
Definition receive_donation (source nr : Z) : act E Z :=
  g <- globals ;;
  only_if ((owned_slots g =? 0) && (nr >? 0))
    (upd (fun g => g <| FSM_state := STS_RUNNING |> <| barrier := true |>)) ;;
  upd (fun g => g <| free_slots ::= fun f => f + nr |> <| owned_slots ::= fun o => o + nr |>
                  <| bm_donors ::= fun b => CLR_BIT b source |>) ;;
  g <- globals ;;
  rcode <- new_rqst_slots (min_owned_slots g) ;;
  ret (if rcode =? 0 then OK else rcode).

(** The reply of no slots that was put off is written where [spout_ptr] points,
    which is nowhere in this function. *)
Definition sp_don_slots (source dst nr : Z) (ia : list Z) : act E Z :=
  g <- globals ;;
  assert_ (TEST_BIT (bm_init g) dst) ;;
  assert_ (TEST_BIT (bm_init g) source) ;;
  own <- don_loop (Z.to_nat nr) 0 source dst ia ;;
  if own then ret OK
  else if negb (TEST_BIT (FSM_state g) BIT_INITIALIZED) then
    assert_ (negb (dst =? local_nodeid g)) ;; ret OK
  else if source =? local_nodeid g then ret OK
  else if negb (dst =? local_nodeid g) then
    only_if (TEST_BIT (bm_pending g) dst) (stops S_WILD) ;; ret OK
  else receive_donation source nr.

(** ** The status of the primary member *)

(** A member that is not the one the status is for. *)
Definition status_other (init_mbr : Z) : act E Z :=
  upd (fun g => g <| bm_waitsts ::= fun b => CLR_BIT b init_mbr |>) ;;
  g <- globals ;;
  if negb (TEST_BIT (FSM_state g) BIT_RUNNING) then
    upd (fun g => g <| bm_init ::= fun b => SET_BIT b init_mbr |>) ;; ret OK
  else
    _ <- primary_sts_mcast ;;
    g <- globals ;;
    assert_ (TEST_BIT (bm_init g) (local_nodeid g)) ;;
    assert_ (negb (TEST_BIT (bm_init g) init_mbr)) ;;
    upd (fun g => g <| bm_init ::= fun b => SET_BIT b init_mbr |> <| init_nodes ::= Z.succ |>) ;;
    upd set_max_owned ;;
    x <- PROC2PTR (SYSTASK init_mbr) ;;
    rcode <- (if p_rts_flags x =? SLOT_FREE then bind_rmt_systask init_mbr else ret OK) ;;
    if rcode <? EMOLERRCODE then ret rcode
    else
      g <- globals ;;
      sp_req_slots init_mbr (min_owned_slots g).

Definition dc_differs (f d : dc_t) : Z :=
  if negb (dc_dcid f =? dc_dcid d) then EMOLBADDCID
  else if negb (dc_nr_procs f =? dc_nr_procs d) then EMOLBADPROC
  else if negb (dc_nr_tasks f =? dc_nr_tasks d) then EMOLINVAL
  else if negb (dc_nr_sysprocs f =? dc_nr_sysprocs d) then EMOLINVAL
  else if negb (dc_nr_nodes f =? dc_nr_nodes d) then EMOLDCNODE
  else if bool_decide (dc_name f = dc_name d) then OK else EMOLNAMETOOLONG.

(** The bitmaps of the status, with what came before it. *)
Definition merge_bitmaps (bmi bmw : Z) (g : sys) : sys :=
  let g := g <| bm_init ::= fun b => SET_BIT (Z.lor b bmi) (local_nodeid g) |>
             <| bm_waitsts ::= fun b => CLR_BIT (Z.lor b bmw) (local_nodeid g) |>
             <| owned_slots := 0 |> in
  g <| init_nodes := get_init_nodes g |>.

(** The binding of the slot of a system process that the status tells: [x] is
    the local descriptor. *)
Definition bind_as_told (x : proc) (told : slot_t) : act E Z :=
  if TEST_BIT (p_rts_flags x) BIT_SLOT_FREE then
    if negb (s_endpoint told =? NONE) then
      kcall (fun d => mnx_rmtbind d (s_endpoint told) (s_owner told))
    else ret OK
  else if p_nodeid x =? s_owner told then
    if p_endpoint x =? s_endpoint told then ret OK
    else
      _ <- kcall (fun d => mnx_unbind d (p_endpoint x)) ;;
      kcall (fun d => mnx_rmtbind d (s_endpoint told) (s_owner told))
  else if p_endpoint x =? s_endpoint told then
    _ <- kcall (fun d => mnx_migr_start d (p_endpoint x)) ;;
    kcall (fun d => mnx_migr_commit PROC_NO_PID d (p_endpoint x) (s_owner told))
  else
    _ <- kcall (fun d => mnx_unbind d (p_endpoint x)) ;;
    kcall (fun d => mnx_rmtbind d (s_endpoint told) (s_owner told)).

Definition status_sysproc (told : slot_t) (i : Z) : act E Z :=
  x <- PROC_MAPPED i ;;
  g <- globals ;;
  if negb (TEST_BIT (p_rts_flags x) BIT_SLOT_FREE) && (p_nodeid x =? local_nodeid g) then
    wr_slot (p_nr x + dc_nr_tasks (s_dc g))
      (fun t => t <| s_endpoint := p_endpoint x |> <| s_flags := 0 |> <| s_owner := local_nodeid g |>) ;;
    ret OK
  else if s_owner told =? NO_SLOT_OWNER then ret OK
  else
    rcode <- bind_as_told x told ;;
    wr_slot i (fun _ => told) ;;
    ret rcode.

(** A slot of a user process is taken over if it has no owner yet. *)
Definition status_user (told : slot_t) (i : Z) : act E unit :=
  t <- rd_slot i ;;
  only_if (s_owner t =? NO_SLOT_OWNER) (wr_slot i (fun _ => told)).

Fixpoint status_slots (n : nat) (i : Z) (table : list slot_t) (rcode : Z) : act E Z :=
  match n with
  | O => ret rcode
  | S n =>
      match table with
      | [] => stops S_WILD
      | told :: table =>
          assert_ (i =? s_nr told) ;;
          g <- globals ;;
          rcode <- (if i <? nr_sysprocs g then status_sysproc told i
                    else status_user told i ;; ret rcode) ;;
          status_slots n (i + 1) table rcode
      end
  end.

(** A remote system task that is not bound yet; the return code of the binding
    is tested the wrong way round. *)
Definition bind_member (i : Z) : act E unit :=
  g <- globals ;;
  if negb (i =? local_nodeid g) && TEST_BIT (bm_init g) i then
    x <- PROC2PTR (SYSTASK i) ;;
    if p_rts_flags x =? SLOT_FREE then
      rcode <- bind_rmt_systask i ;;
      only_if (rcode >? EMOLERRCODE) (stops (S_EXIT rcode))
    else ret tt
  else ret tt.

(** The member the status is for. *)
Definition status_local (bmi bmw : Z) (d : dc_t) (table : list slot_t) : act E Z :=
  g <- globals ;;
  if negb (FSM_state g =? STS_WAIT_STATUS) then ret OK
  else
    let rcode := dc_differs d (s_dc g) in
    if negb (rcode =? OK) then
      on_group A_DISCONNECT ;;
      upd (fun g => g <| FSM_state := STS_DISCONNECTED |>) ;;
      ret rcode
    else
      upd (merge_bitmaps bmi bmw) ;;
      rcode <- status_slots (Z.to_nat (nr_slots g)) 0 table OK ;;
      for_upto (Z.to_nat (nr_nodes g)) 0 bind_member ;;
      upd (fun g => g <| FSM_state := STS_REQ_SLOTS |>
                      <| bm_donors := CLR_BIT (bm_init g) (local_nodeid g) |>) ;;
      ret rcode.

Definition sp_put_status (dest bmi bmw : Z) (d : dc_t) (table : list slot_t) : act E Z :=
  g <- globals ;;
  if negb (dest =? local_nodeid g) then status_other dest
  else status_local bmi bmw d table.

(** ** The network merges *)

(** The table a primary sends: only the slots of its own partition. *)
Definition partition_table (g : sys) : list slot_t :=
  map (fun t => if TEST_BIT (bm_init g) (s_owner t) then t else t <| s_owner := NO_PRIMARY_MBR |>) (slot g).

Definition partition_slots (g : sys) : Z :=
  Z.of_nat (length (filter (fun t => TEST_BIT (bm_init g) (s_owner t) = true) (slot g))).

Definition sp_net_merge : act E Z :=
  upd (fun g => g <| bm_donors := 0 |> <| bm_pending := 0 |>
                  <| FSM_state ::= fun f => SET_BIT f BIT_MERGING |>) ;;
  upd copy_to_mrg ;;
  g <- globals ;;
  if negb (TEST_BIT (FSM_state g) BIT_RUNNING) then ret OK
  else if negb (primary_mbr g =? local_nodeid g) then ret OK
  else
    upd (fun g => g <| total_slots := partition_slots g |>) ;;
    _ <- mcast_status_info ANY SYS_MERGE_STATUS (Some (partition_table g)) ;;
    ret OK.

(** ** A member leaves the group *)

Definition drop_member (mbr : Z) (g : sys) : sys :=
  let g := if TEST_BIT (bm_init g) mbr
           then g <| init_nodes ::= Z.pred |> <| bm_init ::= fun b => CLR_BIT b mbr |> else g in
  let g := if TEST_BIT (bm_donors g) mbr then g <| bm_donors ::= fun b => CLR_BIT b mbr |> else g in
  let g := if TEST_BIT (bm_waitsts g) mbr then g <| bm_waitsts ::= fun b => CLR_BIT b mbr |> else g in
  if TEST_BIT (bm_pending g) mbr then g <| bm_pending ::= fun b => CLR_BIT b mbr |> else g.

(** The slot goes to the donor, if it was being donated, or to the primary. *)
Definition reallocate (i : Z) (t : slot_t) : act E unit :=
  g <- globals ;;
  if TEST_BIT (s_flags t) BIT_SLOT_DONATING then
    upd (fun g => g <| free_slots ::= Z.succ |> <| owned_slots ::= Z.succ |>) ;;
    wr_slot i (fun t => t <| s_owner := local_nodeid g |>) ;;
    proc_poke i (fun x => x <| p_rts_flags ::= fun f => CLR_BIT f BIT_NO_MAP |>)
  else
    wr_slot i (fun t => t <| s_owner := primary_mbr g |>) ;;
    only_if (primary_mbr g =? local_nodeid g)
      (only_if (owned_slots g =? 0)
         (upd (fun g => g <| FSM_state := STS_RUNNING |> <| barrier := true |>)) ;;
       upd (fun g => g <| owned_slots ::= Z.succ |> <| free_slots ::= Z.succ |>)).

Definition disc_slot (disc_mbr i : Z) : act E (option Z) :=
  t <- rd_slot i ;;
  if negb (s_owner t =? disc_mbr) then ret None
  else
    reallocate i t ;;
    g <- globals ;;
    if FSM_state g =? STS_WAIT_STATUS then ret None
    else
      x <- PROC_MAPPED i ;;
      if TEST_BIT (p_rts_flags x) BIT_SLOT_FREE then ret None
      else
        only_if (negb (p_nodeid x =? disc_mbr)) (stops (S_EXIT EMOLGENERIC)) ;;
        rcode <- kcall (fun d => mnx_unbind d (p_endpoint x)) ;;
        ret (if rcode =? OK then None else Some rcode).

Definition unbind_of (disc_mbr i : Z) : act E unit :=
  x <- PROC_MAPPED i ;;
  if p_nodeid x =? disc_mbr then _ <- unbind_rmt_sysproc (p_endpoint x) ;; ret tt else ret tt.

(** What is left once the bitmaps and the primary are right. *)
Definition disconnected (disc_mbr : Z) : act E Z :=
  upd set_max_owned ;;
  g <- globals ;;
  r <- for_ret (Z.to_nat (nr_slots g - nr_sysprocs g)) (nr_sysprocs g) (disc_slot disc_mbr) ;;
  match r with
  | Some rcode => ret rcode
  | None =>
      g <- globals ;;
      if FSM_state g =? STS_WAIT_STATUS then ret OK
      else
        for_upto (Z.to_nat (nr_sysprocs g)) 0 (unbind_of disc_mbr) ;;
        _ <- primary_sts_mcast ;;
        upd (fun g => g <| bm_donors := 0 |> <| bm_pending := 0 |>) ;;
        g <- globals ;;
        new_rqst_slots (min_owned_slots g)
  end.

Definition sp_disconnect (disc_mbr : Z) : act E Z :=
  g <- globals ;;
  if local_nodeid g =? disc_mbr then
    upd (fun g => g <| FSM_state := STS_DISCONNECTED |>) ;; ret OK
  else if negb (TEST_BIT (FSM_state g) BIT_INITIALIZED) && (active_nodes g =? 1) then
    rejoin ;; ret OK
  else if TEST_BIT (FSM_state g) BIT_MERGING then sp_net_merge
  else
    upd (drop_member disc_mbr) ;;
    g <- globals ;;
    if primary_mbr g =? disc_mbr then
      let p := get_primary_mbr g in
      upd (fun g => g <| primary_mbr := p |>) ;;
      if p =? NO_PRIMARY_MBR then rejoin ;; ret OK
      else disconnected disc_mbr
    else disconnected disc_mbr.

(** ** The network is partitioned *)

Definition part_sysproc (i : Z) (t : slot_t) : act E unit :=
  g <- globals ;;
  if negb (s_owner t =? local_nodeid g) && negb (TEST_BIT (bm_init g) (s_owner t)) then
    wr_slot i (fun t => t <| s_flags ::= fun f => SET_BIT f BIT_SLOT_PARTITION |>) ;;
    x <- PROC_MAPPED i ;;
    if TEST_BIT (p_rts_flags x) BIT_REMOTE then
      _ <- kcall (fun d => mnx_migr_start d (p_endpoint x)) ;; ret tt
    else ret tt
  else ret tt.

Definition part_slot (i : Z) : act E unit :=
  t <- rd_slot i ;;
  g <- globals ;;
  if i <? nr_sysprocs g then part_sysproc i t
  else
    only_if (TEST_BIT (s_flags t) BIT_SLOT_DONATING)
      (upd (fun g => g <| free_slots ::= Z.succ |> <| owned_slots ::= Z.succ |>) ;;
       wr_slot i (fun t => t <| s_owner := local_nodeid g |>
                             <| s_flags ::= fun f => CLR_BIT f BIT_SLOT_DONATING |>) ;;
       proc_poke i (fun x => x <| p_rts_flags ::= fun f => CLR_BIT f BIT_NO_MAP |>)) ;;
    t <- rd_slot i ;;
    if TEST_BIT (bm_init g) (s_owner t) then upd (fun g => g <| total_slots ::= Z.succ |>)
    else wr_slot i (fun t => t <| s_flags ::= fun f => SET_BIT f BIT_SLOT_PARTITION |>).

Definition partitioned : act E Z :=
  upd (fun g => g <| total_slots := 0 |>) ;;
  g <- globals ;;
  for_upto (Z.to_nat (nr_slots g)) 0 part_slot ;;
  upd (fun g => g <| init_nodes := get_init_nodes g |>) ;;
  upd set_max_owned ;;
  _ <- primary_sts_mcast ;;
  upd (fun g => g <| bm_donors := 0 |> <| bm_pending := 0 |>) ;;
  g <- globals ;;
  if owned_slots g =? 0 then
    if init_nodes g >? 1 then
      rcode <- new_rqst_slots (min_owned_slots g) ;;
      ret (if rcode =? 0 then OK else rcode)
    else ret EMOLNOREPLICA
  else ret OK.

(** When the old primary is in another partition the member starts again, unless
    it finds no other primary. *)
Definition sp_net_partition : act E Z :=
  upd (fun g => g <| bm_init := Z.land (bm_init g) (bm_active g) |>
                  <| bm_waitsts := Z.land (bm_waitsts g) (bm_active g) |>) ;;
  g <- globals ;;
  if FSM_state g =? STS_WAIT_STATUS then
    ret (if bm_init g =? 0 then EMOLNOREPLICA else OK)
  else
    only_if (FSM_state g =? STS_MERGE_STATUS) (upd (fun g => g <| FSM_state := STS_RUNNING |>)) ;;
    if negb (TEST_BIT (bm_init g) (primary_mbr g)) then
      let p := get_primary_mbr g in
      upd (fun g => g <| primary_mbr := p |>) ;;
      if negb (p =? NO_PRIMARY_MBR) then rejoin ;; ret OK
      else partitioned
    else partitioned.

(** ** The table of another partition

    [part i] is the entry at [slot_part + i].  The pointer is computed as
    [(slot_t * ) v_ptr + sizeof(dc_usr_t)], in entries and not in bytes. *)
Definition SIZEOF_SLOT : Z := 16.
Definition slot_part_offset (sizeof_message sizeof_dc : Z) : Z := sizeof_message + sizeof_dc * SIZEOF_SLOT.
Definition rst_offset (sizeof_message sizeof_dc : Z) : Z := sizeof_message + sizeof_dc.

Definition merge_sysproc (i : Z) (m p : slot_t) : act E unit :=
  x <- PROC_MAPPED i ;;
  if TEST_BIT (p_rts_flags x) BIT_SLOT_FREE then
    if negb (s_endpoint m =? NONE) then
      _ <- kcall (fun d => mnx_rmtbind d (s_endpoint m) (s_owner m)) ;;
      wr_merge i (fun _ => p)
    else ret tt
  else
    (if s_owner m =? s_owner p then
       if s_endpoint m =? s_endpoint p then
         _ <- kcall (fun d => mnx_migr_rollback d (p_endpoint x)) ;; ret tt
       else
         _ <- kcall (fun d => mnx_unbind d (s_endpoint m)) ;;
         wr_merge i (fun _ => p) ;;
         _ <- kcall (fun d => mnx_rmtbind d (s_endpoint p) (s_owner p)) ;; ret tt
     else if s_endpoint m =? s_endpoint p then
       wr_merge i (fun _ => p) ;;
       _ <- kcall (fun d => mnx_migr_commit PROC_NO_PID d (p_endpoint x) (s_owner p)) ;; ret tt
     else
       _ <- kcall (fun d => mnx_unbind d (s_endpoint m)) ;;
       wr_merge i (fun _ => p) ;;
       _ <- kcall (fun d => mnx_rmtbind d (s_endpoint p) (s_owner p)) ;; ret tt) ;;
    wr_merge i (fun t => t <| s_flags ::= fun f => CLR_BIT f BIT_SLOT_PARTITION |>).

Definition merge_slot (part : Z -> slot_t) (i : Z) : act E unit :=
  let p := part i in
  m <- rd_merge i ;;
  g <- globals ;;
  if TEST_BIT (s_flags p) BIT_SLOT_PARTITION then ret tt
  else if i <? nr_sysprocs g then
    if TEST_BIT (bm_init g) (s_owner m) then ret tt else merge_sysproc i m p
  else
    only_if (negb (s_owner p =? local_nodeid g)) (wr_merge i (fun _ => p)) ;;
    upd (fun g => g <| total_slots ::= Z.succ |>) ;;
    wr_merge i (fun t => t <| s_flags ::= fun f => CLR_BIT f BIT_SLOT_PARTITION |>).

(** The table is complete. *)
Definition merge_commit : act E Z :=
  upd copy_from_mrg ;;
  upd (fun g => g <| init_nodes := get_init_nodes g |> <| bm_donors := 0 |> <| bm_pending := 0 |>) ;;
  upd set_max_owned ;;
  upd (fun g => g <| primary_mbr := get_primary_mbr g |>) ;;
  g <- globals ;;
  assert_ (negb (primary_mbr g =? NO_PRIMARY_MBR)) ;;
  (if local_nodeid g =? primary_mbr g then _ <- primary_sts_mcast ;; ret tt else ret tt) ;;
  g <- globals ;;
  if owned_slots g =? 0 then
    rcode <- new_rqst_slots (min_owned_slots g) ;;
    ret (if rcode =? 0 then OK else rcode)
  else
    upd (fun g => g <| FSM_state := STS_RUNNING |>) ;; ret OK.

(** The test for partitions that have not told their slots yet looks at the
    entry [spm] was left at: the last one, or no entry at all. *)
Definition sp_merge_status (sender bmi bmw : Z) (part : Z -> slot_t) : act E Z :=
  g <- globals ;;
  if negb (TEST_BIT (FSM_state g) BIT_MERGING) then
    upd (fun g => init_global_vars g <| FSM_state := STS_WAIT_STATUS |>) ;; ret OK
  else if TEST_BIT (bm_init g) sender then
    if 0 <? nr_slots g then stops S_WILD else merge_commit
  else
    upd (fun g => g <| total_slots := 0 |>) ;;
    for_upto (Z.to_nat (nr_slots g)) 0 (merge_slot part) ;;
    upd (fun g => g <| bm_init_mrg ::= fun b => Z.lor b bmi |>
                    <| bm_waitsts_mrg ::= fun b => Z.lor b bmw |>) ;;
    if 0 <? nr_slots g then
      spm <- rd_merge (nr_slots g - 1) ;;
      if TEST_BIT (s_flags spm) BIT_SLOT_PARTITION && TEST_BIT (bm_active g) (s_owner spm) then ret OK
      else merge_commit
    else merge_commit.

(** ** What another system task did *)

(** A bind, or a fork, of the process [nr] with the endpoint [ep] on [source].  A
    fork of a user process is refused whoever owns the slot: only the trace
    of the error is under the test. *)
Definition rmt_bind (source nr ep : Z) : act E Z :=
  x <- PROC2PTR nr ;;
  if negb (p_rts_flags x =? SLOT_FREE) then
    ret (if TEST_BIT (p_misc_flags x) MIS_BIT_REPLICATED then OK
         else if ep =? SYSTASK source then OK
         else EMOLSLOTUSED)
  else
    r <- kcall (fun d => mnx_rmtbind d ep source) ;;
    if r <? EMOLERRCODE then ret r
    else
      r <- kcall (fun d => mnx_getpriv d ep) ;;
      ret (if r <? 0 then r else OK).

Definition rmt_migrate (source nr : Z) : act E Z :=
  g <- globals ;;
  wr_slot (nr + dc_nr_tasks (s_dc g)) (fun t => t <| s_owner := source |>) ;;
  x <- PROC2PTR nr ;;
  if negb (p_rts_flags x =? SLOT_FREE) then
    ret (if TEST_BIT (p_misc_flags x) MIS_BIT_REPLICATED then OK else EMOLSLOTUSED)
  else if p_nodeid x =? source then ret OK
  else
    r <- kcall (fun d => mnx_migr_start d (p_endpoint x)) ;;
    if negb (r =? OK) then ret r
    else
      x <- PROC2PTR nr ;;
      r <- kcall (fun d => mnx_migr_commit PROC_NO_PID d (p_endpoint x) source) ;;
      ret r.

Definition rmt_exit (source nr ep : Z) : act E Z :=
  g <- globals ;;
  let i := nr + dc_nr_tasks (s_dc g) in
  foreign <- (if i >=? nr_sysprocs g then t <- rd_slot i ;; ret (negb (s_owner t =? source))
              else ret false) ;;
  if foreign then ret OK
  else
    x <- PROC2PTR nr ;;
    if p_rts_flags x =? SLOT_FREE then ret EMOLPROCSTS
    else if TEST_BIT (p_misc_flags x) MIS_BIT_REPLICATED then ret OK
    else if negb (p_nodeid x =? source) then ret EMOLBADNODEID
    else kcall (fun d => mnx_unbind d ep).

Definition sp_syscall (source mtype nr ep : Z) : act E Z :=
  g <- globals ;;
  let user := nr + dc_nr_tasks (s_dc g) >=? nr_sysprocs g in
  if negb (TEST_BIT (FSM_state g) BIT_INITIALIZED) then ret OK
  else if source =? local_nodeid g then
    upd (fun g => g <| syscall_done := true |>) ;; ret OK
  else if mtype =? MOLBINDPROC then
    if user then ret EMOLBADPROC else rmt_bind source nr ep
  else if mtype =? MOLFORK then
    if user then _ <- rd_slot (nr + dc_nr_tasks (s_dc g)) ;; ret EMOLBADOWNER
    else rmt_bind source nr ep
  else if mtype =? MOLEXEC then
    if user then _ <- rd_slot (nr + dc_nr_tasks (s_dc g)) ;; ret EMOLBADOWNER
    else ret OK
  else if mtype =? MOLMIGRPROC then rmt_migrate source nr
  else if mtype =? MOLEXIT then rmt_exit source nr ep
  else ret EMOLNOSYS.

(** ** The loop of the slots thread *)

Inductive event :=
| EV_MESS (sender : Z) (m : smsg) (part : Z -> slot_t)
| EV_JOIN (mbr : Z) (members : list Z)
| EV_LEAVE (mbr : Z) (members : list Z)
| EV_NETWORK (members : list Z).

Definition mbr_bitmap (l : list Z) : Z := foldl SET_BIT 0 l.

(** The members that belong to the DC, each one counted once. *)
Definition dc_members (nodes : Z) (l : list Z) : Z * Z :=
  foldl (fun '(bm, n) m =>
    if TEST_BIT nodes m && negb (TEST_BIT bm m) then (SET_BIT bm m, n + 1) else (bm, n)) (0, 0) l.

Definition on_message (sender : Z) (m : smsg) (part : Z -> slot_t) : act E Z :=
  match m with
  | M_REQ_SLOTS source need _ _ => sp_req_slots source need
  | M_DON_SLOTS source dst nr ia => sp_don_slots source dst nr ia
  | M_STATUS mtype _ dest bmi bmw d table =>
      if mtype =? SYS_PUT_STATUS then
        g <- globals ;;
        only_if (negb (TEST_BIT (FSM_state g) BIT_INITIALIZED))
          (upd (fun g => g <| primary_mbr := sender |>)) ;;
        sp_put_status dest bmi bmw d table
      else if mtype =? SYS_MERGE_STATUS then sp_merge_status sender bmi bmw part
      else ret OK
  | M_SYSCALL source mtype nr ep => sp_syscall source mtype nr ep
  end.

(** A change of the members by one, [mbr]. *)
Definition on_member (mbr : Z) (members : list Z) (h : Z -> act E Z) : act E Z :=
  g <- globals ;;
  if negb (TEST_BIT (dc_nodes (s_dc g)) mbr) then ret OK
  else
    let n := Z.of_nat (length members) in
    assert_ ((0 <? n) && (n <=? nr_nodes g)) ;;
    upd (fun g => g <| active_nodes := n |> <| bm_active := mbr_bitmap members |>) ;;
    h mbr.

(** A change of the network: fewer members, or more, by the value of the bitmap. *)
Definition on_network (members : list Z) : act E Z :=
  g <- globals ;;
  let (bm, n) := dc_members (dc_nodes (s_dc g)) members in
  if bm_active g =? bm then ret OK
  else
    upd (fun g => g <| active_nodes := n |> <| bm_active := bm |>) ;;
    assert_ ((0 <? n) && (n <=? nr_nodes g)) ;;
    if bm_active g >? bm then sp_net_partition else sp_net_merge.

Definition slots_loop (ev : event) : act E Z :=
  match ev with
  | EV_MESS sender m part => on_message sender m part
  | EV_JOIN mbr members => on_member mbr members sp_join
  | EV_LEAVE mbr members => on_member mbr members sp_disconnect
  | EV_NETWORK members => on_network members
  end.

End Handlers.

(** ** The name of a member

    The name Spread gives to a member is [#], the user name [node.dc] of
    [init_slots], [#] and the name of the host.  A character is its code. *)
Definition DOT : Z := 46.
Definition DIGIT_0 : Z := 48.

(** [strchr(s, '.')], and the string cut there. *)
Fixpoint cut_dot (s : list Z) : list Z :=
  match s with
  | [] => []
  | c :: s => if c =? DOT then [] else c :: cut_dot s
  end.

(** [atoi], without the sign: it stops at the first character that is no digit. *)
Fixpoint atoi (n : Z) (s : list Z) : Z :=
  match s with
  | [] => n
  | c :: s => if (DIGIT_0 <=? c) && (c <=? DIGIT_0 + 9) then atoi (10 * n + (c - DIGIT_0)) s else n
  end.

Definition get_nodeid (mbr : list Z) : Z := atoi 0 (tail (cut_dot mbr)).

(** [sprintf("%d", n)] for the number of a node, and [User]. *)
Definition dec (n : Z) : list Z :=
  if n <? 10 then [DIGIT_0 + n] else [DIGIT_0 + n / 10; DIGIT_0 + n mod 10].
Definition User (node dcid : Z) : list Z := dec node ++ [DOT] ++ dec dcid.
