(* ===== verification/StatFile.v ===== *)
(** * The accounting file of a process ([stat2proc] of [src/tasks/systask/do_times.c])

    The file [/proc/PID/stat] of Linux: the number of the process, its name
    between parentheses, a letter for its state and numbers.  A name may have
    blanks and parentheses.  Texts are lists of character codes; the fields that
    [sscanf] stores are a list, cut short where the text does not match. *)

From S2P Require Import Prelude Slots.

Definition CH_SPACE : Z := 32.
Definition CH_OPEN : Z := 40.
Definition CH_CLOSE : Z := 41.
Definition CH_MINUS : Z := 45.
Definition CH_PLUS : Z := 43.

(** ** The functions of the C library *)

(** What follows the first [c], and the text before and after the last [c]. *)
Fixpoint strchr (c : Z) (s : list Z) : option (list Z) :=
  match s with
  | [] => None
  | x :: s => if x =? c then Some s else strchr c s
  end.

Fixpoint strrchr (c : Z) (s : list Z) : option (list Z * list Z) :=
  match s with
  | [] => None
  | x :: s =>
      match strrchr c s with
      | Some (a, b) => Some (x :: a, b)
      | None => if x =? c then Some ([], s) else None
      end
  end.

(** [isspace]. *)
Definition is_space (c : Z) : bool := (c =? CH_SPACE) || ((9 <=? c) && (c <=? 13)).
Definition is_digit (c : Z) : bool := (DIGIT_0 <=? c) && (c <=? DIGIT_0 + 9).

Fixpoint skip_space (s : list Z) : list Z :=
  match s with
  | [] => []
  | c :: r => if is_space c then skip_space r else s
  end.

Fixpoint digits (n : Z) (s : list Z) : Z * list Z :=
  match s with
  | [] => (n, [])
  | c :: r => if is_digit c then digits (10 * n + (c - DIGIT_0)) r else (n, s)
  end.

(** A number of decimal digits: there must be one digit at least. *)
Definition scan_nat (s : list Z) : option (Z * list Z) :=
  match s with
  | c :: _ => if is_digit c then Some (digits 0 s) else None
  | [] => None
  end.

Definition scan_num (s : list Z) : option (Z * list Z) :=
  match skip_space s with
  | [] => None
  | c :: r =>
      if c =? CH_MINUS then '(n, s) ← scan_nat r; Some (- n, s)
      else if c =? CH_PLUS then scan_nat r
      else scan_nat (c :: r)
  end.

Fixpoint drop_word (s : list Z) : list Z :=
  match s with
  | [] => []
  | c :: r => if is_space c then s else drop_word r
  end.

(** [%*s]: a word of one character at least. *)
Definition scan_word (s : list Z) : option (list Z) :=
  match skip_space s with [] => None | s => Some (drop_word s) end.

(** The conversions of the format: [%c], a number that is stored ([%d], [%lu],
    [%Lu], ...) or not ([%*lu]), and a word that is not stored ([%*s]).  All but
    [%c], which comes first, skip the blanks before them, so that the blanks of
    the format need no conversion. *)
Inductive conv := Cv_char | Cv_num | Cv_skip_num | Cv_skip_word.

Fixpoint sscanf (f : list conv) (s : list Z) : list Z :=
  match f with
  | [] => []
  | Cv_char :: f => match s with c :: s => c :: sscanf f s | [] => [] end
  | Cv_num :: f => match scan_num s with Some (n, s) => n :: sscanf f s | None => [] end
  | Cv_skip_num :: f => match scan_num s with Some (_, s) => sscanf f s | None => [] end
  | Cv_skip_word :: f => match scan_word s with Some s => sscanf f s | None => [] end
  end.

(** ** [stat2proc] *)

Definition SIZEOF_CMD : nat := 16.

(** The fields in the order of the file, the letter of the state first. *)
Definition stat_format : list conv :=
  [Cv_char] ++ replicate 5 Cv_num ++ replicate 5 Cv_num ++ replicate 4 Cv_num ++
  replicate 2 Cv_num ++ [Cv_num] ++ [Cv_num] ++ [Cv_num] ++ [Cv_num] ++ [Cv_num] ++
  replicate 6 Cv_num ++ replicate 4 Cv_skip_word ++ [Cv_num] ++ replicate 2 Cv_skip_num ++
  replicate 2 Cv_num ++ replicate 2 Cv_num.

Definition F_UTIME : nat := 11.
Definition F_STIME : nat := 12.
Definition F_NLWP : nat := 17.
Definition F_PROCESSOR : nat := 30.
Definition F_RTPRIO : nat := 31.
Definition F_SCHED : nat := 32.

(** The values for kernels that write less, and what the file has of the fields
    written over the old ones. *)
Definition stat_defaults (old : list Z) : list Z :=
  <[F_NLWP := 0]> (<[F_SCHED := -1]> (<[F_RTPRIO := -1]> (<[F_PROCESSOR := 0]> old))).
Definition stored (got old : list Z) : list Z := got ++ drop (length got) old.
Definition one_thread (l : list Z) : list Z :=
  if bool_decide (l !! F_NLWP = Some 0) then <[F_NLWP := 1]> l else l.

(** The name, cut to the size of its array, and the fields; [None] where a
    pointer is used that no parenthesis gave. *)
Definition stat2proc (old s : list Z) : option (list Z * list Z) :=
  s ← strchr CH_OPEN s;
  '(cmd, rest) ← strrchr CH_CLOSE s;
  Some (take (SIZEOF_CMD - 1) cmd, one_thread (stored (sscanf stat_format (drop 1 rest)) (stat_defaults old))).

(** ** What the kernel writes *)

(** The decimal digits of a number below [10 ^ fuel]. *)
Fixpoint print_digits (fuel : nat) (n : Z) : list Z :=
  match fuel with
  | O => []
  | S fuel => if n <? 10 then [DIGIT_0 + n] else print_digits fuel (n / 10) ++ [DIGIT_0 + n mod 10]
  end.

Definition print_num (n : Z) : list Z :=
  if n <? 0 then CH_MINUS :: print_digits 20 (- n) else print_digits 20 n.

Definition print_fields (l : list Z) : list Z := concat (map (fun n => CH_SPACE :: print_num n) l).

(** The line of the process [pid], of the name [comm], with the numbers [l]. *)
Definition stat_line (pid : Z) (comm : list Z) (state : Z) (l : list Z) : list Z :=
  print_num pid ++ CH_SPACE :: CH_OPEN :: comm ++ CH_CLOSE :: CH_SPACE :: state :: print_fields l.

(** A number of 64 bits, signed or not. *)
Definition word64 (n : Z) : Prop := - 10 ^ 20 < n < 10 ^ 20.

(** ** Reading back what was written *)

Lemma digits_app n s t :
  Forall (fun c => is_digit c = true) s -> exists m, digits n (s ++ t) = digits m t /\
  forall t', digits n (s ++ t') = digits m t'.
Proof.
  intros H. revert n. induction H as [|c s Hc _ IH]; intros n; cbn; [by exists n|]. rewrite Hc. apply IH.
Qed.

Lemma digit_ok d : 0 <= d < 10 -> is_digit (DIGIT_0 + d) = true.
Proof. intros H. unfold is_digit. rewrite !(proj2 (Z.leb_le _ _)) by lia. done. Qed.

Lemma print_digits_ok fuel n : 0 <= n -> Forall (fun c => is_digit c = true) (print_digits fuel n).
Proof.
  revert n. induction fuel as [|fuel IH]; intros n Hn; cbn; [constructor|].
  destruct (Z.ltb_spec n 10); [by repeat constructor; apply digit_ok|].
  apply Forall_app. split; [apply IH, Z.div_pos; lia|]. repeat constructor. apply digit_ok, Z.mod_pos_bound. lia.
Qed.

Lemma digits_stop n t : (forall c r, t = c :: r -> is_digit c = false) -> digits n t = (n, t).
Proof. destruct t as [|c r]; [done|]. intros H. cbn. by rewrite (H c r). Qed.

Lemma print_digits_read fuel n t :
  0 <= n < 10 ^ Z.of_nat fuel -> (forall c r, t = c :: r -> is_digit c = false) ->
  digits 0 (print_digits fuel n ++ t) = (n, t).
Proof.
  intros Hn Ht.
  enough (forall s, digits 0 (print_digits fuel n ++ s) = digits n s) as -> by by apply digits_stop.
  clear Ht t. revert n Hn. induction fuel as [|fuel IH]; intros n Hn s; [cbn in *; by replace n with 0 by lia|].
  cbn [print_digits]. destruct (Z.ltb_spec n 10) as [H|H].
  - cbn [app digits]. rewrite digit_ok by lia. f_equal. lia.
  - rewrite <- app_assoc, IH.
    + cbn [app digits]. pose proof (Z.mod_pos_bound n 10). rewrite digit_ok by lia. f_equal.
      pose proof (Z.div_mod n 10). lia.
    + rewrite Nat2Z.inj_succ, Z.pow_succ_r in Hn by lia. split; [apply Z.div_pos; lia|].
      apply Z.div_lt_upper_bound; lia.
Qed.

Lemma print_digits_first fuel n : 0 <= n -> fuel <> O -> exists c r, print_digits fuel n = c :: r /\ is_digit c = true.
Proof.
  intros Hn Hf. pose proof (print_digits_ok fuel n Hn) as H. destruct (print_digits fuel n) as [|c r] eqn:Hp.
  - destruct fuel; [done|]. cbn in Hp. destruct (n <? 10); [done|]. by apply app_eq_nil in Hp as [_ ?].
  - exists c, r. split; [done|]. by apply list.Forall_cons in H as [? _].
Qed.

Lemma digit_cases c : is_digit c = true -> is_space c = false /\ (c =? CH_MINUS) = false /\ (c =? CH_PLUS) = false.
Proof.
  unfold is_digit, is_space, DIGIT_0, CH_SPACE, CH_MINUS, CH_PLUS. intros [H1%Z.leb_le H2%Z.leb_le]%andb_true_iff.
  rewrite !(proj2 (Z.eqb_neq _ _)), (proj2 (Z.leb_gt c 13)), andb_false_r by lia. done.
Qed.

(** The text after a number does not go on with digits. *)
Definition ends (t : list Z) : Prop := forall c r, t = c :: r -> c = CH_SPACE.

Lemma ends_digit t : ends t -> forall c r, t = c :: r -> is_digit c = false.
Proof. intros H c r ->. by rewrite (H c r). Qed.

Lemma scan_nat_print n t : 0 <= n < 10 ^ 20 -> ends t -> scan_nat (print_digits 20 n ++ t) = Some (n, t).
Proof.
  intros Hn Ht. destruct (print_digits_first 20 n) as (c & r & Hp & Hc); [lia|done|].
  pose proof (print_digits_read 20 n t Hn (ends_digit t Ht)) as Hr. rewrite Hp in *. cbn [app scan_nat].
  rewrite Hc. by f_equal.
Qed.

Lemma scan_num_print n t : word64 n -> ends t -> scan_num (CH_SPACE :: print_num n ++ t) = Some (n, t).
Proof.
  intros Hn Ht. unfold word64 in Hn. unfold scan_num, print_num. destruct (Z.ltb_spec n 0).
  - assert (Hs : scan_nat (print_digits 20 (- n) ++ t) = Some (- n, t)) by (apply scan_nat_print; [lia|done]).
    generalize dependent (print_digits 20 (- n)). intros d Hs. cbn. rewrite Hs. cbn. do 2 f_equal. lia.
  - destruct (print_digits_first 20 n) as (c & r & Hp & Hc); [lia|done|].
    destruct (digit_cases c Hc) as (H1 & H2 & H3).
    pose proof (scan_nat_print n t (conj H (proj2 Hn)) Ht) as Hs. rewrite Hp in *. cbn [app] in *.
    change (skip_space (CH_SPACE :: c :: r ++ t)) with (skip_space (c :: r ++ t)). cbn [skip_space].
    by rewrite H1, H2, H3.
Qed.

Lemma drop_word_app s t :
  Forall (fun c => is_space c = false) s -> ends t -> drop_word (s ++ t) = t.
Proof.
  intros H Ht. induction H as [|c s Hc _ IH]; cbn; [|by rewrite Hc].
  destruct t as [|c r]; [done|]. by rewrite (Ht c r).
Qed.

Lemma print_num_word n : word64 n -> Forall (fun c => is_space c = false) (print_num n) /\ print_num n <> [].
Proof.
  assert (Hd : forall m, 0 <= m -> Forall (fun c => is_space c = false) (print_digits 20 m) /\ print_digits 20 m <> []).
  { intros m Hm. split.
    - eapply list.Forall_impl; [by apply print_digits_ok|]. intros c Hc. by apply digit_cases.
    - destruct (print_digits_first 20 m) as (c & r & -> & _); [done|done|discriminate]. }
  intros Hn. unfold print_num. destruct (Z.ltb_spec n 0); [|by apply Hd].
  split; [|discriminate]. apply list.Forall_cons_2; [done|]. apply Hd. lia.
Qed.

Lemma scan_word_print n t : word64 n -> ends t -> scan_word (CH_SPACE :: print_num n ++ t) = Some t.
Proof.
  intros Hn Ht. destruct (print_num_word n Hn) as [Hf Hne]. unfold scan_word.
  change (skip_space (CH_SPACE :: print_num n ++ t)) with (skip_space (print_num n ++ t)).
  assert (Hk : skip_space (print_num n ++ t) = print_num n ++ t).
  { destruct (print_num n) as [|c r]; [done|]. cbn. apply list.Forall_cons in Hf as [Hc _]. by rewrite Hc. }
  rewrite Hk. destruct (print_num n ++ t) as [|c r] eqn:Hp; [by apply app_eq_nil in Hp as [? _]|].
  rewrite <- Hp. by rewrite drop_word_app.
Qed.

Lemma print_fields_ends l : ends (print_fields l).
Proof. destruct l as [|n l]; intros c r H; [done|]. by injection H. Qed.

(** The numbers that a format stores. *)
Fixpoint select (f : list conv) (l : list Z) : list Z :=
  match f, l with
  | Cv_num :: f, n :: l => n :: select f l
  | _ :: f, _ :: l => select f l
  | _, _ => []
  end.

Lemma sscanf_fields f l :
  Forall (fun c => c <> Cv_char) f -> Forall word64 l -> sscanf f (print_fields l) = select f l.
Proof.
  intros Hf. revert l. induction Hf as [|c f Hc _ IH]; intros l Hl; [done|].
  destruct Hl as [|n l Hn Hl]; [by destruct c|].
  change (print_fields (n :: l)) with (CH_SPACE :: print_num n ++ print_fields l).
  pose proof (print_fields_ends l) as He.
  destruct c; cbn [sscanf select]; [done|..];
    rewrite ?scan_num_print, ?scan_word_print by done; by rewrite IH.
Qed.

Lemma strchr_first c a b : c ∉ a -> strchr c (a ++ c :: b) = Some b.
Proof.
  induction a as [|x a IH]; intros Ha; cbn; [by rewrite Z.eqb_refl|].
  apply not_elem_of_cons in Ha as [Hx Ha]. rewrite (proj2 (Z.eqb_neq x c)) by done. by apply IH.
Qed.

Lemma strrchr_none c s : c ∉ s -> strrchr c s = None.
Proof.
  induction s as [|x s IH]; intros Hs; cbn; [done|]. apply not_elem_of_cons in Hs as [Hx Hs].
  rewrite IH by done. by rewrite (proj2 (Z.eqb_neq x c)).
Qed.

Lemma strrchr_last c a b : c ∉ b -> strrchr c (a ++ c :: b) = Some (a, b).
Proof.
  intros Hb. induction a as [|x a IH]; cbn; [by rewrite strrchr_none, Z.eqb_refl|]. by rewrite IH.
Qed.

(** No parenthesis is printed with the numbers. *)
Definition plain (c : Z) : Prop := is_digit c = true \/ c = CH_MINUS \/ c = CH_SPACE.

Lemma print_num_plain n : word64 n -> Forall plain (print_num n).
Proof.
  intros Hn. unfold print_num, word64 in *.
  assert (Hd : forall m, 0 <= m -> Forall plain (print_digits 20 m)).
  { intros m Hm. eapply list.Forall_impl; [by apply print_digits_ok|]. intros c Hc. by left. }
  destruct (Z.ltb_spec n 0); [|by apply Hd]. apply list.Forall_cons_2; [by right; left|apply Hd; lia].
Qed.

Lemma print_fields_plain l : Forall word64 l -> Forall plain (print_fields l).
Proof.
  induction 1 as [|n l Hn _ IH]; [by constructor|].
  change (print_fields (n :: l)) with (CH_SPACE :: print_num n ++ print_fields l).
  apply list.Forall_cons_2; [by right; right|]. apply Forall_app. split; [by apply print_num_plain|done].
Qed.

Lemma plain_notin c l : Forall plain l -> ~ plain c -> c ∉ l.
Proof. intros H Hc Hin. apply Hc. by apply (proj1 (list.Forall_forall _ _) H). Qed.

Lemma open_not_plain : ~ plain CH_OPEN.
Proof. intros [H|[H|H]]; vm_compute in H; congruence. Qed.
Lemma close_not_plain : ~ plain CH_CLOSE.
Proof. intros [H|[H|H]]; vm_compute in H; congruence. Qed.

Lemma stat2proc_line old pid comm st l :
  word64 pid -> st <> CH_CLOSE -> Forall word64 l ->
  stat2proc old (stat_line pid comm st l) =
    Some (take 15 comm, one_thread (stored (st :: select (tail stat_format) l) (stat_defaults old))).
Proof.
  intros Hp Hst Hl. unfold stat2proc, stat_line.
  replace (print_num pid ++ CH_SPACE :: CH_OPEN :: comm ++ CH_CLOSE :: CH_SPACE :: st :: print_fields l)
    with ((print_num pid ++ [CH_SPACE]) ++ CH_OPEN :: comm ++ CH_CLOSE :: CH_SPACE :: st :: print_fields l)
    by (by rewrite <- app_assoc).
  rewrite strchr_first.
  2:{ apply plain_notin; [|exact open_not_plain]. apply Forall_app. split; [by apply print_num_plain|].
      apply list.Forall_cons_2; [by right; right|constructor]. }
  cbn [mbind option_bind]. rewrite strrchr_last.
  2:{ apply not_elem_of_cons. split; [done|]. apply not_elem_of_cons. split; [done|].
      apply plain_notin; [by apply print_fields_plain|exact close_not_plain]. }
  cbn [mbind option_bind drop]. rewrite <- (sscanf_fields (tail stat_format) l); [done| |done].
  repeat constructor; discriminate.
Qed.
