(* ===== verification/Systask.v ===== *)
(** * The system task ([src/tasks/systask/do_*.c], [system.c])

    The thread that serves the requests of the process manager, the servers and
    the tasks: the forks, exits, bindings and migrations, which change the
    slot table of [Slots], copies between processes, and the start of the task.
    A handler gives the return code and the fields of the reply.  When it tells
    the other nodes ([mcast_proc] of [Slots]) the thread waits for its own
    message; what it does then is the operation [after_...] of the handler. *)

From S2P Require Import Prelude Types Endpoint Unbind Hyper Bind Clock Slots StatFile.

(** ** Constants *)

Definition PM_PROC_NR : Z := 0.
Definition DS_PROC_NR : Z := 7.
Definition KERNEL_PRIV : Z := 4.
Definition EMOLCONNREFUSED : Z := -59.
Definition SLOTS_RETRIES : Z := 5.
Definition SLOTS_PAUSE : Z := 1.
Definition VCOPY_VEC_SIZE : Z := 16.
Definition TO_WAIT4UNBIND : Z := 100.

Definition EMOLNOMEM : Z := -12.
Definition MNX_MAX_ARGS : nat := 10.
Definition M3_STRING : nat := 14.
Definition MAXPROCNAME : nat := 16.
Definition PRIO_MIN : Z := -20.
Definition PRIO_MAX : Z := 20.

(** The requests of [do_getinfo]. *)
Definition GET_KINFO : Z := 0.
Definition GET_PROCTAB : Z := 2.
Definition GET_PRIVTAB : Z := 8.
Definition GET_PROC : Z := 11.
Definition GET_MACHINE : Z := 12.
Definition GET_SLOTSTAB : Z := 16.
Definition GET_SLOT : Z := 17.

(** Error numbers of Linux, not negated. *)
Definition E2BIG : Z := 7.
Definition EINVAL : Z := 22.
Definition EXIT_FAILURE : Z := 1.

(** A request of a vector of copies. *)
Record vir_cp_req := mk_vcp { src_e : Z; src_offset : Z; dst_e : Z; dst_offset : Z; vcp_count : Z }.

(** ** What the thread calls besides [Host]

    [reset_alarm] is [reset_timer] of [clock.c] on the alarm timer of a process.
    [memcpy_proc a i] copies the mapped descriptor of the entry [i] to the
    address [a]; [strncpy_name i s] writes the characters [s] at the start of its
    name.  [read_stat] opens and reads [/proc/PID/stat] into the buffer [sbuf]:
    the number of bytes, -1 if the file is not opened.  [argv_buf] and [sbuf] are
    the texts in the buffers, up to the null character.  [spawn] is [fork]; what
    the child does is not of this process. *)
Class TaskHost (E : Type) := {
  mnx_ntfy_value : Z -> Z -> Z -> E -> Z * E;
  mnx_wait4unbind_T : Z -> Z -> E -> Z * E;
  mnx_vcopy : Z -> Z -> Z -> Z -> Z -> E -> Z * E;
  mnx_setpriv : Z -> Z -> Z -> E -> Z * E;
  mnx_replbind : Z -> Z -> E -> Z * E;
  cp_req : E -> nat -> vir_cp_req;
  reset_alarm : Z -> E -> E;
  errno : E -> Z;
  setpriority : Z -> Z -> E -> Z * E;
  getpriority : Z -> E -> Z * E;
  posix_memalign : Z -> E -> option Z * E;
  free_mem : Z -> E -> E;
  memcpy_proc : Z -> Z -> E -> E;
  strncpy_name : Z -> list Z -> E -> E;
  clock_gettime : E -> Z * Z;
  read_stat : E -> Z * E;
  sbuf : E -> list Z;
  argv_buf : E -> list Z;
  spawn : E -> Z * E;
  stop_child : Z -> E -> E;
}.

(** Where the task has its tables, and the sizes of their entries. *)
Record layout := mk_layout {
  a_dvs : Z; a_dc : Z; a_slot : Z; a_priv : Z;
  z_dvs : Z; z_dc : Z; z_proc : Z; z_slot : Z; z_priv : Z;
}.

Section Requests.
Context {E : Type} `{!Host E} `{!TaskHost E}.
Implicit Types (g : sys) (e : E).

(** The return code and the fields of the reply. *)
Definition reply : Type := Z * list Z.
Definition says (rcode : Z) : act E reply := ret (rcode, []).

Definition nr_ok (g : sys) (nr : Z) : bool :=
  negb ((nr <? - dc_nr_tasks (s_dc g)) || (nr >=? dc_nr_procs (s_dc g))).

(** [CHECK_P_NR]. *)
Definition CHECK_P_NR (nr : Z) (k : act E reply) : act E reply :=
  g <- globals ;; if nr_ok g nr then k else says EMOLRANGE.

(** ** Forks *)

(** The request for more slots, when the free ones run out. *)
Definition leftover (g : sys) : Z :=
  let share := CEILING (max_owned_slots g) (init_nodes g) in
  if share >? owned_slots g then share - owned_slots g else free_slots_low g - free_slots g.

Definition wants_slots (now : Z) (g : sys) : bool :=
  (free_slots g <? free_slots_low g) && (owned_slots g <? max_owned_slots g) &&
  (bm_donors g =? 0) && (bm_waitsts g =? 0) && (now - last_rqst g >? SLOTS_PAUSE).

Definition ask_slots (now : Z) : act E unit :=
  g <- globals ;;
  if wants_slots now g then
    _ <- mcast_rqst_slots (leftover g) ;; upd (fun g => g <| last_rqst := now |>)
  else ret tt.

(** The search for a free slot of the node, [n] slots from [i]. *)
Fixpoint find_free (n : nat) (i : Z) : act E (option Z) :=
  upd (fun g => g <| next_child := i |>) ;;
  match n with
  | O => ret None
  | S n =>
      x <- PROC_MAPPED i ;;
      free <- (if p_rts_flags x =? SLOT_FREE
               then t <- rd_slot i ;; g <- globals ;; ret (s_owner t =? local_nodeid g)
               else ret false) ;;
      if free then ret (Some i) else find_free n (i + 1)
  end.

Definition get_free_proc (now : Z) : act E Z :=
  ask_slots now ;;
  g <- globals ;;
  if free_slots g =? 0 then ret EMOLNOSPC
  else
    r <- find_free (Z.to_nat (Z.max 1 (nr_slots g - nr_sysprocs g))) (nr_sysprocs g) ;;
    match r with
    | Some i => ret (i - dc_nr_tasks (s_dc g))
    | None => stops S_ASSERT
    end.

Definition after_fork (ep nr rcode : Z) : act E reply :=
  if rcode <? 0 then says rcode else ret (OK, [ep; nr]).

(** The child [nr] is bound: its privileges, and its slot. *)
Definition fork_bound (nr : Z) : act E reply :=
  x <- PROC2PTR nr ;;
  rcode <- kcall (fun d => mnx_getpriv d (p_endpoint x)) ;;
  if rcode <? 0 then says rcode
  else
    g <- globals ;;
    if nr + dc_nr_tasks (s_dc g) <? nr_sysprocs g then
      wr_slot (nr + dc_nr_tasks (s_dc g))
        (fun t => t <| s_endpoint := p_endpoint x |> <| s_flags := 0 |> <| s_owner := local_nodeid g |>) ;;
      if negb (p_nodeid x =? local_nodeid g) then ret (OK, [p_endpoint x; nr])
      else rcode <- mcast_fork_proc x ;; after_fork (p_endpoint x) nr rcode
    else
      upd (fun g => g <| free_slots ::= Z.pred |>) ;;
      ret (OK, [p_endpoint x; nr]).

Definition do_fork (who_p lpid now : Z) : act E reply :=
  pm <- PROC2PTR who_p ;;
  if negb (p_endpoint pm =? PM_PROC_NR) then says EMOLACCES
  else
    nr <- get_free_proc now ;;
    if nr <? 0 then says nr
    else
      x <- PROC2PTR nr ;;
      if negb (p_rts_flags x =? SLOT_FREE) then says EMOLBUSY
      else
        let ep := ENDPOINT (ENDPOINT_G (p_endpoint x) + 1) (p_nr x) in
        rcode <- kcall (fun d => mnx_lclbind d lpid ep) ;;
        if negb (ep =? rcode) then says rcode else fork_bound nr.

(** ** Exits *)

(** The wait for the end of a killed process; [patience] waits may time out. *)
Fixpoint wait_unbind (patience : nat) (ep : Z) : act E unit :=
  rcode <- calls (mnx_wait4unbind_T ep TO_WAIT4UNBIND) ;;
  if rcode =? EMOLTIMEDOUT then
    match patience with
    | O => stops (S_WAIT rcode)
    | S patience => wait_unbind patience ep
    end
  else if rcode <? 0 then stops (S_EXIT EXIT_FAILURE)
  else ret tt.

(** The process is gone; [flags] tells if it was remote. *)
Definition exit_count (nr flags : Z) : act E reply :=
  only_if (negb (TEST_BIT flags BIT_REMOTE))
    (upd (fun g => g <| free_slots ::= Z.succ |>) ;; fun g e => Ok tt g (reset_alarm nr e)) ;;
  says OK.

(** [tolerated] is a return code of [mnx_unbind] that is no error. *)
Definition exit_unbind (tolerated : Z -> bool) (patience : nat) (nr ep flags : Z) : act E reply :=
  x <- PROC2PTR nr ;;
  g <- globals ;;
  if negb (TEST_BIT (p_misc_flags x) MIS_BIT_KILLED) then
    proc_poke (nr + dc_nr_tasks (s_dc g))
      (fun x => x <| p_misc_flags ::= fun f => SET_BIT f MIS_BIT_KILLED |>) ;;
    rcode <- kcall (fun d => mnx_unbind d ep) ;;
    if (rcode <? 0) && negb (tolerated rcode) then says rcode else exit_count nr flags
  else
    rcode <- calls (mnx_ntfy_value PM_PROC_NR ep PM_PROC_NR) ;;
    if rcode <? 0 then says rcode
    else wait_unbind patience ep ;; exit_count nr flags.

Definition clear_slot (nr : Z) : act E unit :=
  g <- globals ;;
  wr_slot (nr + dc_nr_tasks (s_dc g))
    (fun t => t <| s_endpoint := NONE |> <| s_flags := 0 |> <| s_owner := NO_PRIMARY_MBR |>).

Definition not_bound (rcode : Z) : bool := rcode =? EMOLNOTBIND.

Definition after_exit (patience : nat) (nr ep rcode : Z) : act E reply :=
  if rcode <? 0 then says rcode
  else clear_slot nr ;; exit_unbind not_bound patience nr ep 0.

(** [flags] is the local variable, which is not set for a user process. *)
Definition do_exit (patience : nat) (ep flags : Z) : act E reply :=
  let nr := ENDPOINT_P ep in
  g <- globals ;;
  if dc_nr_tasks (s_dc g) + nr <? nr_sysprocs g then
    t <- rd_slot (nr + dc_nr_tasks (s_dc g)) ;;
    if s_owner t =? local_nodeid g then
      x <- PROC2PTR nr ;;
      rcode <- mcast_exit_proc x ;;
      after_exit patience nr ep rcode
    else
      clear_slot nr ;; exit_unbind not_bound patience nr ep (SET_BIT flags BIT_REMOTE)
  else exit_unbind not_bound patience nr ep flags.

Definition after_unbind (patience : nat) (nr ep flags rcode : Z) : act E reply :=
  if rcode <? 0 then says rcode else exit_unbind (fun _ => false) patience nr ep flags.

(** [do_unbind] of [do_bindproc.c]. *)
Definition do_unbind_rqst (patience : nat) (ep : Z) : act E reply :=
  let nr := ENDPOINT_P ep in
  x <- PROC2PTR nr ;;
  if p_rts_flags x =? SLOT_FREE then says EMOLNOTBIND
  else
    let flags := p_rts_flags x in
    g <- globals ;;
    if dc_nr_tasks (s_dc g) + nr <? nr_sysprocs g then
      clear_slot nr ;;
      if p_nodeid x =? local_nodeid g then
        rcode <- mcast_exit_proc x ;; after_unbind patience nr ep flags rcode
      else exit_unbind (fun _ => false) patience nr ep flags
    else exit_unbind (fun _ => false) patience nr ep flags.

(** The process is marked free in the table of the task, which is the table of
    the kernel. *)
Definition do_killed (who_e : Z) : act E reply :=
  x <- PROC2PTR (ENDPOINT_P who_e) ;;
  g <- globals ;;
  if p_rts_flags x =? SLOT_FREE then says EMOLNOTBIND
  else
    proc_poke (ENDPOINT_P who_e + dc_nr_tasks (s_dc g)) (fun x => x <| p_rts_flags := SLOT_FREE |>) ;;
    says OK.

(** ** Bindings *)

(** A remote user process.  A process that is bound already is refused: only the
    trace of the error is under the test for a local process. *)
Definition bind_user (nr ep node oper : Z) : act E reply :=
  g <- globals ;;
  if negb (oper =? RMT_BIND) then says EMOLPERM
  else if node =? local_nodeid g then says EMOLBADNODEID
  else
    x <- PROC2PTR nr ;;
    if TEST_BIT (p_rts_flags x) BIT_SLOT_FREE then
      rcode <- kcall (fun d => mnx_rmtbind d ep node) ;;
      says (if rcode <? 0 then rcode else OK)
    else says EMOLSLOTUSED.

Definition after_bind (ep oper rcode : Z) : act E reply :=
  if rcode <? 0 then says rcode else ret (OK, [ep; oper]).

Definition bind_system (nr oper : Z) : act E reply :=
  x <- PROC2PTR nr ;;
  if TEST_BIT (p_rts_flags x) BIT_SLOT_FREE then says EMOLNOTBIND
  else
    rcode <- kcall (fun d => mnx_getpriv d (p_endpoint x)) ;;
    if rcode <? 0 then says rcode
    else
      g <- globals ;;
      wr_slot (nr + dc_nr_tasks (s_dc g))
        (fun t => t <| s_endpoint := p_endpoint x |> <| s_flags := 0 |> <| s_owner := p_nodeid x |>) ;;
      if negb (p_nodeid x =? local_nodeid g) then ret (OK, [p_endpoint x; oper])
      else rcode <- mcast_bind_proc x ;; after_bind (p_endpoint x) oper rcode.

(** The owner of the slot must be the node of the process, or nobody. *)
Definition bad_owner (g : sys) (oper node owner : Z) : bool :=
  if oper =? RMT_BIND then negb (owner =? node)
  else negb (owner =? NO_PRIMARY_MBR) && negb (owner =? local_nodeid g).

Definition do_bindproc (ep lpid oper : Z) : act E reply :=
  let nr := ENDPOINT_P ep in
  if (oper <? SELF_BIND) || (oper >? REPLICA_BIND) then says EMOLBADRANGE
  else CHECK_P_NR nr (
    g <- globals ;;
    t <- rd_slot (nr + dc_nr_tasks (s_dc g)) ;;
    if bad_owner g oper lpid (s_owner t) then says EMOLBADOWNER
    else if nr + dc_nr_tasks (s_dc g) >=? nr_sysprocs g then bind_user nr ep lpid oper
    else bind_system nr oper).

(** A process for which this node is the new primary. *)
Definition migr_local (nr ep lpid : Z) (x : proc) : act E reply :=
  g <- globals ;;
  rcode <- kcall (fun d => mnx_migr_commit lpid d (p_endpoint x) (local_nodeid g)) ;;
  if rcode <? 0 then says rcode
  else
    x <- PROC2PTR nr ;;
    wr_slot (nr + dc_nr_tasks (s_dc g))
      (fun t => t <| s_endpoint := ep |> <| s_flags := 0 |> <| s_owner := p_nodeid x |>) ;;
    rcode <- mcast_migr_proc x ;;
    says (if rcode <? 0 then rcode else OK).

Definition do_migrproc (ep lpid : Z) : act E reply :=
  let nr := ENDPOINT_P ep in
  CHECK_P_NR nr (
    g <- globals ;;
    if nr + dc_nr_tasks (s_dc g) >=? nr_sysprocs g then says EMOLPERM
    else
      x <- PROC2PTR nr ;;
      if p_rts_flags x =? SLOT_FREE then says EMOLNOTBIND
      else if negb (TEST_BIT (p_rts_flags x) BIT_REMOTE) then says EMOLRMTPROC
      else if negb (TEST_BIT (p_misc_flags x) MIS_BIT_RMTBACKUP) then says EMOLBADPROC
      else if negb (TEST_BIT (p_misc_flags x) MIS_BIT_REPLICATED) then says EMOLBADPROC
      else
        assert_ (negb (p_nodeid x =? local_nodeid g)) ;;
        rcode <- kcall (fun d => mnx_migr_start d (p_endpoint x)) ;;
        if rcode <? 0 then says rcode else migr_local nr ep lpid x).

(** ** Copies *)

Definition self_or (who_e ep : Z) : Z := if ep =? SELF then who_e else ep.

Definition copy_status (src dst : proc) (n : Z) : Z :=
  if p_rts_flags src =? SLOT_FREE then EMOLSRCDIED
  else if p_rts_flags dst =? SLOT_FREE then EMOLDSTDIED
  else if n <=? 0 then EMOLINVAL
  else if n >? MAXCOPYLEN then E2BIG
  else OK.

Definition do_copy (who_e src saddr dst daddr n : Z) : act E reply :=
  let src := self_or who_e src in
  let dst := self_or who_e dst in
  if (src =? dst) || (src =? ANY) || (dst =? ANY) || (src =? NONE) || (dst =? NONE) then says EMOLENDPOINT
  else CHECK_P_NR (ENDPOINT_P src) (CHECK_P_NR (ENDPOINT_P dst) (
    x <- PROC2PTR (ENDPOINT_P src) ;;
    y <- PROC2PTR (ENDPOINT_P dst) ;;
    let rcode := copy_status x y n in
    if negb (rcode =? OK) then says rcode
    else rcode <- calls (mnx_vcopy src saddr dst daddr n) ;; says rcode)).

(** The requests [i] and the next [n - 1]; [done] are made. *)
Fixpoint vcopy_loop (n : nat) (i : nat) (done : Z) : act E reply :=
  match n with
  | O => ret (OK, [done])
  | S n =>
      q <- (fun g e => Ok (cp_req e i) g e) ;;
      rcode <- calls (mnx_vcopy (src_e q) (src_offset q) (dst_e q) (dst_offset q) (vcp_count q)) ;;
      if negb (rcode =? 0) then ret (rcode, [done]) else vcopy_loop n (S i) (done + 1)
  end.

(** [buf] is the address of the vector in the task, 28 bytes a request. *)
Definition SIZEOF_VCP : Z := 28.
Definition do_vcopy (who_e size addr buf : Z) : act E reply :=
  if size >? VCOPY_VEC_SIZE then says EINVAL
  else
    rcode <- calls (mnx_vcopy who_e addr SELF buf (size * SIZEOF_VCP)) ;;
    if negb (rcode =? 0) then says rcode else vcopy_loop (Z.to_nat size) 0 0.

(** The pattern is copied page by page from the buffer [buf].  A round copies a
    byte at least, so that [fuel] rounds, as many as bytes, are enough. *)
Fixpoint memset_loop (fuel : nat) (who_e buf pagesize addr remain : Z) : act E reply :=
  match fuel with
  | O => stops S_ASSERT
  | S fuel =>
      let size := if remain >? pagesize then pagesize else remain in
      rcode <- calls (mnx_vcopy SYSTEM buf who_e addr size) ;;
      if negb (rcode =? 0) then says rcode
      else if 0 <? remain - size then memset_loop fuel who_e buf pagesize (addr + size) (remain - size)
      else says rcode
  end.

Definition do_memset (who_e buf pagesize n addr : Z) : act E reply :=
  if n <=? 0 then says EINVAL
  else memset_loop (Z.to_nat n) who_e buf pagesize addr n.

(** ** Information *)

(** What is read of the environment, and what changes it. *)
Definition look {A} (f : E -> A) : act E A := fun g e => Ok (f e) g e.
Definition does (f : E -> E) : act E unit := fun g e => Ok tt g (f e).

(** The block to copy to the caller, allocated or not, or an error. *)
Inductive info := I_ERR (rcode : Z) | I_SRC (src length : Z) (heap : bool).

(** A buffer of [n] bytes that [fill] fills.  When there is no memory the pointer
    keeps what was in the stack, [garbage], which is then compared with [NULL]. *)
Definition heap_copy (garbage n : Z) (fill : Z -> act E unit) : act E info :=
  r <- calls (posix_memalign n) ;;
  match r with
  | Some a => fill a ;; ret (I_SRC a n true)
  | None => if garbage =? 0 then ret (I_ERR EMOLNOMEM) else stops S_WILD
  end.

(** What [GET_SLOT] looks up. *)
Definition getinfo_slot (who_e ep : Z) : act E (option slot_t) :=
  let nr := ENDPOINT_P (self_or who_e ep) in
  g <- globals ;;
  if nr_ok g nr then t <- rd_slot (nr + dc_nr_procs (s_dc g)) ;; ret (Some t)
  else ret None.

Definition getinfo_src (L : layout) (garbage who_e request ep : Z) : act E info :=
  let nr := ENDPOINT_P (self_or who_e ep) in
  g <- globals ;;
  if request =? GET_KINFO then ret (I_SRC (a_dvs L) (z_dvs L) false)
  else if request =? GET_MACHINE then ret (I_SRC (a_dc L) (z_dc L) false)
  else if request =? GET_PROCTAB then
    heap_copy garbage (z_proc L * nr_slots g) (fun a =>
      for_upto (Z.to_nat (nr_slots g)) 0 (fun i => does (memcpy_proc (a + z_proc L * i) i)))
  else if request =? GET_SLOTSTAB then ret (I_SRC (a_slot L) (z_slot L * nr_slots g) false)
  else if request =? GET_PRIVTAB then ret (I_SRC (a_priv L) (z_priv L * nr_slots g) false)
  else if request =? GET_PROC then
    if nr_ok g nr then
      heap_copy garbage (z_proc L) (fun a => does (memcpy_proc a (nr + dc_nr_tasks (s_dc g))))
    else ret (I_ERR EMOLRANGE)
  else if request =? GET_SLOT then
    t <- getinfo_slot who_e ep ;;
    ret match t with
        | Some _ => I_SRC (a_slot L + z_slot L * (nr + dc_nr_procs (s_dc g))) (z_slot L) false
        | None => I_ERR EMOLRANGE
        end
  else ret (I_ERR EMOLINVAL).

Definition do_getinfo (L : layout) (garbage who_e request addr len ep : Z) : act E reply :=
  r <- getinfo_src L garbage who_e request ep ;;
  match r with
  | I_ERR rcode => says rcode
  | I_SRC src n heap =>
      if (len >? 0) && (n >? len) then says EMOL2BIG
      else
        g <- globals ;;
        rcode <- calls (mnx_vcopy (SYSTASK (local_nodeid g)) src who_e addr n) ;;
        only_if heap (does (free_mem src)) ;;
        says rcode
  end.

(** ** Priorities, times and names *)

Definition do_nice (ep prio : Z) : act E reply :=
  let nr := ENDPOINT_P (ENDPOINT_P ep) in
  x <- PROC2PTR nr ;;
  if p_rts_flags x =? SLOT_FREE then says EMOLNOTBIND
  else
    g <- globals ;;
    if p_nr x + dc_nr_tasks (s_dc g) <? nr_sysprocs g then says EMOLPERM
    else if (prio <? PRIO_MIN) || (prio >? PRIO_MAX) then says EMOLINVAL
    else
      rcode <- calls (setpriority (p_lpid x) prio) ;;
      if rcode <? 0 then says rcode
      else
        x <- PROC2PTR nr ;;
        prio <- calls (getpriority (p_lpid x)) ;;
        no <- look errno ;;
        if (prio =? -1) && negb (no =? 0) then says no else ret (OK, [prio]).

(** A [long] of the reply. *)
Definition to_long (n : Z) : Z := (n + 2 ^ 31) mod 2 ^ 32 - 2 ^ 31.

(** The product of an [unsigned long long] and the ticks. *)
Definition stat_time (clockTicks : Z) (l : list Z) (i : nat) : Z :=
  to_long ((default 0 (l !! i) * clockTicks) mod 2 ^ 64).

(** [PS] is the static record, as the last call left it. *)
Definition do_times (clockTicks : Z) (PS : list Z) : act E reply :=
  bytes <- calls read_stat ;;
  no <- look errno ;;
  if bytes <=? 0 then says no
  else
    s <- look sbuf ;;
    match stat2proc PS s with
    | None => stops S_WILD
    | Some (_, l) =>
        t <- look clock_gettime ;;
        ret (OK, [stat_time clockTicks l F_UTIME; stat_time clockTicks l F_STIME;
                  to_long (get_uptime clockTicks (fst t) (snd t))])
    end.

(** [strncpy] of the text [s]: exactly [n] characters are written. *)
Definition strncpy (n : nat) (s : list Z) : list Z := take n (s ++ replicate n 0).

Definition do_setpname (ep : Z) (name : list Z) : act E reply :=
  let nr := ENDPOINT_P ep in
  CHECK_P_NR nr (
    x <- PROC2PTR nr ;;
    if TEST_BIT (p_rts_flags x) BIT_SLOT_FREE then says EMOLNOTBIND
    else
      g <- globals ;;
      does (strncpy_name (nr + dc_nr_tasks (s_dc g)) (strncpy (M3_STRING - 1) name)) ;;
      says OK).

(** ** Programs of other nodes *)

(** The words of the argument, as [strtok] with blanks gives them. *)
Definition flush (w : list Z) : list (list Z) := match w with [] => [] | _ => [w] end.
Fixpoint strtok_all (w : list Z) (s : list Z) : list (list Z) :=
  match s with
  | [] => flush w
  | c :: s => if c =? CH_SPACE then flush w ++ strtok_all [] s else strtok_all (w ++ [c]) s
  end.

Definition CH_SLASH : Z := 47.
Definition basename (s : list Z) : list Z := default s (snd <$> strrchr CH_SLASH s).

(** The argument is copied to a buffer and cut.  The array of the words has
    [MNX_MAX_ARGS+1] entries, and their number is tested when they are all
    there, the null pointer after the last one too. *)
Definition rexec_args (src ptr len : Z) (fail : Z -> Z -> act E reply)
    (k : Z -> list (list Z) -> act E reply) : act E reply :=
  g <- globals ;;
  r <- calls (posix_memalign (MAXCOPYBUF + 1)) ;;
  match r with
  | None => stops S_WILD
  | Some buf =>
      rcode <- calls (mnx_vcopy src ptr (SYSTASK (local_nodeid g)) buf len) ;;
      if rcode <? 0 then fail buf rcode
      else
        s <- look argv_buf ;;
        let argv := strtok_all [] s in
        if bool_decide (MNX_MAX_ARGS < length argv)%nat then stops S_WILD
        else if bool_decide (MNX_MAX_ARGS <= length argv)%nat then says EMOL2BIG
        else k buf argv
  end.

(** The child [lpid] is bound to the endpoint [ep] the caller asked for. *)
Definition rexec_bind (node lpid ep buf : Z) (argv : list (list Z)) : act E reply :=
  let nr := ENDPOINT_P ep in
  g <- globals ;;
  let i := nr + dc_nr_tasks (s_dc g) in
  if negb (node =? local_nodeid g) then does (free_mem buf) ;; says EMOLBADNODEID
  else
    t <- rd_slot i ;;
    if negb (s_owner t =? NO_PRIMARY_MBR) && negb (s_owner t =? local_nodeid g) then
      does (free_mem buf) ;; says EMOLBADOWNER
    else
      x <- PROC2PTR nr ;;
      if negb (TEST_BIT (p_rts_flags x) BIT_SLOT_FREE) then does (free_mem buf) ;; says EMOLSLOTUSED
      else
        rcode <- kcall (fun d => mnx_lclbind d lpid ep) ;;
        if rcode <? 0 then says rcode
        else
          match argv with
          | [] => stops S_WILD
          | a :: _ =>
              does (strncpy_name i (strncpy (MAXPROCNAME - 1) (basename a))) ;;
              does (free_mem buf) ;;
              ret (OK, [ep])
          end.

(** Or to a free slot of this node, as a fork. *)
Definition rexec_fork (who_p lpid now buf : Z) : act E reply :=
  r <- do_fork who_p lpid now ;;
  if negb (fst r =? 0) then
    does (stop_child lpid) ;; does (free_mem buf) ;; says (fst r)
  else does (free_mem buf) ;; ret (OK, take 1 (snd r)).

(** The process manager is on another node: the program runs here. *)
Definition rexec_local (who_p node ep now : Z) (buf : Z) (argv : list (list Z)) : act E reply :=
  lpid <- calls spawn ;;
  if lpid <? 0 then does (free_mem buf) ;; says lpid
  else if negb (ep =? ANY) then rexec_bind node lpid ep buf argv
  else rexec_fork who_p lpid now buf.

(** The process manager is of this node: the program runs on another one. *)
Definition rexec_remote (node ep : Z) (buf : Z) (argv : list (list Z)) : act E reply :=
  match argv with
  | [] => stops S_WILD
  | _ :: _ =>
      rcode <- kcall (fun d => mnx_rmtbind d ep node) ;;
      does (free_mem buf) ;;
      says (if rcode <? 0 then rcode else OK)
  end.

Definition do_rexec (who_p node ep len ptr thrower now : Z) : act E reply :=
  if len >? MAXCOPYBUF then says EMOL2BIG
  else if negb (who_p =? PM_PROC_NR) then says EMOLPERM
  else
    x <- PROC2PTR PM_PROC_NR ;;
    g <- globals ;;
    if negb (p_nodeid x =? local_nodeid g) then
      rexec_args thrower ptr len (fun _ rcode => says rcode) (rexec_local who_p node ep now)
    else
      rexec_args thrower ptr len (fun buf rcode => does (free_mem buf) ;; says rcode) (rexec_remote node ep).

(** ** Privileges *)

Definition do_privctl (who_p ep level : Z) : act E reply :=
  x <- PROC2PTR (ENDPOINT_P ep) ;;
  if p_rts_flags x =? SLOT_FREE then says EMOLNOTBIND
  else
    rcode <- kcall (fun d => mnx_getpriv d ep) ;;
    if rcode <? 0 then says rcode
    else if negb (ENDPOINT_P who_p =? PM_PROC_NR) && negb (ENDPOINT_P who_p =? DS_PROC_NR) then says EMOLPERM
    else if (level <? USER_PRIV) || (level >? KERNEL_PRIV) then says EMOLINVAL
    else
      rcode <- kcall (fun d => mnx_setpriv d ep level) ;;
      if rcode <? 0 then says rcode
      else
        rcode <- kcall (fun d => mnx_getpriv d ep) ;;
        says (if rcode <? 0 then rcode else OK).

(** ** The start of the task *)

(** The limits; the divisions are of numbers that are not negative. *)
Definition init_limits (g : sys) : sys :=
  let total := nr_slots g - nr_sysprocs g in
  let min := Z.quot total (nr_nodes g) in
  g <| bm_active := 0 |> <| bm_donors := 0 |> <| bm_init := 0 |> <| bm_waitsts := 0 |> <| bm_pending := 0 |>
    <| total_slots := total |> <| min_owned_slots := min |> <| free_slots_low := Z.quot min 2 |>.

(** An entry of the slot table, in a DC of several nodes and of one. *)
Definition init_slot (i : Z) : act E unit :=
  x <- PROC_MAPPED i ;;
  if negb (p_rts_flags x =? SLOT_FREE) then
    wr_slot i (fun _ => mk_slot i (p_endpoint x) 0 (p_nodeid x))
  else wr_slot i (fun _ => mk_slot i NONE 0 NO_PRIMARY_MBR).

Definition init_single (g : sys) : sys :=
  g <| slot ::= imap (fun i t => t <| s_nr := Z.of_nat i |> <| s_flags := 0 |> <| s_owner := local_nodeid g |>) |>
    <| active_nodes := 1 |> <| init_nodes := 1 |> <| owned_slots := total_slots g |>
    <| bm_donors := 0 |> <| bm_active := SET_BIT 0 (local_nodeid g) |>
    <| bm_init := SET_BIT 0 (local_nodeid g) |> <| FSM_state := STS_RUNNING |>.

(** What Spread answers to the connection, if it refuses it, and to the join. *)
Definition init_slots (refused : option Z) (joined : Z) : act E Z :=
  match refused with
  | Some rcode => stops (S_EXIT rcode)
  | None =>
    on_group A_JOIN ;;
    only_if (negb (joined =? 0)) (stops (S_EXIT joined)) ;;
    upd init_global_vars ;;
    ret OK
  end.

Definition LOCAL_SLOTS (d_nr_nodes : Z) : Z := SYSTEM - d_nr_nodes.

(** The slots thread binds itself before its first event. *)
Definition slots_read_thread (d_nr_nodes : Z) : act E unit :=
  let nr := LOCAL_SLOTS d_nr_nodes in
  rcode <- kcall (fun d => mnx_replbind d nr) ;;
  only_if (rcode <? EMOLERRCODE) (stops (S_EXIT rcode)) ;;
  g <- globals ;;
  wr_slot (nr + dc_nr_tasks (s_dc g))
    (fun t => t <| s_endpoint := nr |> <| s_flags := 0 |> <| s_owner := local_nodeid g |>).

(** The other system tasks are bound. *)
Definition init_bind (i : Z) : act E (option Z) :=
  g <- globals ;;
  if negb (i =? local_nodeid g) && TEST_BIT (bm_init g) i then
    rcode <- bind_rmt_systask i ;;
    ret (if rcode <? EMOLERRCODE then Some rcode else None)
  else ret None.

Definition init_finish (d_nr_nodes : Z) : act E Z :=
  upd (fun g => g <| free_slots := owned_slots g |> <| next_child := nr_sysprocs g |>) ;;
  upd set_max_owned ;;
  g <- globals ;;
  r <- (if nr_nodes g >? 1 then for_ret (Z.to_nat d_nr_nodes) 0 init_bind else ret None) ;;
  ret (default OK r).

(** The task is woken up while it has no slots: it asks again and waits, [retries]
    times at most. *)
Definition init_retry (now retries d_nr_nodes : Z) : act E Z :=
  g <- globals ;;
  if (FSM_state g =? STS_REQ_SLOTS) && (owned_slots g =? 0) && (retries >? 0) then
    rcode <- mcast_rqst_slots (free_slots_low g) ;;
    upd (fun g => g <| last_rqst := now |>) ;;
    stops (S_WAIT rcode)
  else if retries <=? 0 then ret EMOLNOSPC
  else init_finish d_nr_nodes.

Definition init_woken (now d_nr_nodes : Z) : act E Z :=
  g <- globals ;;
  if FSM_state g =? STS_DISCONNECTED then ret EMOLCONNREFUSED
  else init_retry now SLOTS_RETRIES d_nr_nodes.

(** The processes of the node are told to the other nodes, from the slot [i] on. *)
Fixpoint mcast_binds2rmt (n : nat) (i : Z) : act E Z :=
  match n with
  | O => ret OK
  | S n =>
      x <- PROC_MAPPED i ;;
      g <- globals ;;
      (if negb (p_rts_flags x =? SLOT_FREE) && (p_nodeid x =? local_nodeid g)
       then _ <- mcast_bind_proc x ;; ret tt else ret tt) ;;
      mcast_binds2rmt n (i + 1)
  end.

(** ** The loop *)

Inductive rqst :=
| R_FORK (lpid : Z)
| R_EXIT (ep : Z)
| R_UNBIND (ep : Z)
| R_KILLED
| R_BINDPROC (ep lpid oper : Z)
| R_MIGRPROC (ep lpid : Z)
| R_VIRCOPY (src saddr dst daddr n : Z)
| R_VIRVCOPY (size addr : Z)
| R_MEMSET (n addr : Z)
| R_PRIVCTL (ep level : Z)
| R_GETINFO (request addr len ep : Z)
| R_NICE (ep prio : Z)
| R_TIMES
| R_SETPNAME (ep : Z) (name : list Z)
| R_REXEC (node ep len ptr thrower : Z)
| R_UNUSED.

(** What the thread has besides the globals: the time, the sizes and addresses
    of its buffers and tables, what is left in its stack, and a static variable. *)
Record frame := mk_frame {
  f_now : Z; f_buf : Z; f_pagesize : Z; f_garbage : Z; f_patience : nat;
  f_layout : layout; f_ticks : Z; f_PS : list Z;
}.

Definition serve (f : frame) (who_e : Z) (q : rqst) : act E reply :=
  let who_p := ENDPOINT_P who_e in
  match q with
  | R_FORK lpid => do_fork who_p lpid (f_now f)
  | R_EXIT ep => do_exit (f_patience f) ep (f_garbage f)
  | R_UNBIND ep => do_unbind_rqst (f_patience f) ep
  | R_KILLED => do_killed who_e
  | R_BINDPROC ep lpid oper => do_bindproc ep lpid oper
  | R_MIGRPROC ep lpid => do_migrproc ep lpid
  | R_VIRCOPY src saddr dst daddr n => do_copy who_e src saddr dst daddr n
  | R_VIRVCOPY size addr => do_vcopy who_e size addr (f_buf f)
  | R_MEMSET n addr => do_memset who_e (f_buf f) (f_pagesize f) n addr
  | R_PRIVCTL ep level => do_privctl who_p ep level
  | R_GETINFO request addr len ep => do_getinfo (f_layout f) (f_garbage f) who_e request addr len ep
  | R_NICE ep prio => do_nice ep prio
  | R_TIMES => do_times (f_ticks f) (f_PS f)
  | R_SETPNAME ep name => do_setpname ep name
  | R_REXEC node ep len ptr thrower => do_rexec who_p node ep len ptr thrower (f_now f)
  | R_UNUSED => says EMOLBADREQUEST
  end.

(** The reply could not be sent: a process that is dead is unbound. *)
Definition after_reply (who_e rcode : Z) : act E Z :=
  if rcode <? 0 then ret rcode else kcall (fun d => mnx_unbind d who_e).

Definition reply_failed (who_e rcode : Z) : act E Z :=
  if bool_decide (rcode ∈ [EMOLSRCDIED; EMOLDSTDIED; EMOLNOPROXY; EMOLNOTCONN; EMOLDEADSRCDST]) then
    x <- PROC2PTR (ENDPOINT_P who_e) ;;
    if p_rts_flags x =? SLOT_FREE then ret OK
    else if negb (TEST_BIT (p_rts_flags x) BIT_REMOTE) then
      rcode <- mcast_exit_proc x ;; after_reply who_e rcode
    else kcall (fun d => mnx_unbind d who_e)
  else ret rcode.

End Requests.
