(* ===== verification/SlotsLogic.v ===== *)
(** * Reasoning about the handlers of the system task

    [post m Q g e]: if the handler [m], run on the globals [g] and the host
    state [e], returns, then [Q] holds of what it gives.  A handler that stops
    satisfies every postcondition; that it returns is proved apart.  The rules
    go through a handler in the order of its text. *)

From S2P Require Import Prelude Types Slots.
#[local] Open Scope Z_scope.

Section Post.
Context {E : Type} `{!Host E}.
Implicit Types (g : sys) (e : E).

Definition post {A} (m : act E A) (Q : A -> sys -> E -> Prop) g e : Prop :=
  match m g e with
  | Ok a g' e' => Q a g' e'
  | Stop _ _ _ => True
  end.

Lemma post_mono {A} (m : act E A) (Q R : A -> sys -> E -> Prop) g e :
  post m Q g e -> (forall a g' e', Q a g' e' -> R a g' e') -> post m R g e.
Proof. unfold post. destruct (m g e); auto. Qed.

Lemma post_and {A} (m : act E A) (Q R : A -> sys -> E -> Prop) g e :
  post m Q g e -> post m R g e -> post m (fun a g' e' => Q a g' e' /\ R a g' e') g e.
Proof. unfold post. destruct (m g e); auto. Qed.

Lemma post_bind {A B} (m : act E A) (k : A -> act E B) Q g e :
  post m (fun a => post (k a) Q) g e -> post (bind m k) Q g e.
Proof. unfold post, bind. by destruct (m g e). Qed.

Lemma post_ret {A} (a : A) Q g e : Q a g e -> post (ret a) Q g e.
Proof. done. Qed.
Lemma post_stops {A} x (Q : A -> sys -> E -> Prop) g e : post (stops x) Q g e.
Proof. done. Qed.
Lemma post_globals Q g e : Q g g e -> post globals Q g e.
Proof. done. Qed.
Lemma post_upd f (Q : unit -> sys -> E -> Prop) g e : Q tt (f g) e -> post (upd f) Q g e.
Proof. done. Qed.
Lemma post_on_group a (Q : unit -> sys -> E -> Prop) g e :
  Q tt (g <| out ::= fun l => l ++ [a] |>) e -> post (on_group a) Q g e.
Proof. done. Qed.
Lemma post_assert b (Q : unit -> sys -> E -> Prop) g e :
  (b = true -> Q tt g e) -> post (assert_ b) Q g e.
Proof. destruct b; [by intros H; apply H|done]. Qed.
Lemma post_only_if b m (Q : unit -> sys -> E -> Prop) g e :
  (b = true -> post m Q g e) -> (b = false -> Q tt g e) -> post (only_if b m) Q g e.
Proof. destruct b; intros H1 H2; [by apply H1|by apply H2]. Qed.
Lemma post_mapped i (Q : proc -> sys -> E -> Prop) g e :
  Q (proc_mapped e i) g e -> post (PROC_MAPPED i) Q g e.
Proof. done. Qed.
Lemma post_proc2ptr nr (Q : proc -> sys -> E -> Prop) g e :
  Q (proc_mapped e (nr + dc_nr_tasks (s_dc g))) g e -> post (PROC2PTR nr) Q g e.
Proof. done. Qed.
Lemma post_poke i f (Q : unit -> sys -> E -> Prop) g e :
  Q tt g (poke i f e) -> post (proc_poke i f) Q g e.
Proof. done. Qed.
Lemma post_calls {A} (f : E -> A * E) (Q : A -> sys -> E -> Prop) g e :
  Q (fst (f e)) g (snd (f e)) -> post (calls f) Q g e.
Proof. unfold post, calls. by destruct (f e). Qed.
Lemma post_kcall {A} (f : Z -> E -> A * E) (Q : A -> sys -> E -> Prop) g e :
  (forall a e', Q a g e') -> post (kcall f) Q g e.
Proof. intros H. unfold post, kcall, bind, globals, calls. by destruct (f _ e). Qed.

Lemma post_rd_in get i (Q : slot_t -> sys -> E -> Prop) g e :
  (forall x, 0 <= i -> get g !! Z.to_nat i = Some x -> Q x g e) -> post (rd_in get i) Q g e.
Proof.
  intros H. unfold post, rd_in. destruct (Z.ltb_spec i 0); [done|].
  destruct (get g !! Z.to_nat i) eqn:Hx; auto.
Qed.

Lemma post_wr_slot i f (Q : unit -> sys -> E -> Prop) g e :
  (forall x, 0 <= i -> slot g !! Z.to_nat i = Some x ->
     Q tt (g <| slot ::= <[Z.to_nat i := f x]> |>) e) -> post (wr_slot i f) Q g e.
Proof.
  intros H. apply post_bind, post_rd_in. intros x Hi Hx. apply post_upd. by apply H.
Qed.

Lemma post_wr_merge i f (Q : unit -> sys -> E -> Prop) g e :
  (forall x, 0 <= i -> slot_merge g !! Z.to_nat i = Some x ->
     Q tt (g <| slot_merge ::= <[Z.to_nat i := f x]> |>) e) -> post (wr_merge i f) Q g e.
Proof.
  intros H. apply post_bind, post_rd_in. intros x Hi Hx. apply post_upd. by apply H.
Qed.

(** A message is sent unless the call fails. *)
Lemma post_mcast m (Q : Z -> sys -> E -> Prop) g e :
  (forall e', 0 <= fst (SP_multicast m e) ->
     Q (fst (SP_multicast m e)) (g <| out ::= fun l => l ++ [A_MCAST m] |>) e') ->
  (forall e', fst (SP_multicast m e) < 0 -> Q (fst (SP_multicast m e)) g e') ->
  post (mcast m) Q g e.
Proof.
  intros H1 H2. apply post_bind, post_calls, post_bind, post_only_if; intros Hr.
  - apply post_upd, post_ret, H1. by apply Z.leb_le.
  - apply post_ret, H2. by apply Z.leb_gt.
Qed.

(** A property that every round keeps holds after the loop. *)
Lemma post_for_upto (I : Z -> sys -> E -> Prop) body (Q : unit -> sys -> E -> Prop) n i g e :
  I i g e ->
  (forall j g e, i <= j < i + Z.of_nat n -> I j g e -> post (body j) (fun _ => I (j + 1)) g e) ->
  (forall g e, I (i + Z.of_nat n) g e -> Q tt g e) ->
  post (for_upto n i body) Q g e.
Proof.
  revert i g e. induction n as [|n IH]; intros i g e HI Hb HQ; cbn [for_upto].
  - apply post_ret, HQ. by replace (i + Z.of_nat 0) with i by lia.
  - apply post_bind. eapply post_mono; [apply Hb; [lia|done]|]. cbn. intros _ g1 e1 H1.
    apply IH; [done| |].
    + intros j g2 e2 Hj. apply Hb. lia.
    + intros g2 e2. replace (i + 1 + Z.of_nat n) with (i + Z.of_nat (S n)) by lia. apply HQ.
Qed.

Lemma post_for_ret (I : Z -> sys -> E -> Prop) body (Q : option Z -> sys -> E -> Prop) n i g e :
  I i g e ->
  (forall j g e, i <= j < i + Z.of_nat n -> I j g e ->
     post (body j) (fun r g e => match r with None => I (j + 1) g e | Some _ => Q r g e end) g e) ->
  (forall g e, I (i + Z.of_nat n) g e -> Q None g e) ->
  post (for_ret n i body) Q g e.
Proof.
  revert i g e. induction n as [|n IH]; intros i g e HI Hb HQ; cbn [for_ret].
  - apply post_ret, HQ. by replace (i + Z.of_nat 0) with i by lia.
  - apply post_bind. eapply post_mono; [apply Hb; [lia|done]|]. cbn. intros [r|] g1 e1 H1; [done|].
    apply IH; [done| |].
    + intros j g2 e2 Hj. apply Hb. lia.
    + intros g2 e2. replace (i + 1 + Z.of_nat n) with (i + Z.of_nat (S n)) by lia. apply HQ.
Qed.

(** ** Running a handler *)

Lemma run_upd {A} f (k : unit -> act E A) g e : bind (upd f) k g e = k tt (f g) e.
Proof. reflexivity. Qed.
Lemma run_globals {A} (k : sys -> act E A) g e : bind globals k g e = k g g e.
Proof. reflexivity. Qed.
Lemma run_then {A B} (m : act E A) (k : A -> act E B) a g e g1 e1 :
  m g e = Ok a g1 e1 -> bind m k g e = k a g1 e1.
Proof. unfold bind. by intros ->. Qed.

(** Entries of the slot table. *)
Definition in_table g (i : Z) : Prop := 0 <= i < Z.of_nat (length (slot g)).

Lemma run_rd_slot i g e : in_table g i -> exists t, slot g !! Z.to_nat i = Some t /\ rd_slot i g e = Ok t g e.
Proof.
  intros [H0 H1]. destruct (lookup_lt_is_Some_2 (slot g) (Z.to_nat i)) as [t Ht]; [lia|].
  exists t. split; [done|]. unfold rd_slot, rd_in. by rewrite (proj2 (Z.ltb_ge _ _) H0), Ht.
Qed.

Lemma run_wr_slot i f g e :
  in_table g i -> exists t, slot g !! Z.to_nat i = Some t /\
    wr_slot i f g e = Ok tt (g <| slot ::= <[Z.to_nat i := f t]> |>) e.
Proof.
  intros Hi. destruct (run_rd_slot i g e Hi) as (t & Ht & Hr). exists t. split; [done|].
  unfold wr_slot, bind. by rewrite Hr.
Qed.

Lemma in_table_same g g' i : length (slot g') = length (slot g) -> in_table g i -> in_table g' i.
Proof. unfold in_table. by intros ->. Qed.
End Post.

(** One step of a handler; a conditional is split. *)
Ltac p_step :=
  cbv beta zeta;
  lazymatch goal with
  | |- post (bind _ _) _ _ _ => apply post_bind
  | |- post (ret _) _ _ _ => apply post_ret
  | |- post (stops _) _ _ _ => apply post_stops
  | |- post globals _ _ _ => apply post_globals
  | |- post (upd _) _ _ _ => apply post_upd
  | |- post (on_group _) _ _ _ => apply post_on_group
  | |- post (assert_ _) _ _ _ => apply post_assert; intros ?
  | |- post (only_if _ _) _ _ _ => apply post_only_if; intros ?
  | |- post (PROC_MAPPED _) _ _ _ => apply post_mapped
  | |- post (PROC2PTR _) _ _ _ => apply post_proc2ptr
  | |- post (proc_poke _ _) _ _ _ => apply post_poke
  | |- post (kcall _) _ _ _ => apply post_kcall; intros ??
  | |- post (rd_slot _) _ _ _ => apply post_rd_in; intros ???
  | |- post (rd_merge _) _ _ _ => apply post_rd_in; intros ???
  | |- post (wr_slot _ _) _ _ _ => apply post_wr_slot; intros ???
  | |- post (wr_merge _ _) _ _ _ => apply post_wr_merge; intros ???
  | |- post (mcast _) _ _ _ => apply post_mcast; intros ??
  | |- post (if ?b then _ else _) _ _ _ => destruct b eqn:?
  | |- post (match ?x with _ => _ end) _ _ _ => destruct x eqn:?
  end.
Ltac p := repeat p_step.

(** ** What a message does to a slot *)

(** The member that [m] gives the slot [i] to. *)
Definition gives (m : smsg) (i : Z) : option Z :=
  match m with
  | M_DON_SLOTS _ d nr ia => if bool_decide (i ∈ take (Z.to_nat nr) ia) then Some d else None
  | _ => None
  end.

Definition msource (m : smsg) : Z :=
  match m with
  | M_REQ_SLOTS s _ _ _ => s
  | M_DON_SLOTS s _ _ _ => s
  | M_STATUS _ s _ _ _ _ _ => s
  | M_SYSCALL s _ _ _ => s
  end.

(** The member a reply to [m] is for. *)
Definition mdest (m : smsg) : Z :=
  match m with M_DON_SLOTS _ d _ _ => d | _ => msource m end.

(** The messages of a stable membership; [do_migrproc] tells of system processes
    only. *)
Definition stable_msg (d : dc_t) (m : smsg) : Prop :=
  match m with
  | M_STATUS _ _ _ _ _ _ _ => False
  | M_SYSCALL _ mtype nr _ => mtype = MOLMIGRPROC -> nr + dc_nr_tasks d < dc_nr_sysprocs d
  | _ => True
  end.

Definition user (d : dc_t) (i : Z) : Prop := dc_nr_sysprocs d <= i < dc_nr_slots d.

Definition owner_at (g : sys) (i : Z) : option Z := s_owner <$> slot g !! Z.to_nat i.

(** What no handler changes in a stable membership. *)
Record same (g g' : sys) : Prop := {
  sm_dc : s_dc g' = s_dc g;
  sm_local : local_nodeid g' = local_nodeid g;
  sm_len : length (slot g') = length (slot g);
  sm_init : TEST_BIT (FSM_state g) BIT_INITIALIZED = true ->
            TEST_BIT (FSM_state g') BIT_INITIALIZED = true;
}.

#[export] Instance same_refl : Reflexive same.
Proof. by intros g. Qed.
#[export] Instance same_trans : Transitive same.
Proof. intros g g1 g2 [] []. split; [congruence..|auto]. Qed.

Definition sent (new : option smsg) : list action :=
  match new with Some m => [A_MCAST m] | None => [] end.

Section Owner.
Implicit Types (g : sys) (i j : Z).

Lemma owner_wr g i t x :
  slot g !! Z.to_nat i = Some x -> owner_at (g <| slot ::= <[Z.to_nat i := t]> |>) i = Some (s_owner t).
Proof.
  intros Hx. unfold owner_at. cbn. rewrite list_lookup_insert_eq; [done|]. by apply lookup_lt_Some in Hx.
Qed.

Lemma owner_wr_ne g i j t :
  0 <= i -> 0 <= j -> i <> j -> owner_at (g <| slot ::= <[Z.to_nat i := t]> |>) j = owner_at g j.
Proof. intros. unfold owner_at. cbn. by rewrite list_lookup_insert_ne by lia. Qed.

Lemma same_wr g i t : same g (g <| slot ::= <[Z.to_nat i := t]> |>).
Proof. split; try done. cbn. by rewrite length_insert. Qed.
End Owner.
