(* ===== verification/SystaskLogic.v ===== *)
(** * What the system task leaves of the slot table

    [told g g']: the user slots of [g'] have the owners they have in [g], and the
    messages sent in between are requests for slots and notices, which give no
    slot away.  Every request the task serves, whether it returns, waits or
    stops, does no more. *)

From S2P Require Import Prelude Types Endpoint Slots Systask SlotsLogic.
#[local] Open Scope Z_scope.

(** A message of the thread that serves requests, on the node [n]. *)
Definition of_task (d : dc_t) (n : Z) (m : smsg) : Prop :=
  match m with
  | M_REQ_SLOTS s _ _ _ => s = n
  | M_SYSCALL s _ _ _ => s = n /\ stable_msg d m
  | _ => False
  end.

Record told (g g' : sys) : Prop := {
  td_same : same g g';
  td_owner i : user (s_dc g) i -> owner_at g' i = owner_at g i;
  td_out : exists l, out g' = out g ++ (A_MCAST <$> l) /\ Forall (of_task (s_dc g) (local_nodeid g)) l;
}.

#[export] Instance told_refl : Reflexive told.
Proof. intros g. split; [done|done|]. exists []. split; [by rewrite app_nil_r|by constructor]. Qed.

#[export] Instance told_trans : Transitive told.
Proof.
  intros g g1 g2 [Hs1 Ho1 (l1 & Hl1 & Hf1)] [Hs2 Ho2 (l2 & Hl2 & Hf2)].
  rewrite (sm_dc _ _ Hs1), (sm_local _ _ Hs1) in *. split; [by etrans|by intros i Hi; rewrite Ho2, Ho1|].
  exists (l1 ++ l2). rewrite Hl2, Hl1, fmap_app, app_assoc. split; [done|]. by apply Forall_app.
Qed.

(** The processes of the table have the numbers of their slots. *)
Class TaskLaws (E : Type) `{!Host E} (D : dc_t) := {
  mapped_nr (e : E) i : p_nr (proc_mapped e i) = i - dc_nr_tasks D;
}.

Section Told.
Context {E : Type} `{!Host E} `{!TaskHost E}.
Context (D : dc_t) (n : Z) `{!TaskLaws E D}.
Implicit Types (g : sys) (e : E).

(** The state a handler leaves, whether it returns or not. *)
Definition state_of {A} (o : outcome E A) : sys * E :=
  match o with Ok _ g e => (g, e) | Stop _ g e => (g, e) end.

Definition always {A} (m : act E A) : Prop :=
  forall g e, s_dc g = D -> local_nodeid g = n -> told g (fst (state_of (m g e))).

Lemma always_bind {A B} (m : act E A) (k : A -> act E B) :
  always m -> (forall a, always (k a)) -> always (bind m k).
Proof.
  intros Hm Hk g e HD Hn. unfold bind. specialize (Hm g e HD Hn). destruct (m g e) as [a g1 e1|x g1 e1]; [|done].
  cbn in *. etrans; [exact Hm|]. destruct (td_same _ _ Hm). apply Hk; congruence.
Qed.

Lemma always_ret {A} (a : A) : always (ret a).
Proof. intros g e _ _. reflexivity. Qed.
Lemma always_stops {A} x : always (stops (A := A) x).
Proof. intros g e _ _. reflexivity. Qed.
Lemma always_assert b : always (assert_ b).
Proof. destruct b; intros g e _ _; reflexivity. Qed.
Lemma always_only_if b m : always m -> always (only_if b m).
Proof. destruct b; [done|]. intros _ g e _ _. reflexivity. Qed.
Lemma always_poke i f : always (proc_poke i f).
Proof. intros g e _ _. reflexivity. Qed.
Lemma always_mapped i : always (PROC_MAPPED i).
Proof. intros g e _ _. reflexivity. Qed.
Lemma always_calls {A} (f : E -> A * E) : always (calls f).
Proof. intros g e _ _. unfold calls. destruct (f e). reflexivity. Qed.
Lemma always_kcall {A} (f : Z -> E -> A * E) : always (kcall f).
Proof. intros g e _ _. unfold kcall, bind, globals, calls. destruct (f _ e). reflexivity. Qed.
Lemma always_env {A} (f : sys -> E -> A) (h : E -> E) : always (fun g e => Ok (f g e) g (h e)).
Proof. intros g e _ _. reflexivity. Qed.
Lemma always_rd_slot i : always (rd_slot i).
Proof. intros g e _ _. unfold rd_slot, rd_in. destruct (if i <? 0 then None else _); reflexivity. Qed.

(** What is read is used below. *)
Lemma always_globals {A} (k : sys -> act E A) :
  (forall g, s_dc g = D -> local_nodeid g = n -> always (k g)) -> always (bind globals k).
Proof. intros Hk g e HD Hn. by apply Hk. Qed.
Lemma always_proc2ptr {A} nr (k : proc -> act E A) :
  (forall x, p_nr x = nr -> always (k x)) -> always (bind (PROC2PTR nr) k).
Proof. intros Hk g e HD Hn. apply Hk; [|done|done]. rewrite mapped_nr, HD. lia. Qed.

(** A change of the counters. *)
Lemma always_upd f :
  (forall g, s_dc (f g) = s_dc g /\ local_nodeid (f g) = local_nodeid g /\ slot (f g) = slot g /\
             FSM_state (f g) = FSM_state g /\ out (f g) = out g) -> always (upd f).
Proof.
  intros Hf g e _. cbn. destruct (Hf g) as (H1 & H2 & H3 & H4 & H5). split.
  - by split; [| |rewrite H3|rewrite H4].
  - intros i _. unfold owner_at. by rewrite H3.
  - exists []. rewrite H5, app_nil_r. split; [done|by constructor].
Qed.

(** The slot of a system process may change as it likes. *)
Lemma always_wr_slot i f : i < dc_nr_sysprocs D -> always (wr_slot i f).
Proof.
  intros Hi g e HD _. unfold wr_slot, bind, rd_slot, rd_in. destruct (Z.ltb_spec i 0); [reflexivity|].
  destruct (slot g !! Z.to_nat i) as [t|] eqn:Ht; [|reflexivity]. cbn. split; [apply same_wr| |].
  - intros j [Hj _]. apply owner_wr_ne; rewrite HD in *; lia.
  - exists []. rewrite app_nil_r. split; [done|by constructor].
Qed.

Lemma always_mcast m : of_task D n m -> always (mcast m).
Proof.
  intros Hm g e HD Hn. unfold mcast, bind, calls. destruct (SP_multicast m e) as [r e1]. unfold only_if.
  destruct (0 <=? r); [|reflexivity]. cbn. split; [by split|done|]. exists [m]. split; [done|].
  apply Forall_singleton. by rewrite HD, Hn.
Qed.
End Told.

Create HintDb told discriminated.
#[export] Hint Resolve always_ret always_stops always_assert always_only_if always_poke always_mapped always_calls
  always_kcall always_env always_rd_slot : told.

(** A slot that the code tests to be of a system process. *)
Ltac sys_slot :=
  unfold nr_sysprocs in *;
  repeat match goal with
  | H : s_dc ?g = _, H' : context [dc_nr_sysprocs (s_dc ?g)] |- _ => rewrite H in H'
  | H : s_dc ?g = _, H' : context [dc_nr_tasks (s_dc ?g)] |- _ => rewrite H in H'
  | H : s_dc ?g = _ |- context [s_dc ?g] => rewrite H
  | H : (_ <? _) = true |- _ => apply Z.ltb_lt in H
  | H : (_ >=? _) = false |- _ => rewrite Z.geb_leb in H; apply Z.leb_gt in H
  end; lia.

Ltac told_step :=
  cbv beta zeta;
  lazymatch goal with
  | |- always _ _ (bind globals _) => apply always_globals; intros ? ? ?
  | |- always _ _ (bind (PROC2PTR _) _) => apply always_proc2ptr; [typeclasses eauto|intros ? ?]
  | |- always _ _ (bind _ _) => apply always_bind; [|intros ?]
  | |- always _ _ (wr_slot _ _) => apply always_wr_slot; sys_slot
  | |- always _ _ (upd _) => apply always_upd; intros ?; by split_and!
  | |- always _ _ (only_if _ _) => apply always_only_if
  | |- always _ _ (if ?b then _ else _) => destruct b eqn:?
  | |- always _ _ (match ?x with _ => _ end) => destruct x eqn:?
  | |- always _ _ _ => solve [eauto 3 with told]
  end.
Ltac tells := intros; repeat told_step.

Section Requests.
Context {E : Type} `{!Host E} `{!TaskHost E}.
Context (D : dc_t) (n : Z) `{!TaskLaws E D}.

Abbreviation always := (always (E := E) D n).

Lemma always_rqst nr : always (mcast_rqst_slots nr).
Proof. unfold mcast_rqst_slots. tells. apply always_mcast. done. Qed.
Hint Resolve always_rqst : told.

Lemma always_mcast_proc mtype nr ep :
  (mtype = MOLMIGRPROC -> nr + dc_nr_tasks D < dc_nr_sysprocs D) -> always (mcast_proc mtype nr ep).
Proof. intros H. unfold mcast_proc. tells. apply always_mcast. by split. Qed.

Lemma always_exit_proc x : always (mcast_exit_proc x).
Proof. by apply always_mcast_proc. Qed.
Lemma always_fork_proc x : always (mcast_fork_proc x).
Proof. by apply always_mcast_proc. Qed.
Lemma always_bind_proc x : always (mcast_bind_proc x).
Proof. by apply always_mcast_proc. Qed.
Hint Resolve always_exit_proc always_fork_proc always_bind_proc : told.

Lemma always_find_free k i : always (find_free k i).
Proof.
  revert i. induction k as [|k IH]; intros i; cbn [find_free]; tells.
Qed.
Hint Resolve always_find_free : told.

Lemma always_free_proc now : always (get_free_proc now).
Proof. unfold get_free_proc, ask_slots. tells. Qed.
Hint Resolve always_free_proc : told.

Lemma always_fork who_p lpid now : always (do_fork who_p lpid now).
Proof. unfold do_fork, fork_bound, after_fork, says. tells. Qed.

Lemma always_wait k ep : always (wait_unbind k ep).
Proof. induction k as [|k IH]; cbn [wait_unbind]; tells. Qed.
Hint Resolve always_wait : told.

Lemma always_exit_count nr flags : always (exit_count nr flags).
Proof. unfold exit_count, says. tells. Qed.
Hint Resolve always_exit_count : told.

Lemma always_exit_unbind ok k nr ep flags : always (exit_unbind ok k nr ep flags).
Proof. unfold exit_unbind, says. tells. Qed.
Hint Resolve always_exit_unbind : told.

Lemma always_clear nr : nr + dc_nr_tasks D < dc_nr_sysprocs D -> always (clear_slot nr).
Proof. intros H. unfold clear_slot. tells. Qed.

Lemma always_after_exit k nr ep rcode :
  nr + dc_nr_tasks D < dc_nr_sysprocs D -> always (after_exit k nr ep rcode).
Proof. intros H. unfold after_exit, says. tells. by apply always_clear. Qed.

Lemma always_exit k ep flags : always (do_exit k ep flags).
Proof.
  unfold do_exit. tells; [apply always_after_exit|apply always_clear]; sys_slot.
Qed.

Lemma always_after_unbind k nr ep flags rcode : always (after_unbind k nr ep flags rcode).
Proof. unfold after_unbind, says. tells. Qed.
Hint Resolve always_after_unbind : told.

Lemma always_unbind k ep : always (do_unbind_rqst k ep).
Proof. unfold do_unbind_rqst, says. tells. apply always_clear. sys_slot. Qed.

Lemma always_killed who_e : always (do_killed who_e).
Proof. unfold do_killed, says. tells. Qed.

Lemma always_check nr k : always k -> always (CHECK_P_NR nr k).
Proof. intros H. unfold CHECK_P_NR, says. tells. Qed.

Lemma always_bindproc ep lpid oper : always (do_bindproc ep lpid oper).
Proof.
  unfold do_bindproc, bind_user, bind_system, after_bind, says. tells. apply always_check. tells.
Qed.

Lemma always_migr_local nr ep lpid x :
  nr + dc_nr_tasks D < dc_nr_sysprocs D -> always (migr_local nr ep lpid x).
Proof.
  intros H. unfold migr_local, says. tells. apply always_mcast_proc. intros _. by subst.
Qed.

Lemma always_migrproc ep lpid : always (do_migrproc ep lpid).
Proof.
  unfold do_migrproc, says. apply always_check. tells. apply always_migr_local. sys_slot.
Qed.

Lemma always_copy who_e src saddr dst daddr k : always (do_copy who_e src saddr dst daddr k).
Proof. unfold do_copy, says. tells. do 2 apply always_check. tells. Qed.

Lemma always_vcopy_loop k i done : always (vcopy_loop k i done).
Proof.
  revert i done. induction k as [|k IH]; intros i done; cbn [vcopy_loop]; tells.
Qed.
Hint Resolve always_vcopy_loop : told.

Lemma always_vcopy who_e size addr buf : always (do_vcopy who_e size addr buf).
Proof. unfold do_vcopy, says. tells. Qed.

Lemma always_memset_loop k who_e buf ps addr r : always (memset_loop k who_e buf ps addr r).
Proof. revert addr r. induction k as [|k IH]; intros addr r; cbn [memset_loop]; unfold says; tells. Qed.

Lemma always_memset who_e buf ps k addr : always (do_memset who_e buf ps k addr).
Proof. unfold do_memset, says. tells. apply always_memset_loop. Qed.

Lemma always_privctl who_p ep level : always (do_privctl who_p ep level).
Proof. unfold do_privctl, says. tells. Qed.

Lemma always_for k i body : (forall i, always (body i)) -> always (for_upto k i body).
Proof. intros H. revert i. induction k as [|k IH]; intros i; cbn [for_upto]; tells. Qed.

Lemma always_look {A} (f : E -> A) : always (look f).
Proof. apply always_env. Qed.
Lemma always_does f : always (does f).
Proof. apply always_env. Qed.
Hint Resolve always_look always_does : told.

Lemma always_heap_copy x k fill : (forall a, always (fill a)) -> always (heap_copy x k fill).
Proof. intros H. unfold heap_copy. tells. Qed.

Lemma always_getinfo L x who_e r addr len ep : always (do_getinfo L x who_e r addr len ep).
Proof.
  unfold do_getinfo, getinfo_src, getinfo_slot, says. tells; apply always_heap_copy; tells. apply always_for. tells.
Qed.

Lemma always_nice ep prio : always (do_nice ep prio).
Proof. unfold do_nice, says. tells. Qed.
Lemma always_times ticks PS : always (do_times ticks PS).
Proof. unfold do_times, says. tells. Qed.
Lemma always_setpname ep name : always (do_setpname ep name).
Proof. unfold do_setpname, says. apply always_check. tells. Qed.

Lemma always_rexec_args src ptr len fail k :
  (forall buf rcode, always (fail buf rcode)) -> (forall buf argv, always (k buf argv)) ->
  always (rexec_args src ptr len fail k).
Proof. intros H1 H2. unfold rexec_args, says. tells. Qed.

Lemma always_rexec_local who_p node ep now buf argv : always (rexec_local who_p node ep now buf argv).
Proof.
  unfold rexec_local, rexec_bind, rexec_fork, says. pose proof (always_fork who_p). tells.
Qed.

Lemma always_rexec who_p node ep len ptr thrower now : always (do_rexec who_p node ep len ptr thrower now).
Proof.
  unfold do_rexec, says. tells; apply always_rexec_args; tells; [apply always_rexec_local|].
  unfold rexec_remote, says. tells.
Qed.

Lemma always_serve f who_e q : always (serve f who_e q).
Proof.
  destruct q; cbn [serve]; cbv zeta.
  - apply always_fork.
  - apply always_exit.
  - apply always_unbind.
  - apply always_killed.
  - apply always_bindproc.
  - apply always_migrproc.
  - apply always_copy.
  - apply always_vcopy.
  - apply always_memset.
  - apply always_privctl.
  - apply always_getinfo.
  - apply always_nice.
  - apply always_times.
  - apply always_setpname.
  - apply always_rexec.
  - unfold says. tells.
Qed.

Lemma always_reply_failed who_e rcode : always (reply_failed who_e rcode).
Proof. unfold reply_failed, after_reply. tells. Qed.
End Requests.

(** ** A run of the thread

    It serves a request, goes on when its message has come back, or takes care of
    a reply that could not be sent. *)
Section Runs.
Context {E : Type} `{!Host E} `{!TaskHost E}.
Implicit Types (g : sys) (e : E).

Inductive task_run : sys -> E -> sys -> E -> Prop :=
| tr_serve f who_e q g e g' e' :
    state_of (serve f who_e q g e) = (g', e') -> task_run g e g' e'
| tr_after_exit k nr ep rcode g e g' e' :
    nr + dc_nr_tasks (s_dc g) < dc_nr_sysprocs (s_dc g) ->
    state_of (after_exit k nr ep rcode g e) = (g', e') -> task_run g e g' e'
| tr_after_unbind k nr ep flags rcode g e g' e' :
    state_of (after_unbind k nr ep flags rcode g e) = (g', e') -> task_run g e g' e'
| tr_reply_failed who_e rcode g e g' e' :
    state_of (reply_failed who_e rcode g e) = (g', e') -> task_run g e g' e'
| tr_after_reply who_e rcode g e g' e' :
    state_of (after_reply who_e rcode g e) = (g', e') -> task_run g e g' e'.

Lemma task_run_told D g e g' e' : TaskLaws E D -> s_dc g = D -> task_run g e g' e' -> told g g'.
Proof.
  intros HL HD Hr.
  assert (Hs : exists A (m : act E A), always D (local_nodeid g) m /\ state_of (m g e) = (g', e')).
  { destruct Hr as [f w q g e g' e' H|k nr ep rc g e g' e' Hn H|k nr ep fl rc g e g' e' H|w rc g e g' e' H|w rc g e g' e' H];
      eexists _, _; (split; [|exact H]).
    - apply always_serve. exact HL.
    - apply always_after_exit; [exact HL|by subst].
    - apply always_after_unbind. exact HL.
    - apply always_reply_failed. exact HL.
    - unfold after_reply. tells. }
  destruct Hs as (A & m & Hm & Hst). specialize (Hm g e HD eq_refl). by rewrite Hst in Hm.
Qed.
End Runs.
