(* ===== verification/SlotToken.v ===== *)
(** * One slot of the replicated table, as a token

    What the donation protocol of [Slots] does to a single slot, whatever else
    goes on: every member has its opinion of the owner, and the members take the
    messages of the group one by one, each at its own pace, from one common log.
    A member that believes it is the owner may give the slot away; the others
    learn of it when they come to the message.  [SlotsGroup] shows that the
    handlers of the system tasks are such steps for every slot. *)

From S2P Require Import Prelude.
From stdpp Require Import relations functions.

(** [t_own n] is the owner according to [n]; an entry of the log is the sender
    of a message and the member it gives the slot to, if any; [t_pos n] is the
    number of messages [n] has taken. *)
Record token := mk_token {
  t_own : Z -> option Z;
  t_log : list (Z * option Z);
  t_pos : Z -> nat;
}.

Inductive tstep (members : list Z) : token -> token -> Prop :=
| t_append own log pos s :
    tstep members (mk_token own log pos) (mk_token own (log ++ [(s, None)]) pos)
| t_skip own log pos n s :
    n ∈ members -> log !! pos n = Some (s, None) ->
    tstep members (mk_token own log pos) (mk_token own log (<[n := S (pos n)]> pos))
| t_take own log pos n s d :
    n ∈ members -> log !! pos n = Some (s, Some d) -> s <> n ->
    tstep members (mk_token own log pos) (mk_token (<[n := Some d]> own) log (<[n := S (pos n)]> pos))
| t_back own log pos n d o :
    n ∈ members -> log !! pos n = Some (n, Some d) -> o = own n \/ o = Some d ->
    tstep members (mk_token own log pos) (mk_token (<[n := o]> own) log (<[n := S (pos n)]> pos))
| t_give own log pos n d :
    n ∈ members -> d ∈ members -> n <> d -> own n = Some n ->
    tstep members (mk_token own log pos) (mk_token (<[n := Some d]> own) (log ++ [(n, Some d)]) pos).

(** The owner after the first [k] messages. *)
Fixpoint view (log : list (Z * option Z)) (o : option Z) : option Z :=
  match log with
  | [] => o
  | (_, Some d) :: log => view log (Some d)
  | (_, None) :: log => view log o
  end.

Lemma view_app l1 l2 o : view (l1 ++ l2) o = view l2 (view l1 o).
Proof. revert o. induction l1 as [|[s [d|]] l1 IH]; intros o; cbn; [done|apply IH|apply IH]. Qed.

Lemma view_step log k s x o :
  log !! k = Some (s, x) -> view (take (S k) log) o = match x with Some d => Some d | None => view (take k log) o end.
Proof. intros H. rewrite (take_S_r _ _ _ H), view_app. cbn. by destruct x. Qed.

Section Invariant.
Context (members : list Z) (o0 : option Z).

(** [k] is the index of a message of [s] that gives the slot to [d]. *)
Definition gift (log : list (Z * option Z)) (k : nat) (s d : Z) : Prop := log !! k = Some (s, Some d).
Definition holds (own : Z -> option Z) (n : Z) : Prop := own n = Some n.
(** The gift has not reached [d] yet. *)
Definition on_its_way log (pos : Z -> nat) (k : nat) (d : Z) : Prop :=
  exists s, gift log k s d /\ (pos d <= k)%nat.

(** The message of [n] at [k], which [n] has not taken, gives the slot away. *)
Definition own_gift log (pos : Z -> nat) (n : Z) (k : nat) (d : Z) : Prop :=
  gift log k n d /\ (pos n <= k)%nat.

Record token_inv (t : token) : Prop := {
  ti_pos n : n ∈ members -> (t_pos t n <= length (t_log t))%nat;
  ti_gift k s d : gift (t_log t) k s d -> s ∈ members /\ d ∈ members /\ s <> d;
  ti_one n n' : n ∈ members -> n' ∈ members -> holds (t_own t) n -> holds (t_own t) n' -> n = n';
  ti_taken n k s d : n ∈ members -> holds (t_own t) n -> gift (t_log t) k s d ->
    (k < t_pos t n)%nat /\ (k < t_pos t d)%nat;
  ti_last k d k' s' d' : on_its_way (t_log t) (t_pos t) k d -> gift (t_log t) k' s' d' -> (k' <= k)%nat;
  ti_some : (exists n, n ∈ members /\ holds (t_own t) n) \/ (exists k d, on_its_way (t_log t) (t_pos t) k d);
  ti_own n k d k' s' d' : n ∈ members -> own_gift (t_log t) (t_pos t) n k d -> gift (t_log t) k' s' d' ->
    (t_pos t n <= k')%nat -> (k <= k')%nat;
  ti_told n k d : n ∈ members -> own_gift (t_log t) (t_pos t) n k d -> t_own t n = Some d;
  ti_view n : n ∈ members -> (forall k d, ~ own_gift (t_log t) (t_pos t) n k d) ->
    t_own t n = view (take (t_pos t n) (t_log t)) o0;
}.

Lemma gift_lt log k s d : gift log k s d -> (k < length log)%nat.
Proof. apply lookup_lt_Some. Qed.

Lemma own_gift_unique t n k d k' d' :
  token_inv t -> n ∈ members -> own_gift (t_log t) (t_pos t) n k d -> own_gift (t_log t) (t_pos t) n k' d' -> k = k' /\ d = d'.
Proof.
  intros I Hn [H Hk] [H' Hk'].
  assert (k = k') as <-.
  { apply (anti_symm Nat.le); [by eapply (ti_own _ I n k d)|by eapply (ti_own _ I n k' d')]. }
  split; [done|]. unfold gift in *. congruence.
Qed.

(** A gift that is in the log after a message was added: the message itself, or
    one before. *)
Lemma gift_snoc log x k s d :
  gift (log ++ [x]) k s d -> gift log k s d \/ k = length log /\ x = (s, Some d).
Proof.
  unfold gift. rewrite lookup_app_Some. intros [H|[Hk H]]; [by left|right].
  apply list_lookup_singleton_Some in H. split; [lia|by destruct H].
Qed.

Lemma gift_mono log x k s d : gift log k s d -> gift (log ++ [x]) k s d.
Proof. unfold gift. intros H. by apply lookup_app_l_Some. Qed.

(** ** The steps keep the invariant *)

Lemma inv_append own log pos s :
  token_inv (mk_token own log pos) -> token_inv (mk_token own (log ++ [(s, None)]) pos).
Proof.
  intros I.
  assert (Hg : forall k s' d, gift (log ++ [(s, None)]) k s' d ->
    gift log k s' d).
  { intros k s' d H. by destruct (gift_snoc log _ k s' d H) as [?|[_ [=]]]. }
  split; cbn [t_pos t_log t_own].
  - intros n Hn. rewrite length_app. cbn. pose proof (ti_pos _ I n Hn). cbn in *. lia.
  - intros k s' d H. by eapply (ti_gift _ I), Hg.
  - exact (ti_one _ I).
  - intros n k s' d Hn Hh H. by eapply (ti_taken _ I), Hg.
  - intros k d k' s' d' (s2 & H & Hp) H'. eapply (ti_last _ I); [exists s2; split|]; by eauto.
  - destruct (ti_some _ I) as [?|(k & d & s2 & H & Hp)]; [by left|right].
    exists k, d, s2. split; [by eapply gift_mono|done].
  - intros n k d k' s' d' Hn [H Hp] H'. eapply (ti_own _ I); [done|split|]; by eauto.
  - intros n k d Hn [H Hp]. eapply (ti_told _ I); [done|split]; by eauto.
  - intros n Hn Hno. rewrite take_app_le by (by apply (ti_pos _ I)).
    apply (ti_view _ I n Hn). intros k d [H Hp]. apply (Hno k d). split; [by eapply gift_mono|done].
Qed.

Section Taken.
Context (log : list (Z * option Z)) (pos : Z -> nat) (n : Z).
Abbreviation pos' := (<[n := S (pos n)]> pos : Z -> nat).

Lemma pos_taken m : (pos m <= pos' m)%nat.
Proof. destruct (decide (n = m)) as [<-|]; [rewrite fn_lookup_insert; lia|by rewrite fn_lookup_insert_ne]. Qed.

Lemma way_taken k d : on_its_way log pos' k d -> on_its_way log pos k d.
Proof. intros (s & H & Hp). exists s. split; [done|]. pose proof (pos_taken d). lia. Qed.

Lemma own_gift_taken m k d : own_gift log pos' m k d -> own_gift log pos m k d.
Proof. intros [H Hp]. split; [done|]. pose proof (pos_taken m). lia. Qed.

Lemma way_kept k d : on_its_way log pos k d -> d <> n \/ k <> pos n -> on_its_way log pos' k d.
Proof.
  intros (s & H & Hp) Hne. exists s. split; [done|]. destruct (decide (n = d)) as [->|Hn].
  - rewrite fn_lookup_insert. destruct Hne; [done|lia].
  - by rewrite fn_lookup_insert_ne.
Qed.
End Taken.

Lemma inv_skip own log pos n s :
  token_inv (mk_token own log pos) -> n ∈ members -> log !! pos n = Some (s, None) ->
  token_inv (mk_token own log (<[n := S (pos n)]> pos)).
Proof.
  intros I Hn Hlog. pose proof (pos_taken pos n) as Hpos. split; cbn [t_pos t_log t_own].
  - intros m Hm. destruct (decide (n = m)) as [<-|]; [|by rewrite fn_lookup_insert_ne; [apply (ti_pos _ I)|]].
    rewrite fn_lookup_insert. by apply lookup_lt_Some in Hlog.
  - exact (ti_gift _ I).
  - exact (ti_one _ I).
  - intros m k s' d Hm Hh H. destruct (ti_taken _ I m k s' d Hm Hh H) as [H1 H2].
    pose proof (Hpos m). pose proof (Hpos d). cbn in *. lia.
  - intros k d k' s' d' H%way_taken. by apply (ti_last _ I k d k' s' d').
  - destruct (ti_some _ I) as [?|(k & d & H)]; [by left|right]. exists k, d. apply way_kept; [done|].
    right. intros ->. destruct H as (? & H & _). unfold gift in H. cbn in H. congruence.
  - intros m k d k' s' d' Hm H%own_gift_taken Hg Hk. apply (ti_own _ I m k d k' s' d'); [done..|].
    pose proof (Hpos m). cbn in *. lia.
  - intros m k d Hm H%own_gift_taken. by apply (ti_told _ I m k).
  - intros m Hm Hno. assert (Ho : own m = view (take (pos m) log) o0).
    { apply (ti_view _ I m Hm). intros k d [H Hp]. apply (Hno k d). split; [done|]. cbn in *.
      destruct (decide (n = m)) as [<-|]; [rewrite fn_lookup_insert|by rewrite fn_lookup_insert_ne].
      unfold gift in H. cbn in H. destruct (decide (k = pos n)) as [->|]; [congruence|lia]. }
    destruct (decide (n = m)) as [<-|]; [rewrite fn_lookup_insert|by rewrite fn_lookup_insert_ne].
    by rewrite (view_step _ _ _ _ _ Hlog).
Qed.

(** [n] takes a gift to [d], its own or of another. *)
Lemma inv_recv own log pos n s d :
  token_inv (mk_token own log pos) -> n ∈ members -> log !! pos n = Some (s, Some d) ->
  token_inv (mk_token (<[n := Some d]> own) log (<[n := S (pos n)]> pos)).
Proof.
  intros I Hn Hlog. pose proof (pos_taken pos n) as Hpos.
  assert (Hg : gift log (pos n) s d) by done.
  assert (Hnh : ~ holds own n).
  { intros Hh. destruct (ti_taken _ I n _ _ _ Hn Hh Hg) as [H _]. cbn in H. lia. }
  assert (Hto : d = n -> forall m, m ∈ members -> ~ holds own m).
  { intros -> m Hm Hh. destruct (ti_taken _ I m _ _ _ Hm Hh Hg) as [_ H]. cbn in H. lia. }
  assert (Hold : forall m, holds (<[n := Some d]> own) m ->
    m = n /\ d = n \/ m <> n /\ holds own m).
  { unfold holds. cbn. intros m. destruct (decide (n = m)) as [<-|];
      [rewrite fn_lookup_insert; intros [= ->]; by left|rewrite fn_lookup_insert_ne by done; by right]. }
  split; cbn [t_pos t_log t_own].
  - intros m Hm. destruct (decide (n = m)) as [<-|]; [|by rewrite fn_lookup_insert_ne; [apply (ti_pos _ I)|]].
    rewrite fn_lookup_insert. by apply lookup_lt_Some in Hlog.
  - exact (ti_gift _ I).
  - intros m m' Hm Hm' [[-> Ed]|[_ H]]%Hold [[-> Ed']|[_ H']]%Hold.
    + done.
    + by destruct (Hto Ed m').
    + by destruct (Hto Ed' m).
    + by apply (ti_one _ I).
  - intros m k s' d' Hm [[-> ->]|[Hne H]]%Hold H'.
    + assert (Hw : on_its_way log pos (pos n) n) by (exists s; split; [done|cbn; lia]).
      pose proof (ti_last _ I _ _ _ _ _ Hw H') as Hk. cbn. rewrite fn_lookup_insert. split; [lia|].
      destruct (decide (n = d')) as [<-|Hd']; [rewrite fn_lookup_insert; lia|rewrite fn_lookup_insert_ne by done].
      destruct (decide (k < pos d')%nat); [done|].
      assert (Hw' : on_its_way log pos k d') by (exists s'; split; [done|cbn; lia]).
      pose proof (ti_last _ I _ _ _ _ _ Hw' Hg) as Hk'. assert (k = pos n) as -> by lia.
      unfold gift in H', Hg. congruence.
    + destruct (ti_taken _ I m k s' d' Hm H H') as [H1 H2].
      pose proof (Hpos m). pose proof (Hpos d'). cbn in *. lia.
  - intros k d0 k' s' d' H%way_taken. by apply (ti_last _ I k d0 k' s' d').
  - destruct (decide (d = n)) as [->|Hd].
    { left. exists n. split; [done|]. unfold holds. cbn. by rewrite fn_lookup_insert. }
    destruct (ti_some _ I) as [(m & Hm & H)|(k & d0 & H)]; [left|right].
    + exists m. split; [done|]. unfold holds. cbn. by rewrite fn_lookup_insert_ne by (intros ->; done).
    + exists k, d0. apply way_kept; [exact H|]. destruct (decide (d0 = n)) as [->|]; [right|by left].
      intros ->. destruct H as (? & H & _). unfold gift in H. cbn in H. congruence.
  - intros m k d0 k' s' d' Hm H%own_gift_taken Hg' Hk. apply (ti_own _ I m k d0 k' s' d'); [done..|].
    pose proof (Hpos m). cbn in *. lia.
  - intros m k d0 Hm H. destruct (decide (n = m)) as [<-|].
    + exfalso. assert (k <= pos n)%nat by (eapply (ti_own _ I n k d0);
        [done|by eapply own_gift_taken|exact Hg|cbn; lia]).
      destruct H as [_ H]. cbn in H. rewrite fn_lookup_insert in H. lia.
    + rewrite fn_lookup_insert_ne by done. apply own_gift_taken in H. by apply (ti_told _ I m k).
  - intros m Hm Hno. destruct (decide (n = m)) as [<-|Hne].
    + rewrite !fn_lookup_insert. by rewrite (view_step _ _ _ _ _ Hlog).
    + rewrite !fn_lookup_insert_ne by done. apply (ti_view _ I m Hm). intros k d0 [H Hp].
      apply (Hno k d0). split; [done|]. cbn. by rewrite fn_lookup_insert_ne.
Qed.

Lemma inv_give own log pos n d :
  token_inv (mk_token own log pos) -> n ∈ members -> d ∈ members -> n <> d -> own n = Some n ->
  token_inv (mk_token (<[n := Some d]> own) (log ++ [(n, Some d)]) pos).
Proof.
  intros I Hn Hd Hne Hown.
  assert (Hold : forall k s' d', gift log k s' d' -> (k < pos n)%nat /\ (k < pos d')%nat).
  { intros k s' d'. by apply (ti_taken _ I n k s' d' Hn). }
  assert (Hsn : forall k s' d', gift (log ++ [(n, Some d)]) k s' d' ->
    gift log k s' d' \/ k = length log /\ s' = n /\ d' = d).
  { intros k s' d' H. destruct (gift_snoc log _ k s' d' H) as [?|[-> [= -> ->]]]; auto. }
  assert (Hhold : forall m, m ∈ members ->
    ~ holds (<[n := Some d]> own) m).
  { unfold holds. cbn. intros m Hm. destruct (decide (n = m)) as [<-|Hm'];
      [rewrite fn_lookup_insert; congruence|rewrite fn_lookup_insert_ne by done].
    intros Hh. apply Hm'. by apply (ti_one _ I). }
  assert (Hnew : gift (log ++ [(n, Some d)]) (length log) n d).
  { unfold gift. cbn. by rewrite lookup_app_r, Nat.sub_diag by lia. }
  assert (Hlen : forall m, m ∈ members -> (pos m <= length log)%nat) by exact (ti_pos _ I).
  split; cbn [t_pos t_log t_own].
  - intros m Hm. rewrite length_app. cbn. pose proof (Hlen m Hm). lia.
  - intros k s' d' [H|(-> & -> & ->)]%Hsn; [by apply (ti_gift _ I k)|done].
  - intros m m' Hm Hm' H. by destruct (Hhold m Hm).
  - intros m k s' d' Hm H. by destruct (Hhold m Hm).
  - intros k d0 k' s' d' (s2 & [H|(-> & -> & ->)]%Hsn & Hp) H'.
    + apply Hold in H. cbn in Hp. lia.
    + apply gift_lt in H'. cbn in H'. rewrite length_app in H'. cbn in H'. lia.
  - right. exists (length log), d, n. split; [exact Hnew|by apply Hlen].
  - intros m k d0 k' s' d' Hm [H Hp] H' Hk'. cbn in *. destruct (Hsn _ _ _ H) as [Ho|(-> & -> & ->)].
    + destruct (Hsn _ _ _ H') as [Ho'|(-> & -> & ->)].
      * by eapply (ti_own _ I m k d0).
      * apply gift_lt in Ho. cbn in Ho. lia.
    + destruct (Hsn _ _ _ H') as [Ho'|(-> & -> & ->)]; [|done]. apply Hold in Ho'. lia.
  - intros m k d0 Hm [H Hp]. cbn in Hp. destruct (Hsn _ _ _ H) as [Ho|(-> & -> & ->)].
    + destruct (decide (n = m)) as [<-|]; [apply Hold in Ho; lia|rewrite fn_lookup_insert_ne by done].
      by apply (ti_told _ I m k).
    + by rewrite fn_lookup_insert.
  - intros m Hm Hno. destruct (decide (n = m)) as [<-|].
    + destruct (Hno (length log) d). split; [exact Hnew|by apply Hlen].
    + rewrite fn_lookup_insert_ne by done. rewrite take_app_le by (by apply Hlen).
      apply (ti_view _ I m Hm). intros k d0 [H Hp]. apply (Hno k d0). split; [by eapply gift_mono|done].
Qed.

Lemma inv_step t t' : token_inv t -> tstep members t t' -> token_inv t'.
Proof.
  intros I H. revert I.
  destruct H as [own log pos s|own log pos n s ? ?|own log pos n s d ? ? _|own log pos n d o Hn Hl Ho|own log pos n d];
    intros I; [by apply inv_append|by eapply inv_skip|by eapply inv_recv| |by apply inv_give].
  assert (o = Some d) as ->; [|by eapply inv_recv].
  destruct Ho as [->| ->]; [|done]. apply (ti_told _ I n (pos n)); [done|]. by split.
Qed.

Lemma inv_steps t t' : token_inv t -> rtc (tstep members) t t' -> token_inv t'.
Proof. intros I H. revert I. induction H as [|t t1 t' H]; [done|]. intros I. by eapply IHrtc, inv_step. Qed.

Lemma inv_start own h :
  h ∈ members -> o0 = Some h -> (forall n, n ∈ members -> own n = o0) ->
  token_inv (mk_token own [] (fun _ => O)).
Proof.
  intros Hh Ho Hown.
  assert (Hno : forall k s d, ~ gift [] k s d) by (by intros k s d H).
  split; cbn [t_pos t_log t_own].
  - done.
  - intros k s d H. by destruct (Hno k s d).
  - unfold holds. cbn. intros n n' Hn Hn'. rewrite !Hown by done. congruence.
  - intros n k s d _ _ H. by destruct (Hno k s d).
  - intros k d k' s' d' _ H. by destruct (Hno k' s' d').
  - left. exists h. split; [done|]. unfold holds. cbn. rewrite Hown; congruence.
  - intros n k d k' s' d' _ _ H. by destruct (Hno k' s' d').
  - intros n k d _ [H _]. by destruct (Hno k n d).
  - intros n Hn _. by apply Hown.
Qed.

(** ** What the invariant gives *)

(** One member at most has the slot or is about to get it. *)
Definition has (t : token) (n : Z) : Prop :=
  holds (t_own t) n \/ exists k, on_its_way (t_log t) (t_pos t) k n.

Lemma inv_has_one t n n' :
  token_inv t -> n ∈ members -> n' ∈ members -> has t n -> has t n' -> n = n'.
Proof.
  intros I Hn Hn' [H|(k & s & H & Hk)] [H'|(k' & s' & H' & Hk')].
  - by apply (ti_one _ I).
  - destruct (ti_taken _ I n k' s' n' Hn H H'). lia.
  - destruct (ti_taken _ I n' k s n Hn' H' H). lia.
  - assert (k' <= k)%nat by (by eapply (ti_last _ I k n); [exists s|]).
    assert (k <= k')%nat by (by eapply (ti_last _ I k' n'); [exists s'|]).
    assert (k' = k) as -> by lia. unfold gift in *. congruence.
Qed.

Lemma inv_has_some t : token_inv t -> exists n, n ∈ members /\ has t n.
Proof.
  intros I. destruct (ti_some _ I) as [(n & Hn & H)|(k & d & H)].
  - exists n. split; [done|by left].
  - exists d. split; [|right; by exists k]. destruct H as (s & H & _). by apply (ti_gift _ I) in H as (_ & ? & _).
Qed.

(** When a member has taken every message it has the owner of the log. *)
Lemma inv_up_to_date t n :
  token_inv t -> n ∈ members -> t_pos t n = length (t_log t) -> t_own t n = view (t_log t) o0.
Proof.
  intros I Hn Hp. rewrite (ti_view _ I n Hn), Hp, firstn_all; [done|].
  intros k d [H Hk]. apply gift_lt in H. lia.
Qed.

(** ** The same token *)

Definition teq (t t' : token) : Prop :=
  (forall n, t_own t n = t_own t' n) /\ t_log t = t_log t' /\ (forall n, t_pos t n = t_pos t' n).

#[export] Instance teq_equiv : Equivalence teq.
Proof.
  split.
  - by intros t.
  - by intros t t' (? & ? & ?).
  - intros t t1 t2 (H1 & H2 & H3) (H4 & H5 & H6). split_and!; intros; congruence.
Qed.

Lemma inv_teq t t' : teq t t' -> token_inv t -> token_inv t'.
Proof.
  destruct t as [own log pos], t' as [own' log' pos']. intros (Ho & Hl & Hp) I. cbn in *. subst log'.
  assert (Hw : forall k d, on_its_way log pos' k d <-> on_its_way log pos k d)
    by (intros k d; unfold on_its_way; by rewrite Hp).
  assert (Hg : forall n k d, own_gift log pos' n k d <-> own_gift log pos n k d)
    by (intros n k d; unfold own_gift; by rewrite Hp).
  assert (Hh : forall n, holds own' n <-> holds own n) by (intros n; unfold holds; by rewrite Ho).
  split; cbn [t_own t_log t_pos].
  - intros n Hn. rewrite <- Hp. by apply (ti_pos _ I).
  - exact (ti_gift _ I).
  - intros n n' Hn Hn' H%Hh H'%Hh. by apply (ti_one _ I).
  - intros n k s d Hn H%Hh Hgi. rewrite <- !Hp. by eapply (ti_taken _ I).
  - intros k d k' s' d' H%Hw. by apply (ti_last _ I k d).
  - destruct (ti_some _ I) as [(n & Hn & H)|(k & d & H)]; [left; exists n; by rewrite Hh|right].
    exists k, d. by apply Hw.
  - intros n k d k' s' d' Hn H%Hg H'. rewrite <- Hp. by eapply (ti_own _ I n k d).
  - intros n k d Hn H%Hg. rewrite <- Ho. by apply (ti_told _ I n k).
  - intros n Hn Hno. rewrite <- Ho, <- Hp. apply (ti_view _ I n Hn). intros k d H%Hg. by eapply Hno.
Qed.

#[export] Instance token_inv_proper : Proper (teq ==> iff) token_inv.
Proof. intros t t' H. split; apply inv_teq; [done|by symmetry]. Qed.
End Invariant.
