(* ===== verification/SlotsGroup.v ===== *)
(** * The group of system tasks

    The system tasks of a DC in a stable membership: every member takes the
    messages of the group in their order, each at its own pace ([gs_deliver]),
    its other thread serves requests ([gs_task]), and the processes of its node
    run ([gs_kernel]).  Each slot of the user processes then behaves as the token
    of [SlotToken]. *)

From S2P Require Import Prelude Types Endpoint Slots Systask SlotsLogic SystaskLogic SlotToken.
From stdpp Require Import relations functions.
#[local] Open Scope Z_scope.

(** ** The handlers *)

(** A multicast to the group does not fail: [SP_multicast] gives the number of
    bytes sent. *)
Class Reliable (E : Type) `{!Host E} := reliable (m : smsg) (e : E) : 0 <= fst (SP_multicast m e).

Section Specs.
Context {E : Type} `{!Host E}.
Implicit Types (g : sys) (e : E).

(** The slot table is as before, and at most one message is sent, a request. *)
Definition only_asks g g' : Prop :=
  same g g' /\ slot g' = slot g /\
  exists new, out g' = out g ++ sent new /\
    forall m, new = Some m -> exists need f o, m = M_REQ_SLOTS (local_nodeid g) need f o.

Lemma only_asks_refl g : only_asks g g.
Proof. split; [done|]. split; [done|]. exists None. split; [by rewrite app_nil_r|done]. Qed.

Lemma rqst_spec nr g e : post (mcast_rqst_slots nr) (fun _ g' _ => only_asks g g') g e.
Proof.
  unfold mcast_rqst_slots. p; try apply only_asks_refl; (split; [done|]); (split; [done|]).
  1: exists None; split; [by rewrite app_nil_r|done].
  - eexists (Some _). split; [done|]. intros m [= <-]. by eauto.
  - exists None. split; [by rewrite app_nil_r|done].
Qed.

Lemma new_rqst_spec nr g e : post (new_rqst_slots nr) (fun _ g' _ => only_asks g g') g e.
Proof.
  unfold new_rqst_slots. p; [|apply only_asks_refl].
  eapply post_mono; [apply rqst_spec|]. intros _ g' _ (H & Hs & new & Hout & Hm). cbn in *.
  split; [|by eauto]. etrans; [|exact H]. by split.
Qed.

(** The donation found the slots [l], from [i] on. *)
Definition gave (i r : Z) (l : list Z) g g' : Prop :=
  same g g' /\ out g' = out g /\
  (forall j, j ∈ l -> i <= j /\ owner_at g j = Some (local_nodeid g) /\ owner_at g' j = Some r) /\
  (forall j, 0 <= j -> j ∉ l -> owner_at g' j = owner_at g j).

Lemma donate_spec n i r left g e :
  0 <= i -> post (donate n i r left)
    (fun l g' _ => gave i r l g g' /\ Z.of_nat (length l) <= Z.max 0 left) g e.
Proof.
  revert i left g e. induction n as [|n IH]; intros i left g e Hi; cbn [donate].
  - p. split; [|cbn; lia]. split; [done|]. by split_and!; [|intros j ?%not_elem_of_nil|].
  - p_step.
    + p. split; [|cbn; lia]. split; [done|]. by split_and!; [|intros j ?%not_elem_of_nil|].
    + do 7 p_step.
      * repeat p_step. eapply post_mono; [apply IH; lia|]. cbn beta.
        intros l g' e' ((Hs & Hout & Hl & Hn) & Hlen). p. apply andb_true_iff in Heqb0 as [_ Ho%Z.eqb_eq].
        assert (Hown : owner_at g i = Some (local_nodeid g)) by (unfold owner_at; by rewrite H0; cbn; f_equal).
        assert (Hil : i ∉ l) by (intros Hin; destruct (Hl i Hin); lia).
        split; [|cbn; lia]. split; [|split; [done|split]].
        -- etrans; [|exact Hs]. apply (same_trans _ (g <| free_slots ::= Z.pred |> <| owned_slots ::= Z.pred |>));
             [by split|apply same_wr].
        -- intros j [->|Hj]%elem_of_cons.
           ++ split; [lia|]. split; [done|]. rewrite Hn by (lia || done).
              by rewrite (owner_wr _ i _ _ H2).
           ++ destruct (Hl j Hj) as (Hij & Ho1 & Ho2). split; [lia|]. split; [|done].
              rewrite owner_wr_ne in Ho1 by lia. exact Ho1.
        -- intros j Hj0 [Hji Hj]%not_elem_of_cons. rewrite Hn by done. by rewrite owner_wr_ne by (lia || done).
      * eapply post_mono; [apply IH; lia|]. cbn beta.
        intros l g' _ ((Hs & Hout & Hl & Hn) & Hlen). split; [|done]. split_and!; try done.
        intros j Hj. destruct (Hl j Hj) as (? & ? & ?). split_and!; [lia|done..].
Qed.

(** ** A step of a member on one slot *)

(** The member [n] took [m] and sent [new]; its opinion of the owner of the slot
    went from [o] to [o']. *)
Definition slot_step (n : Z) (m : smsg) (new : option smsg) (i : Z) (o o' : option Z) : Prop :=
  match gives m i with
  | Some d => (forall m', new = Some m' -> gives m' i = None) /\
      (o' = Some d \/ msource m = n /\ o' = o)
  | None =>
      match new with
      | Some m' => match gives m' i with
                   | Some d => o = Some n /\ o' = Some d
                   | None => o' = o
                   end
      | None => o' = o
      end
  end.

(** What a member may send in answer to [m]: a request, or a donation to the
    sender of [m]. *)
Definition answers (n : Z) (m new : smsg) : Prop :=
  msource new = n /\
  match new with
  | M_REQ_SLOTS _ _ _ _ => True
  | M_DON_SLOTS _ d _ _ => d = msource m /\ d <> n
  | _ => False
  end.

Definition member_step g (m : smsg) g' : Prop :=
  same g g' /\
  exists new, out g' = out g ++ sent new /\
    (forall m', new = Some m' -> answers (local_nodeid g) m m') /\
    forall i, user (s_dc g) i -> slot_step (local_nodeid g) m new i (owner_at g i) (owner_at g' i).

Lemma asks_step g m g' :
  (forall i, user (s_dc g) i -> gives m i = None) -> only_asks g g' -> member_step g m g'.
Proof.
  intros Hm (Hs & Hsl & new & Hout & Hnew). split; [done|]. exists new. split; [done|]. split.
  - intros m' H. destruct (Hnew _ H) as (? & ? & ? & ->). by split.
  - intros i Hi. unfold slot_step, owner_at. rewrite (Hm i Hi), Hsl. destruct new as [m'|]; [|done].
    by destruct (Hnew _ eq_refl) as (? & ? & ? & ->).
Qed.

Lemma quiet_step g m g' :
  (forall i, user (s_dc g) i -> gives m i = None) -> same g g' -> out g' = out g ->
  (forall i, user (s_dc g) i -> owner_at g' i = owner_at g i) -> member_step g m g'.
Proof.
  intros Hm Hs Hout Ho. split; [done|]. exists None. split; [by rewrite app_nil_r|]. split; [done|].
  intros i Hi. unfold slot_step. rewrite (Hm i Hi). by apply Ho.
Qed.

(** *** Requests *)

Lemma elem_mA_ia i nr l :
  0 < i -> (length l <= nr)%nat -> (nr <= 4)%nat -> i ∈ take nr (mA_ia l) <-> i ∈ l.
Proof.
  intros Hi Hl Hn. unfold mA_ia. rewrite take_take, Nat.min_l, take_app, elem_of_app by done.
  rewrite (take_ge l) by done. split; [|by left]. intros [?|Hz]; [done|].
  apply elem_of_take in Hz as (k & Hz & _). exfalso.
  do 4 (destruct k as [|k]; [injection Hz; lia|]). done.
Qed.

Definition sane (g : sys) : Prop := 0 < dc_nr_sysprocs (s_dc g).

Lemma send_donation_spec `{!Reliable E} m r donated g e :
  sane g -> (forall i, user (s_dc g) i -> gives m i = None) -> r = msource m -> r <> local_nodeid g ->
  post (send_donation r donated) (fun _ g' _ => member_step g m g') g e.
Proof.
  intros Hsane Hm Hr Hne. unfold send_donation. do 3 p_step. unfold sane in Hsane.
  set (nr := if donated >? SLOTS_BY_MSG then SLOTS_BY_MSG else donated).
  assert (Hnr : nr <= 4) by (unfold nr, SLOTS_BY_MSG; rewrite Z.gtb_ltb; destruct (Z.ltb_spec 4 donated); lia).
  eapply post_mono; [apply donate_spec; unfold nr_sysprocs; lia|]. cbn beta.
  intros l g1 e1 ((Hs & Hout & Hl & Hn) & Hlen). apply post_mcast; intros e2 Hr2;
    [|pose proof (reliable (M_DON_SLOTS (local_nodeid g) r nr (mA_ia l)) e1); lia].
  split; [etrans; [exact Hs|by split]|]. eexists (Some _). cbn. rewrite Hout. split; [done|]. split.
  - intros m' [= <-]. split; [done|]. cbn. by subst r.
  - intros i Hi. assert (0 < i) by (destruct Hi; lia). unfold slot_step. rewrite (Hm i Hi). cbn [gives].
    change (owner_at (g1 <| out ::= _ |>) i) with (owner_at g1 i).
    destruct (decide (i ∈ l)) as [Hil|Hil].
    + destruct (Hl i Hil) as (_ & Ho & Ho'). rewrite bool_decide_true; [done|].
      apply elem_mA_ia; [done|lia|lia|done].
    + rewrite bool_decide_false; [apply Hn; [lia|done]|].
      destruct (decide (0 <= nr)); [rewrite elem_mA_ia; [done|done|lia|lia]|].
      replace (Z.to_nat nr) with O by lia. apply not_elem_of_nil.
Qed.

Lemma next_spec node bm g e : post (get_next_mbr node bm) (fun _ g' _ => g' = g) g e.
Proof. unfold get_next_mbr. by p. Qed.

Lemma answer_spec `{!Reliable E} m r donated g e :
  sane g -> (forall i, user (s_dc g) i -> gives m i = None) -> r = msource m -> r <> local_nodeid g ->
  post (answer_request r donated) (fun _ g' _ => member_step g m g') g e.
Proof.
  intros Hsane Hm Hr Hne. unfold answer_request. do 3 p_step. apply post_mono with (Q := fun _ g' _ => g' = g).
  - destruct (_ && _); [apply next_spec|by p].
  - intros next g' e' ->. p_step; [|by apply send_donation_spec].
    p. by apply quiet_step.
Qed.

Lemma req_spec `{!Reliable E} r need f o g e :
  sane g -> post (sp_req_slots r need) (fun _ g' _ => member_step g (M_REQ_SLOTS r need f o) g') g e.
Proof.
  intros Hsane. unfold sp_req_slots. do 2 p_step. p_step; [by p; apply quiet_step|].
  p_step; [by p; apply quiet_step|]. apply Z.eqb_neq in Heqb0. do 3 p_step.
  - p_step. apply post_mono with (Q := fun _ g' _ => g' = g).
    + p_step; [apply next_spec|by p].
    + intros next g' e' ->. p_step; [by p; apply quiet_step|]. by apply answer_spec.
  - do 2 p_step. by apply answer_spec.
Qed.

(** *** Donations *)

Lemma drop_nth {A} (l : list A) (k : nat) x : l !! k = Some x -> drop k l = x :: drop (S k) l.
Proof. intros H. by rewrite (drop_S l x k). Qed.

(** A member that is not the donor changes the owner of every slot of the list. *)
Lemma don_loop_spec n j src d ia g e :
  0 <= j -> src <> local_nodeid g ->
  post (don_loop n j src d ia) (fun b g' _ => b = false /\ same g g' /\ out g' = out g /\
    FSM_state g' = FSM_state g /\ bm_pending g' = bm_pending g /\
    forall i, 0 <= i -> owner_at g' i =
      if bool_decide (i ∈ take n (drop (Z.to_nat j) ia)) then Some d else owner_at g i) g e.
Proof.
  revert j g e. induction n as [|n IH]; intros j g e Hj Hne; cbn [don_loop].
  - p. split_and!; try done. 
  - p_step; [|by p]. rename z into i0, Heqo into Hia. do 4 p_step. p_step; [lia|].
    eapply post_mono; [apply IH; [lia|done]|]. cbn beta.
    intros b g' e' (-> & Hs & Hout & Hf & Hp & Ho). split; [done|]. split; [etrans; [apply same_wr|exact Hs]|].
    split_and!; try done. intros i Hi. rewrite Ho by done. rewrite (drop_nth _ _ _ Hia).
    replace (Z.to_nat (j + 1)) with (S (Z.to_nat j)) by lia. cbn [take].
    destruct (decide (i = i0)) as [->|Hi0].
    + rewrite (bool_decide_true (i0 ∈ _ :: _)) by (by left).
      rewrite (owner_wr _ _ _ _ H0). cbn. by destruct (bool_decide _).
    + rewrite owner_wr_ne by (done || congruence).
      rewrite (bool_decide_ext (i ∈ i0 :: _) (i ∈ take n (drop (S (Z.to_nat j)) ia))); [done|].
      rewrite elem_of_cons. tauto.
Qed.

(** The donor changes one slot at most, to what it is already. *)
Lemma don_own_spec n src d ia g e :
  src = local_nodeid g ->
  post (don_loop n 0 src d ia) (fun _ g' _ => same g g' /\ out g' = out g /\
    FSM_state g' = FSM_state g /\ bm_pending g' = bm_pending g /\
    forall i, 0 <= i -> owner_at g' i = owner_at g i \/
      i ∈ take n ia /\ owner_at g' i = Some d) g e.
Proof.
  intros Hsrc. destruct n as [|n]; cbn [don_loop].
  - p. split_and!; try done. by left.
  - p_step; [|by p]. rename z into i0, Heqo into Hia. p; [|apply Z.eqb_neq in Heqb; cbn in Heqb; congruence].
    split; [etrans; apply same_wr|]. split_and!; try done. intros i Hi.
    destruct (decide (i = i0)) as [->|Hi0].
    + right. split; [by destruct ia; [|injection Hia as ->; left]|].
      rewrite (owner_wr _ _ _ _ H2). cbn in *. rewrite list_lookup_insert_eq in H2; [by injection H2 as <-|].
      by apply lookup_lt_Some in H0.
    + left. by rewrite !owner_wr_ne by (done || congruence).
Qed.

(** The table after a donation, before anything is sent. *)
Definition don_done g (m : smsg) g1 : Prop :=
  same g g1 /\ out g1 = out g /\
  forall i, user (s_dc g) i -> slot_step (local_nodeid g) m None i (owner_at g i) (owner_at g1 i).

Lemma don_then_asks g m g1 g' : don_done g m g1 -> only_asks g1 g' -> member_step g m g'.
Proof.
  intros (Hs1 & Hout1 & Hst) (Hs & Hsl & new & Hout & Hnew). split; [by etrans|]. exists new.
  rewrite Hout, Hout1. split; [done|]. assert (Hg : forall m' i, new = Some m' -> gives m' i = None).
  { intros m' i H. by destruct (Hnew _ H) as (? & ? & ? & ->). }
  split.
  - intros m' H. destruct (Hnew _ H) as (? & ? & ? & ->). rewrite (sm_local _ _ Hs1). by split.
  - intros i Hi. specialize (Hst i Hi). unfold slot_step, owner_at in *. rewrite Hsl.
    destruct (gives m i) as [d|]; [split; [auto|apply Hst]|].
    destruct new as [m'|]; [by rewrite (Hg m' i eq_refl)|done].
Qed.

Lemma asks_upd g g1 g' :
  same g g1 -> slot g1 = slot g -> out g1 = out g -> only_asks g1 g' -> only_asks g g'.
Proof.
  intros Hs Hsl Hout (Hs' & Hsl' & new & Hout' & Hnew). split; [by etrans|]. split; [congruence|].
  exists new. split; [congruence|]. by rewrite <- (sm_local _ _ Hs).
Qed.

Lemma receive_spec src nr g e : post (receive_donation src nr) (fun _ g' _ => only_asks g g') g e.
Proof.
  unfold receive_donation. repeat p_step.
  all: eapply post_mono; [apply new_rqst_spec|]; intros r g' e' Hasks; p.
  all: (eapply asks_upd; [| | |exact Hasks]; [by split|done|done]).
Qed.

Lemma don_spec src d nr ia g e :
  sane g -> post (sp_don_slots src d nr ia) (fun _ g' _ => member_step g (M_DON_SLOTS src d nr ia) g') g e.
Proof.
  intros Hsane. set (m := M_DON_SLOTS src d nr ia). unfold sp_don_slots. do 7 p_step.
  destruct (decide (src = local_nodeid g)) as [Hsrc|Hsrc].
  - eapply post_mono; [by apply don_own_spec|]. cbn beta. intros own g1 e1 (Hs & Hout & Hf & Hp & Ho).
    assert (Hd : don_done g m g1).
    { split; [done|]. split; [done|]. intros i Hi. unfold slot_step, m. cbn [gives msource].
      unfold sane in Hsane. destruct (Ho i) as [->|[Hi' ->]]; [destruct Hi; lia| |].
      - case_bool_decide; [split; [done|by right]|done].
      - rewrite bool_decide_true by done. split; [done|by left]. }
    assert (Hq : member_step g m g1) by (eapply don_then_asks; [exact Hd|apply only_asks_refl]).
    rewrite (proj2 (Z.eqb_eq _ _) Hsrc). by p.
  - eapply post_mono; [apply don_loop_spec; [lia|done]|]. cbn beta.
    intros own g1 e1 (-> & Hs & Hout & Hf & Hp & Ho). rewrite drop_0 in Ho.
    assert (Hd : don_done g m g1).
    { split; [done|]. split; [done|]. intros i Hi. unfold slot_step, m. cbn [gives msource].
      unfold sane in Hsane. rewrite Ho by (destruct Hi; lia). case_bool_decide; [split; [done|by left]|done]. }
    assert (Hq : member_step g m g1) by (eapply don_then_asks; [exact Hd|apply only_asks_refl]).
    p_step; [by p|]. rewrite (proj2 (Z.eqb_neq _ _) Hsrc). p_step; [by p|].
    eapply post_mono; [apply receive_spec|]. intros r g' e' Hasks. by eapply don_then_asks.
Qed.

(** *** Notices *)

Lemma rmt_bind_spec src nr ep g e : post (rmt_bind src nr ep) (fun _ g' _ => g' = g) g e.
Proof. unfold rmt_bind. by p. Qed.

Lemma rmt_exit_spec src nr ep g e : post (rmt_exit src nr ep) (fun _ g' _ => g' = g) g e.
Proof.
  unfold rmt_exit. do 3 p_step. apply post_mono with (Q := fun _ g' _ => g' = g); [by p|].
  intros b g' e' ->. by p.
Qed.

Lemma rmt_migrate_spec src nr g e :
  nr + dc_nr_tasks (s_dc g) < dc_nr_sysprocs (s_dc g) ->
  post (rmt_migrate src nr) (fun _ g' _ => same g g' /\ out g' = out g /\
    forall i, user (s_dc g) i -> owner_at g' i = owner_at g i) g e.
Proof.
  intros Hnr. unfold rmt_migrate. p.
  all: split; [apply same_wr|]; split; [done|]; intros i [Hi _]; apply owner_wr_ne; lia.
Qed.

Lemma syscall_spec src mtype nr ep g e :
  stable_msg (s_dc g) (M_SYSCALL src mtype nr ep) ->
  post (sp_syscall src mtype nr ep) (fun _ g' _ => member_step g (M_SYSCALL src mtype nr ep) g') g e.
Proof.
  intros Hst. set (m := M_SYSCALL src mtype nr ep).
  assert (Hq : member_step g m g) by (by apply quiet_step).
  unfold sp_syscall. do 2 p_step.
  repeat (p_step; try (by p; apply quiet_step);
    try (by eapply post_mono; [apply rmt_bind_spec|intros r g' e' ->]);
    try (by eapply post_mono; [apply rmt_exit_spec|intros r g' e' ->]);
    try (eapply post_mono; [apply rmt_migrate_spec; apply Hst; by apply Z.eqb_eq
                           |intros r g' e' (? & ? & ?); by apply quiet_step])).
Qed.

Lemma on_message_spec `{!Reliable E} sender m part g e :
  sane g -> stable_msg (s_dc g) m ->
  post (on_message sender m part) (fun _ g' _ => member_step g m g') g e.
Proof.
  intros Hsane Hst. destruct m; cbn [on_message].
  - by apply req_spec.
  - by apply don_spec.
  - done.
  - by apply syscall_spec.
Qed.
End Specs.

(** ** The group *)

Section Group.
Context {E : Type} `{!Host E} `{!TaskHost E} `{!Reliable E}.
Context (D : dc_t) (members : list Z) `{!TaskLaws E D}.

(** The globals and the host of every member, the messages multicast so far in
    their total order, and how many of them each member has taken. *)
Record group := mk_group {
  g_sys : Z -> sys;
  g_env : Z -> E;
  g_log : list smsg;
  g_pos : Z -> nat;
}.

Definition mcasts (l : list action) : list smsg :=
  omap (fun a => match a with A_MCAST m => Some m | _ => None end) l.

Definition drained (g : sys) : sys := g <| out := [] |>.

Inductive gstep : group -> group -> Prop :=
| gs_deliver sy en log pos n m part r g e :
    n ∈ members -> log !! pos n = Some m ->
    on_message (msource m) m part (sy n) (en n) = Ok r g e ->
    gstep (mk_group sy en log pos)
      (mk_group (<[n := drained g]> sy) (<[n := e]> en) (log ++ mcasts (out g)) (<[n := S (pos n)]> pos))
| gs_task sy en log pos n g e :
    n ∈ members -> task_run (sy n) (en n) g e ->
    gstep (mk_group sy en log pos)
      (mk_group (<[n := drained g]> sy) (<[n := e]> en) (log ++ mcasts (out g)) pos)
| gs_kernel sy en log pos n e :
    n ∈ members -> gstep (mk_group sy en log pos) (mk_group sy (<[n := e]> en) log pos).

Definition msg_ok (m : smsg) : Prop :=
  stable_msg D m /\ msource m ∈ members /\
  match m with M_DON_SLOTS s d _ _ => d ∈ members /\ s <> d | _ => True end.

Record group_ok (G : group) : Prop := {
  go_sane : 0 < dc_nr_sysprocs D;
  go_dc n : n ∈ members -> s_dc (g_sys G n) = D;
  go_local n : n ∈ members -> local_nodeid (g_sys G n) = n;
  go_out n : n ∈ members -> out (g_sys G n) = [];
  go_log : Forall msg_ok (g_log G);
}.

(** The slot [i] of the group, as a token. *)
Definition token_of (i : Z) (G : group) : token :=
  mk_token (fun n => owner_at (g_sys G n) i) ((fun m => (msource m, gives m i)) <$> g_log G) (g_pos G).

Lemma mcasts_sent new : mcasts (sent new) = match new with Some m => [m] | None => [] end.
Proof. by destruct new. Qed.

Lemma answers_ok n m new :
  n ∈ members -> msource m ∈ members -> answers n m new -> msg_ok new.
Proof.
  intros Hn Hm [Hs H]. destruct new; cbn in *; try done; subst; [by split_and!|].
  destruct H as [-> ?]. by split_and!.
Qed.

Lemma user_gives_ok m i d :
  msg_ok m -> gives m i = Some d -> d ∈ members /\ msource m <> d.
Proof. intros (_ & _ & H). destruct m; cbn; try done. case_bool_decide; [intros [= <-]|done]. done. Qed.

(** Sending one message, on the token of a slot: the member keeps the slot or
    gives it. *)
Lemma send_token i own log pos n o' new m0 :
  n ∈ members -> (forall m, new = Some m -> answers n m0 m) -> msource m0 ∈ members ->
  gives m0 i = None -> slot_step n m0 new i (own n) o' ->
  exists own1 log1, rtc (tstep members) (mk_token own log pos) (mk_token own1 log1 pos) /\
    own1 n = o' /\ (forall n', n <> n' -> own1 n' = own n') /\
    log1 = log ++ ((fun m => (msource m, gives m i)) <$> mcasts (sent new)).
Proof.
  intros Hn Hans Hm0 Hg0 Hst. unfold slot_step in Hst. rewrite Hg0 in Hst. rewrite mcasts_sent.
  destruct new as [m|]; cbn [fmap list_fmap].
  - destruct (Hans _ eq_refl) as [Hsrc Hm]. destruct (gives m i) as [d|] eqn:Hd.
    + destruct Hst as [Ho ->]. destruct m as [|s d' nr ia| |]; try done. cbn in Hd.
      case_bool_decide; [|done]. injection Hd as ->. cbn in *. subst s. destruct Hm as [-> Hne].
      exists (<[n := Some (msource m0)]> own), (log ++ [(n, Some (msource m0))]).
      split; [apply rtc_once, t_give; [done|exact Hm0|by apply not_eq_sym|done]|].
      rewrite fn_lookup_insert. split_and!; try done. intros n' Hn'. by rewrite fn_lookup_insert_ne.
    + eexists own, _. split; [apply rtc_once, t_append|]. by split_and!.
  - exists own, log. split; [done|]. split_and!; try done. by rewrite app_nil_r.
Qed.

(** Taking the message [m], and then sending, on the token of a slot. *)
Lemma deliver_token i own log pos n m new o' :
  n ∈ members -> msg_ok m -> (forall m', new = Some m' -> answers n m m') ->
  (fun m => (msource m, gives m i)) <$> log !! pos n = Some (msource m, gives m i) ->
  slot_step n m new i (own n) o' ->
  let log' := (fun m => (msource m, gives m i)) <$> log in
  exists own1, rtc (tstep members) (mk_token own log' pos)
      (mk_token own1 (log' ++ ((fun m => (msource m, gives m i)) <$> mcasts (sent new)))
         (<[n := S (pos n)]> pos)) /\
    own1 n = o' /\ forall n', n <> n' -> own1 n' = own n'.
Proof.
  intros Hn Hok Hans Hlog Hst log'. rewrite <- list_lookup_fmap in Hlog. fold log' in Hlog.
  destruct (gives m i) as [d|] eqn:Hg.
  - unfold slot_step in Hst. rewrite Hg in Hst. destruct Hst as [Hnew Ho].
    exists (<[n := o']> own). split; [|split; [by rewrite fn_lookup_insert|
      intros n' Hn'; by rewrite fn_lookup_insert_ne]].
    trans (mk_token (<[n := o']> own) log' (<[n := S (pos n)]> pos)).
    + apply rtc_once. destruct (decide (msource m = n)) as [Hs|Hs].
      * rewrite Hs in Hlog. eapply t_back; [done|exact Hlog|]. destruct Ho as [->|[_ ->]]; [by right|by left].
      * destruct Ho as [->|[? _]]; [|done]. by eapply t_take.
    + rewrite mcasts_sent. destruct new as [m'|]; cbn; [|by rewrite app_nil_r].
      rewrite (Hnew _ eq_refl). apply rtc_once, t_append.
  - destruct (send_token i own log' (<[n := S (pos n)]> pos) n o' new m Hn Hans (proj1 (proj2 Hok)) Hg Hst)
      as (own1 & log1 & Hr & H1 & H2 & ->).
    exists own1. split; [|by split]. eapply rtc_l; [by eapply t_skip|done].
Qed.

Lemma same_ok n g g' :
  s_dc g = D -> local_nodeid g = n -> same g g' -> s_dc g' = D /\ local_nodeid g' = n.
Proof. intros <- <- []. by split. Qed.

Lemma mcasts_of l : mcasts (A_MCAST <$> l) = l.
Proof. induction l as [|m l IH]; [done|]. unfold mcasts in *. cbn. by rewrite IH. Qed.

Lemma told_msgs g g' : told g g' -> out g = [] ->
  exists l, mcasts (out g') = l /\ Forall (of_task (s_dc g) (local_nodeid g)) l.
Proof. intros [_ _ (l & -> & Hl)] ->. exists l. by rewrite app_nil_l, mcasts_of. Qed.

Lemma of_task_ok n m : n ∈ members -> of_task D n m -> msg_ok m.
Proof. intros Hn. destruct m; cbn; try done; [intros ->|intros [-> ?]]; by split_and!. Qed.

(** ** The group refines the token *)

Lemma group_step_ok G G' : group_ok G -> gstep G G' -> group_ok G'.
Proof.
  intros [Hsane Hdc Hloc Hout Hlog] Hst.
  assert (Hupd : forall sy n g' n', (forall n, n ∈ members -> s_dc (sy n) = D) ->
    (forall n, n ∈ members -> local_nodeid (sy n) = n) -> (forall n, n ∈ members -> out (sy n) = []) ->
    n ∈ members -> same (sy n) g' -> out g' = [] -> n' ∈ members ->
    s_dc ((<[n := g']> sy : Z -> sys) n') = D /\ local_nodeid ((<[n := g']> sy : Z -> sys) n') = n' /\
    out ((<[n := g']> sy : Z -> sys) n') = []).
  { intros sy n g' n' H1 H2 H3 Hn Hs Ho Hn'. destruct (decide (n = n')) as [<-|];
      [rewrite fn_lookup_insert|rewrite fn_lookup_insert_ne by done; auto].
    destruct (same_ok n (sy n) g'); auto. }
  destruct Hst as [sy en log pos n m part r g e Hn Hm Hrun|sy en log pos n g e Hn Hrun
    |sy en log pos n e Hn]; cbn [g_sys g_log] in *.
  - assert (Hok : msg_ok m) by (rewrite list.Forall_forall in Hlog; eapply Hlog, list_elem_of_lookup_2, Hm).
    assert (Hp : member_step (sy n) m g).
    { pose proof (on_message_spec (msource m) m part (sy n) (en n)) as Hp. unfold post in Hp.
      rewrite Hrun in Hp. unfold sane in Hp. rewrite (Hdc n Hn) in Hp. by apply Hp; [|apply Hok]. }
    destruct Hp as (Hs & new & Hnew & Hans & _). rewrite (Hout n Hn), (Hloc n Hn) in *. cbn in Hnew.
    assert (Hd : same (sy n) (drained g)) by (by etrans; [exact Hs|split]).
    split; cbn [g_sys g_log]; [done|intros n' Hn'; by apply (Hupd sy n)..|].
    rewrite Hnew, mcasts_sent. apply Forall_app. split; [done|]. destruct new as [m'|]; [|by constructor].
    apply Forall_singleton. eapply answers_ok; [exact Hn|apply Hok|by apply Hans].
  - assert (Ht : told (sy n) g) by (by eapply task_run_told; [exact _|apply Hdc|exact Hrun]).
    assert (Hd : same (sy n) (drained g)) by (etrans; [apply Ht|by split]).
    split; cbn [g_sys g_log]; [done|intros n' Hn'; by apply (Hupd sy n)..|].
    apply Forall_app. split; [done|]. destruct (told_msgs (sy n) g Ht (Hout n Hn)) as (l & -> & Hl).
    rewrite (Hdc n Hn), (Hloc n Hn) in Hl. eapply list.Forall_impl; [exact Hl|]. intros m. by apply of_task_ok.
  - by split.
Qed.

Lemma deliver_refines i sy en log pos n m part r g e :
  group_ok (mk_group sy en log pos) -> user D i -> n ∈ members -> log !! pos n = Some m ->
  on_message (msource m) m part (sy n) (en n) = Ok r g e ->
  exists t', rtc (tstep members) (token_of i (mk_group sy en log pos)) t' /\
    teq t' (token_of i (mk_group (<[n := drained g]> sy) (<[n := e]> en) (log ++ mcasts (out g))
                          (<[n := S (pos n)]> pos))).
Proof.
  intros [Hsane Hdc Hloc Hout Hlog] Hi Hn Hm Hrun. cbn [g_sys g_log] in *.
  assert (Hok : msg_ok m) by (rewrite list.Forall_forall in Hlog; eapply Hlog, list_elem_of_lookup_2, Hm).
  pose proof (on_message_spec (msource m) m part (sy n) (en n)) as Hp. unfold post in Hp.
  rewrite Hrun in Hp. unfold sane in Hp. rewrite (Hdc n Hn) in Hp.
  destruct (Hp Hsane (proj1 Hok)) as (_ & new & Hnew & Hans & Hslot). clear Hp.
  rewrite (Hout n Hn), (Hloc n Hn), (Hdc n Hn) in *. cbn in Hnew. specialize (Hslot i Hi).
  destruct (deliver_token i (fun n => owner_at (sy n) i) log pos n m new (owner_at g i))
    as (own1 & Hr & H1 & H2); [done|done|done|by rewrite Hm|done|].
  eexists. split; [exact Hr|]. split; [|split; [|done]]; cbn.
  - intros n'. destruct (decide (n = n')) as [<-|]; [by rewrite fn_lookup_insert|].
    rewrite fn_lookup_insert_ne by done. by apply H2.
  - by rewrite fmap_app, Hnew.
Qed.

(** Messages that give nothing. *)
Lemma append_refines i own log pos l :
  Forall (fun m => gives m i = None) l ->
  rtc (tstep members) (mk_token own log pos)
    (mk_token own (log ++ ((fun m => (msource m, gives m i)) <$> l)) pos).
Proof.
  intros Hl. revert log. induction Hl as [|m l Hm _ IH]; intros log; cbn; [by rewrite app_nil_r|].
  rewrite Hm. eapply rtc_l; [apply (t_append _ _ _ _ (msource m))|].
  specialize (IH (log ++ [(msource m, None)])). by rewrite <- app_assoc in IH.
Qed.

Lemma task_refines i sy en log pos n g e :
  user D i -> n ∈ members -> (forall n, n ∈ members -> out (sy n) = []) ->
  (forall n, n ∈ members -> s_dc (sy n) = D) -> task_run (sy n) (en n) g e ->
  exists t', rtc (tstep members) (token_of i (mk_group sy en log pos)) t' /\
    teq t' (token_of i (mk_group (<[n := drained g]> sy) (<[n := e]> en) (log ++ mcasts (out g)) pos)).
Proof.
  intros Hi Hn Hout Hdc Hrun.
  assert (Ht : told (sy n) g) by (by eapply task_run_told; [exact _|apply Hdc|exact Hrun]).
  destruct (told_msgs (sy n) g Ht (Hout n Hn)) as (l & -> & Hl).
  eexists. split; [apply (append_refines i _ _ _ l)|split; [|split; [|done]]].
  - eapply list.Forall_impl; [exact Hl|]. intros m Hm. by destruct m.
  - cbn. intros n'. destruct (decide (n = n')) as [<-|]; [|by rewrite fn_lookup_insert_ne].
    rewrite fn_lookup_insert. symmetry. apply (td_owner _ _ Ht). by rewrite Hdc.
  - cbn. by rewrite fmap_app.
Qed.

Lemma group_refines i G G' :
  group_ok G -> user D i -> gstep G G' ->
  exists t', rtc (tstep members) (token_of i G) t' /\ teq t' (token_of i G').
Proof.
  intros Hok Hi Hst. revert Hok. destruct Hst as [sy en log pos n m part r g e Hn Hm Hrun|sy en log pos n g e Hn Hrun
    |sy en log pos n e Hn]; intros Hok.
  - by eapply deliver_refines.
  - eapply task_refines; [done|done|apply Hok|apply Hok|done].
  - by eexists.
Qed.

(** ** Reachable groups *)

(** The members agree on the owner of every slot, which is one of them, and no
    message has been sent. *)
Record group_start (G : group) : Prop := {
  gs_sane : 0 < dc_nr_sysprocs D;
  gs_member n : n ∈ members ->
    s_dc (g_sys G n) = D /\ local_nodeid (g_sys G n) = n /\ out (g_sys G n) = [];
  gs_log : g_log G = [];
  gs_pos n : g_pos G n = O;
  gs_owner i : user D i -> exists h, h ∈ members /\ forall n, n ∈ members -> owner_at (g_sys G n) i = Some h;
}.

Lemma start_ok G : group_start G -> group_ok G.
Proof.
  intros [Hs Hm Hl Hp Ho]. split; try done; [intros n Hn; by apply (Hm n Hn)..|]. rewrite Hl. by constructor.
Qed.

Lemma reachable_token i G0 G :
  group_start G0 -> user D i -> rtc gstep G0 G ->
  exists o, token_inv members o (token_of i G).
Proof.
  intros H0 Hi Hr. assert (Hok : group_ok G0) by (by apply start_ok).
  assert (Hinv : exists o, token_inv members o (token_of i G0)).
  { destruct (gs_owner _ H0 i Hi) as (h & Hh & Ho). exists (Some h).
    eapply inv_teq; [|by apply (inv_start members (Some h) (fun n => owner_at (g_sys G0 n) i) h)].
    split; [done|]. unfold token_of. rewrite (gs_log _ H0). split; [done|]. intros n. cbn.
    by rewrite (gs_pos _ H0). }
  clear H0. revert Hok Hinv. induction Hr as [|G0 G1 G Hst _ IH]; [done|]. intros Hok [o Hinv].
  apply IH; [by eapply group_step_ok|]. exists o.
  destruct (group_refines i G0 G1 Hok Hi Hst) as (t & Ht & Heq). rewrite <- Heq. by eapply inv_steps.
Qed.

(** [n] has the slot [i]: it believes it owns it, or a donation of it to [n] is in
    the log and [n] has not come to it yet. *)
Definition has_slot (G : group) (n i : Z) : Prop :=
  owner_at (g_sys G n) i = Some n \/
  exists k m, g_log G !! k = Some m /\ gives m i = Some n /\ (g_pos G n <= k)%nat.

Lemma has_slot_token G n i : has_slot G n i <-> has (token_of i G) n.
Proof.
  unfold has_slot, has, holds, on_its_way, gift. cbn. apply or_iff_compat_l. split.
  - intros (k & m & Hm & Hg & Hk). exists k, (msource m). split; [|done].
    by rewrite list_lookup_fmap, Hm; cbn; rewrite Hg.
  - intros (k & s & Hk & Hp). rewrite list_lookup_fmap in Hk. apply fmap_Some in Hk as (m & Hm & [= _ Hg]).
    by exists k, m.
Qed.

(** C5. No slot is lost and none is given twice.  Whatever the order in which the
    members of a stable group take the donations and requests, and whatever
    forks, exits, bindings and migrations their other threads serve meanwhile, at every moment exactly one member has
    a given slot of the user processes: it believes it is the owner, or the
    message that donates the slot to it is on its way. *)
Theorem one_member_has_slot G0 G i :
  group_start G0 -> rtc gstep G0 G -> user D i ->
  exists n, n ∈ members /\ has_slot G n i /\
    forall n', n' ∈ members -> has_slot G n' i -> n' = n.
Proof.
  intros H0 Hr Hi. destruct (reachable_token i G0 G H0 Hi Hr) as [o I].
  destruct (inv_has_some _ _ _ I) as (n & Hn & H). exists n. split; [done|].
  split; [by apply has_slot_token|]. intros n' Hn' H'%has_slot_token. by apply (inv_has_one _ _ _ _ _ I).
Qed.

(** C6. The copies of the slot table agree.  Two members of a stable group that
    have taken all the messages sent so far have the same owner for every slot of
    the user processes, whatever the pace at which they took them. *)
Theorem tables_agree G0 G i n n' :
  group_start G0 -> rtc gstep G0 G -> user D i -> n ∈ members -> n' ∈ members ->
  g_pos G n = length (g_log G) -> g_pos G n' = length (g_log G) ->
  owner_at (g_sys G n) i = owner_at (g_sys G n') i.
Proof.
  intros H0 Hr Hi Hn Hn' Hp Hp'. destruct (reachable_token i G0 G H0 Hi Hr) as [o I].
  pose proof (inv_up_to_date _ _ _ n I Hn) as H1. pose proof (inv_up_to_date _ _ _ n' I Hn') as H2. cbn in H1, H2.
  rewrite H1, H2; [done|by rewrite length_fmap..].
Qed.
End Group.
