(* ===== verification/SlotsTyped.v ===== *)
(** * The globals of the system task keep their form

    Whatever event the slots thread takes, and whatever the kernel and Spread
    answer, the two slot tables keep their length, the node and its DC stay the
    same, and the state of the machine is one of ten. *)

From S2P Require Import Prelude Types Slots SlotsLogic.
From stdpp Require Import relations.
#[local] Open Scope Z_scope.

Definition fsm_base : list Z := [STS_NEW; STS_WAIT_STATUS; STS_DISCONNECTED; STS_RUNNING; STS_REQ_SLOTS].
Definition fsm_states : list Z := fsm_base ++ map (fun f => SET_BIT f BIT_MERGING) fsm_base.

Record typed (d : dc_t) (n : Z) (g : sys) : Prop := {
  ty_dc : s_dc g = d;
  ty_local : local_nodeid g = n;
  ty_slot : length (slot g) = Z.to_nat (dc_nr_slots d);
  ty_merge : length (slot_merge g) = Z.to_nat (dc_nr_slots d);
  ty_fsm : FSM_state g ∈ fsm_states;
}.

Lemma fsm_merging f : f ∈ fsm_states -> SET_BIT f BIT_MERGING ∈ fsm_states.
Proof.
  assert (forallb (fun f => bool_decide (SET_BIT f BIT_MERGING ∈ fsm_states)) fsm_states = true) as H
    by (vm_compute; reflexivity).
  intros Hf. apply list_elem_of_In in Hf. by apply (proj1 (forallb_forall _ _) H), bool_decide_eq_true in Hf.
Qed.

Lemma fsm_const f : bool_decide (f ∈ fsm_states) = true -> f ∈ fsm_states.
Proof. apply bool_decide_eq_true. Qed.

Ltac ty_fsm_leaf :=
  first [ assumption | apply fsm_merging; assumption
        | apply fsm_const; vm_compute; reflexivity ].

(** The globals [g] with some fields changed. *)
Ltac ty_leaf :=
  match goal with
  | H : typed ?d ?n ?g |- typed ?d ?n _ =>
      solve [ exact H
            | destruct H; split; cbn; rewrite ?length_insert, ?length_map;
              first [ assumption | ty_fsm_leaf ] ]
  end.

Create HintDb typed discriminated.
#[export] Hint Extern 1 (typed _ _ _) => ty_leaf : typed.

(** A handler called by another. *)
Ltac ty_call := eapply post_mono; [solve [eauto 3 with typed] | cbv beta; intros ????].
Ltac ty := repeat first [ p_step | ty_call | ty_leaf ].

Section Typed.
Context {E : Type} `{!Host E}.
Context (d : dc_t) (n : Z).
Implicit Types (g : sys) (e : E).

Abbreviation keeps m := (forall g e, typed d n g -> post m (fun _ g' _ => typed d n g') g e).

Lemma ty_for_upto k i (body : Z -> act E unit) :
  (forall j, keeps (body j)) -> keeps (for_upto k i body).
Proof. intros Hb g e H. apply (post_for_upto (fun _ g _ => typed d n g)); auto. Qed.

Lemma ty_for_ret k i (body : Z -> act E (option Z)) :
  (forall j, keeps (body j)) -> keeps (for_ret k i body).
Proof.
  intros Hb g e H. apply (post_for_ret (fun _ g _ => typed d n g)); [done| |done].
  intros j g1 e1 _ H1. eapply post_mono; [by apply Hb|]. by intros [r|].
Qed.

Lemma ty_next node bm : keeps (get_next_mbr (E := E) node bm).
Proof. intros g e H. unfold get_next_mbr. ty. Qed.
Hint Resolve ty_next : typed.

Lemma ty_rqst nr : keeps (mcast_rqst_slots (E := E) nr).
Proof. intros g e H. unfold mcast_rqst_slots. ty. Qed.
Hint Resolve ty_rqst : typed.

Lemma ty_new_rqst nr : keeps (new_rqst_slots (E := E) nr).
Proof. intros g e H. unfold new_rqst_slots. ty. Qed.
Hint Resolve ty_new_rqst : typed.

Lemma ty_status_slot i : keeps (status_slot (E := E) i).
Proof. intros g e H. unfold status_slot. ty. Qed.
Hint Resolve ty_for_upto ty_for_ret ty_status_slot : typed.

Lemma ty_status_info dest mtype part : keeps (mcast_status_info (E := E) dest mtype part).
Proof. intros g e H. unfold mcast_status_info. ty. Qed.
Hint Resolve ty_status_info : typed.

Lemma ty_primary : keeps (primary_sts_mcast (E := E)).
Proof. intros g e H. unfold primary_sts_mcast. ty. Qed.
Hint Resolve ty_primary : typed.

(** ** Joining, requests and donations *)

Lemma ty_bind_rmt k : keeps (bind_rmt_systask (E := E) k).
Proof. intros g e H. unfold bind_rmt_systask. ty. Qed.
Hint Resolve ty_bind_rmt : typed.

Lemma ty_unbind_rmt k : keeps (unbind_rmt_sysproc (E := E) k).
Proof. intros g e H. unfold unbind_rmt_sysproc. ty. Qed.
Hint Resolve ty_unbind_rmt : typed.

Lemma ty_restore m i : keeps (restore_slot (E := E) m i).
Proof. intros g e H. unfold restore_slot. ty. Qed.
Hint Resolve ty_restore : typed.

Lemma ty_join m : keeps (sp_join (E := E) m).
Proof. intros g e H. unfold sp_join. ty. Qed.
Hint Resolve ty_join : typed.

Lemma ty_donate k i r left : keeps (donate (E := E) k i r left).
Proof.
  revert i left. induction k as [|k IH]; intros i left g e H; cbn [donate]; ty.
Qed.
Hint Resolve ty_donate : typed.

Lemma ty_send_donation r k : keeps (send_donation (E := E) r k).
Proof. intros g e H. unfold send_donation. ty. Qed.
Hint Resolve ty_send_donation : typed.

Lemma ty_answer r k : keeps (answer_request (E := E) r k).
Proof. intros g e H. unfold answer_request. ty. Qed.
Hint Resolve ty_answer : typed.

Lemma ty_req r k : keeps (sp_req_slots (E := E) r k).
Proof. intros g e H. unfold sp_req_slots. ty. Qed.
Hint Resolve ty_req : typed.

Lemma ty_don_loop k j src dst ia : keeps (don_loop (E := E) k j src dst ia).
Proof. revert j. induction k as [|k IH]; intros j g e H; cbn [don_loop]; ty. Qed.
Hint Resolve ty_don_loop : typed.

Lemma ty_receive src nr : keeps (receive_donation (E := E) src nr).
Proof. intros g e H. unfold receive_donation. ty. Qed.
Hint Resolve ty_receive : typed.

Lemma ty_don src dst nr ia : keeps (sp_don_slots (E := E) src dst nr ia).
Proof. intros g e H. unfold sp_don_slots. ty. Qed.
Hint Resolve ty_don : typed.

(** ** Status *)

Lemma ty_status_other m : keeps (status_other (E := E) m).
Proof. intros g e H. unfold status_other. ty. Qed.
Hint Resolve ty_status_other : typed.

Lemma ty_bind_told x t : keeps (bind_as_told (E := E) x t).
Proof. intros g e H. unfold bind_as_told. ty. Qed.
Hint Resolve ty_bind_told : typed.

Lemma ty_status_sysproc t i : keeps (status_sysproc (E := E) t i).
Proof. intros g e H. unfold status_sysproc. ty. Qed.
Hint Resolve ty_status_sysproc : typed.

Lemma ty_status_user t i : keeps (status_user (E := E) t i).
Proof. intros g e H. unfold status_user. ty. Qed.
Hint Resolve ty_status_user : typed.

Lemma ty_status_slots k i table r : keeps (status_slots (E := E) k i table r).
Proof.
  revert i table r. induction k as [|k IH]; intros i table r g e H; cbn [status_slots]; ty.
Qed.
Hint Resolve ty_status_slots : typed.

Lemma ty_bind_member i : keeps (bind_member (E := E) i).
Proof. intros g e H. unfold bind_member. ty. Qed.
Hint Resolve ty_bind_member : typed.

Lemma ty_status_local bmi bmw f table : keeps (status_local (E := E) bmi bmw f table).
Proof. intros g e H. unfold status_local. ty. Qed.
Hint Resolve ty_status_local : typed.

Lemma ty_put_status dest bmi bmw f table : keeps (sp_put_status (E := E) dest bmi bmw f table).
Proof. intros g e H. unfold sp_put_status. ty. Qed.
Hint Resolve ty_put_status : typed.

(** ** Changes of the membership *)

Lemma ty_net_merge : keeps (sp_net_merge (E := E)).
Proof. intros g e H. unfold sp_net_merge. ty. Qed.
Hint Resolve ty_net_merge : typed.

Lemma ty_drop m g : typed d n g -> typed d n (drop_member m g).
Proof.
  intros H. unfold drop_member.
  repeat match goal with |- context [if TEST_BIT ?b ?m then _ else _] => destruct (TEST_BIT b m) end; ty_leaf.
Qed.
Hint Resolve ty_drop : typed.
#[local] Arguments drop_member : simpl never.

Lemma ty_reallocate i t : keeps (reallocate (E := E) i t).
Proof. intros g e H. unfold reallocate. ty. Qed.
Hint Resolve ty_reallocate : typed.

Lemma ty_disc_slot m i : keeps (disc_slot (E := E) m i).
Proof. intros g e H. unfold disc_slot. ty. Qed.
Hint Resolve ty_disc_slot : typed.

Lemma ty_unbind_of m i : keeps (unbind_of (E := E) m i).
Proof. intros g e H. unfold unbind_of. ty. Qed.
Hint Resolve ty_unbind_of : typed.

Lemma ty_disconnected m : keeps (disconnected (E := E) m).
Proof. intros g e H. unfold disconnected. ty. Qed.
Hint Resolve ty_disconnected : typed.

Lemma ty_disconnect m : keeps (sp_disconnect (E := E) m).
Proof. intros g e H. unfold sp_disconnect, rejoin. pose proof (ty_drop m g H). ty. Qed.
Hint Resolve ty_disconnect : typed.

Lemma ty_part_sysproc i t : keeps (part_sysproc (E := E) i t).
Proof. intros g e H. unfold part_sysproc. ty. Qed.
Hint Resolve ty_part_sysproc : typed.

Lemma ty_part_slot i : keeps (part_slot (E := E) i).
Proof. intros g e H. unfold part_slot. ty. Qed.
Hint Resolve ty_part_slot : typed.

Lemma ty_partitioned : keeps (partitioned (E := E)).
Proof. intros g e H. unfold partitioned. ty. Qed.
Hint Resolve ty_partitioned : typed.

Lemma ty_net_partition : keeps (sp_net_partition (E := E)).
Proof. intros g e H. unfold sp_net_partition, rejoin. ty. Qed.
Hint Resolve ty_net_partition : typed.

Lemma ty_merge_sysproc i m p : keeps (merge_sysproc (E := E) i m p).
Proof. intros g e H. unfold merge_sysproc. ty. Qed.
Hint Resolve ty_merge_sysproc : typed.

Lemma ty_merge_slot part i : keeps (merge_slot (E := E) part i).
Proof. intros g e H. unfold merge_slot. ty. Qed.
Hint Resolve ty_merge_slot : typed.

Lemma ty_merge_commit : keeps (merge_commit (E := E)).
Proof. intros g e H. unfold merge_commit. ty. Qed.
Hint Resolve ty_merge_commit : typed.

Lemma ty_merge_status sender bmi bmw part : keeps (sp_merge_status (E := E) sender bmi bmw part).
Proof. intros g e H. unfold sp_merge_status. ty. Qed.
Hint Resolve ty_merge_status : typed.

(** ** Notices, and the loop *)

Lemma ty_rmt_bind src nr ep : keeps (rmt_bind (E := E) src nr ep).
Proof. intros g e H. unfold rmt_bind. ty. Qed.
Hint Resolve ty_rmt_bind : typed.

Lemma ty_rmt_migrate src nr : keeps (rmt_migrate (E := E) src nr).
Proof. intros g e H. unfold rmt_migrate. ty. Qed.
Hint Resolve ty_rmt_migrate : typed.

Lemma ty_rmt_exit src nr ep : keeps (rmt_exit (E := E) src nr ep).
Proof. intros g e H. unfold rmt_exit. ty. Qed.
Hint Resolve ty_rmt_exit : typed.

Lemma ty_syscall src mtype nr ep : keeps (sp_syscall (E := E) src mtype nr ep).
Proof. intros g e H. unfold sp_syscall. ty. Qed.
Hint Resolve ty_syscall : typed.

Lemma ty_message sender m part : keeps (on_message (E := E) sender m part).
Proof. intros g e H. unfold on_message. ty. Qed.
Hint Resolve ty_message : typed.

Lemma ty_member mbr l h : (forall k, keeps (h k)) -> keeps (on_member (E := E) mbr l h).
Proof. intros Hh g e H. unfold on_member. ty. Qed.

Lemma ty_network l : keeps (on_network (E := E) l).
Proof. intros g e H. unfold on_network. ty. Qed.
Hint Resolve ty_network : typed.

Lemma ty_loop ev : keeps (slots_loop (E := E) ev).
Proof.
  intros g e H. destruct ev; cbn [slots_loop]; [by apply ty_message|apply ty_member..|by apply ty_network]; auto with typed.
Qed.

(** ** The slots thread *)

(** It takes an event; the kernel does what it likes meanwhile. *)
Inductive slots_step : sys * E -> sys * E -> Prop :=
| sl_event ev g e r g' e' e'' : slots_loop ev g e = Ok r g' e' -> slots_step (g, e) (g', e'').

Lemma ty_step x y : typed d n (fst x) -> slots_step x y -> typed d n (fst y).
Proof.
  intros H Hs. destruct Hs as [ev g e r g' e' e'' Hrun]. pose proof (ty_loop ev g e H) as Hp.
  unfold post in Hp. by rewrite Hrun in Hp.
Qed.

(** The globals of a system task are well formed for ever.  Starting from the
    globals that [init_slots] leaves over tables of the size of the DC, after any
    sequence of messages, joins, departures, partitions and merges that does not stop
    the member, whatever the kernel and Spread answer, both tables have one
    entry per slot, the node and the DC are the same, and the state of the
    machine is one of the five of [config.h], alone or with the merging bit; it
    is never [STS_MERGE_STATUS], which [sp_net_partition] tests for. *)
Theorem globals_typed g e g' e' :
  typed d n g -> rtc slots_step (init_global_vars g, e) (g', e') ->
  typed d n g' /\ FSM_state g' ≠ STS_MERGE_STATUS.
Proof.
  intros H Hr. assert (typed d n (fst (init_global_vars g, e))) as Hi by (cbn [fst]; ty_leaf).
  assert (typed d n (fst (g', e'))) as H'.
  { clear H. revert Hi. generalize (init_global_vars g, e) Hr. clear Hr. intros x Hr.
    induction Hr as [|x y z Hs _ IH]; [done|]. intros Hi. by eapply IH, ty_step. }
  split; [done|]. intros Hf. apply ty_fsm in H'. cbn [fst] in H'. rewrite Hf in H'.
  assert (bool_decide (STS_MERGE_STATUS ∈ fsm_states) = false) as Hn by (vm_compute; reflexivity).
  by apply bool_decide_eq_false in Hn.
Qed.
End Typed.
