(* ===== verification/SlotsFlow.v ===== *)
(** * What the handlers of the slots thread do

    The choice of the members, the answer to a request and the count of the
    slots; then the paths on which the thread stops or the tables go apart. *)

From S2P Require Import Prelude Types Endpoint Slots SlotsLogic SlotsGroup.
#[local] Open Scope Z_scope.

(** ** The next member *)

(** [r] is the first member of [bm] after [node], round the group of [nr]. *)
Definition next_after (nr bm node r : Z) : Prop :=
  exists k, 1 <= k <= nr /\ r = (node + k) mod nr /\ TEST_BIT bm r = true /\
    forall j, 1 <= j < k -> TEST_BIT bm ((node + j) mod nr) = false.

Lemma next_mbr_loop nr bm k node : 0 < nr ->
  (next_mbr nr bm k node = NO_NEXT_MBR /\
     forall j, 1 <= j <= Z.of_nat k -> TEST_BIT bm ((node + j) mod nr) = false) \/
  (exists i, 1 <= i <= Z.of_nat k /\ next_mbr nr bm k node = (node + i) mod nr /\
     TEST_BIT bm ((node + i) mod nr) = true /\
     forall j, 1 <= j < i -> TEST_BIT bm ((node + j) mod nr) = false).
Proof.
  intros Hnr. revert node. induction k as [|k IH]; intros node; cbn [next_mbr].
  - left. split; [done|]. lia.
  - destruct (TEST_BIT bm ((node + 1) mod nr)) eqn:Hb.
    + right. exists 1. split; [lia|]. split; [done|]. split; [done|]. lia.
    + assert (Hmod : forall j, ((node + 1) mod nr + j) mod nr = (node + (1 + j)) mod nr).
      { intros j. rewrite Zplus_mod_idemp_l. f_equal. lia. }
      destruct (IH ((node + 1) mod nr)) as [[-> Hno]|(i & Hi & -> & Hset & Hbefore)].
      * left. split; [done|]. intros j Hj. destruct (decide (j = 1)) as [->|]; [done|].
        rewrite <- (Hno (j - 1)) by lia. rewrite Hmod. do 3 f_equal. lia.
      * right. exists (1 + i). rewrite <- Hmod. split; [lia|]. split; [done|]. split; [done|].
        intros j Hj. destruct (decide (j = 1)) as [->|]; [done|].
        rewrite <- (Hbefore (j - 1)) by lia. rewrite Hmod. do 3 f_equal. lia.
Qed.

(** The search covers the whole group: it fails only if there is no member. *)
Lemma next_mbr_none nr bm node m :
  0 < nr -> 0 <= node < nr -> 0 <= m < nr ->
  next_mbr nr bm (Z.to_nat nr) node = NO_NEXT_MBR -> TEST_BIT bm m = false.
Proof.
  intros Hnr Hn Hm H. destruct (next_mbr_loop nr bm (Z.to_nat nr) node Hnr) as [[_ Hno]|(i & Hi & He & _)].
  - set (j := if m <=? node then m - node + nr else m - node).
    assert (Hj : 1 <= j <= nr) by (unfold j; destruct (Z.leb_spec m node); lia).
    rewrite <- (Hno j) by lia. f_equal. unfold j. destruct (Z.leb_spec m node).
    + replace (node + (m - node + nr)) with (m + 1 * nr) by lia. rewrite Z_mod_plus_full. by rewrite Z.mod_small.
    + replace (node + (m - node)) with m by lia. by rewrite Z.mod_small.
  - pose proof (Z.mod_pos_bound (node + i) nr Hnr). rewrite H in He. unfold NO_NEXT_MBR, NO_PRIMARY_MBR, LOCALNODE in He. lia.
Qed.

Lemma next_mbr_after nr bm node r :
  0 < nr -> next_mbr nr bm (Z.to_nat nr) node = r -> r <> NO_NEXT_MBR -> next_after nr bm node r.
Proof.
  intros Hnr <- Hne. destruct (next_mbr_loop nr bm (Z.to_nat nr) node Hnr) as [[? _]|(i & Hi & -> & Hs & Hb)]; [done|].
  exists i. split; [lia|]. by split_and!.
Qed.

Lemma next_after_other nr bm r m n :
  0 <= r < nr -> 0 <= m < nr -> m <> r -> TEST_BIT bm m = true -> next_after nr bm r n -> n <> r.
Proof.
  intros Hr Hm Hne Hb (k & Hk & -> & _ & Hfirst) He.
  assert (k = nr) as ->.
  { destruct (decide (k = nr)); [done|]. exfalso. destruct (Z.ltb_spec (r + k) nr).
    - rewrite Z.mod_small in He by lia. lia.
    - replace (r + k) with ((r + k - nr) + 1 * nr) in He by lia. rewrite Z_mod_plus_full, Z.mod_small in He by lia. lia. }
  specialize (Hfirst (if m <? r then m - r + nr else m - r)). destruct (Z.ltb_spec m r).
  - replace (r + (m - r + nr)) with (m + 1 * nr) in Hfirst by lia.
    rewrite Z_mod_plus_full, Z.mod_small in Hfirst by lia. rewrite Hfirst in Hb by lia. done.
  - replace (r + (m - r)) with m in Hfirst by lia. rewrite Z.mod_small in Hfirst by lia.
    rewrite Hfirst in Hb by lia. done.
Qed.

Lemma run_next {E} (node bm : Z) (g : sys) (e : E) :
  bm <> 0 -> 0 <= node < nr_nodes g ->
  get_next_mbr node bm g e = Ok (next_mbr (nr_nodes g) bm (Z.to_nat (nr_nodes g)) node) g e.
Proof.
  intros Hb Hn. unfold get_next_mbr. rewrite (proj2 (Z.eqb_neq _ _) Hb). unfold bind, globals.
  assert ((node =? NO_NEXT_MBR) = false) as -> by (apply Z.eqb_neq; unfold NO_NEXT_MBR, NO_PRIMARY_MBR, LOCALNODE; lia).
  by rewrite (proj2 (Z.leb_le _ _)), (proj2 (Z.ltb_lt _ _)) by lia.
Qed.

(** ** The slots of a member *)

(** How many of the [n] numbers from [i] on satisfy [P]. *)
Fixpoint count (P : Z -> bool) (n : nat) (i : Z) : Z :=
  match n with
  | O => 0
  | S n => (if P i then 1 else 0) + count P n (i + 1)
  end.

Lemma count_ext P Q n i :
  (forall j, i <= j < i + Z.of_nat n -> P j = Q j) -> count P n i = count Q n i.
Proof.
  revert i. induction n as [|n IH]; intros i H; cbn [count]; [done|].
  rewrite H by lia. f_equal. apply IH. intros j Hj. apply H. lia.
Qed.

Lemma count_pos P n i : 0 <= count P n i.
Proof. revert i. induction n as [|n IH]; intros i; cbn; [lia|]. specialize (IH (i + 1)). destruct (P i); lia. Qed.

(** A write to the mapped table changes that entry; a multicast changes none.
    The number of a process is its place in the table. *)
Class HostLaws (E : Type) `{!Host E} := {
  poke_same i f (e : E) :
    p_nr (f (proc_mapped e i)) = p_nr (proc_mapped e i) -> proc_mapped (poke i f e) i = f (proc_mapped e i);
  poke_other i j f (e : E) : i <> j -> proc_mapped (poke i f e) j = proc_mapped e j;
  mcast_mapped m (e : E) j : proc_mapped (snd (SP_multicast m e)) j = proc_mapped e j;
}.

Section Donation.
Context {E : Type} `{!Host E}.
Implicit Types (g : sys) (e : E).

Definition owns g (i : Z) : bool := bool_decide (owner_at g i = Some (local_nodeid g)).
Definition owns_free g e (i : Z) : bool := (p_rts_flags (proc_mapped e i) =? SLOT_FREE) && owns g i.

(** The counters of the globals are the numbers of slots. *)
Definition counted g e : Prop :=
  owned_slots g = count (owns g) (Z.to_nat (nr_slots g - nr_sysprocs g)) (nr_sysprocs g) /\
  free_slots g = count (owns_free g e) (Z.to_nat (nr_slots g - nr_sysprocs g)) (nr_sysprocs g).

(** The search for slots never leaves the table. *)
Lemma donate_runs n i r left g e :
  0 <= i -> i + Z.of_nat n <= Z.of_nat (length (slot g)) ->
  exists l g' e', donate n i r left g e = Ok l g' e'.
Proof.
  revert i left g e. induction n as [|n IH]; intros i left g e Hi Hn; cbn [donate]; [by eauto|].
  destruct (left <=? 0); [by eexists _, _, _|]. unfold bind at 1, PROC_MAPPED at 1. unfold bind at 1.
  destruct (lookup_lt_is_Some_2 (slot g) (Z.to_nat i)) as [t Ht]; [lia|].
  assert (Hrd : rd_slot i g e = Ok t g e).
  { unfold rd_slot, rd_in. rewrite (proj2 (Z.ltb_ge _ _)) by lia. by rewrite Ht. }
  rewrite Hrd. unfold bind at 1, globals at 1. destruct (_ && _).
  - unfold bind at 1, upd at 1. unfold bind at 1, proc_poke at 1.
    unfold bind at 1, wr_slot at 1, rd_slot, rd_in, bind at 1. cbn [slot upd_field].
    rewrite (proj2 (Z.ltb_ge _ _)) by lia. cbn. rewrite Ht. unfold upd. unfold bind at 1.
    match goal with |- context [donate n (i + 1) r (left - 1) ?g1 ?e1] =>
      destruct (IH (i + 1) (left - 1) g1 e1) as (l & g' & e' & ->) end.
    + lia.
    + cbn. rewrite length_insert. lia.
    + by eexists _, _, _.
  - destruct (IH (i + 1) left g e) as (l & g' & e' & ->); [lia..|]. by eexists _, _, _.
Qed.

Lemma owns_wr g i j t :
  0 <= i -> 0 <= j -> i <> j -> owns (g <| slot ::= <[Z.to_nat i := t]> |>) j = owns g j.
Proof. intros. unfold owns. by rewrite owner_wr_ne. Qed.

Lemma free_with_no_map : (SET_BIT SLOT_FREE BIT_NO_MAP =? SLOT_FREE) = false.
Proof. vm_compute. reflexivity. Qed.

(** The donation takes as many slots as it is asked for, if there are as many,
    and counts them out. *)
Lemma donate_counts `{!HostLaws E} n i r left g e :
  0 <= i -> r <> local_nodeid g ->
  post (donate n i r left) (fun l g' e' =>
    Z.of_nat (length l) = Z.min (Z.max 0 left) (count (owns_free g e) n i) /\
    free_slots g' = free_slots g - Z.of_nat (length l) /\
    owned_slots g' = owned_slots g - Z.of_nat (length l) /\
    free_slots_low g' = free_slots_low g /\
    count (owns g') n i = count (owns g) n i - Z.of_nat (length l) /\
    count (owns_free g' e') n i = count (owns_free g e) n i - Z.of_nat (length l) /\
    Forall (fun j => owns_free g e j = true) l /\ NoDup l /\
    forall j, j < i -> proc_mapped e' j = proc_mapped e j) g e.
Proof.
  revert i left g e. induction n as [|n IH]; intros i left g e Hi Hr; cbn [donate].
  { p. split_and!; cbn; first [lia | done | constructor]. }
  p_step.
  { apply Z.leb_le in Heqb. p. pose proof (count_pos (owns_free g e) (S n) i). cbn [length Z.of_nat].
    split_and!; first [lia | done | constructor]. }
  apply Z.leb_gt in Heqb. do 7 p_step.
  - repeat p_step. apply andb_true_iff in Heqb0 as [Hf0 Ho0%Z.eqb_eq].
    assert (Hown : owns g i = true) by (apply bool_decide_eq_true; unfold owner_at; rewrite H0; cbn; congruence).
    match goal with |- post _ _ ?g1 ?e1 => set (gg := g1); set (ee := e1) end.
    eapply post_mono; [apply post_and; [apply (IH (i + 1) (left - 1) gg ee); [lia|done]|apply donate_spec; lia]|].
    cbn beta. intros l g' e' ((Hlen & Hf & Ho & Hlow & Hc & Hcf & Hl & Hnd & He) & (Hs & _ & Hin & Hn) & _). p.
    assert (Hw : forall j, i + 1 <= j -> owns gg j = owns g j).
    { intros j Hj. unfold gg. by rewrite owns_wr by lia. }
    assert (Hwf : forall j, i + 1 <= j -> owns_free gg ee j = owns_free g e j).
    { intros j Hj. unfold owns_free. rewrite Hw by lia. unfold ee. by rewrite poke_other by lia. }
    rewrite (count_ext (owns gg) (owns g)) in Hc by (intros; apply Hw; lia).
    rewrite (count_ext (owns_free gg ee) (owns_free g e)) in Hlen, Hcf by (intros; apply Hwf; lia).
    assert (Hi' : owns g' i = false).
    { apply bool_decide_eq_false. rewrite Hn by (lia || (intros Hil; destruct (Hin i Hil); lia)).
      unfold gg. rewrite (owner_wr _ _ _ _ H2). cbn [s_owner upd_field]. rewrite (sm_local _ _ Hs).
      cbn. congruence. }
    assert (Hfree : owns_free g e i = true) by (unfold owns_free; by rewrite Hf0, Hown).
    assert (Hfree' : owns_free g' e' i = false) by (unfold owns_free; by rewrite Hi', andb_false_r).
    cbn [count]. rewrite Hown, Hi', Hfree, Hfree'. cbn [length]. unfold gg in Hf, Ho, Hlow. cbn in Hf, Ho, Hlow.
    rewrite list.Forall_forall in Hl. split_and!; try lia.
    3: intros j Hj; rewrite He by lia; unfold ee; by rewrite poke_other by lia.
    2: constructor; [intros Hil; destruct (Hin i Hil); lia|done].
    + constructor; [done|]. apply list.Forall_forall. intros j Hj. rewrite <- Hwf; [by apply Hl|]. by apply Hin.
  - eapply post_mono; [apply post_and; [apply (IH (i + 1) left); [lia|done]|apply donate_spec; lia]|]. cbn beta.
    intros l g' e' ((Hlen & Hf & Ho & Hlow & Hc & Hcf & Hl & Hnd & He) & (Hs & _ & Hin & Hn) & _).
    assert (Hi' : owns g' i = owns g i).
    { unfold owns. rewrite (sm_local _ _ Hs). rewrite Hn; [done|lia|].
      intros Hil. destruct (Hin i Hil). lia. }
    assert (Hx : owns_free g e i = false).
    { unfold owns_free, owns, owner_at. rewrite H0. cbn.
      destruct (_ =? SLOT_FREE); [|done]. cbn in *. apply bool_decide_eq_false. apply Z.eqb_neq in Heqb0. congruence. }
    assert (Hx' : owns_free g' e' i = false) by (rewrite <- Hx; unfold owns_free; by rewrite Hi', He by lia).
    cbn [count]. rewrite Hi', Hx, Hx'. split_and!; try lia; [done|done|]. intros j Hj. apply He. lia.
Qed.

(** A member that may answer a request of [r]. *)
Record may_answer g (r : Z) : Prop := {
  ma_init : TEST_BIT (FSM_state g) BIT_INITIALIZED = true;
  ma_other : r <> local_nodeid g;
  ma_member : TEST_BIT (bm_init g) r = true;
  ma_range : 0 <= r < nr_nodes g;
  ma_sys : 0 < nr_sysprocs g <= nr_slots g;
  ma_table : Z.of_nat (length (slot g)) = nr_slots g;
}.

Definition capped (k : Z) : Z := if k >? SLOTS_BY_MSG then SLOTS_BY_MSG else k.

Lemma capped_le k : capped k <= SLOTS_BY_MSG.
Proof. unfold capped, SLOTS_BY_MSG. rewrite Z.gtb_ltb. destruct (Z.ltb_spec 4 k); lia. Qed.

Lemma run_mcast `{!Reliable E} m g e :
  mcast m g e = Ok (fst (SP_multicast m e)) (g <| out ::= fun l => l ++ [A_MCAST m] |>) (snd (SP_multicast m e)).
Proof.
  unfold mcast, bind, calls. pose proof (reliable m e) as H. destruct (SP_multicast m e) as [r e']. cbn [fst snd] in *.
  unfold only_if. by rewrite (proj2 (Z.leb_le _ _) H).
Qed.

Lemma run_send_donation `{!Reliable E} r k g e :
  may_answer g r ->
  exists l g1 e1 rc e',
    donate (Z.to_nat (nr_slots g - nr_sysprocs g)) (nr_sysprocs g) r (capped k) g e = Ok l g1 e1 /\
    e' = snd (SP_multicast (M_DON_SLOTS (local_nodeid g) r (capped k) (mA_ia l)) e1) /\
    send_donation r k g e = Ok rc
      (g1 <| out ::= fun o => o ++ [A_MCAST (M_DON_SLOTS (local_nodeid g) r (capped k) (mA_ia l))] |>) e'.
Proof.
  intros [_ _ _ _ Hsys Htab].
  destruct (donate_runs (Z.to_nat (nr_slots g - nr_sysprocs g)) (nr_sysprocs g) r (capped k) g e)
    as (l & g1 & e1 & Hd); [lia|lia|].
  exists l, g1, e1, (fst (SP_multicast (M_DON_SLOTS (local_nodeid g) r (capped k) (mA_ia l)) e1)),
    (snd (SP_multicast (M_DON_SLOTS (local_nodeid g) r (capped k) (mA_ia l)) e1)).
  split; [exact Hd|]. split; [done|]. unfold send_donation, bind, globals. fold (capped k). rewrite Hd.
  by rewrite run_mcast.
Qed.

Lemma bitmap_nonzero bm r : TEST_BIT bm r = true -> bm <> 0.
Proof. apply test_bit_nonzero. Qed.

(** The member next to the requester goes through with the reply. *)
Lemma run_answer_next r k g e :
  may_answer g r -> next_mbr (nr_nodes g) (bm_init g) (Z.to_nat (nr_nodes g)) r = local_nodeid g ->
  answer_request r k g e = send_donation r k g e.
Proof.
  intros Hma Hnext. unfold answer_request. unfold bind at 1, globals at 1. unfold bind at 1.
  destruct (_ && _).
  - rewrite run_next; [|by eapply bitmap_nonzero, ma_member|by apply Hma].
    rewrite Hnext, Z.eqb_refl. done.
  - cbn. by rewrite Z.eqb_refl.
Qed.

Lemma run_answer_some r k g e :
  k <> 0 -> answer_request r k g e = send_donation r k g e.
Proof.
  intros Hk. unfold answer_request, bind at 1, globals at 1. unfold bind at 1.
  rewrite (proj2 (Z.eqb_neq _ _) Hk). cbn. by rewrite Z.eqb_refl.
Qed.

Lemma run_req_donor r need g e :
  may_answer g r -> bm_donors g = 0 -> 1 < init_nodes g ->
  sp_req_slots r need g e = answer_request r (donation g need) g e.
Proof.
  intros [Hi Ho Hm _ _ _] Hd Hn. unfold sp_req_slots. unfold bind at 1, globals at 1.
  rewrite Hi, (proj2 (Z.eqb_neq _ _) Ho), Hm, Hd. cbn. unfold bind at 1, assert_.
  by rewrite (proj2 (Z.ltb_lt 0 (init_nodes g - 1))) by lia.
Qed.

Lemma run_req_requester r need g e :
  may_answer g r -> bm_donors g <> 0 ->
  next_mbr (nr_nodes g) (bm_init g) (Z.to_nat (nr_nodes g)) r = local_nodeid g ->
  sp_req_slots r need g e = answer_request r 0 g e.
Proof.
  intros Hma Hd Hnext. destruct Hma as [Hi Ho Hm Hr _ _]. unfold sp_req_slots, bind at 1, globals at 1.
  rewrite Hi, (proj2 (Z.eqb_neq _ _) Ho), Hm, (proj2 (Z.eqb_neq _ _) Hd). cbn [negb]. unfold bind at 1, assert_, ret at 1.
  unfold bind at 1. destruct (TEST_BIT (bm_donors g) r).
  - rewrite run_next; [|by eapply bitmap_nonzero|done]. by rewrite Hnext, Z.eqb_refl.
  - cbn. by rewrite Z.eqb_refl.
Qed.

(** What a donation of [k] slots leaves, and what it sends. *)
Definition donated_to g e (r k : Z) (l : list Z) g' e' : Prop :=
  Z.of_nat (length l) = k /\ NoDup l /\ Forall (fun j => owns_free g e j = true) l /\
  (exists ia, take (length l) ia = l /\ out g' = out g ++ [A_MCAST (M_DON_SLOTS (local_nodeid g) r k ia)]) /\
  (forall j, user (s_dc g) j -> owner_at g' j = if bool_decide (j ∈ l) then Some r else owner_at g j) /\
  counted g' e'.

Lemma take_mA_ia (l : list Z) : (length l <= 4)%nat -> take (length l) (mA_ia l) = l.
Proof. intros H. unfold mA_ia. rewrite take_take, Nat.min_l by done. by rewrite take_app_length. Qed.

(** A message changes no counter and no slot. *)
Lemma counted_mcast `{!HostLaws E} m g e (f : list action -> list action) :
  counted g e -> counted (g <| out ::= f |>) (snd (SP_multicast m e)).
Proof.
  intros [Ho Hf]. split; [exact Ho|]. change (free_slots (g <| out ::= f |>)) with (free_slots g). rewrite Hf.
  apply count_ext. intros j _. unfold owns_free. by rewrite mcast_mapped.
Qed.

(** The slots are there, if the counters are right and at least as many are free. *)
Lemma run_send_exact `{!HostLaws E} `{!Reliable E} r k g e :
  may_answer g r -> counted g e -> 0 <= k <= free_slots g -> k <= SLOTS_BY_MSG ->
  exists rc l g' e', send_donation r k g e = Ok rc g' e' /\ donated_to g e r k l g' e' /\
    free_slots g' = free_slots g - k /\ free_slots_low g' = free_slots_low g.
Proof.
  intros Hma [Hco Hcf] Hk Hk4. destruct (run_send_donation r k g e Hma) as (l & g1 & e1 & rc & e' & Hd & He' & Hs).
  assert (Hcap : capped k = k) by (unfold capped; rewrite Z.gtb_ltb; by rewrite (proj2 (Z.ltb_ge _ _)) by lia).
  rewrite Hcap in *. pose proof (ma_sys _ _ Hma) as Hsys.
  pose proof (donate_counts (Z.to_nat (nr_slots g - nr_sysprocs g)) (nr_sysprocs g) r k g e) as Hp.
  pose proof (donate_spec (Z.to_nat (nr_slots g - nr_sysprocs g)) (nr_sysprocs g) r k g e) as Hq.
  unfold post in Hp, Hq. rewrite Hd in Hp, Hq.
  destruct Hp as (Hlen & Hf & Ho & Hlow & Hc & Hcf' & Hl & Hnd & _); [lia|by apply Hma|].
  destruct Hq as ((Hsm & Hout & Hin & Hn) & _); [lia|]. rewrite <- Hcf in Hlen.
  assert (Hlk : Z.of_nat (length l) = k) by lia.
  eexists rc, l, _, e'. split; [exact Hs|]. split; [|cbn; split; [lia|done]].
  split; [done|]. split; [done|]. split; [done|]. split; [|split].
  - exists (mA_ia l). split; [apply take_mA_ia; unfold SLOTS_BY_MSG in Hk4; lia|by cbn; rewrite Hout].
  - intros j Hj. change (owner_at (g1 <| out ::= _ |>) j) with (owner_at g1 j).
    case_bool_decide as Hjl; [by destruct (Hin j Hjl) as (_ & _ & ?)|]. apply Hn; [|done].
    destruct Hj. unfold nr_sysprocs in Hsys. lia.
  - subst e'. apply counted_mcast. unfold counted, nr_slots, nr_sysprocs in *. rewrite (sm_dc _ _ Hsm). lia.
Qed.

Lemma donation_le g need : donation g need <= Z.max 0 (free_slots g - free_slots_low g).
Proof. unfold donation. destruct (Z.leb_spec (free_slots g - free_slots_low g) 0); lia. Qed.

Lemma capped_min k : capped k = Z.min SLOTS_BY_MSG k.
Proof. unfold capped, SLOTS_BY_MSG. rewrite Z.gtb_ltb. destruct (Z.ltb_spec 4 k); lia. Qed.

Lemma send_capped r k : send_donation r k = send_donation (E := E) r (capped k).
Proof.
  unfold send_donation. fold (capped k) (capped (capped k)).
  by replace (capped (capped k)) with (capped k) by (rewrite !capped_min; lia).
Qed.

(** C12. A donation is exact.  An initialised member that requests no slots itself
    ([bm_donors] is 0), counts another initialised member, has free slots over its reserve and counts them right answers the request of
    another member with one message: it gives the smaller of four and of its
    part of what is needed, all of them different slots of user processes, free
    and its own; the message lists these and no other slot changes hands.  The
    counters of owned and free slots are exact afterwards, and the reserve is
    whole. *)
Theorem donation_exact `{!HostLaws E} `{!Reliable E} r need g e :
  may_answer g r -> counted g e -> bm_donors g = 0 -> 1 < init_nodes g -> 0 <= free_slots_low g ->
  0 < donation g need ->
  exists rc l g' e', sp_req_slots r need g e = Ok rc g' e' /\
    donated_to g e r (Z.min SLOTS_BY_MSG (donation g need)) l g' e' /\
    free_slots_low g' <= free_slots g'.
Proof.
  intros Hma Hc Hd Hn Hlow Hpos. rewrite run_req_donor, run_answer_some, send_capped by (done || lia).
  pose proof (donation_le g need) as Hle. rewrite <- capped_min.
  pose proof (capped_min (donation g need)) as Hcap. unfold SLOTS_BY_MSG in Hcap.
  destruct (run_send_exact r (capped (donation g need)) g e Hma Hc) as (rc & l & g' & e' & Hrun & Hto & Hf & Hl);
    [lia|apply capped_le|]. exists rc, l, g', e'. split; [done|]. split; [done|]. lia.
Qed.

(** One message, a donation for [r], and what it says it carries. *)
Definition replied g (r k : Z) (o : outcome E Z) : Prop :=
  exists rc ia g' e', o = Ok rc g' e' /\
    out g' = out g ++ [A_MCAST (M_DON_SLOTS (local_nodeid g) r k ia)].

Lemma run_replies `{!Reliable E} r k g e :
  may_answer g r -> replied g r (capped k) (send_donation r k g e).
Proof.
  intros Hma. destruct (run_send_donation r k g e Hma) as (l & g1 & e1 & rc & e' & Hd & _ & Hs).
  pose proof (donate_spec (Z.to_nat (nr_slots g - nr_sysprocs g)) (nr_sysprocs g) r (capped k) g e) as Hq.
  unfold post in Hq. rewrite Hd in Hq. pose proof (ma_sys _ _ Hma).
  destruct Hq as ((_ & Hout & _) & _); [lia|]. eexists rc, _, _, e'. split; [exact Hs|]. cbn. by rewrite Hout.
Qed.

(** A member that does not ask for slots and counts no other member stops. *)
Lemma run_req_alone r need g e :
  may_answer g r -> bm_donors g = 0 -> init_nodes g <= 1 ->
  sp_req_slots r need g e = Stop S_ASSERT g e.
Proof.
  intros [Hi Ho Hm _ _ _] Hd Hn. unfold sp_req_slots. unfold bind at 1, globals at 1.
  rewrite Hi, (proj2 (Z.eqb_neq _ _) Ho), Hm, Hd. cbn. unfold bind at 1, assert_.
  by rewrite (proj2 (Z.ltb_ge 0 (init_nodes g - 1))) by lia.
Qed.

(** C13. Who answers a request.  For every requester of a group with another member
    in the bitmap of the initialised ones there is one of them next to it, the first
    round the group.  When that member is initialised, has a table of all the slots and
    has the requester in its bitmap, it takes the request by multicasting exactly one
    donation for the requester, whether it has slots to give or not: of no slots if it
    requests itself.  The one exception is a member that does not request itself and
    counts no initialised member but one, as one that took a status before its own does
    not count the member of it: the assertion on the number of donors stops it. *)
Theorem request_is_answered `{!Reliable E} r need m bm nr :
  0 <= r < nr -> 0 <= m < nr -> m <> r -> TEST_BIT bm m = true ->
  exists n, n <> r /\ next_after nr bm r n /\
    forall g e, may_answer g r -> bm_init g = bm -> nr_nodes g = nr -> local_nodeid g = n ->
      if (bm_donors g =? 0) && (init_nodes g <=? 1) then sp_req_slots r need g e = Stop S_ASSERT g e
      else replied g r (if bm_donors g =? 0 then capped (donation g need) else 0) (sp_req_slots r need g e).
Proof.
  intros Hr Hm Hne Hb. assert (Hnr : 0 < nr) by lia.
  assert (Hsome : next_mbr nr bm (Z.to_nat nr) r <> NO_NEXT_MBR).
  { intros H. pose proof (next_mbr_none nr bm r m Hnr Hr Hm H). congruence. }
  pose proof (next_mbr_after nr bm r _ Hnr eq_refl Hsome) as Hafter.
  exists (next_mbr nr bm (Z.to_nat nr) r). split; [|split; [done|]].
  - apply (next_after_other _ _ _ m) in Hafter; done.
  - intros g e Hma <- <- Hloc. destruct (Z.eqb_spec (bm_donors g) 0) as [Hd|Hd]; cbn [andb].
    + destruct (Z.leb_spec (init_nodes g) 1) as [Hi|Hi]; [by apply run_req_alone|].
      rewrite run_req_donor, run_answer_next by auto. by apply run_replies.
    + rewrite run_req_requester, run_answer_next by auto. exact (run_replies r 0 g e Hma).
Qed.
End Donation.
