(* ===== verification/SlotsFaults.v ===== *)
(** * Where the slots thread fails

    Paths of the handlers on which the slots thread writes through a pointer that
    was never set, refuses what it should take, or starts again when it should
    go on; and the name of a member, which is read back right. *)

From S2P Require Import Prelude Types Endpoint Slots SlotsLogic SlotsGroup SlotsFlow.
#[local] Open Scope Z_scope.

Section Faults.
Context {E : Type} `{!Host E}.
Implicit Types (g : sys) (e : E).

(** ** Donations *)

(** A member that is not the donor goes through the whole list. *)
Lemma run_don_loop n j src d ia g e :
  0 <= j -> src <> local_nodeid g -> (Z.to_nat j + n <= length ia)%nat -> Forall (in_table g) ia ->
  exists g' e', don_loop n j src d ia g e = Ok false g' e'.
Proof.
  revert j g e. induction n as [|n IH]; intros j g e Hj Hne Hn Hia; cbn [don_loop]; [by eexists _, _|].
  destruct (lookup_lt_is_Some_2 ia (Z.to_nat j)) as [i Hi]; [lia|]. rewrite Hi.
  assert (Hin : in_table g i) by (by eapply list.Forall_lookup_1).
  unfold bind at 1, globals at 1. unfold bind at 1.
  destruct (run_wr_slot i (fun t => t <| s_owner := d |>) g e Hin) as (t & Ht & ->).
  rewrite (proj2 (Z.eqb_neq _ _) Hne). apply IH; [lia|done|lia|].
  eapply list.Forall_impl; [exact Hia|]. intros k. apply in_table_same. cbn. by rewrite length_insert.
Qed.

(** ** The reply of no slots *)

Lemma donation_none g need : free_slots g <= free_slots_low g -> donation g need = 0.
Proof. intros H. unfold donation. by rewrite (proj2 (Z.leb_le _ _)) by lia. Qed.

(** A member with nothing to give that is not next to the requester puts the
    reply off. *)
Lemma run_put_off r need g e :
  may_answer g r -> bm_donors g = 0 -> 1 < init_nodes g -> free_slots g <= free_slots_low g ->
  TEST_BIT (bm_pending g) r = false ->
  next_mbr (nr_nodes g) (bm_init g) (Z.to_nat (nr_nodes g)) r <> local_nodeid g ->
  sp_req_slots r need g e = Ok OK (g <| bm_pending ::= fun b => SET_BIT b r |>) e.
Proof.
  intros Hma Hd Hn Hf Hp Hnext. rewrite run_req_donor, donation_none by done.
  unfold answer_request, bind at 1, globals at 1. rewrite Hp. cbn [negb andb Z.eqb]. unfold bind at 1.
  rewrite run_next; [|by eapply bitmap_nonzero, ma_member|by apply Hma].
  by rewrite (proj2 (Z.eqb_neq _ _) Hnext).
Qed.

Lemma run_put_off_reply src dst nr ia g e :
  TEST_BIT (FSM_state g) BIT_INITIALIZED = true -> src <> local_nodeid g -> dst <> local_nodeid g ->
  TEST_BIT (bm_init g) src = true -> TEST_BIT (bm_init g) dst = true ->
  TEST_BIT (bm_pending g) dst = true ->
  (Z.to_nat nr <= length ia)%nat -> Forall (in_table g) ia ->
  exists g' e', sp_don_slots src dst nr ia g e = Stop S_WILD g' e'.
Proof.
  intros Hi Hs Hd His Hid Hp Hn Hia. unfold sp_don_slots, bind at 1, globals at 1.
  rewrite Hid, His. unfold assert_. do 3 unfold bind at 1. unfold ret at 1 2.
  destruct (run_don_loop (Z.to_nat nr) 0 src dst ia g e) as (g' & e' & ->); [lia|done|lia|done|].
  rewrite Hi, (proj2 (Z.eqb_neq _ _) Hs), (proj2 (Z.eqb_neq _ _) Hd), Hp. by eexists _, _.
Qed.

Lemma set_test_bit bm k : TEST_BIT (SET_BIT bm k) k = true.
Proof. apply test_set_same. pose proof (Z.mod_pos_bound k 32). lia. Qed.

(** C39. A member is lost in a group of three or more.  A member with no slots over
    its reserve that is not next to the requester takes the request by putting
    its reply off; when it then takes the first donation another member makes to
    that requester, with slots of the table in it or with none, it sends the
    reply through [spout_ptr], which [sp_don_slots] never set. *)
Theorem put_off_reply_wild r need src nr ia g e :
  may_answer g r -> bm_donors g = 0 -> 1 < init_nodes g -> free_slots g <= free_slots_low g ->
  TEST_BIT (bm_pending g) r = false ->
  next_mbr (nr_nodes g) (bm_init g) (Z.to_nat (nr_nodes g)) r <> local_nodeid g ->
  src <> local_nodeid g -> TEST_BIT (bm_init g) src = true ->
  (Z.to_nat nr <= length ia)%nat -> Forall (in_table g) ia ->
  exists g1, sp_req_slots r need g e = Ok OK g1 e /\ out g1 = out g /\
    exists g2 e2, sp_don_slots src r nr ia g1 e = Stop S_WILD g2 e2.
Proof.
  intros Hma Hd Hn Hf Hp Hnext Hs His Hlen Hia. eexists. split; [by apply run_put_off|]. split; [done|].
  apply run_put_off_reply; cbn; try done; [by apply Hma..|apply set_test_bit].
Qed.

(** ** The merge of two partitions *)

Lemma run_status_slot i g e :
  in_table g i -> exists t, status_slot i g e = Ok tt (g <| slot ::= <[Z.to_nat i := t]> |>) e.
Proof.
  intros Hi. unfold status_slot, bind at 1, PROC_MAPPED. destruct (negb _);
    (lazymatch goal with |- context [wr_slot _ ?f _ _] => destruct (run_wr_slot i f g e Hi) as (t & _ & ->) end; by eexists).
Qed.

Lemma run_status_slots n i g e :
  0 <= i -> i + Z.of_nat n <= Z.of_nat (length (slot g)) ->
  exists l, length l = length (slot g) /\
    for_upto n i status_slot g e = Ok tt (g <| slot := l |>) e.
Proof.
  revert i g. induction n as [|n IH]; intros i g Hi Hn; cbn [for_upto].
  { exists (slot g). split; [done|]. by destruct g. }
  destruct (run_status_slot i g e) as (t & Ht); [split; lia|]. unfold bind at 1. rewrite Ht.
  destruct (IH (i + 1) (g <| slot ::= <[Z.to_nat i := t]> |>)) as (l & Hl & ->); [lia|cbn; rewrite length_insert; lia|].
  exists l. split; [|done]. rewrite Hl. cbn. by rewrite length_insert.
Qed.

Lemma run_status_info `{!Reliable E} dest mtype part g e :
  nr_sysprocs g <= Z.of_nat (length (slot g)) ->
  exists l rc e', let m := M_STATUS mtype (local_nodeid g) dest (bm_init g) (bm_waitsts g) (s_dc g) (default l part) in
    mcast_status_info dest mtype part g e =
      Ok rc (g <| slot := l |> <| out ::= fun o => o ++ [A_MCAST m] |>) e'.
Proof.
  intros Hs. unfold mcast_status_info, bind at 1, globals at 1. unfold bind at 1.
  destruct (run_status_slots (Z.to_nat (nr_sysprocs g)) 0 g e) as (l & _ & ->); [lia|lia|].
  unfold bind, globals. rewrite run_mcast. cbn. by eexists l, _, _.
Qed.

Lemma set_bit_keeps bm i k : TEST_BIT bm i = true -> TEST_BIT (SET_BIT bm k) i = true.
Proof.
  unfold TEST_BIT, SET_BIT. intros H. pose proof (Z.mod_pos_bound k 32). pose proof (Z.mod_pos_bound i 32).
  destruct (decide (k mod 32 = i mod 32)) as [->|]; [apply test_set_same; lia|].
  by rewrite test_set_other by lia.
Qed.

Lemma run_own_status sender bmi bmw part g e :
  TEST_BIT (FSM_state g) BIT_MERGING = true -> TEST_BIT (bm_init g) sender = true -> 0 < nr_slots g ->
  sp_merge_status sender bmi bmw part g e = Stop S_WILD g e.
Proof.
  intros Hm Hb Hn. unfold sp_merge_status, bind at 1, globals. by rewrite Hm, Hb, (proj2 (Z.ltb_lt _ _) Hn).
Qed.

Lemma net_merge_start g h :
  h = copy_to_mrg (g <| bm_donors := 0 |> <| bm_pending := 0 |>
                     <| FSM_state ::= fun f => SET_BIT f BIT_MERGING |>) ->
  TEST_BIT (FSM_state g) BIT_RUNNING = true ->
  TEST_BIT (FSM_state h) BIT_RUNNING = true /\ TEST_BIT (FSM_state h) BIT_MERGING = true /\
    bm_init h = bm_init g /\ local_nodeid h = local_nodeid g /\ primary_mbr h = primary_mbr g /\
    s_dc h = s_dc g /\ slot h = slot g /\ out h = out g.
Proof.
  intros -> Hr. split; [exact (set_bit_keeps _ _ BIT_MERGING Hr)|]. split; [exact (set_test_bit (FSM_state g) BIT_MERGING)|].
  by split_and!.
Qed.

(** The primary of a partition does not survive a merge.  When two partitions
    of a running group meet, the primary of each multicasts its table to the
    group; a member takes its own messages as those of any other, and on its
    own [SYS_MERGE_STATUS] the primary looks for pending slots through [spm],
    which is set only while the table of another partition is copied. *)
Theorem merge_own_status_wild `{!Reliable E} part g e :
  TEST_BIT (FSM_state g) BIT_RUNNING = true -> primary_mbr g = local_nodeid g ->
  TEST_BIT (bm_init g) (local_nodeid g) = true -> 0 < nr_slots g ->
  nr_sysprocs g <= Z.of_nat (length (slot g)) ->
  exists m g1 e1, sp_net_merge g e = Ok OK g1 e1 /\ out g1 = out g ++ [A_MCAST m] /\
    msource m = local_nodeid g /\ on_message (msource m) m part g1 e1 = Stop S_WILD g1 e1.
Proof.
  intros Hr Hp Hb Hn Hs. unfold sp_net_merge. rewrite !run_upd, run_globals. cbv beta. set (h := copy_to_mrg _).
  pose proof (net_merge_start g h eq_refl Hr) as Hh.
  clearbody h. destruct Hh as (Hr' & Hm' & Hb' & Hl' & Hp' & Hd' & Hs' & Ho'). rewrite Hr', Hp', Hp, Hl', Z.eqb_refl.
  cbn [negb]. rewrite run_upd. set (k := h <| total_slots := _ |>).
  assert (Hk : bm_init k = bm_init g /\ local_nodeid k = local_nodeid g /\ s_dc k = s_dc g /\ slot k = slot g /\
    out k = out g /\ FSM_state k = FSM_state h) by (by unfold k).
  clearbody k. destruct Hk as (Kb & Kl & Kd & Ks & Ko & Kf).
  destruct (run_status_info ANY SYS_MERGE_STATUS (Some (partition_table h)) k e) as (l & rc & e1 & Hrun);
    [unfold nr_sysprocs in *; by rewrite Kd, Ks|].
  cbv zeta in Hrun. rewrite (run_then _ _ _ _ _ _ _ Hrun). eexists _, _, _. split; [reflexivity|].
  split; [by rewrite <- Ko|]. split; [exact Kl|].
  cbn [on_message msource]. change (SYS_MERGE_STATUS =? SYS_PUT_STATUS) with false.
  rewrite Z.eqb_refl. apply run_own_status; unfold nr_slots in *; cbn; by rewrite ?Kf, ?Kb, ?Kl, ?Kd.
Qed.

(** ** Notices of forks *)

(** No fork of a user process gets to the other nodes.  An initialised member
    refuses the [MOLFORK] and the [MOLEXEC] of every user process with
    [EMOLBADOWNER] and does nothing, also when the node that sends it is the
    owner of the slot. *)
Theorem fork_refused source nr ep mtype g e :
  TEST_BIT (FSM_state g) BIT_INITIALIZED = true -> source <> local_nodeid g ->
  nr_sysprocs g <= nr + dc_nr_tasks (s_dc g) -> in_table g (nr + dc_nr_tasks (s_dc g)) ->
  mtype = MOLFORK \/ mtype = MOLEXEC ->
  sp_syscall source mtype nr ep g e = Ok EMOLBADOWNER g e.
Proof.
  intros Hi Hs Hu Hin Hm. unfold sp_syscall, bind at 1, globals at 1. rewrite Hi, (proj2 (Z.eqb_neq _ _) Hs).
  cbn [negb]. assert (Hge : (nr + dc_nr_tasks (s_dc g) >=? nr_sysprocs g) = true) by (apply Z.geb_le; lia).
  destruct (run_rd_slot _ g e Hin) as (t & _ & Hrd).
  destruct Hm as [->| ->]; cbn [Z.eqb Pos.eqb MOLFORK MOLEXEC MOLBINDPROC]; rewrite Hge; unfold bind; by rewrite Hrd.
Qed.

(** A process that migrates is bound nowhere else.  An initialised member that
    is told that a bound process migrated to [source] changes the owner of its
    slot and leaves the process where it was: no call to the kernel is made. *)
Theorem migration_not_applied source nr ep g e :
  TEST_BIT (FSM_state g) BIT_INITIALIZED = true -> source <> local_nodeid g ->
  in_table g (nr + dc_nr_tasks (s_dc g)) ->
  p_rts_flags (proc_mapped e (nr + dc_nr_tasks (s_dc g))) <> SLOT_FREE ->
  exists rc g', sp_syscall source MOLMIGRPROC nr ep g e = Ok rc g' e /\
    owner_at g' (nr + dc_nr_tasks (s_dc g)) = Some source.
Proof.
  intros Hi Hs Hin Hf. unfold sp_syscall, bind at 1, globals at 1. rewrite Hi, (proj2 (Z.eqb_neq _ _) Hs).
  cbn [negb Z.eqb Pos.eqb MOLFORK MOLEXEC MOLBINDPROC MOLMIGRPROC]. unfold rmt_migrate, bind at 1, globals at 1.
  unfold bind at 1. destruct (run_wr_slot _ (fun t => t <| s_owner := source |>) g e Hin) as (t & Ht & ->).
  unfold bind at 1, PROC2PTR at 1. cbn [s_dc upd_field]. rewrite (proj2 (Z.eqb_neq _ _) Hf). cbn [negb].
  eexists _, _. split; [reflexivity|]. exact (owner_wr g _ (t <| s_owner := source |>) t Ht).
Qed.

(** ** A partition *)

(** A member that still has a partner starts again.  When the network splits
    and the primary is on the other side, a member that finds a new primary
    among those left drops all it knows and joins the group again; only a member
    that finds none goes on with the slots it has. *)
Theorem partition_restarts g e :
  FSM_state g <> STS_WAIT_STATUS ->
  TEST_BIT (Z.land (bm_init g) (bm_active g)) (primary_mbr g) = false ->
  first_mbr (Z.land (bm_init g) (bm_active g)) (Z.to_nat (nr_nodes g)) 0 <> NO_PRIMARY_MBR ->
  exists g', sp_net_partition g e = Ok OK g' e /\
    FSM_state g' = STS_NEW /\ bm_init g' = 0 /\ out g' = out g ++ [A_DISCONNECT; A_JOIN].
Proof.
  intros Hf Hp Hfirst. unfold sp_net_partition, bind at 1, upd at 1. unfold bind at 1, globals at 1. cbn.
  rewrite (proj2 (Z.eqb_neq _ _) Hf), Hp. unfold get_primary_mbr, nr_nodes. cbn. unfold nr_nodes in Hfirst.
  rewrite (proj2 (Z.eqb_neq _ _) Hfirst). destruct (FSM_state g =? STS_MERGE_STATUS); cbn.
  all: eexists; split; [reflexivity|]; cbn; by rewrite <- app_assoc.
Qed.
End Faults.

(** ** The name of a member *)

Lemma cut_dot_digits s t : Forall (fun c => c <> DOT) s -> cut_dot (s ++ DOT :: t) = s.
Proof.
  induction s as [|c s IH]; intros H; [done|]. apply list.Forall_cons in H as [Hc H]. cbn [cut_dot app].
  by rewrite (proj2 (Z.eqb_neq _ _) Hc), IH.
Qed.

Lemma atoi_digit n d s : 0 <= d < 10 -> atoi n (DIGIT_0 + d :: s) = atoi (10 * n + d) s.
Proof.
  intros H. cbn [atoi]. rewrite !(proj2 (Z.leb_le _ _)) by lia. cbn [andb]. f_equal. lia.
Qed.

Lemma atoi_dec n : 0 <= n < 100 -> atoi 0 (dec n) = n.
Proof.
  intros H. unfold dec. pose proof (Z.div_mod n 10). pose proof (Z.mod_pos_bound n 10).
  pose proof (Z.div_pos n 10). pose proof (Z.div_lt_upper_bound n 10 10).
  destruct (Z.ltb_spec n 10); rewrite !atoi_digit by lia; cbn [atoi]; lia.
Qed.

(** The name of a member tells its node.  The user name that [init_slots]
    makes of the node and the DC, as Spread returns it between [#] signs and
    followed by the name of the host, is read back by [get_nodeid] as the
    node. *)
Theorem nodeid_roundtrip node dcid host hash :
  0 <= node < 100 -> hash <> DOT -> get_nodeid (hash :: User node dcid ++ hash :: host) = node.
Proof.
  intros Hn Hh. unfold get_nodeid, User.
  replace (hash :: (dec node ++ [DOT] ++ dec dcid) ++ hash :: host)
    with ((hash :: dec node) ++ DOT :: dec dcid ++ hash :: host) by (cbn; by rewrite <- app_assoc).
  rewrite cut_dot_digits; [by apply atoi_dec|]. apply list.Forall_cons. split; [done|]. unfold dec.
  pose proof (Z.div_pos node 10). pose proof (Z.mod_pos_bound node 10).
  destruct (node <? 10); repeat constructor; unfold DOT, DIGIT_0; lia.
Qed.
