(* ===== verification/SystaskFlow.v ===== *)
(** * What the system task does

    Forks and exits keep the count of the slots; the limits of the start are
    consistent; a pattern is written whole. *)

From S2P Require Import Prelude Types Endpoint Unbind Hyper Bind Slots Systask SlotsLogic SystaskLogic SlotToken SlotsGroup SlotsFlow.
#[local] Open Scope Z_scope.

(** ** Counting *)

Lemma count_none P n i : (forall j, i <= j < i + Z.of_nat n -> P j = false) -> count P n i = 0.
Proof.
  revert i. induction n as [|n IH]; intros i H; cbn [count]; [done|].
  rewrite H by lia. rewrite IH; [done|]. intros j Hj. apply H. lia.
Qed.

Lemma count_zero P n i j : count P n i = 0 -> i <= j < i + Z.of_nat n -> P j = false.
Proof.
  revert i. induction n as [|n IH]; intros i H Hj; cbn [count] in H; [lia|].
  pose proof (count_pos P n (i + 1)). destruct (P i) eqn:Hp; [lia|].
  destruct (decide (j = i)) as [->|]; [done|]. apply (IH (i + 1)); lia.
Qed.

(** One slot more. *)
Lemma count_gain P Q n i k :
  i <= k < i + Z.of_nat n -> P k = false -> Q k = true ->
  (forall j, j <> k -> Q j = P j) -> count Q n i = count P n i + 1.
Proof.
  revert i. induction n as [|n IH]; intros i Hk HP HQ H; cbn [count]; [lia|].
  destruct (decide (k = i)) as [->|Hne].
  - rewrite HP, HQ. rewrite (count_ext Q P) by (intros j Hj; apply H; lia). lia.
  - rewrite H by done. rewrite IH; [lia|lia|done|done|done].
Qed.

Lemma run_ret {E A} (a : A) g (e : E) : ret a g e = Ok a g e.
Proof. reflexivity. Qed.

Section Flow.
Context {E : Type} `{!Host E} `{!TaskHost E}.
Context (D : dc_t).
Implicit Types (g : sys) (e : E).

(** ** The search *)

Definition same_table e e' : Prop := forall j, proc_mapped e' j = proc_mapped e j.

Lemma run_find_free n i g e :
  0 <= i -> i + Z.of_nat n <= Z.of_nat (length (slot g)) ->
  exists r c, find_free n i g e = Ok r (g <| next_child := c |>) e /\
    match r with
    | Some j => i <= j < i + Z.of_nat n /\ owns_free g e j = true /\
        forall k, i <= k < j -> owns_free g e k = false
    | None => forall k, i <= k < i + Z.of_nat n -> owns_free g e k = false
    end.
Proof.
  revert i g. induction n as [|n IH]; intros i g Hi Hn; cbn [find_free]; rewrite run_upd.
  { eexists _, _. split; [reflexivity|]. cbn. lia. }
  assert (Hown : owns_free (g <| next_child := i |>) e i = owns_free g e i) by done.
  unfold bind at 1, PROC_MAPPED at 1.
  destruct (run_rd_slot i (g <| next_child := i |>) e) as (t & Ht & Hrd); [split; cbn; lia|].
  assert (Hf : owns_free g e i = ((p_rts_flags (proc_mapped e i) =? SLOT_FREE) && (s_owner t =? local_nodeid g))).
  { unfold owns_free, owns, owner_at. cbn in Ht. rewrite Ht. cbn. f_equal.
    destruct (Z.eqb_spec (s_owner t) (local_nodeid g)) as [->|]; [by apply bool_decide_eq_true|].
    apply bool_decide_eq_false. congruence. }
  assert (Hrun : (if p_rts_flags (proc_mapped e i) =? SLOT_FREE
     then t <- rd_slot i ;; g <- globals ;; ret (s_owner t =? local_nodeid g) else ret false)
     (g <| next_child := i |>) e = Ok (owns_free g e i) (g <| next_child := i |>) e).
  { rewrite Hf. destruct (_ =? SLOT_FREE); [|done]. rewrite (run_then _ _ _ _ _ _ _ Hrd). reflexivity. }
  rewrite (run_then _ _ _ _ _ _ _ Hrun). destruct (owns_free g e i) eqn:Ho.
  - eexists (Some i), _. split; [reflexivity|]. split; [lia|]. split; [done|]. lia.
  - destruct (IH (i + 1) (g <| next_child := i |>)) as (r & c & -> & Hr); [lia|cbn; lia|].
    exists r, c. split; [done|]. change (owns_free (g <| next_child := i |>) e) with (owns_free g e) in Hr.
    destruct r as [j|].
    + destruct Hr as (Hj & Hoj & Hk). split; [lia|]. split; [done|]. intros k Hk'.
      destruct (decide (k = i)) as [->|]; [done|]. apply Hk. lia.
    + intros k Hk'. destruct (decide (k = i)) as [->|]; [done|]. apply Hr. lia.
Qed.

(** The table of slots and the DC fit. *)
Record fits g : Prop := {
  ft_dc : s_dc g = D;
  ft_table : Z.of_nat (length (slot g)) = dc_nr_slots D;
  ft_sys : 0 < dc_nr_sysprocs D < dc_nr_slots D;
  ft_user : dc_nr_tasks D <= dc_nr_sysprocs D;
}.

(** Asking for slots changes nothing else. *)
Definition as_before g e g' e' : Prop :=
  same g g' /\ slot g' = slot g /\ free_slots g' = free_slots g /\ owned_slots g' = owned_slots g /\
  same_table e e'.

Lemma run_ask `{!HostLaws E} now g e :
  exists g' e', ask_slots now g e = Ok tt g' e' /\ as_before g e g' e'.
Proof.
  unfold ask_slots. rewrite run_globals. destruct (wants_slots now g); [|by exists g, e].
  unfold bind at 1, mcast_rqst_slots, bind, globals. destruct (negb (bm_waitsts g =? 0)); [by eexists _, _|].
  destruct (TEST_BIT (FSM_state g) BIT_MERGING); [by eexists _, _|].
  unfold upd at 1. destruct (CLR_BIT (bm_init g) (local_nodeid g) =? 0); [by eexists _, _|].
  unfold mcast, bind, calls. pose proof (mcast_mapped (M_REQ_SLOTS (local_nodeid g) (leftover g) (free_slots g) (owned_slots g)) e) as Hm.
  destruct (SP_multicast _ e) as [r e1]. unfold only_if. destruct (0 <=? r); (eexists _, _; split; [reflexivity|]);
    by split_and!; [split|..].
Qed.

Lemma counted_before g e g' e' : as_before g e g' e' -> counted g e -> counted g' e'.
Proof.
  intros (Hs & Hsl & Hf & Ho & Ht) [H1 H2]. unfold counted, nr_slots, nr_sysprocs in *. rewrite (sm_dc _ _ Hs), Hf, Ho.
  assert (Hown : forall j, owns g' j = owns g j).
  { intros j. unfold owns, owner_at. by rewrite Hsl, (sm_local _ _ Hs). }
  rewrite (count_ext (owns g') (owns g)) by auto. rewrite (count_ext (owns_free g' e') (owns_free g e)); [done|].
  intros j _. unfold owns_free. by rewrite Hown, Ht.
Qed.

(** The slots that are really free, whatever the counter says. *)
Definition really_free g e : Z :=
  count (owns_free g e) (Z.to_nat (nr_slots g - nr_sysprocs g)) (nr_sysprocs g).

Lemma free_before g e g' e' j : as_before g e g' e' -> owns_free g' e' j = owns_free g e j.
Proof. intros (Hs & Hsl & Hf & Ho & Ht). unfold owns_free, owns, owner_at. by rewrite Hsl, (sm_local _ _ Hs), Ht. Qed.

(** With a free slot, and a counter that is not 0, the search finds the first. *)
Lemma run_free_proc `{!HostLaws E} now g e :
  fits g -> free_slots g <> 0 -> 0 < really_free g e ->
  exists i g' e', get_free_proc now g e = Ok (i - dc_nr_tasks D) g' e' /\ as_before g e g' e' /\
    user D i /\ owns_free g e i = true /\ forall k, dc_nr_sysprocs D <= k < i -> owns_free g e k = false.
Proof.
  intros [HD Htab Hsys Husr] Hne Hpos. unfold get_free_proc. destruct (run_ask now g e) as (g1 & e1 & Hask & Hb).
  rewrite (run_then _ _ _ _ _ _ _ Hask), run_globals. pose proof (fun j => free_before g e g1 e1 j Hb) as Hof.
  destruct Hb as (Hs & Hsl & Hf & Ho & Ht). rewrite Hf, (proj2 (Z.eqb_neq _ _) Hne).
  unfold really_free, nr_slots, nr_sysprocs in *. rewrite (sm_dc _ _ Hs), HD in *.
  destruct (run_find_free (Z.to_nat (Z.max 1 (dc_nr_slots D - dc_nr_sysprocs D))) (dc_nr_sysprocs D) g1 e1)
    as (r & c & Hff & Hr); [lia|rewrite Hsl; lia|]. rewrite (run_then _ _ _ _ _ _ _ Hff).
  destruct r as [i|].
  - destruct Hr as (Hi & Hoi & Hk). eexists i, _, e1. split; [reflexivity|].
    split; [by split_and!; [destruct Hs; split|..]|]. rewrite Hof in Hoi. split; [split; lia|]. split; [done|].
    intros k Hk'. rewrite <- Hof. by apply Hk.
  - exfalso. rewrite count_none in Hpos; [lia|]. intros j Hj. rewrite <- Hof. apply Hr. lia.
Qed.

(** Without one, it stops at the assertion. *)
Lemma run_free_assert `{!HostLaws E} now g e :
  fits g -> (forall j, user D j -> owns_free g e j = false) -> free_slots g <> 0 ->
  exists g' e', get_free_proc now g e = Stop S_ASSERT g' e'.
Proof.
  intros [HD Htab Hsys Husr] Hno Hne. unfold get_free_proc. destruct (run_ask now g e) as (g1 & e1 & Hask & Hb).
  rewrite (run_then _ _ _ _ _ _ _ Hask), run_globals. destruct Hb as (Hs & Hsl & Hf & Ho & Ht).
  rewrite Hf, (proj2 (Z.eqb_neq _ _) Hne). unfold nr_slots, nr_sysprocs. rewrite (sm_dc _ _ Hs), HD.
  destruct (run_find_free (Z.to_nat (Z.max 1 (dc_nr_slots D - dc_nr_sysprocs D))) (dc_nr_sysprocs D) g1 e1)
    as (r & c & Hff & Hr); [lia|rewrite Hsl; lia|]. rewrite (run_then _ _ _ _ _ _ _ Hff).
  destruct r as [i|]; [|by eexists _, _]. exfalso. destruct Hr as (Hi & Hoi & _).
  unfold owns_free, owns, owner_at in Hoi. rewrite Hsl, (sm_local _ _ Hs), Ht in Hoi.
  specialize (Hno i). unfold owns_free, owns, owner_at in Hno. rewrite Hno in Hoi; [done|]. split; lia.
Qed.

(** ** Forks *)

(** The slot [i] changed, and no other. *)
Definition changed e e' (i : Z) : Prop := forall j, j <> i -> proc_mapped e' j = proc_mapped e j.

(** What the kernel does when a process is bound to a free slot ([Bind.bind_outcome],
    which [BindFlow.bind_keeps_endpoint] proves of [mm_bind] on every branch), and
    when one is unbound: after a success, and when there was nothing to unbind, the
    slot is free.  The other entries stay. *)
Class BindLaws := {
  bl_lclbind pid ep e (i := ENDPOINT_P ep + dc_nr_tasks D) :
    p_rts_flags (proc_mapped e i) = SLOT_FREE ->
    exists rc e', mnx_lclbind (dc_dcid D) pid ep e = (rc, e') /\
      bind_outcome (proc_mapped e i) (proc_mapped e' i) rc /\ changed e e' i;
}.

Class ExitLaws := {
  xl_unbind ep e (i := ENDPOINT_P ep + dc_nr_tasks D) :
    exists rc e', mnx_unbind (dc_dcid D) ep e = (rc, e') /\ changed e e' i /\
      (0 <= rc \/ rc = EMOLNOTBIND -> p_rts_flags (proc_mapped e' i) = SLOT_FREE);
  xl_alarm nr e : same_table e (reset_alarm nr e);
}.

Context {HL : HostLaws E} {TL : TaskLaws E D} {BL : BindLaws}.

Lemma run_kcall {A B} (f : Z -> E -> A * E) (k : A -> act E B) a g e e' :
  f (dc_dcid (s_dc g)) e = (a, e') -> bind (kcall f) k g e = k a g e'.
Proof. intros H. unfold kcall, bind, globals, calls. by rewrite H. Qed.

Lemma run_proc2ptr {A} nr (k : proc -> act E A) g e :
  s_dc g = D -> bind (PROC2PTR nr) k g e = k (proc_mapped e (nr + dc_nr_tasks D)) g e.
Proof. intros <-. reflexivity. Qed.

(** The owners are as before. *)
Definition same_owners g g' : Prop :=
  s_dc g' = s_dc g /\ local_nodeid g' = local_nodeid g /\ slot g' = slot g /\ owned_slots g' = owned_slots g.

Lemma counted_change g e g' e' i (d : Z) :
  s_dc g = D -> counted g e -> same_owners g g' -> user D i -> owns g i = true ->
  changed e e' i -> free_slots g' = free_slots g + d ->
  (d = -1 /\ owns_free g e i = true /\ p_rts_flags (proc_mapped e' i) <> SLOT_FREE \/
   d = 1 /\ owns_free g e i = false /\ p_rts_flags (proc_mapped e' i) = SLOT_FREE) ->
  counted g' e'.
Proof.
  intros HD [H1 H2] (Hdc & Hl & Hsl & Ho) [Hi1 Hi2] Hown Hch Hf Hd.
  unfold counted, nr_slots, nr_sysprocs in *. rewrite Hdc, Ho, Hf. rewrite HD in *.
  assert (Howns : forall j, owns g' j = owns g j) by (intros j; unfold owns, owner_at; by rewrite Hsl, Hl).
  rewrite (count_ext (owns g') (owns g)) by auto. split; [done|]. rewrite H2.
  assert (Hoth : forall j, j <> i -> owns_free g' e' j = owns_free g e j).
  { intros j Hj. unfold owns_free. by rewrite Howns, Hch by done. }
  assert (Hi' : owns_free g' e' i = (p_rts_flags (proc_mapped e' i) =? SLOT_FREE)).
  { unfold owns_free. by rewrite Howns, Hown, andb_true_r. }
  destruct Hd as [(-> & Hof & Hn%Z.eqb_neq)|(-> & Hof & Hn%Z.eqb_eq)]; rewrite Hn in Hi'.
  - rewrite (count_gain (owns_free g' e') (owns_free g e) _ _ i); [lia|lia|done|done|]. intros j Hj. by rewrite Hoth.
  - symmetry. apply (count_gain (owns_free g e) (owns_free g' e') _ _ i); [lia|done|done|done].
Qed.

Lemma owns_free_owns g e i : owns_free g e i = true -> owns g i = true /\ p_rts_flags (proc_mapped e i) = SLOT_FREE.
Proof. unfold owns_free. intros [H1%Z.eqb_eq H2]%andb_true_iff. done. Qed.

(** The endpoints of the table are of their slots. *)
Definition endpoints_ok e : Prop :=
  forall i, user D i -> slot_number (i - dc_nr_tasks D) /\ 0 <= ENDPOINT_G (p_endpoint (proc_mapped e i)) /\
    ENDPOINT_P (p_endpoint (proc_mapped e i)) = i - dc_nr_tasks D.

Lemma endpoints_kept e e' i : user D i -> changed e e' i ->
  p_endpoint (proc_mapped e' i) = p_endpoint (proc_mapped e i) -> endpoints_ok e -> endpoints_ok e'.
Proof. intros Hi Hch He H j Hj. destruct (decide (j = i)) as [->|Hne]; [rewrite He|rewrite Hch by done]; by apply H. Qed.

(** What a fork leaves: [rc] of the kernel, for the slot [i]. *)
Record tried (i rc : Z) g e g' e' : Prop := {
  tr_slot : user D i;
  tr_free : owns_free g e i = true;
  tr_first k : dc_nr_sysprocs D <= k < i -> owns_free g e k = false;
  tr_outcome : bind_outcome (proc_mapped e i) (proc_mapped e' i) rc;
  tr_changed : changed e e' i;
  tr_count : free_slots g' = free_slots g;
  tr_owners : same_owners g g';
}.

Lemma run_fork who_p lpid now g e :
  fits g -> free_slots g <> 0 -> 0 < really_free g e -> endpoints_ok e ->
  p_endpoint (proc_mapped e (who_p + dc_nr_tasks D)) = PM_PROC_NR ->
  exists i rc g' e', do_fork who_p lpid now g e = Ok (rc, []) g' e' /\ tried i rc g e g' e' /\
    exists ep e1, same_table e e1 /\ ENDPOINT_P ep = i - dc_nr_tasks D /\ rc = fst (mnx_lclbind (dc_dcid D) lpid ep e1).
Proof.
  intros Hfit Hne Hpos Hep Hpm. pose proof Hfit as [HD Htab Hsys Husr].
  unfold do_fork. rewrite run_proc2ptr, Hpm by done. cbn [negb Z.eqb PM_PROC_NR].
  destruct (run_free_proc now g e Hfit Hne Hpos) as (i & g1 & e1 & Hrun & (Hs & Hsl & Hf & Ho & Ht) & Hi & Hof & Hfirst).
  rewrite (run_then _ _ _ _ _ _ _ Hrun). pose proof Hi as [Hi1 Hi2].
  rewrite (proj2 (Z.ltb_ge (i - dc_nr_tasks D) 0)) by lia.
  assert (HD1 : s_dc g1 = D) by (by rewrite (sm_dc _ _ Hs)).
  rewrite run_proc2ptr by done. replace (i - dc_nr_tasks D + dc_nr_tasks D) with i by lia.
  destruct (owns_free_owns _ _ _ Hof) as [Hown Hfree]. rewrite Ht, Hfree, Z.eqb_refl. cbn [negb].
  destruct (Hep i Hi) as (Hnum & Hgen & _). rewrite mapped_nr.
  set (ep := ENDPOINT (ENDPOINT_G (p_endpoint (proc_mapped e i)) + 1) (i - dc_nr_tasks D)).
  assert (Hp : ENDPOINT_P ep = i - dc_nr_tasks D) by (apply ENDPOINT_P_ENDPOINT; [lia|by apply slot_number_magic]).
  assert (Hg : ENDPOINT_G ep = ENDPOINT_G (p_endpoint (proc_mapped e i)) + 1)
    by (apply ENDPOINT_G_ENDPOINT; [lia|by apply slot_number_magic]).
  assert (H0 : 0 <= ep) by (unfold ep, ENDPOINT; endpoint_consts; lia).
  clearbody ep. destruct (bl_lclbind lpid ep e1) as (rc & e2 & Hb & Hout & Hbc).
  { rewrite Hp. replace (i - dc_nr_tasks D + dc_nr_tasks D) with i by lia. by rewrite Ht. }
  rewrite Hp in *. replace (i - dc_nr_tasks D + dc_nr_tasks D) with i in * by lia. rewrite Ht in Hout.
  assert (Hlast : rc = fst (mnx_lclbind (dc_dcid D) lpid ep e1)) by (by rewrite Hb).
  rewrite <- HD1 in Hb. rewrite (run_kcall (fun d => mnx_lclbind d lpid ep) _ _ _ _ _ Hb).
  assert (Hrc : ep <> rc).
  { destruct Hout as (_ & [[? _]|[-> _]]); [lia|]. intros Heq. rewrite <- Heq in Hg. lia. }
  rewrite (proj2 (Z.eqb_neq _ _) Hrc). cbn [negb].
  eexists i, rc, g1, e2. split; [reflexivity|]. split; [|by exists ep, e1]. split; try done.
  - intros j Hj. by rewrite Hbc, Ht.
  - split_and!; [by rewrite HD|apply Hs|done|done].
Qed.

(** A fork that the kernel grants takes a slot, and no other. *)
Lemma tried_others i rc g e g' e' j : tried i rc g e g' e' -> j <> i -> owns_free g' e' j = owns_free g e j.
Proof.
  intros [_ _ _ _ Hch _ (_ & Hl & Hsl & _)] Hj. unfold owns_free, owns, owner_at. by rewrite Hl, Hsl, Hch.
Qed.

Lemma tried_taken i rc g e g' e' : tried i rc g e g' e' -> 0 <= rc ->
  p_rts_flags (proc_mapped e' i) = PROC_RUNNING /\ owns_free g' e' i = false.
Proof.
  intros [_ _ _ Hout _ _ _] Hrc. destruct Hout as (_ & [[? _]|(_ & Hr & _)]); [lia|]. split; [done|].
  unfold owns_free. by rewrite Hr.
Qed.

Lemma tried_count i rc g e g' e' : s_dc g = D -> tried i rc g e g' e' -> 0 <= rc ->
  really_free g' e' = really_free g e - 1.
Proof.
  intros HD T Hrc. destruct (tried_taken _ _ _ _ _ _ T Hrc) as [_ Hi]. pose proof (tr_slot _ _ _ _ _ _ T) as [Hi1 Hi2].
  pose proof (tr_owners _ _ _ _ _ _ T) as (Hd & _). unfold really_free, nr_slots, nr_sysprocs. rewrite Hd, HD.
  rewrite (count_gain (owns_free g' e') (owns_free g e) _ _ i); [lia|lia|done|apply T|].
  intros j Hj. symmetry. by eapply tried_others.
Qed.

Lemma endpoint_nonneg ep : 0 <= ENDPOINT_G ep -> 0 <= ENDPOINT_P ep -> 0 <= ep.
Proof. unfold ENDPOINT_G, ENDPOINT_P. endpoint_consts. pose proof (Z.quot_rem' (ep + 35) 35570). nia. Qed.

Lemma free_endpoint_nonneg g e i : fits g -> endpoints_ok e -> user D i -> 0 <= p_endpoint (proc_mapped e i).
Proof.
  intros [_ _ _ Hu] Hep Hi. destruct (Hep i Hi) as (_ & Hg & Hp). destruct Hi as [Hi _].
  apply endpoint_nonneg; [done|]. rewrite Hp. lia.
Qed.

(** One that it refuses takes none. *)
Lemma tried_refused i rc g e g' e' : fits g -> endpoints_ok e -> tried i rc g e g' e' -> rc < 0 ->
  really_free g' e' = really_free g e.
Proof.
  intros Hfit Hep T Hrc. pose proof (tr_owners _ _ _ _ _ _ T) as (Hd & Hl & Hsl & _).
  unfold really_free, nr_slots, nr_sysprocs. rewrite Hd.
  apply count_ext. intros j _. destruct (decide (j = i)) as [->|Hj]; [|by eapply tried_others].
  pose proof (tr_free _ _ _ _ _ _ T) as Hof. destruct (owns_free_owns _ _ _ Hof) as [Hown _]. rewrite Hof.
  destruct (tr_outcome _ _ _ _ _ _ T) as (_ & [[_ Hfr]|[-> _]]).
  - unfold owns_free, owns, owner_at in *. by rewrite Hfr, Hl, Hsl, Hown.
  - pose proof (free_endpoint_nonneg g e i Hfit Hep (tr_slot _ _ _ _ _ _ T)). lia.
Qed.

(** ** Forks in a row *)

(** The forks of the pids of [l], at the times of [l]: the results. *)
Fixpoint forks (who_p : Z) (l : list (Z * Z)) : act E (list Z) :=
  match l with
  | [] => ret []
  | (lpid, now) :: l => r <- do_fork who_p lpid now ;; rs <- forks who_p l ;; ret (fst r :: rs)
  end.

Lemma tried_fits i rc g e g' e' : fits g -> tried i rc g e g' e' -> fits g'.
Proof. intros [HD Htab Hsys Husr] T. destruct (tr_owners _ _ _ _ _ _ T) as (Hd & _ & Hsl & _). split; congruence. Qed.

Lemma tried_table i rc g e g' e' : tried i rc g e g' e' ->
  forall j, p_endpoint (proc_mapped e' j) = p_endpoint (proc_mapped e j).
Proof.
  intros T j. destruct (decide (j = i)) as [->|Hne]; [apply (tr_outcome _ _ _ _ _ _ T)|].
  by rewrite (tr_changed _ _ _ _ _ _ T).
Qed.

Lemma run_forks who_p l g e :
  fits g -> free_slots g <> 0 -> Z.of_nat (length l) <= really_free g e -> endpoints_ok e ->
  p_endpoint (proc_mapped e (who_p + dc_nr_tasks D)) = PM_PROC_NR ->
  exists eps g' e', forks who_p l g e = Ok eps g' e' /\ length eps = length l /\
    fits g' /\ free_slots g' = free_slots g /\ (forall j, p_endpoint (proc_mapped e' j) = p_endpoint (proc_mapped e j)) /\
    (Forall (fun rc => 0 <= rc) eps ->
     really_free g' e' = really_free g e - Z.of_nat (length l) /\
     Forall (fun rc => exists i, user D i /\ owns_free g e i = true /\ rc = p_endpoint (proc_mapped e i)) eps).
Proof.
  revert g e. induction l as [|[lpid now] l IH]; intros g e Hfit Hne Hlen Hep Hpm; cbn [forks length] in *.
  { exists [], g, e. split_and!; try done. intros _. split; [lia|constructor]. }
  destruct (run_fork who_p lpid now g e Hfit Hne ltac:(lia) Hep Hpm) as (i & rc & g1 & e1 & Hrun & T & _).
  rewrite (run_then _ _ _ _ _ _ _ Hrun).
  pose proof (tried_table _ _ _ _ _ _ T) as Htab1. pose proof (tr_slot _ _ _ _ _ _ T) as Hi.
  assert (Hlow : Z.of_nat (length l) <= really_free g1 e1).
  { destruct (Z.le_gt_cases 0 rc) as [H0|H0]; [rewrite (tried_count i rc g e g1 e1); [lia|apply Hfit|done|done]|].
    rewrite (tried_refused i rc g e g1 e1); [lia|done..]. }
  destruct (IH g1 e1) as (eps & g2 & e2 & Hrun2 & Hl2 & Hfit2 & Hf2 & Htab2 & Hall); try done.
  - by eapply tried_fits.
  - by rewrite (tr_count _ _ _ _ _ _ T).
  - apply (endpoints_kept e e1 i); [done|apply T|apply T|done].
  - by rewrite Htab1.
  - rewrite (run_then _ _ _ _ _ _ _ Hrun2). exists (rc :: eps), g2, e2. split; [done|]. cbn [length fst].
    split; [congruence|]. split; [done|]. split; [by rewrite Hf2; apply T|].
    split; [intros j; by rewrite Htab2|]. intros [Hrc Heps]%list.Forall_cons_1. destruct (Hall Heps) as [Hr2 Hi2].
    split; [rewrite Hr2, (tried_count i rc g e g1 e1); [lia|apply Hfit|done|done]|]. constructor.
    + exists i. split; [done|]. split; [apply T|].
      destruct (tr_outcome _ _ _ _ _ _ T) as (_ & [[? _]|[-> _]]); [lia|done].
    + eapply list.Forall_impl; [exact Hi2|]. cbv beta. intros rc' (j & Hj & Hofj & ->). exists j. split; [done|].
      split; [|apply Htab1]. destruct (decide (j = i)) as [->|Hji]; [apply T|]. by rewrite <- (tried_others _ _ _ _ _ _ _ T Hji).
Qed.

(** C20. Forks are not counted, and one too many stops the system task.  On a node
    whose counters are exact and say that [n > 0] slots are free, every one of the
    first [n] forks that the process manager asks for is answered; when the kernel
    binds the child ([mm_bind] gives no error), the answer is the endpoint that one of
    the free slots had already, of the old generation, which [do_fork] takes for an
    error because it is not the endpoint of the next generation it asked for: it
    returns it before it counts the slot.  After [n] such forks no slot of the node is
    free, the counter still says [n], and the next fork stops the whole task at the
    assertion of [get_free_proc] instead of being refused. *)
Theorem forks_stop_task who_p l g e :
  fits g -> counted g e -> 0 < free_slots g -> Z.of_nat (length l) = free_slots g -> endpoints_ok e ->
  p_endpoint (proc_mapped e (who_p + dc_nr_tasks D)) = PM_PROC_NR ->
  exists eps g1 e1, forks who_p l g e = Ok eps g1 e1 /\ length eps = length l /\
    free_slots g1 = free_slots g /\
    (Forall (fun rc => 0 <= rc) eps ->
     Forall (fun rc => exists i, user D i /\ owns_free g e i = true /\ rc = p_endpoint (proc_mapped e i)) eps /\
     (forall j, user D j -> owns_free g1 e1 j = false) /\
     forall lpid now, exists g2 e2, do_fork who_p lpid now g1 e1 = Stop S_ASSERT g2 e2).
Proof.
  intros Hfit [_ Hc] Hpos Hlen Hep Hpm.
  destruct (run_forks who_p l g e) as (eps & g1 & e1 & Hrun & Hl & Hfit1 & Hf & Htab & Hall); try done; [lia|unfold really_free; lia|].
  exists eps, g1, e1. split_and!; try done. intros H0. destruct (Hall H0) as [Hr Hi]. split; [done|].
  assert (Hno : forall j, user D j -> owns_free g1 e1 j = false).
  { pose proof (ft_dc _ Hfit1) as HD1. unfold really_free, nr_slots, nr_sysprocs in Hr, Hc. rewrite HD1 in Hr.
    rewrite (ft_dc _ Hfit) in Hr, Hc. intros j [Hj1 Hj2].
    apply (count_zero (owns_free g1 e1) (Z.to_nat (dc_nr_slots D - dc_nr_sysprocs D)) (dc_nr_sysprocs D)); lia. }
  split; [done|]. intros lpid now. unfold do_fork. rewrite run_proc2ptr by apply Hfit1. rewrite Htab, Hpm. cbn [negb Z.eqb PM_PROC_NR].
  destruct (run_free_assert now g1 e1 Hfit1 Hno) as (g2 & e2 & Hstop); [lia|]. exists g2, e2. unfold bind at 1. by rewrite Hstop.
Qed.

(** ** Exits *)

Context {XL : ExitLaws}.

(** A result that [exit_unbind] goes on after: the slot is free. *)
Definition gone (ok : Z -> bool) (rc : Z) : bool := negb ((rc <? 0) && negb (ok rc)).

Lemma run_exit_unbind ok k ep flags g e (i := ENDPOINT_P ep + dc_nr_tasks D) :
  (forall rc, ok rc = true -> rc = EMOLNOTBIND) ->
  s_dc g = D -> TEST_BIT (p_misc_flags (proc_mapped e i)) MIS_BIT_KILLED = false ->
  TEST_BIT flags BIT_REMOTE = false ->
  exists rc e', changed e e' i /\
    if gone ok rc
    then exit_unbind ok k (ENDPOINT_P ep) ep flags g e = Ok (OK, []) (g <| free_slots ::= Z.succ |>) e' /\
      p_rts_flags (proc_mapped e' i) = SLOT_FREE
    else exit_unbind ok k (ENDPOINT_P ep) ep flags g e = Ok (rc, []) g e' /\ rc < 0.
Proof.
  intros Hok HD Hk Hr. unfold exit_unbind. rewrite run_proc2ptr, run_globals by done. fold i. rewrite Hk, HD. cbn [negb]. fold i.
  set (f := fun x : proc => _). unfold bind at 1 3, proc_poke at 1 2.
  destruct (xl_unbind ep (poke i f e)) as (rc & e2 & Hu & Hch & Hfree). fold i in Hfree, Hch. rewrite <- HD in Hu.
  rewrite (run_kcall (fun d => mnx_unbind d ep) _ _ _ _ _ Hu).
  assert (Hc2 : forall j, j <> i -> proc_mapped e2 j = proc_mapped e j).
  { intros j Hj. rewrite Hch by done. apply poke_other. congruence. }
  exists rc. unfold gone. destruct ((rc <? 0) && negb (ok rc)) eqn:Hg; cbn [negb].
  - exists e2. split; [done|]. split; [done|]. apply andb_true_iff in Hg as [Hg _]. by apply Z.ltb_lt.
  - unfold exit_count. rewrite Hr. cbn [negb only_if]. exists (reset_alarm (ENDPOINT_P ep) e2).
    split; [intros j Hj; by rewrite xl_alarm, Hc2|]. split; [reflexivity|]. rewrite xl_alarm. apply Hfree.
    apply andb_false_iff in Hg as [Hg|Hg]; [left; by apply Z.ltb_ge|right; apply Hok; by destruct (ok rc)].
Qed.

Lemma not_bound_only rc : not_bound rc = true -> rc = EMOLNOTBIND.
Proof. apply Z.eqb_eq. Qed.


(** The slot of a system process that exits. *)
Lemma run_exit_system k ep flags g e (i := ENDPOINT_P ep + dc_nr_tasks D) :
  fits g -> 0 <= i < dc_nr_sysprocs D -> init_nodes g = 1 ->
  owner_at g i = Some (local_nodeid g) ->
  TEST_BIT (p_misc_flags (proc_mapped e i)) MIS_BIT_KILLED = false ->
  exists rc t e', changed e e' i /\
    do_exit k ep flags g e =
      (let g1 := g <| slot ::= <[Z.to_nat i := t]> |> in
       if gone not_bound rc then Ok (OK, []) (g1 <| free_slots ::= Z.succ |>) e' else Ok (rc, []) g1 e').
Proof.
  intros [HD Htab Hsys Husr] Hi Hn Hown Hk. unfold do_exit. rewrite run_globals. unfold nr_sysprocs. rewrite HD.
  rewrite (proj2 (Z.ltb_lt _ _)) by lia. fold i.
  destruct (run_rd_slot i g e) as (t & Ht & Hrd); [split; lia|]. rewrite (run_then _ _ _ _ _ _ _ Hrd).
  unfold owner_at in Hown. rewrite Ht in Hown. injection Hown as Hown. rewrite Hown, Z.eqb_refl.
  rewrite run_proc2ptr by done. fold i.
  assert (Hm : mcast_exit_proc (proc_mapped e i) g e = Ok OK g e).
  { unfold mcast_exit_proc, mcast_proc. rewrite run_globals, Hn. reflexivity. }
  rewrite (run_then _ _ _ _ _ _ _ Hm). unfold after_exit. cbn [Z.ltb OK Z.compare].
  assert (Hcl : clear_slot (ENDPOINT_P ep) g e = Ok tt (g <| slot ::= <[Z.to_nat i :=
    t <| s_endpoint := NONE |> <| s_flags := 0 |> <| s_owner := NO_PRIMARY_MBR |>]> |>) e).
  { unfold clear_slot. rewrite run_globals, HD. fold i.
    destruct (run_wr_slot i (fun t => t <| s_endpoint := NONE |> <| s_flags := 0 |> <| s_owner := NO_PRIMARY_MBR |>) g e)
      as (t' & Ht' & ->); [split; lia|]. congruence. }
  rewrite (run_then _ _ _ _ _ _ _ Hcl).
  match goal with |- context [exit_unbind _ _ _ _ _ ?h e] =>
    destruct (run_exit_unbind not_bound k ep 0 h e) as (rc & e' & Hch & Hex) end; [exact not_bound_only|done|done|done|].
  exists rc, (t <| s_endpoint := NONE |> <| s_flags := 0 |> <| s_owner := NO_PRIMARY_MBR |>), e'. split; [exact Hch|].
  cbv zeta. destruct (gone not_bound rc); apply Hex.
Qed.

(** The exit of a system process brings the task down.  On a node without free
    slots, whose counters are exact, the exit of a system process of the node, if the
    kernel unbinds it, counts one more free slot, though no slot of a user process is
    free; the next fork then searches for it and stops the whole system task at the
    assertion of [get_free_proc]. *)
Theorem system_exit_miscounts k ep flags who_p lpid now g e (i := ENDPOINT_P ep + dc_nr_tasks D) :
  fits g -> counted g e -> free_slots g = 0 -> init_nodes g = 1 ->
  0 <= i < dc_nr_sysprocs D -> owner_at g i = Some (local_nodeid g) ->
  TEST_BIT (p_misc_flags (proc_mapped e i)) MIS_BIT_KILLED = false ->
  who_p + dc_nr_tasks D <> i -> p_endpoint (proc_mapped e (who_p + dc_nr_tasks D)) = PM_PROC_NR ->
  exists rc g1 e1, do_exit k ep flags g e = Ok (rc, []) g1 e1 /\
    (0 <= rc -> free_slots g1 = 1 /\ exists g2 e2, do_fork who_p lpid now g1 e1 = Stop S_ASSERT g2 e2).
Proof.
  intros Hfit [_ Hc] H0 Hn Hi Hown Hk Hw Hpm. pose proof Hfit as [HD Htab Hsys Husr].
  destruct (run_exit_system k ep flags g e Hfit Hi Hn Hown Hk) as (rc & t & e1 & Hch & Hrun). fold i in Hrun, Hch. cbv zeta in Hrun.
  unfold gone in Hrun. destruct ((rc <? 0) && negb (not_bound rc)) eqn:Hg; cbn [negb] in Hrun.
  { eexists rc, _, e1. split; [exact Hrun|]. intros Hrc. apply andb_true_iff in Hg as [Hg%Z.ltb_lt _]. lia. }
  set (g1 := g <| slot ::= <[Z.to_nat i := t]> |> <| free_slots ::= Z.succ |>) in *. exists OK, g1, e1. split; [done|]. intros _.
  split; [unfold g1; cbn; lia|]. unfold do_fork. rewrite run_proc2ptr, Hch, Hpm by done. cbn [negb Z.eqb PM_PROC_NR].
  assert (Hfit1 : fits g1) by (split; try done; unfold g1; cbn; by rewrite length_insert).
  assert (Hno : forall j, user D j -> owns_free g1 e1 j = false).
  { intros j [Hj1 Hj2]. unfold owns_free. rewrite Hch by lia.
    replace (owns g1 j) with (owns g j) by (unfold g1; symmetry; apply (owns_wr g i j t); lia).
    change (owns_free g e j = false). unfold nr_slots, nr_sysprocs in Hc. rewrite HD, H0 in Hc.
    apply (count_zero (owns_free g e) (Z.to_nat (dc_nr_slots D - dc_nr_sysprocs D)) (dc_nr_sysprocs D)); [done|lia]. }
  destruct (run_free_assert now g1 e1 Hfit1 Hno) as (g2 & e2 & Hstop); [unfold g1; cbn; lia|].
  exists g2, e2. unfold bind at 1. by rewrite Hstop.
Qed.
End Flow.

(** ** The limits *)

(** The limits of the start leave room for every node.  With as many nodes as
    the DC allows, the minimum of slots per node fits in the slots of the user
    processes, the reserve is at most half of it, and the most a node may own,
    for any number of initialised nodes, is between the minimum and the whole. *)
Theorem limits_leave_room g n :
  0 <= nr_sysprocs g <= nr_slots g -> 0 < nr_nodes g ->
  let h := init_limits g in
  1 <= n <= nr_nodes g ->
  0 <= 2 * free_slots_low h <= min_owned_slots h /\
  min_owned_slots h * nr_nodes h <= total_slots h /\
  min_owned_slots h <= max_owned_slots (set_max_owned (h <| init_nodes := n |>)) <= total_slots h.
Proof.
  intros Hs Hn h Hi. unfold h, init_limits, set_max_owned. cbn. unfold nr_nodes in *.
  set (total := nr_slots g - nr_sysprocs g). assert (0 <= total) by (unfold total; lia).
  set (nodes := dc_nr_nodes (s_dc g)) in *. rewrite !(Z.quot_div_nonneg total) by lia.
  assert (0 <= total / nodes) by (apply Z.div_pos; lia). assert (nodes * (total / nodes) <= total) by (apply Z.mul_div_le; lia).
  set (min := total / nodes) in *. rewrite Z.quot_div_nonneg by lia.
  assert (0 <= min / 2) by (apply Z.div_pos; lia). assert (2 * (min / 2) <= min) by (apply Z.mul_div_le; lia).
  cbn [s_dc]. fold nodes. clearbody min total nodes. split; [lia|]. split; [nia|]. nia.
Qed.

(** ** Copies *)

Section Copies.
Context {E : Type} `{!Host E} `{!TaskHost E}.
Implicit Types (g : sys) (e : E).

(** The memory of the processes: a copy that succeeds copies the block, and
    nothing else, when the processes are two. *)
Class Memory := {
  mem : E -> Z -> Z -> Z;
  vcopy_ok src sa dst da n e e' : src <> dst ->
    mnx_vcopy src sa dst da n e = (0, e') ->
    forall p a, mem e' p a = if (p =? dst) && (da <=? a) && (a <? da + n) then mem e src (sa + (a - da)) else mem e p a;
}.
Context {HM : Memory}.

(** The pages from [addr] on, [remain] bytes. *)
Definition filled e who_e addr n (c : Z) e' : Prop :=
  forall p a, mem e' p a = if (p =? who_e) && (addr <=? a) && (a <? addr + n) then c else mem e p a.

Lemma run_memset_loop fuel who_e buf ps addr r c g e :
  0 < ps -> 0 < r <= Z.of_nat fuel -> who_e <> SYSTEM ->
  (forall k, 0 <= k < ps -> mem e SYSTEM (buf + k) = c) ->
  exists rc e', memset_loop fuel who_e buf ps addr r g e = Ok (rc, []) g e' /\
    (rc = 0 -> filled e who_e addr r c e').
Proof.
  intros Hps. revert addr r e. induction fuel as [|fuel IH]; intros addr r e Hr Hw Hbuf; cbn [memset_loop]; [lia|].
  set (size := if r >? ps then ps else r).
  assert (Hsize : 0 < size <= ps /\ size <= r) by (unfold size; rewrite Z.gtb_ltb; destruct (Z.ltb_spec ps r); lia).
  cbv zeta. unfold bind at 1, calls. destruct (mnx_vcopy SYSTEM buf who_e addr size e) as [rc e1] eqn:Hcp.
  destruct (Z.eqb_spec rc 0) as [->|Hrc]; cbn [negb]; [|eexists rc, e1; split; [reflexivity|done]].
  assert (Hne : SYSTEM <> who_e) by (by apply not_eq_sym).
  assert (Hf : filled e who_e addr size c e1).
  { intros p a. rewrite (vcopy_ok SYSTEM buf who_e addr size e e1 Hne Hcp).
    destruct ((p =? who_e) && (addr <=? a) && (a <? addr + size)) eqn:Hb; [|done].
    apply andb_true_iff in Hb as [[_ H1%Z.leb_le]%andb_true_iff H2%Z.ltb_lt]. apply Hbuf. lia. }
  destruct (Z.ltb_spec 0 (r - size)) as [Hmore|Hlast].
  - destruct (IH (addr + size) (r - size) e1) as (rc & e' & Hrun & Hfill); [lia|done| |].
    { intros k Hk. rewrite Hf, (proj2 (Z.eqb_neq _ _) Hne). by apply Hbuf. }
    exists rc, e'. split; [exact Hrun|]. intros Hrc p a. rewrite (Hfill Hrc), Hf. destruct (p =? who_e); cbn; [|done].
    destruct (Z.leb_spec (addr + size) a), (Z.ltb_spec a (addr + size + (r - size))), (Z.leb_spec addr a),
      (Z.ltb_spec a (addr + size)), (Z.ltb_spec a (addr + r)); cbn; done || lia.
  - exists 0, e1. split; [reflexivity|]. intros _. assert (size = r) as -> by lia. exact Hf.
Qed.

(** A pattern is written whole.  With a page of the task full of the byte, the
    request to fill [n] bytes of another process comes to an end, whatever the
    size of the page and of the block; if no copy fails, exactly the [n] bytes
    from the address on are the byte, the last page cut to what is left, and
    every other byte of every process is as it was. *)
Theorem memset_fills who_e buf ps n addr c g e :
  0 < ps -> 0 < n -> who_e <> SYSTEM -> (forall k, 0 <= k < ps -> mem e SYSTEM (buf + k) = c) ->
  exists rc e', do_memset who_e buf ps n addr g e = Ok (rc, []) g e' /\
    (rc = 0 -> filled e who_e addr n c e').
Proof.
  intros Hps Hn Hw Hbuf. unfold do_memset. rewrite (proj2 (Z.leb_gt n 0) Hn).
  apply run_memset_loop; [done|lia|done|done].
Qed.
End Copies.

(** ** The slot of a process *)

(** The request for the slot of a process looks at the wrong entry: for a process
    number at least as large as the number of tasks there is none. *)
Lemma getinfo_slot_wild {E} `{!Host E} who_e ep g (e : E) :
  Z.of_nat (length (slot g)) = nr_slots g ->
  let nr := ENDPOINT_P (self_or who_e ep) in
  0 <= dc_nr_tasks (s_dc g) <= nr -> nr < dc_nr_procs (s_dc g) ->
  getinfo_slot who_e ep g e = Stop S_WILD g e.
Proof.
  intros Ht nr Hn1 Hn2. unfold getinfo_slot. fold nr. rewrite run_globals. unfold nr_ok.
  rewrite Z.geb_leb, (proj2 (Z.ltb_ge nr _)), (proj2 (Z.leb_gt _ nr)) by lia. cbn [orb negb].
  unfold bind, rd_slot, rd_in. rewrite (proj2 (Z.ltb_ge _ 0)) by lia.
  rewrite lookup_ge_None_2; [done|]. unfold nr_slots, dc_nr_slots in Ht. lia.
Qed.
