(* ===== verification/SystaskInfo.v ===== *)
(** * Information, priorities and programs of other nodes

    What the requests of the system task that read tell their caller: the process
    table, the times; and what a priority of -1 and a program with a given
    endpoint bring about. *)

From S2P Require Import Prelude Types Endpoint Unbind Hyper Bind Clock Slots StatFile Systask SlotsLogic SystaskLogic SlotToken SlotsGroup SlotsFlow SystaskFlow.
#[local] Open Scope Z_scope.

Section Reading.
Context {E : Type} `{!Host E} `{!TaskHost E}.
Implicit Types (g : sys) (e : E).

Lemma run_calls {A B} (f : E -> A * E) (k : A -> act E B) a g e e' :
  f e = (a, e') -> bind (calls f) k g e = k a g e'.
Proof. intros H. unfold bind, calls. by rewrite H. Qed.

Lemma run_look {A B} (f : E -> A) (k : A -> act E B) g e : bind (look f) k g e = k (f e) g e.
Proof. reflexivity. Qed.

(** ** Times *)

Lemma select_fields l u s :
  l !! 10%nat = Some u -> l !! 11%nat = Some s ->
  select (tail stat_format) l !! 10%nat = Some u /\ select (tail stat_format) l !! 11%nat = Some s.
Proof. intros Hu Hs. do 12 (destruct l as [|? l]; [done|]). injection Hu as ->. injection Hs as ->. done. Qed.

Lemma stored_field got old i n :
  i <> F_NLWP -> got !! i = Some n -> one_thread (stored got old) !! i = Some n.
Proof.
  intros Hi Hn. unfold one_thread.
  assert (Hs : stored got old !! i = Some n) by (unfold stored; by apply lookup_app_l_Some).
  destruct (bool_decide _); [|done]. by rewrite list_lookup_insert_ne.
Qed.

(** C22. The times of a process are read right, whatever its name.  When the file of
    Linux has the line of a process of any name, with blanks and parentheses in
    it, and at least twelve numbers after the letter of its state, the reply has
    the eleventh and the twelfth number, the user and the system time, times the
    ticks of a second, in the 32 bits of the message, and the time since the
    host started; what the static record held before has no part in it. *)
Theorem times_any_name ticks PS pid comm st l u s n e' g e :
  read_stat e = (n, e') -> 0 < n -> sbuf e' = stat_line pid comm st l ->
  word64 pid -> st <> CH_CLOSE -> Forall word64 l ->
  l !! 10%nat = Some u -> l !! 11%nat = Some s ->
  do_times ticks PS g e =
    Ok (OK, [to_long ((u * ticks) mod 2 ^ 64); to_long ((s * ticks) mod 2 ^ 64);
             to_long (get_uptime ticks (fst (clock_gettime e')) (snd (clock_gettime e')))]) g e'.
Proof.
  intros Hr Hn Hb Hp Hst Hl Hu Hs. unfold do_times.
  rewrite (run_calls read_stat _ _ _ _ _ Hr), run_look, (proj2 (Z.leb_gt n 0) Hn), run_look, Hb, stat2proc_line by done.
  rewrite run_look. destruct (select_fields l u s Hu Hs) as [Hu' Hs']. unfold stat_time.
  rewrite (stored_field _ _ F_UTIME u), (stored_field _ _ F_STIME s) by done. reflexivity.
Qed.

(** ** Priorities *)

(** A priority of -1 that was set is answered with an old error.  [getpriority] may
    return -1 with success, but [errno] is not cleared before the call. *)
Lemma nice_minus_one ep g e e1 (nr := ENDPOINT_P (ENDPOINT_P ep)) (x := proc_mapped e (nr + dc_nr_tasks (s_dc g))) :
  p_rts_flags x <> SLOT_FREE -> nr_sysprocs g <= p_nr x + dc_nr_tasks (s_dc g) ->
  setpriority (p_lpid x) (-1) e = (0, e1) -> proc_mapped e1 = proc_mapped e ->
  getpriority (p_lpid x) e1 = (-1, e1) -> errno e1 <> 0 ->
  do_nice ep (-1) g e = Ok (errno e1, []) g e1.
Proof.
  intros Hf Hs Hset Hm Hget Hno. unfold do_nice. fold nr. unfold bind at 1, PROC2PTR at 1. fold x.
  rewrite (proj2 (Z.eqb_neq _ _) Hf), run_globals, (proj2 (Z.ltb_ge _ _) Hs).
  change ((-1 <? PRIO_MIN) || (-1 >? PRIO_MAX)) with false. cbv iota.
  rewrite (run_calls (setpriority (p_lpid x) (-1)) _ _ _ _ _ Hset). cbn [Z.ltb Z.compare].
  unfold bind at 1, PROC2PTR at 1. rewrite Hm. fold x.
  rewrite (run_calls (getpriority (p_lpid x)) _ _ _ _ _ Hget), run_look. cbn [Z.eqb Pos.eqb andb].
  by rewrite (proj2 (Z.eqb_neq _ _) Hno).
Qed.

(** ** The process table *)

(** The memory of [SystaskFlow] with the descriptors in it: [proc_byte x k] is the
    byte [k] of the [z] bytes of the descriptor [x] as the caller sees it. *)
Class TableMemory {M : Memory (E := E)} (me z : Z) := {
  proc_byte : proc -> Z -> Z;
  memcpy_ok a i e p b : mem (memcpy_proc a i e) p b =
    if (p =? me) && (a <=? b) && (b <? a + z) then proc_byte (proc_mapped e i) (b - a) else mem e p b;
  memcpy_table a i e : proc_mapped (memcpy_proc a i e) = proc_mapped e;
  alloc_table n e : proc_mapped (snd (posix_memalign n e)) = proc_mapped e;
  free_mem_ok a e p b : p <> me -> mem (free_mem a e) p b = mem e p b;
}.
Context {M : Memory (E := E)} (me z : Z) {TM : TableMemory me z}.

(** Entry by entry, from [i] on, the block [a] gets the table. *)
Lemma run_table_loop n i a g e :
  0 < z -> 0 <= i -> exists e', for_upto n i (fun i => does (memcpy_proc (a + z * i) i)) g e = Ok tt g e' /\
    proc_mapped e' = proc_mapped e /\
    (forall j k, i <= j < i + Z.of_nat n -> 0 <= k < z -> mem e' me (a + z * j + k) = proc_byte (proc_mapped e j) k) /\
    (forall b, b < a + z * i -> mem e' me b = mem e me b).
Proof.
  intros Hz. revert i e. induction n as [|n IH]; intros i e Hi; cbn [for_upto].
  { exists e. split; [reflexivity|]. split; [done|]. split; [lia|done]. }
  unfold bind, does at 1. destruct (IH (i + 1) (memcpy_proc (a + z * i) i e)) as (e' & -> & Ht & Hin & Hout); [lia|].
  exists e'. split; [done|]. rewrite memcpy_table in *. split; [done|]. split.
  - intros j k Hj Hk. destruct (decide (j = i)) as [->|Hne]; [|apply Hin; lia].
    rewrite Hout by nia. rewrite memcpy_ok, Z.eqb_refl, (proj2 (Z.leb_le _ _)), (proj2 (Z.ltb_lt _ _)) by lia.
    cbn [andb]. f_equal. lia.
  - intros b Hb. rewrite Hout by nia. rewrite memcpy_ok, (proj2 (Z.leb_gt (a + z * i) b)) by lia.
    by rewrite andb_false_r.
Qed.

Lemma run_proctab_src L garbage who_e ep buf e1 g e :
  z = z_proc L -> 0 < z -> posix_memalign (z * nr_slots g) e = (Some buf, e1) ->
  exists e2, getinfo_src L garbage who_e GET_PROCTAB ep g e = Ok (I_SRC buf (z * nr_slots g) true) g e2 /\
    for_upto (Z.to_nat (nr_slots g)) 0 (fun i => does (memcpy_proc (buf + z * i) i)) g e1 = Ok tt g e2 /\
    forall j k, 0 <= j < nr_slots g -> 0 <= k < z -> mem e2 me (buf + z * j + k) = proc_byte (proc_mapped e j) k.
Proof.
  intros Hzl Hz Hal.
  destruct (run_table_loop (Z.to_nat (nr_slots g)) 0 buf g e1) as (e2 & Hloop & _ & Hin & _); [done|done|].
  exists e2. split; [|split; [done|]].
  - unfold getinfo_src. rewrite run_globals. cbn [Z.eqb Pos.eqb GET_PROCTAB GET_KINFO GET_MACHINE]. unfold heap_copy.
    rewrite <- Hzl, (run_calls (posix_memalign _) _ _ _ _ _ Hal). unfold bind. by rewrite Hloop.
  - intros j k Hj Hk. pose proof (alloc_table (z * nr_slots g) e) as Ht. rewrite Hal in Ht. cbn in Ht.
    rewrite Hin, Ht by lia. done.
Qed.

(** The process table reaches the caller whole.  A process, not the task itself,
    that asks for the table with room for it gets, if the copy succeeds, the
    descriptor of every entry, tasks and processes, at its place in the block;
    the buffer of the task is released before the reply. *)
Theorem proctab_copied L garbage who_e addr len ep buf e1 g e :
  z = z_proc L -> 0 < z -> 0 <= nr_slots g -> SYSTASK (local_nodeid g) = me -> who_e <> me ->
  posix_memalign (z * nr_slots g) e = (Some buf, e1) -> z * nr_slots g <= len ->
  exists rc e2, do_getinfo L garbage who_e GET_PROCTAB addr len ep g e = Ok (rc, []) g (free_mem buf e2) /\
    (rc = OK -> forall j k, 0 <= j < nr_slots g -> 0 <= k < z ->
       mem (free_mem buf e2) who_e (addr + z * j + k) = proc_byte (proc_mapped e j) k).
Proof.
  intros Hzl Hz Hn Hme Hw Hal Hlen. unfold do_getinfo.
  destruct (run_proctab_src L garbage who_e ep buf e1 g e Hzl Hz Hal) as (e2 & Hsrc & _ & Hin).
  rewrite (run_then _ _ _ _ _ _ _ Hsrc). rewrite !Z.gtb_ltb, (proj2 (Z.ltb_ge len _)), andb_false_r by lia.
  rewrite run_globals, Hme. destruct (mnx_vcopy me buf who_e addr (z * nr_slots g) e2) as [rc e3] eqn:Hcp.
  rewrite (run_calls (mnx_vcopy _ _ _ _ _) _ _ _ _ _ Hcp). exists rc, e3. split; [reflexivity|].
  intros -> j k Hj Hk. rewrite free_mem_ok by done. rewrite (vcopy_ok me buf who_e addr _ e2 e3) by (done || congruence).
  rewrite Z.eqb_refl, (proj2 (Z.leb_le _ _)), (proj2 (Z.ltb_lt _ _)) by nia. cbn [andb].
  replace (buf + (addr + z * j + k - addr)) with (buf + z * j + k) by lia. by apply Hin.
Qed.

(** A caller with too little room leaves the buffer of the task allocated. *)
Lemma proctab_leaks L garbage who_e addr len ep buf e1 g e :
  z = z_proc L -> 0 < z -> posix_memalign (z * nr_slots g) e = (Some buf, e1) -> 0 < len < z * nr_slots g ->
  exists e2, do_getinfo L garbage who_e GET_PROCTAB addr len ep g e = Ok (EMOL2BIG, []) g e2 /\
    for_upto (Z.to_nat (nr_slots g)) 0 (fun i => does (memcpy_proc (buf + z * i) i)) g e1 = Ok tt g e2.
Proof.
  intros Hzl Hz Hal Hlen. unfold do_getinfo.
  destruct (run_proctab_src L garbage who_e ep buf e1 g e Hzl Hz Hal) as (e2 & Hsrc & Hloop & _).
  exists e2. split; [|done]. rewrite (run_then _ _ _ _ _ _ _ Hsrc).
  by rewrite !Z.gtb_ltb, !(proj2 (Z.ltb_lt _ _)) by lia.
Qed.
End Reading.

(** ** Programs of other nodes *)

Section Programs.
Context {E : Type} `{!Host E} `{!TaskHost E}.
Context (D : dc_t) {HL : HostLaws E} {TL : TaskLaws E D} {BL : BindLaws (E := E) D} {XL : ExitLaws (E := E) D}.
Implicit Types (g : sys) (e : E).

(** Linux and the copies leave the mapped table alone. *)
Class TableKept := {
  tk_alloc n e : same_table e (snd (posix_memalign n e));
  tk_vcopy src sa dst da n e : same_table e (snd (mnx_vcopy src sa dst da n e));
  tk_spawn e : same_table e (snd (spawn e));
  tk_name i s e : same_table e (strncpy_name i s e);
  tk_free a e : same_table e (free_mem a e);
}.
Context {TK : TableKept}.

(** The arguments of a program of one to nine words arrive in the buffer [buf], and
    a child [lpid] is made. *)
Record spawned (src ptr me len : Z) e (buf lpid : Z) (argv : list (list Z)) e' : Prop := {
  sp_alloc : fst (posix_memalign (MAXCOPYBUF + 1) e) = Some buf;
  sp_copy : let e1 := snd (posix_memalign (MAXCOPYBUF + 1) e) in
    fst (mnx_vcopy src ptr me buf len e1) = OK /\
    strtok_all [] (argv_buf (snd (mnx_vcopy src ptr me buf len e1))) = argv /\
    spawn (snd (mnx_vcopy src ptr me buf len e1)) = (lpid, e');
  sp_argv : (0 < length argv < MNX_MAX_ARGS)%nat;
  sp_lpid : 0 <= lpid;
}.

Lemma spawned_table src ptr me len e buf lpid argv e' :
  spawned src ptr me len e buf lpid argv e' -> same_table e e'.
Proof.
  intros [_ (_ & _ & H) _ _] j. match type of H with spawn ?x = _ => pose proof (tk_spawn x j) as Hs end.
  rewrite H in Hs. cbn in Hs. by rewrite Hs, tk_vcopy, tk_alloc.
Qed.

Lemma run_rexec_args src ptr len buf lpid argv e' fail k g e :
  spawned src ptr (SYSTASK (local_nodeid g)) len e buf lpid argv e' ->
  exists e2, rexec_args src ptr len fail k g e = k buf argv g e2 /\ spawn e2 = (lpid, e').
Proof.
  intros [Ha (Hc & Hv & Hs) Hn Hl]. unfold rexec_args. rewrite run_globals.
  destruct (posix_memalign (MAXCOPYBUF + 1) e) as [r e1] eqn:Hal. cbn in *. subst r.
  rewrite (run_calls (posix_memalign (MAXCOPYBUF + 1)) _ _ _ _ _ Hal).
  destruct (mnx_vcopy _ _ _ _ _ e1) as [rc e2] eqn:Hcp. cbn in *. subst rc.
  rewrite (run_calls (mnx_vcopy _ _ _ _ _) _ _ _ _ _ Hcp). cbn [Z.ltb OK Z.compare]. rewrite run_look, Hv.
  rewrite !bool_decide_eq_false_2 by lia. by exists e2.
Qed.

(** The kernel is asked for the endpoint [ep] of a free slot of this node; no counter
    changes. *)
Lemma run_rexec node ep len ptr thrower now buf lpid argv e' g e (i := ENDPOINT_P ep + dc_nr_tasks D) :
  fits D g -> user D i -> owns_free g e i = true -> ep <> ANY -> len <= MAXCOPYBUF ->
  node = local_nodeid g -> p_nodeid (proc_mapped e (PM_PROC_NR + dc_nr_tasks D)) <> local_nodeid g ->
  spawned thrower ptr (SYSTASK (local_nodeid g)) len e buf lpid argv e' ->
  exists rc e1, bind_outcome (proc_mapped e i) (proc_mapped e1 i) rc /\ changed e e1 i /\
    do_rexec PM_PROC_NR node ep len ptr thrower now g e = Ok (if rc <? 0 then (rc, []) else (OK, [ep])) g e1.
Proof.
  intros [HD Htab Hsys Husr] [Hi1 Hi2] Hof Hany Hlen -> Hpm Hsp. unfold do_rexec.
  rewrite Z.gtb_ltb, (proj2 (Z.ltb_ge _ _) Hlen), Z.eqb_refl. cbn [negb].
  rewrite (run_proc2ptr D), run_globals, (proj2 (Z.eqb_neq _ _) Hpm) by done. cbn [negb].
  pose proof (spawned_table _ _ _ _ _ _ _ _ _ Hsp) as Ht. pose proof Hsp as [_ _ Hn Hl].
  destruct (run_rexec_args thrower ptr len buf lpid argv e' (fun _ rcode => says rcode)
    (rexec_local PM_PROC_NR (local_nodeid g) ep now) g e Hsp) as (e2 & -> & Hspawn).
  unfold rexec_local. rewrite (run_calls spawn _ _ _ _ _ Hspawn), (proj2 (Z.ltb_ge _ _) Hl), (proj2 (Z.eqb_neq _ _) Hany).
  cbn [negb]. unfold rexec_bind. rewrite run_globals, HD, Z.eqb_refl. cbn [negb]. fold i.
  destruct (owns_free_owns _ _ _ Hof) as [Hown Hfree].
  destruct (run_rd_slot i g e') as (t & Htt & Hrd); [split; lia|]. rewrite (run_then _ _ _ _ _ _ _ Hrd).
  unfold owns, owner_at in Hown. rewrite Htt in Hown. apply bool_decide_eq_true in Hown. injection Hown as ->.
  rewrite Z.eqb_refl, andb_false_r, (run_proc2ptr D) by done. fold i. rewrite Ht, Hfree.
  change (negb (TEST_BIT SLOT_FREE BIT_SLOT_FREE)) with false. cbv iota.
  destruct (bl_lclbind D lpid ep e') as (rc & e3 & Hb & Hout & Hbc); [fold i; by rewrite Ht|]. fold i in Hout, Hbc.
  rewrite Ht in Hout. rewrite <- HD in Hb. rewrite (run_kcall (fun d => mnx_lclbind d lpid ep) _ _ _ _ _ Hb).
  exists rc. destruct (rc <? 0).
  - exists e3. split; [done|]. split; [intros j Hj; by rewrite Hbc, Ht|done].
  - destruct argv as [|a argv]; [cbn in Hn; lia|]. eexists. split; [|split; [|reflexivity]].
    + by rewrite tk_free, tk_name.
    + intros j Hj. by rewrite tk_free, tk_name, Hbc, Ht.
Qed.

(** A program started for another node miscounts the slots.  On a node whose
    counters are exact, the process manager of another node starts a program at
    an endpoint of a free slot of this node: the answer is an error of the kernel, or
    the program is bound, the counter of free slots stays what it was, one too many,
    and the answer is the endpoint that was asked for, whatever the endpoint of the
    slot is. *)
Theorem rexec_miscounts node ep len ptr thrower now buf lpid argv e' g e (i := ENDPOINT_P ep + dc_nr_tasks D) :
  fits D g -> counted g e -> user D i -> owns_free g e i = true -> ep <> ANY -> len <= MAXCOPYBUF ->
  node = local_nodeid g -> p_nodeid (proc_mapped e (PM_PROC_NR + dc_nr_tasks D)) <> local_nodeid g ->
  spawned thrower ptr (SYSTASK (local_nodeid g)) len e buf lpid argv e' ->
  exists rc e1, do_rexec PM_PROC_NR node ep len ptr thrower now g e = Ok (if rc <? 0 then (rc, []) else (OK, [ep])) g e1 /\
    (0 <= rc -> counted (g <| free_slots ::= Z.pred |>) e1 /\
      p_endpoint (proc_mapped e1 i) = p_endpoint (proc_mapped e i)).
Proof.
  intros Hfit Hc Hi Hof Hany Hlen Hnode Hpm Hsp. pose proof (ft_dc _ _ Hfit) as HD.
  destruct (run_rexec node ep len ptr thrower now buf lpid argv e' g e) as (rc & e1 & (He & Hout) & Hch & Hrun); [done..|].
  exists rc, e1. split; [exact Hrun|]. intros Hrc. split; [|exact He].
  destruct Hout as [[? _]|(_ & Hbf & _)]; [lia|]. destruct (owns_free_owns _ _ _ Hof) as [Hown Hfr].
  apply (counted_change D g e _ e1 i (-1)); try done. left. split; [done|]. split; [exact Hof|]. unfold i. by rewrite Hbf.
Qed.
End Programs.
