(* ===== verification/SlotsScenario.v ===== *)
(** * A group of three system tasks

    A DC of six system and six user slots on the nodes 0, 1 and 2, over a kernel
    that binds what it is told; the theorems of the slot table at work, and two
    members that both take a slot when a third one leaves. *)

From S2P Require Import Prelude Types Endpoint Scenario Slots Systask SlotsLogic SystaskLogic SlotToken SlotsGroup SlotsTyped SlotsFlow SlotsFaults.
From stdpp Require Import relations functions.
#[local] Open Scope Z_scope.

(** ** The host *)

(** The process table; every call is granted, and a message is sent whole. *)
Definition ptable : Type := Z -> proc.

Definition at_slot (e : ptable) (i : Z) : proc := (e i) <| p_nr := i - 4 |>.
Definition edit (i : Z) (f : proc -> proc) (e : ptable) : ptable := <[i := f (at_slot e i)]> e.
Definition of_ep (ep : Z) : Z := ENDPOINT_P ep + 4.

#[export] Instance ptable_host : Host ptable := {|
  proc_mapped := at_slot;
  poke := edit;
  mnx_rmtbind d ep n e :=
    (OK, edit (of_ep ep) (fun x => x <| p_nodeid := n |> <| p_rts_flags := SET_BIT 0 BIT_REMOTE |>) e);
  mnx_lclbind d p ep e :=
    (p_endpoint (e (of_ep ep)), edit (of_ep ep) (fun x => x <| p_rts_flags := 0 |> <| p_misc_flags := 0 |>) e);
  mnx_unbind d ep e := (OK, edit (of_ep ep) (fun x => x <| p_rts_flags := SLOT_FREE |>) e);
  mnx_migr_start d ep e := (OK, e);
  mnx_migr_commit p d ep n e := (OK, e);
  mnx_migr_rollback d ep e := (OK, e);
  mnx_getpriv d ep e := (OK, e);
  SP_multicast m e := (1, e);
|}.

#[export] Instance ptable_task : TaskHost ptable := {|
  mnx_ntfy_value a b c e := (OK, e);
  mnx_wait4unbind_T ep t e := (OK, e);
  mnx_vcopy a b c d n e := (OK, e);
  mnx_setpriv d ep l e := (OK, e);
  mnx_replbind d nr e := (nr, e);
  cp_req e i := mk_vcp 0 0 0 0 0;
  reset_alarm nr e := e;
  errno e := 0;
  setpriority p n e := (0, e);
  getpriority p e := (0, e);
  posix_memalign n e := (Some 4096, e);
  free_mem a e := e;
  memcpy_proc a i e := e;
  strncpy_name i s e := e;
  clock_gettime e := (0, 0);
  read_stat e := (0, e);
  sbuf e := [];
  argv_buf e := [108; 115; 32; 45; 108];
  spawn e := (1, e);
  stop_child p e := e;
|}.

Definition layout3 : layout := mk_layout 0 256 512 8192 64 64 128 16 32.

#[export] Instance ptable_reliable : Reliable ptable.
Proof. intros m e. cbn. lia. Qed.

Lemma set_nr x n : p_nr x = n -> x <| p_nr := n |> = x.
Proof. intros <-. by destruct x. Qed.

Lemma edit_same i f e : p_nr (f (at_slot e i)) = i - 4 -> at_slot (edit i f e) i = f (at_slot e i).
Proof.
  intros H. unfold at_slot at 1. rewrite (fn_lookup_insert e i (f (at_slot e i)) : edit i f e i = _).
  by apply set_nr.
Qed.

Lemma edit_other i j f e : i <> j -> at_slot (edit i f e) j = at_slot e j.
Proof. intros H. unfold at_slot at 1. by rewrite (fn_lookup_insert_ne e i j (f (at_slot e i)) H : edit i f e j = _). Qed.

#[export] Instance ptable_laws : HostLaws ptable.
Proof. split; [apply edit_same|intros i j f e H; by apply edit_other|done]. Qed.

(** ** The members *)

Definition D3 : dc_t := mk_dc 0 0 8 4 6 7 1 3 [100] NONE 0.
Definition all_free : ptable := fun i => desc (i - 4) (i - 4) 0 0 SLOT_FREE 0 None.
Definition bound_table : ptable := fun i => desc (i - 4) (i - 4) 0 0 (SET_BIT 0 BIT_REMOTE) 0 None.

Definition table_of (owner : Z) : list slot_t :=
  map (fun i => mk_slot i NONE 0 owner) [0; 1; 2; 3; 4; 5; 6; 7; 8; 9; 10; 11].

(** The member [n] of the group [bm]; [owner] has all the slots, and its reserve is
    one slot. *)
Definition node (bm n owner : Z) : sys :=
  let k := if n =? owner then 6 else 0 in
  mk_sys D3 n STS_RUNNING 0 0 (count_mbrs bm 3 0) (count_mbrs bm 3 0) bm bm 0 0 0 0 0
    (table_of owner) (table_of owner) k 1 k 6 1 4 0 6 true false [].

#[export] Instance ptable_nr : TaskLaws ptable D3.
Proof. split. reflexivity. Qed.

Definition members3 : list Z := [0; 1; 2].
Definition group3 : group (E := ptable) :=
  mk_group (fun n => node 7 n 0) (fun _ => all_free) [] (fun _ => O).

Lemma user3 i : user D3 i -> i ∈ [6; 7; 8; 9; 10; 11].
Proof.
  intros [H1 H2]. change (dc_nr_sysprocs D3) with 6 in H1. change (dc_nr_slots D3) with 12 in H2.
  assert (i = 6 \/ i = 7 \/ i = 8 \/ i = 9 \/ i = 10 \/ i = 11) as H by lia.
  rewrite !elem_of_cons. tauto.
Qed.

Lemma start3 : group_start D3 members3 group3.
Proof.
  split; try done. intros i Hi%user3. exists 0. split; [by left|]. intros n Hn.
  assert (forallb (fun n => forallb (fun i => bool_decide (owner_at (node 7 n 0) i = Some 0)) [6; 7; 8; 9; 10; 11])
    members3 = true) as H by (vm_compute; reflexivity).
  apply forallb_forall with (x := n) in H; [|by apply list_elem_of_In].
  apply forallb_forall with (x := i) in H; [|by apply list_elem_of_In]. by apply bool_decide_eq_true in H.
Qed.

(** ** Steps of the group, computed *)

Definition no_part (_ : Z) : slot_t := mk_slot 0 NONE 0 0.

Definition deliver (n : Z) (G : group (E := ptable)) : option (group (E := ptable)) :=
  match G with mk_group sy en log pos =>
    m ← log !! pos n;
    match on_message (msource m) m no_part (sy n) (en n) with
    | Ok _ g e => Some (mk_group (<[n := drained g]> sy) (<[n := e]> en) (log ++ mcasts (out g)) (<[n := S (pos n)]> pos))
    | Stop _ _ _ => None
    end
  end.

(** The thread of SYSTASK of [n] serves a request of the process manager. *)
Definition frame0 : frame := mk_frame 100 0 4096 0 0 layout3 100 [].
Definition serves (n : Z) (q : rqst) (G : group (E := ptable)) : option (group (E := ptable)) :=
  match G with mk_group sy en log pos =>
    let (g, e) := state_of (serve frame0 PM_PROC_NR q (sy n) (en n)) in
    Some (mk_group (<[n := drained g]> sy) (<[n := e]> en) (log ++ mcasts (out g)) pos)
  end.

Lemma deliver_step n G G' : n ∈ members3 -> deliver n G = Some G' -> gstep members3 G G'.
Proof.
  intros Hn H. destruct G as [sy en log pos]. unfold deliver in H. destruct (log !! pos n) as [m|] eqn:Hm; [|done].
  cbn in H. destruct (on_message _ _ _ _ _) as [r g e|] eqn:Hr; [|done]. injection H as <-. by eapply gs_deliver.
Qed.

Lemma serves_step n q G G' : n ∈ members3 -> serves n q G = Some G' -> gstep members3 G G'.
Proof.
  intros Hn H. destruct G as [sy en log pos]. unfold serves in H.
  destruct (state_of _) as [g e] eqn:Hr. injection H as <-. eapply gs_task; [done|]. by eapply tr_serve.
Qed.

(** Steps one after the other. *)
Definition steps (G : group (E := ptable)) (l : list (group (E := ptable) -> option (group (E := ptable)))) :
  option (group (E := ptable)) := foldl (fun o f => o ≫= f) (Some G) l.

Definition is_step (f : group (E := ptable) -> option (group (E := ptable))) : Prop :=
  forall G G', f G = Some G' -> gstep members3 G G'.

Lemma steps_none l : foldl (fun (o : option (group (E := ptable))) f => o ≫= f) None l = None.
Proof. by induction l. Qed.

Lemma steps_rtc G l G' : Forall is_step l -> steps G l = Some G' -> rtc (gstep members3) G G'.
Proof.
  intros Hl. revert G. induction Hl as [|f l Hf _ IH]; intros G H; cbn in H; [by injection H as ->|].
  destruct (f G) as [G1|] eqn:HG; [|by rewrite steps_none in H]. eapply rtc_l; [by apply Hf|by apply IH].
Qed.

(** A process of node 1 forks, and node 1 asks for slots, as it has none; node 0
    takes the request and gives one, and node 1 takes both messages. *)
Definition asking := [serves 1 (R_FORK 200); deliver 0; deliver 1; deliver 1].

(** Node 2, next to node 1, answers with none; nodes 0 and 1 take what is left. *)
Definition taking := asking ++ [deliver 2; deliver 0; deliver 0; deliver 1].

Lemma taking_steps : Forall is_step taking.
Proof.
  repeat apply list.Forall_cons_2; try apply list.Forall_nil_2.
  all: intros G G'; first [apply deliver_step | apply serves_step].
  all: unfold members3; rewrite !elem_of_cons; auto.
Qed.

Definition holds_in (o : option (group (E := ptable))) (P : group (E := ptable) -> bool) : bool :=
  match o with Some G => P G | None => false end.

Lemma holds_in_some o P : holds_in o P = true -> exists G, o = Some G /\ P G = true.
Proof. destruct o as [G|]; [|done]. by exists G. Qed.

(** ** The theorems at work *)

(** Node 1 has the slot 6, which node 2 still takes for a slot of node 0. *)
Lemma one_member_has_slot_witness :
  exists G, rtc (gstep members3) group3 G /\
    owner_at (g_sys G 1) 6 = Some 1 /\ owner_at (g_sys G 2) 6 = Some 0 /\
    exists n, n ∈ members3 /\ has_slot G n 6 /\ forall n', n' ∈ members3 -> has_slot G n' 6 -> n' = n.
Proof.
  assert (H : holds_in (steps group3 asking)
    (fun G => bool_decide (owner_at (g_sys G 1) 6 = Some 1 /\ owner_at (g_sys G 2) 6 = Some 0)) = true)
    by (vm_compute; reflexivity).
  apply holds_in_some in H as (G & HG & [H1 H2]%bool_decide_eq_true). exists G.
  assert (Hr : rtc (gstep members3) group3 G).
  { eapply steps_rtc; [|exact HG]. pose proof taking_steps as Ht. by apply Forall_app in Ht as [Ht _]. }
  split; [done|]. split; [done|]. split; [done|].
  exact (one_member_has_slot D3 members3 group3 G 6 start3 Hr ltac:(split; vm_compute; congruence)).
Defined.

Lemma tables_agree_witness :
  exists G, rtc (gstep members3) group3 G /\ g_pos G 0 = 3%nat /\
    owner_at (g_sys G 0) 6 = Some 1 /\ owner_at (g_sys G 0) 6 = owner_at (g_sys G 1) 6.
Proof.
  assert (H : holds_in (steps group3 taking)
    (fun G => bool_decide (g_pos G 0 = 3%nat /\ g_pos G 1 = 3%nat /\ length (g_log G) = 3%nat /\
                           owner_at (g_sys G 0) 6 = Some 1)) = true) by (vm_compute; reflexivity).
  apply holds_in_some in H as (G & HG & (H0 & H1 & Hl & Ho)%bool_decide_eq_true). exists G.
  assert (Hr : rtc (gstep members3) group3 G) by (eapply steps_rtc; [apply taking_steps|exact HG]).
  split; [done|]. split; [done|]. split; [done|].
  apply (tables_agree D3 members3 group3 G 6 0 1 start3 Hr); [split; vm_compute; congruence|by left|by right; left|congruence..].
Defined.

Lemma globals_typed_witness :
  typed D3 0 (node 7 0 0) /\
  exists g' e', rtc (slots_step (E := ptable)) (init_global_vars (node 7 0 0), all_free) (g', e') /\
    FSM_state g' = STS_RUNNING /\ typed D3 0 g' /\ FSM_state g' ≠ STS_MERGE_STATUS.
Proof.
  assert (Ht : typed D3 0 (node 7 0 0)).
  { split; try reflexivity. apply fsm_const. vm_compute. reflexivity. }
  split; [exact Ht|]. pose (o := slots_loop (EV_JOIN 0 [0]) (init_global_vars (node 7 0 0)) all_free).
  assert (Ho : (match o with Ok _ g _ => FSM_state g =? STS_RUNNING | _ => false end) = true) by (vm_compute; reflexivity).
  destruct o as [r g e|] eqn:Hrun; [|done]. apply Z.eqb_eq in Ho.
  assert (Hr : rtc (slots_step (E := ptable)) (init_global_vars (node 7 0 0), all_free) (g, e)).
  { apply rtc_once. econstructor. exact Hrun. }
  exists g, e. split; [exact Hr|]. split; [exact Ho|]. exact (globals_typed D3 0 (node 7 0 0) all_free g e Ht Hr).
Defined.

(** Node 0 may answer the others. *)
Lemma may_answer3 bm n o r :
  bool_decide (r <> n /\ TEST_BIT bm r = true /\ 0 <= r < 3) = true -> may_answer (node bm n o) r.
Proof. intros (? & ? & ?)%bool_decide_eq_true. split; try done. Qed.

Lemma donation_exact_witness :
  donation (node 7 0 0) 8 = 4 /\
  exists rc l g' e', sp_req_slots 1 8 (node 7 0 0) all_free = Ok rc g' e' /\
    donated_to (node 7 0 0) all_free 1 (Z.min SLOTS_BY_MSG (donation (node 7 0 0) 8)) l g' e' /\
    free_slots_low g' <= free_slots g'.
Proof.
  split; [vm_compute; reflexivity|].
  apply (donation_exact 1 8 (node 7 0 0) all_free); [by apply may_answer3|split; vm_compute; reflexivity|..].
  all: vm_compute; congruence.
Defined.

Lemma request_is_answered_witness :
  exists n, n <> 1 /\ next_after 3 7 1 n /\
    forall g e, may_answer g 1 -> bm_init g = 7 -> nr_nodes g = 3 -> local_nodeid g = n ->
      if (bm_donors g =? 0) && (init_nodes g <=? 1) then sp_req_slots 1 8 g e = Stop S_ASSERT g e
      else replied (E := ptable) g 1 (if bm_donors g =? 0 then capped (donation g 8) else 0) (sp_req_slots 1 8 g e).
Proof. apply (request_is_answered 1 8 0 7 3); [lia|lia|lia|vm_compute; reflexivity]. Defined.

(** Node 0 has nothing to give to node 1, and is not next to it. *)
Lemma put_off_reply_wild_witness :
  exists g1, sp_req_slots 1 8 (node 7 0 2) all_free = Ok OK g1 all_free /\ out g1 = [] /\
    exists g2 e2, sp_don_slots 2 1 4 [6; 7; 8; 9] g1 all_free = Stop S_WILD g2 e2.
Proof.
  apply (put_off_reply_wild 1 8 2 4 [6; 7; 8; 9] (node 7 0 2) all_free); [by apply may_answer3|..].
  9: repeat apply list.Forall_cons_2; [split; vm_compute; congruence..|apply list.Forall_nil_2].
  all: vm_compute; first [reflexivity | congruence | lia].
Defined.

Lemma merge_own_status_wild_witness :
  exists m g1 e1, sp_net_merge (node 3 0 0) all_free = Ok OK g1 e1 /\ out g1 = [] ++ [A_MCAST m] /\
    msource m = 0 /\ on_message (msource m) m no_part g1 e1 = Stop S_WILD g1 e1.
Proof.
  apply (merge_own_status_wild no_part (node 3 0 0) all_free); vm_compute; first [reflexivity | congruence].
Defined.

(** Node 0 owns the slot 6 of the process 2, and tells node 1 of a fork there. *)
Lemma fork_refused_witness :
  owner_at (node 7 1 0) 6 = Some 0 /\
  sp_syscall 0 MOLFORK 2 2 (node 7 1 0) all_free = Ok EMOLBADOWNER (node 7 1 0) all_free.
Proof.
  split; [vm_compute; reflexivity|].
  apply (fork_refused 0 2 2 MOLFORK (node 7 1 0) all_free); [vm_compute; congruence..|split; vm_compute; congruence|by left].
Defined.

Lemma migration_not_applied_witness :
  exists rc g', sp_syscall 2 MOLMIGRPROC 0 0 (node 7 1 0) bound_table = Ok rc g' bound_table /\
    owner_at g' 4 = Some 2.
Proof.
  apply (migration_not_applied 2 0 0 (node 7 1 0) bound_table); [vm_compute; congruence..|split; vm_compute; congruence|].
  vm_compute. congruence.
Defined.

(** Nodes 1 and 2 are cut off from the primary 0. *)
Definition cut_off : sys := (node 7 1 0) <| bm_active := 6 |>.

Lemma partition_restarts_witness :
  exists g', sp_net_partition cut_off all_free = Ok OK g' all_free /\
    FSM_state g' = STS_NEW /\ bm_init g' = 0 /\ out g' = [] ++ [A_DISCONNECT; A_JOIN].
Proof. apply (partition_restarts cut_off all_free); vm_compute; congruence. Defined.

(** [#12.3#n]. *)
Lemma nodeid_roundtrip_witness : get_nodeid (35 :: User 12 3 ++ 35 :: [110]) = 12.
Proof. apply (nodeid_roundtrip 12 3 [110] 35); [lia|vm_compute; congruence]. Defined.

(** ** A member leaves *)

(** The events of one member, until it stops. *)
Fixpoint takes (l : list event) (g : sys) (e : ptable) : option (sys * ptable) :=
  match l with
  | [] => Some (g, e)
  | ev :: l =>
      match slots_loop ev g e with
      | Ok _ g e => takes l g e
      | Stop _ _ _ => None
      end
  end.

Definition after (o : option (sys * ptable)) (P : sys -> bool) : bool :=
  match o with Some (g, _) => P g | None => false end.

Lemma after_some o P : after o P = true -> exists g e, o = Some (g, e) /\ P g = true.
Proof. destruct o as [[g e]|]; [|done]. by exists g, e. Qed.

(** Node 2 asks for six slots, node 1 gives it three and node 0 none, and then
    node 2 leaves. *)
Definition ask2 : smsg := M_REQ_SLOTS 2 6 0 0.
Definition give1 : smsg := M_DON_SLOTS 1 2 3 [6; 7; 8; 0].
Definition give0 : smsg := M_DON_SLOTS 0 2 0 [0; 0; 0; 0].
Definition leaving : list event :=
  [EV_MESS 2 ask2 no_part; EV_MESS 1 give1 no_part; EV_MESS 0 give0 no_part; EV_LEAVE 2 [0; 1]].

(** A departure gives a slot to two members.  Node 1, which has all the slots,
    gives three to node 2; it takes its own message of the donation, and the mark
    of a slot being donated stays on the second and the third.  When node 2
    leaves, after the others have taken its request and the two donations, node 1
    takes these two slots back and the primary, node 0, takes them too: the two
    members took the same events in the same order, and both own the slots 7
    and 8. *)
Theorem departure_two_owners :
  exists g0 e0 g1 e1,
    takes leaving (node 7 0 1) all_free = Some (g0, e0) /\
    takes leaving (node 7 1 1) all_free = Some (g1, e1) /\
    out g0 = [A_MCAST give0] /\ out g1 = [A_MCAST give1] /\
    Forall (fun i => owner_at g0 i = Some 0 /\ owner_at g1 i = Some 1) [7; 8] /\
    owned_slots g0 = 3 /\ owned_slots g1 = 5.
Proof.
  assert (H0 : after (takes leaving (node 7 0 1) all_free) (fun g => bool_decide (
    owner_at g 7 = Some 0 /\ owner_at g 8 = Some 0 /\ owned_slots g = 3 /\ out g = [A_MCAST give0])) = true)
    by (vm_compute; reflexivity).
  assert (H1 : after (takes leaving (node 7 1 1) all_free) (fun g => bool_decide (
    owner_at g 7 = Some 1 /\ owner_at g 8 = Some 1 /\ owned_slots g = 5 /\ out g = [A_MCAST give1])) = true)
    by (vm_compute; reflexivity).
  apply after_some in H0 as (g0 & e0 & H0 & (A1 & A2 & A3 & A4)%bool_decide_eq_true).
  apply after_some in H1 as (g1 & e1 & H1 & (B1 & B2 & B3 & B4)%bool_decide_eq_true).
  exists g0, e0, g1, e1. repeat (split; [assumption|]). split; [|by split].
  repeat apply list.Forall_cons_2; [by split..|apply list.Forall_nil_2].
Qed.
