(* ===== verification/SystaskScenario.v ===== *)
(** * A system task at work

    The theorems of [SystaskFlow] on the members of [SlotsScenario], and on a host
    that is the memory of the processes. *)

From S2P Require Import Prelude Types Endpoint Kernel Unbind Hyper Bind Proxies Migrate BindFlow Scenario Slots Systask SlotsLogic SystaskLogic SlotToken SlotsGroup SlotsFlow StatFile SystaskFlow SystaskInfo SlotsScenario.
From S2P Require HyperScenario.
#[local] Open Scope Z_scope.

#[export] Instance ptable_bind : BindLaws (E := ptable) D3.
Proof.
  split. intros pid ep e i Hi. eexists _, _. split; [reflexivity|].
  rewrite (edit_same i (fun x => x <| p_rts_flags := 0 |> <| p_misc_flags := 0 |>) e) by reflexivity.
  split; [split; [done|by right]|]. intros j Hj. apply edit_other. intros He. apply Hj. by rewrite <- He.
Qed.

#[export] Instance ptable_exit : ExitLaws (E := ptable) D3.
Proof.
  split; [|done]. intros ep e i. eexists OK, _. split; [reflexivity|].
  rewrite (edit_same i (fun x => x <| p_rts_flags := SLOT_FREE |>) e) by reflexivity.
  split; [|done]. intros j Hj. apply edit_other. intros He. apply Hj. by rewrite <- He.
Qed.

(** Node 0, alone, with all the slots: six of them free. *)
Definition alone : sys := node 1 0 0.

Lemma alone_fits : fits D3 alone.
Proof. by split. Qed.

Lemma alone_counted : counted alone all_free.
Proof. split; vm_compute; reflexivity. Qed.

Lemma free_endpoints : endpoints_ok D3 all_free.
Proof.
  intros i Hi. pose proof Hi as [Hi1 Hi2]. change (dc_nr_sysprocs D3) with 6 in Hi1. change (dc_nr_slots D3) with 12 in Hi2.
  change (dc_nr_tasks D3) with 4. change (p_endpoint (proc_mapped all_free i)) with (i - 4). split_and!.
  - unfold slot_number. endpoint_consts. lia.
  - unfold ENDPOINT_G. endpoint_consts. apply Z.quot_pos; lia.
  - unfold ENDPOINT_P. endpoint_consts. rewrite Z.rem_small; lia.
Qed.

(** Six forks are granted, the seventh stops the task. *)
Definition six : list (Z * Z) := [(201, 100); (202, 100); (203, 101); (204, 101); (205, 102); (206, 102)].

Lemma forks_stop_task_witness :
  exists eps g1 e1, forks 0 six alone all_free = Ok eps g1 e1 /\ length eps = 6%nat /\ free_slots g1 = 6 /\
    (Forall (fun rc => 0 <= rc) eps ->
     Forall (fun rc => exists i, user D3 i /\ owns_free alone all_free i = true /\ rc = p_endpoint (proc_mapped all_free i)) eps /\
     (forall j, user D3 j -> owns_free g1 e1 j = false) /\
     forall lpid now, exists g2 e2, do_fork 0 lpid now g1 e1 = Stop S_ASSERT g2 e2).
Proof.
  apply (forks_stop_task D3 0 six alone all_free);
    [apply alone_fits|apply alone_counted|reflexivity|reflexivity|apply free_endpoints|reflexivity].
Defined.

(** They are the first six slots of user processes. *)
Example six_endpoints :
  match forks 0 six alone all_free with Ok eps g1 _ => (eps, free_slots g1) | Stop _ g1 _ => ([], free_slots g1) end =
  ([2; 3; 4; 5; 6; 7], 6).
Proof. vm_compute. reflexivity. Qed.


(** All the user slots are taken. *)
Definition full : sys := alone <| free_slots := 0 |>.

Lemma system_exit_miscounts_witness :
  exists rc g1 e1, do_exit 0 1 0 full bound_table = Ok (rc, []) g1 e1 /\
    (0 <= rc -> free_slots g1 = 1 /\ exists g2 e2, do_fork 0 200 100 g1 e1 = Stop S_ASSERT g2 e2).
Proof.
  apply (system_exit_miscounts D3 0 1 0 0 200 100 full bound_table); try reflexivity.
  - by split.
  - split; vm_compute; reflexivity.
  - split; vm_compute; congruence.
  - vm_compute. congruence.
Defined.

Lemma limits_leave_room_witness :
  let h := init_limits alone in
  0 <= 2 * free_slots_low h <= min_owned_slots h /\
  min_owned_slots h * nr_nodes h <= total_slots h /\
  min_owned_slots h <= max_owned_slots (set_max_owned (h <| init_nodes := 2 |>)) <= total_slots h.
Proof. apply (limits_leave_room alone 2); [split; vm_compute; congruence|reflexivity|split; vm_compute; congruence]. Defined.

(** ** A memory *)

Definition memory : Type := Z -> Z -> Z.

#[export] Instance memory_host : Host memory := {|
  proc_mapped e i := desc (i - 4) (i - 4) 0 0 0 0 None;
  poke i f e := e;
  mnx_rmtbind d ep n e := (OK, e);
  mnx_lclbind d p ep e := (ep, e);
  mnx_unbind d ep e := (OK, e);
  mnx_migr_start d ep e := (OK, e);
  mnx_migr_commit p d ep n e := (OK, e);
  mnx_migr_rollback d ep e := (OK, e);
  mnx_getpriv d ep e := (OK, e);
  SP_multicast m e := (1, e);
|}.

#[export] Instance memory_task : TaskHost memory := {|
  mnx_ntfy_value a b c e := (OK, e);
  mnx_wait4unbind_T ep t e := (OK, e);
  mnx_vcopy src sa dst da n e :=
    (0, fun p a => if (p =? dst) && (da <=? a) && (a <? da + n) then e src (sa + (a - da)) else e p a);
  mnx_setpriv d ep l e := (OK, e);
  mnx_replbind d nr e := (nr, e);
  cp_req e i := mk_vcp 0 0 0 0 0;
  reset_alarm nr e := e;
  errno e := 0;
  setpriority p n e := (0, e);
  getpriority p e := (0, e);
  posix_memalign n e := (Some 4096, e);
  free_mem a e := e;
  memcpy_proc a i e := fun p b =>
    if (p =? SYSTEM) && (a <=? b) && (b <? a + 128) then i - 4 + (b - a) else e p b;
  strncpy_name i s e := e;
  clock_gettime e := (0, 0);
  read_stat e := (0, e);
  sbuf e := [];
  argv_buf e := [];
  spawn e := (1, e);
  stop_child p e := e;
|}.

#[export] Instance memory_laws : Memory (E := memory).
Proof. refine {| mem := fun e => e |}. intros src sa dst da n e e' _ [= <-] p a. reflexivity. Defined.

(** Ten bytes in pages of four, filled with sevens. *)
Definition sevens : memory := fun _ _ => 7.

Lemma memset_fills_witness :
  exists rc e', do_memset 5 0 4 10 100 alone sevens = Ok (rc, []) alone e' /\ (rc = 0 -> filled sevens 5 100 10 7 e').
Proof. apply (memset_fills 5 0 4 10 100 7 alone sevens); [lia|lia|vm_compute; congruence|done]. Defined.

(** ** Times *)

(** A process whose name is [:-) 1 2 3], with 500 ticks of its own and 40 of the
    system. *)
Definition comm : list Z := [58; 45; 41; 32; 49; 32; 50; 32; 51].
Definition numbers : list Z := [1; 7; 7; 0; -1; 4194304; 10; 0; 0; 0; 500; 40; 0; 0; 20; 0].

Definition accounts : Type := list Z.

#[export] Instance accounts_host : Host accounts := {|
  proc_mapped e i := desc (i - 4) (i - 4) 0 0 0 0 None;
  poke i f e := e;
  mnx_rmtbind d ep n e := (OK, e);
  mnx_lclbind d p ep e := (ep, e);
  mnx_unbind d ep e := (OK, e);
  mnx_migr_start d ep e := (OK, e);
  mnx_migr_commit p d ep n e := (OK, e);
  mnx_migr_rollback d ep e := (OK, e);
  mnx_getpriv d ep e := (OK, e);
  SP_multicast m e := (1, e);
|}.

(** The file is the state; [errno] has an old error. *)
#[export] Instance accounts_task : TaskHost accounts := {|
  mnx_ntfy_value a b c e := (OK, e);
  mnx_wait4unbind_T ep t e := (OK, e);
  mnx_vcopy a b c d n e := (OK, e);
  mnx_setpriv d ep l e := (OK, e);
  mnx_replbind d nr e := (nr, e);
  cp_req e i := mk_vcp 0 0 0 0 0;
  reset_alarm nr e := e;
  errno e := 2;
  setpriority p n e := (0, e);
  getpriority p e := (-1, e);
  posix_memalign n e := (Some 4096, e);
  free_mem a e := e;
  memcpy_proc a i e := e;
  strncpy_name i s e := e;
  clock_gettime e := (12, 500000000);
  read_stat e := (Z.of_nat (length e), e);
  sbuf e := e;
  argv_buf e := [];
  spawn e := (1, e);
  stop_child p e := e;
|}.

Definition stat_file : accounts := stat_line 7 comm 83 numbers.

Lemma times_any_name_witness :
  do_times 100 [] alone stat_file = Ok (OK, [50000; 4000; 1250]) alone stat_file.
Proof.
  rewrite (times_any_name 100 [] 7 comm 83 numbers 500 40 (Z.of_nat (length stat_file)) stat_file alone stat_file);
    try reflexivity.
  - split; reflexivity.
  - discriminate.
  - repeat constructor; reflexivity.
Defined.

(** The priority of the process 4 is set to -1. *)
Lemma nice_minus_one_witness : do_nice 4 (-1) alone stat_file = Ok (2, []) alone stat_file.
Proof.
  rewrite (nice_minus_one 4 alone stat_file stat_file); try reflexivity; vm_compute; congruence.
Defined.

(** ** The process table *)

#[export] Instance memory_table : TableMemory (E := memory) SYSTEM 128.
Proof.
  refine {| proc_byte := fun x k => p_nr x + k |}; try done.
Defined.

Lemma proctab_copied_witness :
  exists rc e2, do_getinfo layout3 0 5 GET_PROCTAB 100 2000 0 alone sevens = Ok (rc, []) alone (free_mem 4096 e2) /\
    (rc = OK -> forall j k, 0 <= j < 12 -> 0 <= k < 128 ->
       mem (free_mem 4096 e2) 5 (100 + 128 * j + k) = proc_byte (proc_mapped sevens j) k).
Proof.
  apply (proctab_copied SYSTEM 128 layout3 0 5 100 2000 0 4096 sevens alone sevens); try reflexivity;
    vm_compute; congruence.
Defined.

(** ** Programs of other nodes *)

#[export] Instance ptable_kept : TableKept (E := ptable).
Proof. by split. Qed.

(** The process manager is on node 1. *)
Definition pm_away : ptable := <[4 := desc 0 0 0 1 (SET_BIT 0 BIT_REMOTE) 0 None]> all_free.

Lemma rexec_miscounts_witness :
  exists rc e1,
    do_rexec PM_PROC_NR 0 3 5 100 9 100 alone pm_away = Ok (if rc <? 0 then (rc, []) else (OK, [3])) alone e1 /\
    (0 <= rc -> counted (alone <| free_slots ::= Z.pred |>) e1 /\
      p_endpoint (proc_mapped e1 7) = p_endpoint (proc_mapped pm_away 7)).
Proof.
  apply (rexec_miscounts D3 0 3 5 100 9 100 4096 1 [[108; 115]; [45; 108]] pm_away alone pm_away);
    try reflexivity.
  - apply alone_fits.
  - split; vm_compute; reflexivity.
  - split; vm_compute; congruence.
  - vm_compute; congruence.
  - vm_compute; congruence.
  - vm_compute; congruence.
  - split; [reflexivity|by split_and!|unfold MNX_MAX_ARGS; cbn; lia|lia].
Defined.

(** ** The kernel of the node

    The calls of the system task on the model of the kernel: the process table it maps
    is that of the DC [D], and [mnx_lclbind] is [mm_bind] of the task [cur].  So the
    law that the forks are proved with is what the module does.  A call that ends
    in a fault, or that sleeps, has no result here and is taken for refused. *)
Section KernelHost.
Context (D : dc_t) (cur sig : Z) (threads : Z -> list Z).

Definition kslot (s : kstate) (i : Z) : proc :=
  (default HyperScenario.slot0 (k_procs s !! DC_PROC (dc_dcid D) i)) <| p_nr := i - dc_nr_tasks D |>.

Definition calling (m : handler) (s : kstate) : Z * kstate :=
  match m s with Exit (X_RET rc) s' => (rc, s') | _ => (EMOLGENERIC, s) end.

(** The kernel has the slot, of a DC of this size. *)
Definition has_slot (s : kstate) (d ep : Z) : bool :=
  bool_decide (d = dc_dcid D /\ dc_nr_tasks <$> k_dcs s !! d = Some (dc_nr_tasks D) /\
    k_procs s !! DC_PROC d (ENDPOINT_P ep + dc_nr_tasks D) <> None).

#[local] Instance kernel_host : Host kstate := {|
  proc_mapped := kslot;
  poke i f s := s <| k_procs ::= <[DC_PROC (dc_dcid D) i := f (kslot s i)]> |>;
  mnx_rmtbind d ep n s := calling (mm_bind cur RMT_BIND d 0 ep n) s;
  mnx_lclbind d p ep s :=
    if has_slot s d ep then calling (mm_bind cur LCL_BIND d p ep LOCALNODE) s else (EMOLGENERIC, s);
  mnx_unbind d ep s := calling (mm_unbind sig cur d ep TIMEOUT_FOREVER) s;
  mnx_migr_start d ep s := calling (mm_migrate threads cur MIGR_START PROC_NO_PID d ep PROC_NO_PID) s;
  mnx_migr_commit p d ep n s := calling (mm_migrate threads cur MIGR_COMMIT p d ep n) s;
  mnx_migr_rollback d ep s := calling (mm_migrate threads cur MIGR_ROLLBACK PROC_NO_PID d ep PROC_NO_PID) s;
  mnx_getpriv d ep s :=
    match mm_getpriv cur d ep OK s with Val (rc, _) s' => (rc, s') | Exit _ s' => (EMOLGENERIC, s') end;
  SP_multicast m s := (1, s);
|}.

Lemma bind_outcome_nr n x y rc : bind_outcome x y rc -> bind_outcome (x <| p_nr := n |>) (y <| p_nr := n |>) rc.
Proof. done. Qed.

#[local] Instance kernel_bind : BindLaws (E := kstate) D.
Proof.
  split. intros pid ep s i Hi.
  assert (Hno : exists rc s', (EMOLGENERIC, s) = (rc, s') /\
    bind_outcome (proc_mapped s i) (proc_mapped s' i) rc /\ changed s s' i).
  { exists EMOLGENERIC, s. split; [done|]. split; [|done]. split; [done|]. by left. }
  change (mnx_lclbind (dc_dcid D) pid ep s) with
    (if has_slot s (dc_dcid D) ep then calling (mm_bind cur LCL_BIND (dc_dcid D) pid ep LOCALNODE) s else (EMOLGENERIC, s)).
  destruct (has_slot s (dc_dcid D) ep) eqn:Hs; [|exact Hno]. apply bool_decide_eq_true in Hs as (_ & Hd & Hp).
  apply fmap_Some in Hd as (dc & Hd & Ht). unfold calling.
  destruct (mm_bind cur LCL_BIND (dc_dcid D) pid ep LOCALNODE s) as [a s'|[rc|k|w|f] s'] eqn:Hrun; [done| |exact Hno..].
  destruct (k_procs s !! DC_PROC (dc_dcid D) (ENDPOINT_P ep + dc_nr_tasks D)) as [x|] eqn:Hx; [|done]. fold i in Hx.
  cbn in Hi. unfold kslot in Hi. fold i in Hi. rewrite Hx in Hi.
  assert (Hx' : k_procs s !! DC_PROC (dc_dcid D) (ENDPOINT_P ep + dc_nr_tasks dc) = Some x) by (by rewrite <- Ht).
  pose proof (bind_outcome_wp s cur (dc_dcid D) pid ep dc x Hd Hx' Hi) as H.
  unfold Hoare.wp in H. rewrite Hrun in H. destruct H as (y & Hy & Hout).
  rewrite <- Ht in Hy. fold i in Hy. exists rc, s'. split; [done|]. split.
  - cbn. unfold kslot. rewrite Hx, Hy, lookup_insert_eq. by apply bind_outcome_nr.
  - intros j Hj. cbn. unfold kslot. rewrite Hy, lookup_insert_ne; [done|]. intros [= E]. by apply Hj.
Qed.
End KernelHost.
