(* ===== verification/PmData.v ===== *)
(** * The data of the process manager ([src/servers/pm]: [mproc.h], [glo.h], [param.h])

    The process manager (PM) keeps a table with an entry for each process, next
    to its copy [kproc] of the process table of the kernel.  It serves one
    message at a time: its globals are the record [pmg].  What it calls - the
    system tasks, by [mnx_sendrec], and the kernel - is the interface [PmHost];
    the requests are those of [Systask].

    A message is its source, its type and the seven words of its union: on the
    32-bit target [m1_i1], [m2_i1], [m3_i1], [m4_l1] and [m7_i1] are one word,
    so that the fields of a reply which have different names overlap as they do
    in the code. *)

From S2P Require Import Prelude Types Endpoint Timers Systask.

(** ** Messages *)

Record pmess := mk_pmess { pm_source : Z; pm_type : Z; words : list Z }.
#[export] Instance eta_pmess : Eta pmess := fun r => mk_pmess (pm_source r) (pm_type r) (words r).
#[export] Instance pmess_eq_dec : EqDecision pmess.
Proof. solve_decision. Defined.

Definition word (i : nat) (m : pmess) : Z := default 0 (words m !! i).
Definition set_word (i : nat) (v : Z) (m : pmess) : pmess := m <| words ::= <[i := v]> |>.

Definition m1_i1 : pmess -> Z := word 0.
Definition m1_i2 : pmess -> Z := word 1.
Definition m1_p1 : pmess -> Z := word 3.
Definition m2_i1 : pmess -> Z := word 0.
Definition m2_l1 : pmess -> Z := word 3.
Definition m3_i1 : pmess -> Z := word 0.
Definition m3_i2 : pmess -> Z := word 1.
Definition m7_i1 : pmess -> Z := word 0.
Definition m7_i2 : pmess -> Z := word 1.
Definition m7_i3 : pmess -> Z := word 2.
Definition m7_i4 : pmess -> Z := word 3.
Definition m7_p1 : pmess -> Z := word 4.
Definition m9_l1 : pmess -> Z := word 1.
Definition m9_sec : pmess -> Z := word 2.
Definition m9_nsec : pmess -> Z := word 3.

(** The 14 characters [m3_ca1], after the three words of [mess_3]. *)
Definition bytes_of (w : Z) : list Z :=
  [w mod 256; (w / 256) mod 256; (w / 65536) mod 256; (w / 16777216) mod 256].
Definition m3_ca1 (m : pmess) : list Z := take M3_STRING (concat (map bytes_of (drop 3 (words m)))).

(** The fields of a reply. *)
Definition reply_res2 : nat := 0.
Definition reply_res3 : nat := 1.
Definition reply_endpt : nat := 0.
Definition reply_pendpt : nat := 1.
Definition reply_slot : nat := 1.
Definition reply_mask : nat := 3.
Definition reply_time : nat := 3.
Definition reply_utime : nat := 4.

(** ** Constants *)

Definition SUSPEND : Z := -998.
Definition NCALLS : Z := 102.
Definition NR_PIDS : Z := 32760.
Definition PM_PID : Z := 0.
Definition INIT_PID : Z := 1.
Definition INIT_PROC_NR : Z := 14.
Definition LAST_FEW : Z := 2.
Definition CLOCK : Z := SLOTS - 1.
Definition SYN_ALARM : Z := NOTIFY_FROM CLOCK.
Definition PRIO_SERVER : Z := -10.
Definition PRIO_USERPROC : Z := 0.
Definition SERVER_PRIV : Z := 1.
Definition SUPER_USER : Z := 0.
Definition MAX_BIND_TYPE : Z := 4.
Definition MOL_LONG_MAX : Z := 2147483647.

Definition EMOLSRCH : Z := -3.
Definition EMOLCHILD : Z := -10.
Definition EMOLEXIST : Z := -17.

(** Of Linux. *)
Definition WNOHANG : Z := 1.
Definition ESRCH : Z := 3.
Definition ENOSYS : Z := 38.
Definition NSIG : Z := 65.
Definition SIGHUP : Z := 1.
Definition SIGQUIT : Z := 3.
Definition SIGABRT : Z := 6.
Definition SIGKILL : Z := 9.
Definition SIGALRM : Z := 14.
Definition SIGTERM : Z := 15.
Definition SIGCHLD : Z := 17.

(** The calls of [callnr.h]. *)
Definition MOLWAIT : Z := 7.
Definition MOLWAITPID : Z := 11.
Definition MOLTIME : Z := 13.
Definition MOLGETPID : Z := 20.
Definition MOLSETUID : Z := 23.
Definition MOLGETUID : Z := 24.
Definition MOLSTIME : Z := 25.
Definition MOLALARM : Z := 27.
Definition MOLTIMES : Z := 43.
Definition MOLSETGID : Z := 46.
Definition MOLGETGID : Z := 47.
Definition MOLSETSID : Z := 62.
Definition MOLGETPGRP : Z := 63.
Definition MOLPROCSTAT : Z := 78.
Definition MOLGETSYSINFO : Z := 79.
Definition MOLGETPROCNR : Z := 80.
Definition MOLGETTIMEOFDAY : Z := 90.
Definition MOLSETEUID : Z := 91.
Definition MOLSETEGID : Z := 92.
Definition MOLFREEPROC : Z := 95.
Definition MOLREXEC : Z := 98.
Definition MOLSETPNAME : Z := 99.
Definition MOLWAIT4FORK : Z := 100.
Definition MOLUNBIND : Z := 101.

(** What [do_getsysinfo] gives. *)
Definition SI_KINFO : Z := 0.
Definition SI_PMPROC_TAB : Z := 2.
Definition SI_KPROC_TAB : Z := 7.
Definition SI_MACHINE : Z := 8.
Definition SI_PRIV_TAB : Z := 9.
Definition SI_SLOTS_TAB : Z := 10.

(** ** Flags *)

Definition IN_USE : Z := 0x0001.
Definition WAITING : Z := 0x0002.
Definition ZOMBIE : Z := 0x0004.
Definition ALARM_ON : Z := 0x0010.
Definition STOPPED : Z := 0x0080.
Definition REPLYPENDING : Z := 0x0200.
Definition DONT_SWAP : Z := 0x1000.
Definition PRIV_PROC : Z := 0x2000.
Definition FORKWAIT : Z := 0x4000.
Definition RMT_PROC : Z := 0x8000.

(** [flags & mask], as a condition. *)
Definition has (flags mask : Z) : bool := negb (Z.land flags mask =? 0).

(** ** The table *)

(** A set of signals is a bitmap. *)
Definition sigaddset (s n : Z) : Z := set_bit (n - 1) s.
Definition sigfillset : Z := Z.ones 64.

Record mproc := mk_mproc {
  mp_exitstatus : Z; mp_sigstatus : Z; mp_pid : Z; mp_endpoint : Z;
  mp_procgrp : Z; mp_wpid : Z; mp_parent : Z;
  mp_child_utime : Z; mp_child_stime : Z;
  mp_realuid : Z; mp_effuid : Z; mp_realgid : Z; mp_effgid : Z;
  mp_ignore : Z; mp_catch : Z; mp_sig2mess : Z; mp_sigmask : Z; mp_sigmask2 : Z; mp_sigpending : Z;
  mp_flags : Z; mp_reply : pmess; mp_nice : Z;
}.
#[export] Instance eta_mproc : Eta mproc := fun r =>
  mk_mproc (mp_exitstatus r) (mp_sigstatus r) (mp_pid r) (mp_endpoint r) (mp_procgrp r) (mp_wpid r) (mp_parent r)
    (mp_child_utime r) (mp_child_stime r) (mp_realuid r) (mp_effuid r) (mp_realgid r) (mp_effgid r)
    (mp_ignore r) (mp_catch r) (mp_sig2mess r) (mp_sigmask r) (mp_sigmask2 r) (mp_sigpending r)
    (mp_flags r) (mp_reply r) (mp_nice r).

(** The addresses of the tables, and the sizes of their entries. *)
Record playout := mk_playout {
  a_pdvs : Z; a_pdcu : Z; a_mproc : Z; a_kproc : Z; a_kpriv : Z; a_slots : Z; a_key : Z;
  z_pdvs : Z; z_pdcu : Z; z_mproc : Z; z_kproc : Z; z_kpriv : Z; z_slots : Z;
}.

(** The timers [mp_timer] of the entries are the memory of the queue [pm_timers],
    at the number of the entry.  [mp_nr] and [kp_nr] are the entries [mp] and
    [kp] point to; [result] is the local variable of [main]. *)
Record pmg := mk_pmg {
  pm_dc : dc_t; pm_node : Z; pm_lay : playout;
  mproc_tab : list mproc; pm_timers : tqueue;
  procs_in_use : Z; next_pid : Z;
  who_p : Z; who_e : Z; call_nr : Z; m_in : pmess; mp_nr : Z; kp_nr : Z;
  boottime : Z; clockTicks : Z;
  result : Z;
}.
#[export] Instance eta_pmg : Eta pmg := fun r =>
  mk_pmg (pm_dc r) (pm_node r) (pm_lay r) (mproc_tab r) (pm_timers r) (procs_in_use r) (next_pid r)
    (who_p r) (who_e r) (call_nr r) (m_in r) (mp_nr r) (kp_nr r) (boottime r) (clockTicks r) (result r).

Definition nr_procs (g : pmg) : Z := dc_nr_procs (pm_dc g).
Definition nr_tasks (g : pmg) : Z := dc_nr_tasks (pm_dc g).
Definition sysprocs (g : pmg) : Z := dc_nr_sysprocs (pm_dc g).

(** ** What the process manager calls

    [sendrec] is [mnx_sendrec] to a system task: its return code, and the type
    and the fields of the reply.  [kproc e i] is the entry [i] of the copy of
    the process table, in the memory of the process manager, [kname] its name.
    [search_key] is the buffer of [do_getprocnr], [dvs_nr_nodes] the number of
    nodes in the copy of the description of the DVS.  [junk u g e] is what a variable
    that was not set, or memory outside of the table, holds where the code reads it at
    the place [u], with the globals [g]: nothing is known of it, and two reads may give
    different values. *)
Inductive unset_var :=
| U_FLAGS   (* [pm_isokendpt]: the flags of a task, before the table *)
| U_T0 | U_T1   (* [pm_exit]: [t[0]] and [t[1]] *)
| U_PID     (* [do_rexec]: [pid] *)
| U_RESULT  (* [do_migrproc]: no return value *)
| U_OPER    (* [main]: the third argument of [pm_exit] *)
| U_ERRNO   (* [pm_init]: [errno] *)
| U_TIMES.  (* [sys_rtimes]: the words that are no times *)

Class PmHost (E : Type) := {
  sendrec : Z -> rqst -> E -> (Z * (Z * list Z)) * E;
  kproc : E -> Z -> proc;
  kname : E -> Z -> list Z;
  search_key : E -> list Z;
  dvs_nr_nodes : E -> Z;
  mnx_send : Z -> pmess -> E -> Z * E;
  mnx_notify : Z -> E -> Z * E;
  junk : unset_var -> pmg -> E -> Z;
}.

(** ** Running a handler *)

(** The process exits, an assertion fails, memory outside of the tables is used,
    or a loop does not end. *)
Inductive crash := C_EXIT (rcode : Z) | C_ASSERT | C_WILD | C_LOOP.

Inductive pout (E A : Type) :=
| Done (a : A) (g : pmg) (e : E)
| Crash (x : crash) (g : pmg) (e : E).
Arguments Done {E A} a g e.
Arguments Crash {E A} x g e.

Definition pact (E A : Type) : Type := pmg -> E -> pout E A.

Definition pret {E A} (a : A) : pact E A := fun g e => Done a g e.
Definition pbind {E A B} (m : pact E A) (k : A -> pact E B) : pact E B := fun g e =>
  match m g e with
  | Done a g e => k a g e
  | Crash x g e => Crash x g e
  end.

Declare Scope pm_scope.
Delimit Scope pm_scope with pm.
Notation "x <- m ;; k" := (pbind m (fun x => k))
  (at level 100, m at next level, right associativity) : pm_scope.
Notation "m ;; k" := (pbind m (fun _ => k)) (at level 100, right associativity) : pm_scope.
Open Scope pm_scope.

Section Access.
Context {E : Type}.
Implicit Types (g : pmg) (e : E).

Definition pget : pact E pmg := fun g e => Done g g e.
Definition pupd (f : pmg -> pmg) : pact E unit := fun g e => Done tt (f g) e.
Definition crash_ {A} (x : crash) : pact E A := fun g e => Crash x g e.
Definition pwhen (b : bool) (m : pact E unit) : pact E unit := if b then m else pret tt.
Definition pcalls {A} (f : E -> A * E) : pact E A := fun g e => let (a, e) := f e in Done a g e.
Definition plook {A} (f : E -> A) : pact E A := fun g e => Done (f e) g e.
Definition unset `{!PmHost E} (u : unset_var) : pact E Z := fun g e => Done (junk u g e) g e.

(** An entry of the table. *)
Definition entry (g : pmg) (i : Z) : option mproc := if i <? 0 then None else mproc_tab g !! Z.to_nat i.
Definition rd (i : Z) : pact E mproc := fun g e =>
  match entry g i with Some x => Done x g e | None => Crash C_WILD g e end.
Definition wr (i : Z) (f : mproc -> mproc) : pact E unit :=
  x <- rd i ;; pupd (fun g => g <| mproc_tab ::= <[Z.to_nat i := f x]> |>).

(** [mp]. *)
Definition rd_mp : pact E mproc := g <- pget ;; rd (mp_nr g).
Definition wr_mp (f : mproc -> mproc) : pact E unit := g <- pget ;; wr (mp_nr g) f.

(** [mp->mp_reply.field = v]. *)
Definition set_reply (i : Z) (field : nat) (v : Z) : pact E unit :=
  wr i (fun x => x <| mp_reply ::= set_word field v |>).

(** An operation on the queue of timers, which gives [None] where memory that is
    no timer is used. *)
Definition on_timers {A} (f : tqueue -> E -> option (tqueue * E * A)) : pact E A := fun g e =>
  match f (pm_timers g) e with
  | Some (q, e, a) => Done a (g <| pm_timers := q |>) e
  | None => Crash C_WILD g e
  end.

(** [for(i = first; i < first + n; i++)], with a return from inside the body. *)
Fixpoint ploop {A} (n : nat) (i : Z) (body : Z -> pact E (option A)) : pact E (option A) :=
  match n with
  | O => pret None
  | S n =>
      r <- body i ;;
      match r with
      | None => ploop n (i + 1) body
      | Some a => pret (Some a)
      end
  end.

Fixpoint pfor (n : nat) (i : Z) (body : Z -> pact E unit) : pact E unit :=
  match n with
  | O => pret tt
  | S n => body i ;; pfor n (i + 1) body
  end.
End Access.
