(* ===== verification/SysLib.v ===== *)
(** * The requests of the process manager ([src/lib/syslib])

    Each function of the library fills in a message, sends it to a system task
    and waits for the reply ([_taskcall]).  The messages are the requests of
    [Systask], and what the library returns is read off the reply. *)

From S2P Require Import Prelude Types Endpoint Slots Systask PmData.

Section Calls.
Context {E : Type} `{!PmHost E}.

(** The error of [mnx_sendrec], or the type of the reply. *)
Definition _taskcall (who : Z) (q : rqst) : pact E (Z * list Z) :=
  r <- pcalls (sendrec who q) ;;
  let '(status, reply) := r in
  pret (if negb (status =? 0) then (status, []) else reply).

(** The first field of a reply, or what the request had in its place. *)
Definition field (l : list Z) (sent : Z) : Z := match l with x :: _ => x | [] => sent end.

Definition sys_rfork (lpid node : Z) : pact E Z :=
  r <- _taskcall (SYSTASK node) (R_FORK lpid) ;;
  pret (if negb (fst r =? 0) then fst r else field (snd r) lpid).

(** [PR_ENDPT] is the word of [M3_LPID], which the reply for a user process
    leaves as it was. *)
Definition sys_rbindproc (ep lpid oper node : Z) : pact E Z :=
  r <- _taskcall (SYSTASK node) (R_BINDPROC ep lpid oper) ;;
  pret (if fst r <? 0 then fst r else field (snd r) lpid).

Definition _sys_exit (ep node : Z) : pact E Z :=
  r <- _taskcall (SYSTASK node) (R_EXIT ep) ;; pret (fst r).

Definition sys_getinfo (request addr len ep : Z) : pact E Z :=
  g <- pget ;; r <- _taskcall (SYSTASK (pm_node g)) (R_GETINFO request addr len ep) ;; pret (fst r).

Definition sys_rsetpname (ep : Z) (name : list Z) (node : Z) : pact E Z :=
  r <- _taskcall (SYSTASK node) (R_SETPNAME ep (strncpy (M3_STRING - 1) name)) ;; pret (fst r).

Definition sys_vircopy (src saddr dst daddr n : Z) : pact E Z :=
  if n =? 0 then pret OK
  else g <- pget ;; r <- _taskcall (SYSTASK (pm_node g)) (R_VIRCOPY src saddr dst daddr n) ;; pret (fst r).

(** The return code, the user and the system time, and the ticks since the start;
    the other words of the message are not times. *)
Definition sys_rtimes (node : Z) : pact E (Z * (Z * Z * Z)) :=
  r <- _taskcall (SYSTASK node) R_TIMES ;;
  j <- unset U_TIMES ;;
  pret (fst r, match snd r with [u; s; b] => (u, s, b) | _ => (j, j, j) end).

Definition sys_getuptime : pact E (Z * Z) :=
  g <- pget ;;
  r <- sys_rtimes (pm_node g) ;;
  pret (fst r, snd (snd r) mod ULONG_MOD).

Definition sys_privctl (ep level : Z) : pact E Z :=
  g <- pget ;; r <- _taskcall (SYSTASK (pm_node g)) (R_PRIVCTL ep level) ;; pret (fst r).

(** The program is started on its node, and then told to the system task of this
    node, with the endpoint that the first reply left in the message. *)
Definition sys_rexec (node ep bind_type thrower len ptr : Z) : pact E Z :=
  if len >? MAXCOPYBUF then pret EMOL2BIG
  else if (bind_type <? 0) || (bind_type >? MAX_BIND_TYPE) || (bind_type =? Bind.RMT_BIND) then pret EMOLINVAL
  else
    r <- _taskcall (SYSTASK node) (R_REXEC node ep len ptr thrower) ;;
    if fst r <? 0 then pret (fst r)
    else
      let ep := field (snd r) ep in
      g <- pget ;;
      r <- _taskcall (SYSTASK (pm_node g)) (R_REXEC node ep len ptr thrower) ;;
      pret (if fst r <? 0 then fst r else field (snd r) ep).

(** ** Of [utility.c] *)

Definition sys_proctab (addr len : Z) : pact E Z := sys_getinfo GET_PROCTAB addr len 0.
Definition sys_slotstab (addr len : Z) : pact E Z := sys_getinfo GET_SLOTSTAB addr len 0.
Definition sys_privtab (addr len : Z) : pact E Z := sys_getinfo GET_PRIVTAB addr len 0.

(** The entry of a process is copied to [kproc]. *)
Definition sys_procinfo (nr : Z) : pact E Z :=
  g <- pget ;;
  sys_getinfo GET_PROC (a_kproc (pm_lay g) + z_kproc (pm_lay g) * (nr + nr_tasks g)) (z_kproc (pm_lay g)) nr.

(** [kproc[nr + dc_nr_tasks]]. *)
Definition rd_kproc (nr : Z) : pact E proc := fun g e => Done (kproc e (nr + nr_tasks g)) g e.
End Calls.
