(* ===== verification/Pm.v ===== *)
(** * The process manager ([src/servers/pm])

    The calls of the processes: [fork], [exit] and [wait] ([forkexit.c]), alarms
    and signals ([signal.c]), identities ([getset.c]), information ([misc.c]),
    time ([time.c]), programs of other nodes ([rexec.c]), the tables
    ([utility.c]), and the loop that serves them ([pm.c]).  A handler gives the
    result of the call; the result [SUSPEND] is not replied.

    A function of the code that changes an entry through a pointer names it here
    by its number. *)

From S2P Require Import Prelude Types Endpoint Timers Clock Systask PmData SysLib.

(** [x] as a [char], an [int] and an [unsigned]. *)
Definition to_char (x : Z) : Z := let y := x mod 256 in if y <? 128 then y else y - 256.
Definition to_unsigned (x : Z) : Z := x mod ULONG_MOD.

(** The result is not said. *)
Definition pdo {E A} (m : pact E A) : pact E unit := _ <- m ;; pret tt.
Definition exit_if {E} (b : bool) (rcode : Z) : pact E unit := pwhen b (crash_ (C_EXIT rcode)).

Section Tables.
Context {E : Type} `{!PmHost E}.
Implicit Types (g : pmg) (e : E).

(** ** Tables ([utility.c]) *)

(** The flags of an entry; the number of a task is negative, and the memory before
    the table is read. *)
Definition flags_of (nr : Z) : pact E Z :=
  if nr <? 0 then unset U_FLAGS else x <- rd nr ;; pret (mp_flags x).

Definition pm_isokendpt (ep : Z) : pact E (Z * Z) :=
  let nr := ENDPOINT_P ep in
  g <- pget ;;
  if (nr <? - nr_tasks g) || (nr >=? nr_procs g) then pret (EMOLRANGE, nr)
  else
    fl <- flags_of nr ;;
    if negb (has fl IN_USE) && (nr + nr_tasks g <? sysprocs g) then pret (OK, nr)
    else
      k <- rd_kproc nr ;;
      pret (if negb (ep =? p_endpoint k) then EMOLENDPOINT else OK, nr).

Definition init_entry (x : mproc) : mproc :=
  x <| mp_exitstatus := OK |> <| mp_sigstatus := OK |> <| mp_pid := PROC_NO_PID |> <| mp_endpoint := NONE |>
    <| mp_procgrp := PROC_NO_PID |> <| mp_wpid := PROC_NO_PID |> <| mp_parent := -1 |>
    <| mp_child_utime := 0 |> <| mp_child_stime := 0 |>
    <| mp_realuid := to_unsigned (-1) |> <| mp_effuid := to_unsigned (-1) |>
    <| mp_realgid := to_unsigned (-1) |> <| mp_effgid := to_unsigned (-1) |>
    <| mp_ignore := 0 |> <| mp_catch := 0 |> <| mp_sig2mess := 0 |> <| mp_sigmask := 0 |>
    <| mp_sigmask2 := 0 |> <| mp_sigpending := 0 |> <| mp_flags := 0 |> <| mp_nice := PRIO_USERPROC |>.

(** [mp] points to the entry afterwards. *)
Definition mproc_init (nr : Z) : pact E unit :=
  pupd (fun g => g <| mp_nr := nr |>) ;;
  wr nr init_entry ;;
  k <- rd_kproc nr ;;
  pwhen (negb (test_bit BIT_SLOT_FREE (p_rts_flags k)))
    (wr nr (fun x => x <| mp_endpoint := p_endpoint k |> <| mp_flags := IN_USE |> <| mp_pid := 0 |>
                       <| mp_procgrp := 0 |> <| mp_parent := 0 |>)).

(** The next pid, after [next_pid], round the range. *)
Definition pid_after (n : Z) : Z := if n <? NR_PIDS then n + 1 else INIT_PID + 1.
Definition pid_taken (tab : list mproc) (n : Z) : bool :=
  existsb (fun x => (mp_pid x =? n) || (mp_procgrp x =? n)) tab.

(** Every entry takes two pids at most, so that twice their number of turns and
    one more are enough. *)
Fixpoint free_pid (fuel : nat) : pact E Z :=
  match fuel with
  | O => crash_ C_LOOP
  | S fuel =>
      pupd (fun g => g <| next_pid ::= pid_after |>) ;;
      g <- pget ;;
      if pid_taken (mproc_tab g) (next_pid g) then free_pid fuel else pret (next_pid g)
  end.

Definition get_free_pid : pact E Z :=
  g <- pget ;; free_pid (S (2 * length (mproc_tab g))).

(** ** Replies ([pm.c]) *)

Definition setreply (nr r : Z) : pact E unit :=
  g <- pget ;;
  exit_if ((nr <? 0) || (nr >=? nr_procs g)) EMOLBADPROC ;;
  wr nr (fun x => (x <| mp_reply ::= fun m => m <| pm_type := r |> |>) <| mp_flags ::= fun f => Z.lor f REPLYPENDING |>).

(** ** Signals ([signal.c]) *)

(** The delivery of signals is left out of the code: it only traces. *)
Definition sig_proc (nr signo : Z) : pact E unit := pret tt.

Definition selected (m x : mproc) (pid signo : Z) : bool :=
  if (pid >? 0) && negb (pid =? mp_pid x) then false
  else if (pid =? 0) && negb (mp_procgrp m =? mp_procgrp x) then false
  else if (pid =? -1) && (mp_pid x <=? INIT_PID) then false
  else if (pid <? -1) && negb (mp_procgrp x =? - pid) then false
  else negb ((pid =? -1) && (signo =? SIGKILL) && has (mp_flags x) PRIV_PROC).

Definition may_signal (m x : mproc) : bool :=
  (mp_effuid m =? SUPER_USER) || (mp_realuid m =? mp_realuid x) || (mp_effuid m =? mp_realuid x) ||
  (mp_realuid m =? mp_effuid x) || (mp_effuid m =? mp_effuid x).

(** The search, [n] entries from [i]; [count] signals are sent. *)
Fixpoint sig_scan (n : nat) (i pid signo count error_code : Z) : pact E (Z * Z) :=
  match n with
  | O => pret (count, error_code)
  | S n =>
      x <- rd i ;;
      m <- rd_mp ;;
      if negb (has (mp_flags x) IN_USE) || (has (mp_flags x) ZOMBIE && negb (signo =? 0)) || negb (selected m x pid signo)
      then sig_scan n (i + 1) pid signo count error_code
      else if negb (may_signal m x) then sig_scan n (i + 1) pid signo count EMOLPERM
      else if signo =? 0 then sig_scan n (i + 1) pid signo (count + 1) error_code
      else
        sig_proc i signo ;;
        if pid >? 0 then pret (count + 1, error_code)
        else sig_scan n (i + 1) pid signo (count + 1) error_code
  end.

(** The search goes to [NR_PROCS], the most a DC may have. *)
Definition check_sig (pid signo : Z) : pact E Z :=
  if (signo <? 0) || (signo >? NSIG) then pret EMOLINVAL
  else if (pid =? INIT_PID) && (signo =? SIGKILL) then pret EMOLINVAL
  else
    r <- sig_scan (Z.to_nat NR_PROCS) 0 pid signo 0 ESRCH ;;
    m <- rd_mp ;;
    pret (if negb (Z.land (mp_flags m) (Z.lor IN_USE ZOMBIE) =? IN_USE) then SUSPEND
          else if 0 <? fst r then OK else snd r).
End Tables.

(** ** Alarms ([signal.c], [timers.c]) *)

Section Alarms.
Context {E : Type} `{!PmHost E} `{!AlarmService E}.
Implicit Types (g : pmg) (e : E).

(** The function [cause_sigalrm], as the watchdog of a timer. *)
Definition W_SIGALRM : Z := 2.

(** A function of [timers.c] on the queue of the process manager and the service
    of alarms. *)
Definition with_timers (f : pm E -> option (pm E * Z)) : pact E Z :=
  on_timers (fun q e => r ← f (mk_pm q e); Some (pm_q (fst r), pm_svc (fst r), snd r)).

(** What is left of the alarm, in seconds: ticks and seconds are mixed. *)
Definition remaining (ticks exptime uptime : Z) : Z :=
  let r := to_int (exptime - (to_unsigned (uptime + (ticks - 1))) / ticks) in
  if r <? 0 then 0 else r.

(** The ticks of [sec] seconds, or the longest time if they do not fit. *)
Definition alarm_ticks (clockTicks sec : Z) : Z :=
  let sec := to_unsigned sec in
  let ticks := (clockTicks * sec) mod ULONG_MOD in
  if negb (ticks / clockTicks =? sec) then MOL_LONG_MAX else ticks.

Definition timer_of (nr : Z) : pact E moltimer := fun g e =>
  match theap (pm_timers g) !! nr with Some t => Done t g e | None => Crash C_WILD g e end.

(** The error of [sys_getuptime], or the time. *)
Definition uptime_or_error : pact E (Z + Z) :=
  r <- sys_getuptime ;; pret (if fst r <? 0 then inl (fst r) else inr (snd r)).

Definition start_alarm (nr ep ticks : Z) : pact E unit :=
  u <- uptime_or_error ;;
  pdo (with_timers (pm_set_timer nr (to_int ticks) W_SIGALRM ep u)) ;;
  wr nr (fun x => x <| mp_flags ::= fun f => Z.lor f ALARM_ON |>).

Definition stop_alarm (nr : Z) : pact E unit :=
  pdo (with_timers (pm_cancel_timer nr)) ;;
  wr nr (fun x => x <| mp_flags ::= fun f => Z.ldiff f ALARM_ON |>).

Definition change_alarm (nr ep sec left : Z) : pact E Z :=
  g <- pget ;;
  let ticks := alarm_ticks (clockTicks g) sec in
  x <- rd nr ;;
  (if negb (ticks =? 0) then start_alarm nr ep ticks
   else pwhen (has (mp_flags x) ALARM_ON) (stop_alarm nr)) ;;
  pret left.

Definition set_alarm (ep sec : Z) : pact E Z :=
  r <- pm_isokendpt ep ;;
  let '(rc, nr) := r in
  if negb (rc =? OK) then pret EMOLINVAL
  else
    x <- rd nr ;;
    if has (mp_flags x) ALARM_ON then
      u <- sys_getuptime ;;
      if fst u <? 0 then pret (fst u)
      else
        t <- timer_of nr ;;
        g <- pget ;;
        change_alarm nr ep sec (remaining (clockTicks g) (tmr_exp_time t) (snd u))
    else change_alarm nr ep sec 0.

Definition do_alarm : pact E Z :=
  g <- pget ;;
  r <- set_alarm (who_e g) (m1_i1 (m_in g)) ;;
  pret (if negb (r =? 0) then r else SUSPEND).

(** The watchdog of the timer [tp]. *)
Definition cause_sigalrm (tp : Z) : pact E unit :=
  t <- timer_of tp ;;
  r <- pm_isokendpt (tmr_arg t) ;;
  let '(rc, nr) := r in
  if negb (rc =? OK) then pret tt
  else
    x <- rd nr ;;
    if negb (Z.land (mp_flags x) (Z.lor IN_USE ZOMBIE) =? IN_USE) then pret tt
    else if negb (has (mp_flags x) ALARM_ON) then pret tt
    else
      wr nr (fun x => x <| mp_flags ::= fun f => Z.ldiff f ALARM_ON |>) ;;
      pdo (check_sig (mp_pid x) SIGALRM).

Fixpoint fire (l : list Z) : pact E unit :=
  match l with
  | [] => pret tt
  | tp :: l => cause_sigalrm tp ;; fire l
  end.

(** [pm_expire_timers]: the watchdogs leave the queue alone, so they are run when it
    is cut, and before the alarm is set again.  A turn of the queue takes a timer
    out of it. *)
Definition expire_timers (now : Z) : pact E unit :=
  r <- on_timers (fun q e =>
    r ← tmrs_exptimers (fun _ _ q => Some q) (S (size (theap q))) now q;
    let '(q, fired, next_time) := r in Some (q, e, (fired, next_time))) ;;
  fire (fst r) ;;
  pdo (with_timers (fun p => reschedule (0 <? snd r) (snd r) (pm_q p) (pm_svc p))).
End Alarms.
