(* ===== verification/PmFork.v ===== *)
(** * Forks, exits and waits ([src/servers/pm/forkexit.c])

    A process is removed from the table when it has exited and its parent has
    waited for it: the one that comes second calls [cleanup], which leaves the
    reply of the parent in its entry. *)

From S2P Require Import Prelude Types Endpoint Timers Clock Slots Systask PmData SysLib Pm.
From S2P Require Bind.

(** [flags &= ~mask]. *)
Definition drop (mask : Z) (x : mproc) : mproc := x <| mp_flags ::= fun f => Z.ldiff f mask |>.

Section Forks.
Context {E : Type} `{!PmHost E} `{!AlarmService E}.
Implicit Types (g : pmg) (e : E).

(** ** Waits *)

Definition exit_word (x : mproc) : Z := Z.lor (Z.shiftl (mp_exitstatus x) 8) (Z.land (mp_sigstatus x) 255).

Definition release_entry (x : mproc) : mproc :=
  x <| mp_pid := 0 |> <| mp_flags := 0 |> <| mp_child_utime := 0 |> <| mp_child_stime := 0 |> <| mp_endpoint := NONE |>.

Definition cleanup (nr : Z) : pact E unit :=
  x <- rd nr ;;
  pwhen (negb (has (mp_flags x) RMT_PROC)) (
    set_reply (mp_parent x) reply_res2 (exit_word x) ;;
    setreply (mp_parent x) (mp_pid x) ;;
    wr (mp_parent x) (drop WAITING)) ;;
  wr nr release_entry ;;
  pupd (fun g => g <| procs_in_use ::= Z.pred |>).

(** The pid to wait for; 0 is the group of the caller. *)
Definition wait_pid (g : pmg) (m : mproc) : Z :=
  let pidarg := if call_nr g =? MOLWAIT then -1 else m1_i1 (m_in g) in
  if pidarg =? 0 then - mp_procgrp m else pidarg.

Definition wait_options (g : pmg) : Z := if call_nr g =? MOLWAIT then 0 else m1_i2 (m_in g).

Definition qualifies (pidarg who : Z) (x : mproc) : bool :=
  (mp_parent x =? who) && has (mp_flags x) IN_USE &&
  negb ((pidarg >? 0) && negb (pidarg =? mp_pid x)) &&
  negb ((pidarg <? -1) && negb (- pidarg =? mp_procgrp x)).

(** The entries from [i]: the result of the call, or the number of children that
    qualify. *)
Fixpoint wait_scan (n : nat) (i pidarg children : Z) : pact E (Z + Z) :=
  match n with
  | O => pret (inr children)
  | S n =>
      x <- rd i ;;
      g <- pget ;;
      if negb (qualifies pidarg (who_p g) x) then wait_scan n (i + 1) pidarg children
      else if has (mp_flags x) ZOMBIE then cleanup i ;; pret (inl SUSPEND)
      else if has (mp_flags x) STOPPED && negb (mp_sigstatus x =? 0) then
        set_reply (mp_nr g) reply_res2 (Z.lor 127 (Z.shiftl (mp_sigstatus x) 8)) ;;
        wr i (fun x => x <| mp_sigstatus := 0 |>) ;;
        pret (inl (mp_pid x))
      else wait_scan n (i + 1) pidarg (children + 1)
  end.

Definition do_waitpid : pact E Z :=
  g <- pget ;;
  m <- rd_mp ;;
  let pidarg := wait_pid g m in
  r <- wait_scan (Z.to_nat (nr_procs g)) 0 pidarg 0 ;;
  match r with
  | inl rcode => pret rcode
  | inr children =>
      if children >? 0 then
        if has (wait_options g) WNOHANG then pret 0
        else
          wr_mp (fun m => m <| mp_flags ::= fun f => Z.lor f WAITING |> <| mp_wpid := pidarg |>) ;;
          pret SUSPEND
      else pret EMOLCHILD
  end.

(** ** Forks *)

Definition is_remote (k : proc) : bool := test_bit BIT_REMOTE (p_rts_flags k).

(** [*dst = *src]: the timer is a part of the entry. *)
Definition copy_entry (dst src : Z) : pact E unit :=
  x <- rd src ;;
  wr dst (fun _ => x) ;;
  on_timers (fun q e => t ← theap q !! src; Some (q <| theap ::= <[dst := t]> |>, e, tt)).

(** The entry [nr] is told again by the system task. *)
Definition refresh (nr : Z) : pact E unit :=
  rcode <- sys_procinfo nr ;; exit_if (negb (rcode =? OK)) rcode.

(** The child of a process of another node. *)
Definition fork_remote (lpid node : Z) : pact E Z :=
  child_ep <- sys_rfork lpid node ;;
  if child_ep <? OK then pret child_ep
  else
    g <- pget ;;
    rcode <- sys_rbindproc child_ep node Bind.RMT_BIND (pm_node g) ;;
    if rcode <? 0 then pret rcode
    else
      rcode <- sys_rsetpname child_ep (m3_ca1 (m_in g)) (pm_node g) ;;
      pret (if rcode <? 0 then rcode else child_ep).

Definition start_child (flags : Z) (parent : Z) (x : mproc) : mproc :=
  x <| mp_parent := parent |> <| mp_flags := flags |> <| mp_child_utime := 0 |> <| mp_child_stime := 0 |>
    <| mp_exitstatus := 0 |> <| mp_sigstatus := 0 |>.

(** The flags of a new entry; those of a system process have [PRIV_PROC]. *)
Definition new_flags (g : pmg) (nr base extra : Z) : Z :=
  if nr + nr_tasks g <? sysprocs g then Z.lor (Z.lor base PRIV_PROC) extra else Z.lor base extra.

(** The entry of the child, a copy of the one of its parent [rmp]. *)
Definition fork_entry (rmp parent child_ep : Z) : pact E Z :=
  let child_nr := ENDPOINT_P child_ep in
  copy_entry child_nr rmp ;;
  g <- pget ;;
  wr child_nr (start_child (new_flags g child_nr IN_USE FORKWAIT) parent) ;;
  new_pid <- get_free_pid ;;
  wr child_nr (fun x => x <| mp_pid := new_pid |> <| mp_endpoint := child_ep |>) ;;
  refresh child_nr ;;
  k <- rd_kproc child_nr ;;
  exit_if (negb (child_ep =? p_endpoint k)) EMOLINVAL ;;
  set_reply rmp reply_endpt (p_endpoint k) ;;
  pret new_pid.

(** The parent of a process of another node is INIT. *)
Definition do_fork : pact E Z :=
  g <- pget ;;
  refresh (who_p g) ;;
  let child_lpid := m3_i1 (m_in g) in
  k <- rd_kproc (who_p g) ;;
  child_ep <- (if is_remote k then fork_remote child_lpid (p_nodeid k) else sys_rfork child_lpid (pm_node g)) ;;
  if child_ep <? 0 then pret child_ep
  else
    k <- rd_kproc (who_p g) ;;
    if is_remote k then fork_entry INIT_PROC_NR INIT_PROC_NR child_ep
    else fork_entry (mp_nr g) (who_p g) child_ep.

Definition do_wait4fork : pact E Z :=
  g <- pget ;;
  refresh (who_p g) ;;
  let child_ep := m3_i2 (m_in g) in
  if negb (child_ep =? who_e g) then pret EMOLCHILD
  else
    x <- rd (ENDPOINT_P child_ep) ;;
    if negb (has (mp_flags x) FORKWAIT) then pret EMOLPROCSTS
    else wr (ENDPOINT_P child_ep) (drop FORKWAIT) ;; pret (mp_pid x).

(** ** Exits *)

(** The entries that have [nr] as parent are given to INIT. *)
Definition disinherit (nr i : Z) : pact E unit :=
  x <- rd i ;;
  pwhen ((mp_parent x =? nr) && has (mp_flags x) IN_USE) (
    wr i (fun x => x <| mp_parent := INIT_PROC_NR |>) ;;
    init <- rd INIT_PROC_NR ;;
    pwhen (has (mp_flags init) WAITING && has (mp_flags x) ZOMBIE) (cleanup i)).

(** The parent waits for any child, for this one, or for one of its group. *)
Definition right_child (pidarg : Z) (x : mproc) : bool :=
  (pidarg =? -1) || (pidarg =? mp_pid x) || (- pidarg =? mp_procgrp x).

(** The process waits for its parent, or its parent waits for it. *)
Definition exit_entry (nr parent status : Z) : pact E unit :=
  wr nr (fun x => x <| mp_exitstatus := to_char status |>) ;;
  p <- rd parent ;;
  x <- rd nr ;;
  if has (mp_flags p) WAITING && right_child (mp_wpid p) x || has (mp_flags x) RMT_PROC then cleanup nr
  else
    pwhen (negb (mp_endpoint p =? PM_PROC_NR)) (
      wr nr (fun x => x <| mp_flags := Z.lor IN_USE ZOMBIE |>) ;;
      sig_proc parent SIGCHLD).

(** The times of the children; those of the process itself are not fetched, and
    the variables for them have no value. *)
Definition account (nr parent : Z) : pact E unit :=
  x <- rd nr ;;
  t0 <- unset U_T0 ;;
  t1 <- unset U_T1 ;;
  wr parent (fun p => p <| mp_child_utime ::= fun t => to_unsigned (t + (t0 + mp_child_utime x)) |>) ;;
  x <- rd nr ;;
  wr parent (fun p => p <| mp_child_stime ::= fun t => to_unsigned (t + (t1 + mp_child_stime x)) |>).

(** A reply to the process is dropped when it is of this node or unbound. *)
Definition drop_reply (nr : Z) : pact E unit :=
  k <- rd_kproc nr ;;
  x <- rd nr ;;
  pwhen (test_bit BIT_SLOT_FREE (p_rts_flags k) || negb (has (mp_flags x) RMT_PROC)) (wr nr (drop REPLYPENDING)).

Definition exit_error (rcode : Z) : bool :=
  (rcode <? 0) && negb (rcode =? EMOLNOTBIND) && negb (rcode =? EMOLDSTDIED).

(** The pid of the leader of a group, which is then the group. *)
Definition led_group (x m : mproc) : Z := if mp_pid x =? mp_procgrp m then mp_procgrp m else 0.

(** Up to the loop over the children; gives the group to hang up, or 0. *)
Definition exit_begin (nr status oper : Z) : pact E Z :=
  x <- rd nr ;;
  k <- rd_kproc nr ;;
  m <- rd_mp ;;
  let procgrp := led_group x m in
  pwhen (has (mp_flags x) ALARM_ON) (pdo (set_alarm (p_endpoint k) 0)) ;;
  let parent := mp_parent x in
  account nr parent ;;
  k <- rd_kproc nr ;;
  rcode <- _sys_exit (p_endpoint k) (p_nodeid k) ;;
  exit_if (exit_error rcode) rcode ;;
  refresh nr ;;
  drop_reply nr ;;
  (if oper =? MOLEXIT then exit_entry nr parent status else cleanup nr) ;;
  pret procgrp.

Definition exit_end (nr procgrp : Z) : pact E Z :=
  pwhen (negb (procgrp =? 0)) (pdo (check_sig (- procgrp) SIGHUP)) ;;
  g <- pget ;;
  pwhen (nr + nr_tasks g <? sysprocs g) (wr nr (fun x => x <| mp_flags := 0 |>)) ;;
  pret OK.

Definition pm_exit (nr status oper : Z) : pact E Z :=
  procgrp <- exit_begin nr status oper ;;
  g <- pget ;;
  pfor (Z.to_nat (nr_procs g)) 0 (disinherit nr) ;;
  exit_end nr procgrp.

(** An error, or the result [r]. *)
Definition unless_error (r rcode : Z) : Z := if negb (rcode =? OK) then rcode else r.

(** The process with the Linux pid of the message exits, or the caller. *)
Definition do_pm_exit : pact E Z :=
  g <- pget ;;
  let status := m1_i1 (m_in g) in
  let lnx_pid := m1_i2 (m_in g) in
  if who_p g <=? 0 then pret OK
  else if negb (lnx_pid =? -1) then
    r <- ploop (Z.to_nat (nr_procs g)) 0 (fun i =>
      k <- rd_kproc i ;;
      if p_lpid k =? lnx_pid then rcode <- pm_exit i status MOLEXIT ;; pret (Some (unless_error SUSPEND rcode))
      else pret None) ;;
    pret (default EMOLBADPID r)
  else rcode <- pm_exit (mp_nr g) status MOLEXIT ;; pret (unless_error SUSPEND rcode).

Definition do_unbind : pact E Z :=
  g <- pget ;;
  let p_ep := m1_i1 (m_in g) in
  if p_ep <=? 0 then pret EMOLBADPROC
  else if negb (p_ep =? SELF) then k <- rd_kproc (ENDPOINT_P p_ep) ;; pm_exit (p_nr k) 0 MOLUNBIND
  else pm_exit (mp_nr g) 0 MOLUNBIND.

(** ** Bindings *)

Definition mess_sigs : list Z := [SIGTERM; SIGHUP; SIGABRT; SIGQUIT].

(** The entry of a server or task; its group and its pid are as they were. *)
Definition start_sysproc (parent ep : Z) (x : mproc) : mproc :=
  start_child (Z.lor IN_USE PRIV_PROC) parent x
    <| mp_nice := PRIO_SERVER |> <| mp_endpoint := ep |>
    <| mp_sig2mess := 0 |> <| mp_ignore := 0 |> <| mp_sigmask := 0 |> <| mp_catch := 0 |>.

Definition register_sysproc (nr pid : Z) : pact E Z :=
  k <- rd_kproc nr ;;
  pmk <- rd_kproc PM_PROC_NR ;;
  wr nr (start_sysproc (p_endpoint pmk) (p_endpoint k)) ;;
  wr_mp (fun m => m <| mp_sig2mess ::= fun s => fold_left sigaddset mess_sigs s |>) ;;
  wr nr (fun x => x <| mp_ignore := sigfillset |>) ;;
  pupd (fun g => g <| procs_in_use ::= Z.succ |>) ;;
  new_pid <- (if pid =? PROC_NO_PID then get_free_pid else pret pid) ;;
  wr nr (fun x => x <| mp_pid := new_pid |>) ;;
  set_reply nr reply_endpt (p_endpoint k) ;;
  pret new_pid.

(** The process of the slot must be [lpid], with no entry in use; where the bit
    of a remote process is meant its number is tested. *)
Definition slot_conflict (k : proc) : bool :=
  negb (p_rts_flags k =? SLOT_FREE) && (Z.land (p_rts_flags k) BIT_REMOTE =? 0).

Definition bind_sysproc (nr lpid oper pid : Z) : pact E Z :=
  g <- pget ;;
  ep <- sys_rbindproc nr lpid oper (pm_node g) ;;
  if ep <? 0 then mproc_init nr ;; pret ep
  else
    refresh nr ;;
    k <- rd_kproc nr ;;
    pwhen (negb (nr =? p_nr k)) (crash_ C_ASSERT) ;;
    register_sysproc nr pid.

Definition do_bindproc : pact E Z :=
  g <- pget ;;
  let lpid := m7_i2 (m_in g) in
  let pid := m7_i1 (m_in g) in
  let nr := m7_i3 (m_in g) in
  let oper := m7_i4 (m_in g) in
  if (oper <? 0) || (oper >? MAX_BIND_TYPE) then pret EMOLBINDTYPE
  else if nr + nr_tasks g >=? sysprocs g then pret EMOLBADPROC
  else
    refresh nr ;;
    k <- rd_kproc nr ;;
    if slot_conflict k then
      if negb (p_lpid k =? lpid) then pret EMOLEXIST
      else
        x <- rd nr ;;
        pwhen (has (mp_flags x) IN_USE) (crash_ C_ASSERT) ;;
        bind_sysproc nr lpid oper pid
    else bind_sysproc nr lpid oper pid.

(** The slot is 0 always: the search for a free one is left out of the code. *)
Definition do_freeproc : pact E Z :=
  g <- pget ;;
  m <- rd_mp ;;
  if (procs_in_use g =? nr_procs g) || (procs_in_use g >=? nr_procs g - LAST_FEW) && negb (mp_effuid m =? 0)
  then pret EMOLAGAIN
  else
    pupd (fun g => g <| procs_in_use ::= Z.succ |>) ;;
    copy_entry 0 (mp_nr g) ;;
    wr 0 (fun x => x <| mp_parent := who_p g |>
                     <| mp_flags ::= fun f => Z.land f (Z.lor (Z.lor IN_USE PRIV_PROC) FORKWAIT) |>) ;;
    set_reply (mp_nr g) reply_slot 0 ;;
    pret 0.
End Forks.
