(* ===== verification/PmMain.v ===== *)
(** * The calls and the main loop of the process manager ([src/servers/pm])

    Identities ([getset.c]), information ([misc.c]), time ([time.c]), programs of
    other nodes ([rexec.c]), the table of the calls ([table.c]), and the loop that
    takes a message, serves it and sends the replies that are pending ([pm.c]). *)

From S2P Require Import Prelude Types Endpoint Timers Clock Slots Systask PmData SysLib Pm PmFork.
From S2P Require Bind.

Section Calls.
Context {E : Type} `{!PmHost E} `{!AlarmService E}.
Implicit Types (g : pmg) (e : E).

(** ** Identities *)

Definition tell_fs (what p1 p2 p3 : Z) : pact E Z := pret OK.

Definition get_pid : pact E Z :=
  m <- rd_mp ;;
  g <- pget ;;
  p <- rd (mp_parent m) ;;
  set_reply (mp_nr g) reply_res2 (mp_pid p) ;;
  r <- pm_isokendpt (pm_source (m_in g)) ;;
  let '(ret, proc) := r in
  if (ret =? OK) && (proc >=? 0) then
    x <- rd proc ;;
    set_reply (mp_nr g) reply_res3 (mp_pid x) ;;
    y <- rd (who_p g) ;;
    pret (mp_pid y)
  else pret ret.

(** The user of a process may become [id] if it is its real one, or if it is the
    super user. *)
Definition may_become (real id eff : Z) : bool := (real =? id) || (eff =? SUPER_USER).

Definition set_uid (id : Z) : pact E Z :=
  m <- rd_mp ;;
  g <- pget ;;
  if negb (may_become (mp_realuid m) id (mp_effuid m)) then pret EMOLPERM
  else
    pwhen (call_nr g =? MOLSETUID) (wr_mp (fun m => m <| mp_realuid := id |>)) ;;
    wr_mp (fun m => m <| mp_effuid := id |>) ;;
    m <- rd_mp ;;
    tell_fs MOLSETUID (who_e g) (mp_realuid m) (mp_effuid m) ;;
    pret OK.

Definition set_gid (id : Z) : pact E Z :=
  m <- rd_mp ;;
  g <- pget ;;
  if negb (may_become (mp_realgid m) id (mp_effuid m)) then pret EMOLPERM
  else
    pwhen (call_nr g =? MOLSETGID) (wr_mp (fun m => m <| mp_realgid := id |>)) ;;
    wr_mp (fun m => m <| mp_effgid := id |>) ;;
    m <- rd_mp ;;
    tell_fs MOLSETGID (who_e g) (mp_realgid m) (mp_effgid m) ;;
    pret OK.

Definition get_pgrp : pact E Z := m <- rd_mp ;; pret (mp_procgrp m).

Definition set_sid : pact E Z :=
  m <- rd_mp ;;
  if mp_procgrp m =? mp_pid m then pret EMOLPERM
  else
    wr_mp (fun m => m <| mp_procgrp := mp_pid m |>) ;;
    g <- pget ;;
    tell_fs MOLSETSID (who_e g) 0 0 ;;
    get_pgrp.

Definition set_pname : pact E Z :=
  g <- pget ;;
  refresh (who_p g) ;;
  ret <- sys_rsetpname (m3_i2 (m_in g)) (m3_ca1 (m_in g)) (pm_node g) ;;
  exit_if (negb (ret =? OK)) ret ;;
  refresh (who_p g) ;;
  pret OK.

(** The result [r], and [r2] in the reply. *)
Definition answer2 (r r2 : Z) : pact E Z :=
  g <- pget ;; set_reply (mp_nr g) reply_res2 (to_int r2) ;; pret (to_int r).

Definition do_getset : pact E Z :=
  g <- pget ;;
  m <- rd_mp ;;
  let id := to_unsigned (m1_i1 (m_in g)) in
  let c := call_nr g in
  if c =? MOLGETUID then answer2 (mp_realuid m) (mp_effuid m)
  else if c =? MOLGETGID then answer2 (mp_realgid m) (mp_effgid m)
  else if c =? MOLGETPID then get_pid
  else if (c =? MOLSETEUID) || (c =? MOLSETUID) then set_uid id
  else if (c =? MOLSETEGID) || (c =? MOLSETGID) then set_gid id
  else if c =? MOLSETSID then set_sid
  else if c =? MOLGETPGRP then get_pgrp
  else if c =? MOLSETPNAME then set_pname
  else pret EMOLINVAL.

(** ** Information *)

(** A table of the kernel or the system task is fetched to [addr] first. *)
Definition fetch_table (get : Z -> Z -> pact E Z) (addr len : Z) : pact E (Z + Z * Z) :=
  rcode <- get addr len ;; pret (if negb (rcode =? 0) then inl rcode else inr (addr, len)).

(** An error, or the address and the length of what is asked for. *)
Definition sysinfo_src (what : Z) : pact E (Z + Z * Z) :=
  g <- pget ;;
  let L := pm_lay g in
  let all := nr_tasks g + nr_procs g in
  if what =? SI_KINFO then pdo (sys_getinfo GET_KINFO (a_pdvs L) 0 0) ;; pret (inr (a_pdvs L, z_pdvs L))
  else if what =? SI_MACHINE then pret (inr (a_pdcu L, z_pdcu L))
  else if what =? SI_PMPROC_TAB then pret (inr (a_mproc L, z_mproc L * nr_procs g))
  else if what =? SI_KPROC_TAB then fetch_table sys_proctab (a_kproc L) (all * z_kproc L)
  else if what =? SI_PRIV_TAB then fetch_table sys_privtab (a_kpriv L) (all * z_kpriv L)
  else if what =? SI_SLOTS_TAB then fetch_table sys_slotstab (a_slots L) (all * z_slots L)
  else pret (inl EINVAL).

Definition do_getsysinfo : pact E Z :=
  g <- pget ;;
  r <- sysinfo_src (m1_i1 (m_in g)) ;;
  match r with
  | inl rcode => pret rcode
  | inr (src, len) => sys_vircopy PM_PROC_NR src (who_e g) (m1_p1 (m_in g)) len
  end.

(** [strncmp(a, b, n) == 0]. *)
Fixpoint same_text (n : nat) (a b : list Z) : bool :=
  match n with
  | O => true
  | S n => let x := hd 0 a in (x =? hd 0 b) && ((x =? 0) || same_text n (tl a) (tl b))
  end.

Definition reply_found (r : option Z) : pact E Z :=
  match r with
  | Some ep => g <- pget ;; set_reply (mp_nr g) reply_endpt ep ;; pret OK
  | None => pret EMOLSRCH
  end.

Definition find_pid (pid i : Z) : pact E (option Z) :=
  x <- rd i ;;
  k <- rd_kproc i ;;
  pret (if has (mp_flags x) IN_USE && (mp_pid x =? pid) then Some (p_endpoint k) else None).

Definition find_name (n : nat) (key : list Z) (i : Z) : pact E (option Z) :=
  k <- rd_kproc i ;;
  g <- pget ;;
  name <- plook (fun e => kname e (i + nr_tasks g)) ;;
  pret (if (Z.land (p_rts_flags k) SLOT_FREE =? 0) && same_text n name key then Some (p_endpoint k) else None).

Definition own_numbers : pact E Z :=
  g <- pget ;;
  m <- rd_mp ;;
  set_reply (mp_nr g) reply_endpt (who_e g) ;;
  k <- rd_kproc (mp_parent m) ;;
  set_reply (mp_nr g) reply_pendpt (p_endpoint k) ;;
  pret OK.

Definition do_getprocnr : pact E Z :=
  g <- pget ;;
  let pid := m1_i1 (m_in g) in
  let namelen := m1_i2 (m_in g) in
  if pid >=? 0 then r <- ploop (Z.to_nat (nr_procs g)) 0 (find_pid pid) ;; reply_found r
  else if namelen >? 0 then
    let key_len := Z.min namelen (Z.of_nat MAXPROCNAME) in
    ret <- sys_vircopy (who_e g) (m1_p1 (m_in g)) PM_PROC_NR (a_key (pm_lay g)) key_len ;;
    if negb (ret =? OK) then pret ret
    else
      key <- plook search_key ;;
      r <- ploop (Z.to_nat (nr_procs g)) 0 (find_name (Z.to_nat key_len) key) ;; reply_found r
  else own_numbers.

(** The set of signals has one word of the reply. *)
Definition do_procstat : pact E Z :=
  g <- pget ;;
  if m2_i1 (m_in g) =? SELF then
    m <- rd_mp ;;
    set_reply (mp_nr g) reply_mask (to_int (mp_sigpending m)) ;;
    wr_mp (fun m => m <| mp_sigpending := 0 |>) ;;
    pret OK
  else pret EMOLNOSYS.

(** ** Time *)

(** The ticks since the start, or the process manager exits. *)
Definition uptime_or_exit : pact E Z :=
  u <- sys_getuptime ;; exit_if (negb (fst u =? OK)) (fst u) ;; pret (snd u).

Definition reply_seconds (boottime clockTicks uptime : Z) : Z := to_int (boottime + uptime / clockTicks).
Definition reply_micros (clockTicks uptime : Z) : Z :=
  to_int ((uptime mod clockTicks) * (1000000 * clockTicks)).

Definition do_time : pact E Z :=
  up <- uptime_or_exit ;;
  g <- pget ;;
  set_reply (mp_nr g) reply_time (reply_seconds (boottime g) (clockTicks g) up) ;;
  set_reply (mp_nr g) reply_utime (reply_micros (clockTicks g) up) ;;
  pret OK.

Definition do_stime : pact E Z :=
  up <- uptime_or_exit ;;
  pupd (fun g => g <| boottime := to_int (m2_l1 (m_in g) - up / clockTicks g) |>) ;;
  pret OK.

Definition do_times : pact E Z :=
  g <- pget ;;
  r <- sys_rtimes (pm_node g) ;;
  let '(rcode, (user, system, boot)) := r in
  exit_if (negb (rcode =? OK)) rcode ;;
  m <- rd_mp ;;
  wr_mp (fun x => x <| mp_reply ::= fun p =>
    set_word 4 (to_int boot) (set_word 3 (to_int (mp_child_stime m)) (set_word 2 (to_int (mp_child_utime m))
      (set_word 1 (to_int system) (set_word 0 (to_int user) p)))) |>) ;;
  pret OK.

(** ** Programs of other nodes *)

(** A new entry for the program, a copy of the one of the caller. *)
Definition rexec_entry (nr : Z) : pact E Z :=
  g <- pget ;;
  copy_entry nr (who_p g) ;;
  wr nr (start_child (new_flags g nr (Z.lor IN_USE RMT_PROC) 0) (who_p g)) ;;
  pid <- get_free_pid ;;
  wr nr (fun x => x <| mp_pid := pid |>) ;;
  pret pid.

(** The program is woken up; the result is a pid, if there is one. *)
Definition rexec_start (nr ep pid : Z) : pact E Z :=
  x <- rd nr ;;
  rcode <- (if has (mp_flags x) RMT_PROC then pcalls (mnx_notify ep) else pret OK) ;;
  if rcode <? 0 then pret rcode else refresh nr ;; pret pid.

Definition do_rexec : pact E Z :=
  g <- pget ;;
  let node := m7_i3 (m_in g) in
  let bind_type := m7_i2 (m_in g) in
  let len := m7_i4 (m_in g) in
  if (bind_type <? 0) || (bind_type >? MAX_BIND_TYPE) || (bind_type =? Bind.RMT_BIND) then pret EMOLINVAL
  else if len >? MAXCOPYBUF then pret EMOL2BIG
  else
    ep <- sys_rexec node (m7_i1 (m_in g)) bind_type (who_e g) len (m7_p1 (m_in g)) ;;
    if ep <? 0 then pret ep
    else
      x <- rd (ENDPOINT_P ep) ;;
      pid <- (if (bind_type =? Bind.LCL_BIND) || negb (has (mp_flags x) (Z.lor IN_USE RMT_PROC))
              then rexec_entry (ENDPOINT_P ep) else unset U_PID) ;;
      rexec_start (ENDPOINT_P ep) ep pid.

(** The body is empty, and there is no result. *)
Definition do_migrproc : pact E Z := unset U_RESULT.

(** ** The table of the calls *)

Definition no_sys : pact E Z :=
  pupd (fun g => g <| mp_nr := who_p g |>) ;;
  wr_mp (fun m => m <| mp_flags ::= fun f => Z.lor f (Z.lor REPLYPENDING IN_USE) |>) ;;
  pret ENOSYS.

Definition is_in (c : Z) (l : list Z) : bool := existsb (Z.eqb c) l.

Definition getset_calls : list Z :=
  [MOLGETPID; MOLSETUID; MOLGETUID; MOLSETGID; MOLGETGID; MOLSETSID; MOLGETPGRP; MOLSETEUID; MOLSETEGID; MOLSETPNAME].

(** The entries after the last one written are null. *)
Definition call_vec (c : Z) : option (pact E Z) :=
  if c =? MOLEXIT then Some do_pm_exit
  else if c =? MOLFORK then Some do_fork
  else if is_in c [MOLWAIT; MOLWAITPID] then Some do_waitpid
  else if is_in c [MOLTIME; MOLGETTIMEOFDAY] then Some do_time
  else if is_in c getset_calls then Some do_getset
  else if c =? MOLSTIME then Some do_stime
  else if c =? MOLALARM then Some do_alarm
  else if c =? MOLTIMES then Some do_times
  else if c =? MOLPROCSTAT then Some do_procstat
  else if c =? MOLGETSYSINFO then Some do_getsysinfo
  else if c =? MOLGETPROCNR then Some do_getprocnr
  else if c =? MOLFREEPROC then Some do_freeproc
  else if c =? MOLBINDPROC then Some do_bindproc
  else if c =? MOLMIGRPROC then Some do_migrproc
  else if c =? MOLREXEC then Some do_rexec
  else if c =? MOLWAIT4FORK then Some do_wait4fork
  else if c >? MOLWAIT4FORK then None
  else Some no_sys.

(** ** The main loop *)

(** The body of the loop of [get_work] for the message [m]: whether it is served. *)
Definition get_work (m : pmess) : pact E bool :=
  pupd (fun g => g <| m_in := m |> <| who_e := pm_source m |> <| call_nr := pm_type m |>) ;;
  if (pm_source m =? CLOCK) && has (pm_type m) NOTIFY_MESSAGE then pret true
  else
    r <- pm_isokendpt (pm_source m) ;;
    let '(rc, nr) := r in
    pupd (fun g => g <| who_p := nr |>) ;;
    if negb (rc =? OK) then pret false
    else
      let slot := if nr <? 0 then PM_PROC_NR else nr in
      pupd (fun g => g <| kp_nr := slot |> <| mp_nr := slot |>) ;;
      k <- rd_kproc slot ;;
      pret (negb ((nr >=? 0) && negb (p_endpoint k =? pm_source m))).

Definition alarm_time (clockTicks : Z) (m : pmess) : Z :=
  to_unsigned (m9_nsec m / (1000000000 / clockTicks) + m9_sec m * clockTicks).

Definition set_result (r : Z) : pact E unit := pupd (fun g => g <| result := r |>).

(** After the notice of the task of the slots [result] is the one of the message
    before. *)
Definition pm_dispatch : pact E unit :=
  g <- pget ;;
  nodes <- plook dvs_nr_nodes ;;
  let c := call_nr g in
  if c =? SYN_ALARM then expire_timers (alarm_time (clockTicks g) (m_in g)) ;; set_result SUSPEND
  else if c =? NOTIFY_FROM (SYSTEM - pm_node g) then set_result SUSPEND
  else if c =? NOTIFY_FROM (SYSTEM - nodes) then pdo (sys_procinfo (m9_l1 (m_in g)))
  else if to_unsigned c >=? NCALLS then set_result ENOSYS
  else match call_vec c with
       | Some handler => r <- handler ;; set_result r
       | None => crash_ C_WILD
       end.

(** The process with the failed reply is meant to exit; [pm_exit] is called with
    two of its three arguments, and [mp] is the last caller. *)
Definition failed_reply (rcode : Z) : bool :=
  is_in rcode [EMOLSRCDIED; EMOLDSTDIED; EMOLNOPROXY; EMOLNOTCONN; EMOLDEADSRCDST].

Definition must_reply (x : mproc) : bool :=
  Z.land (mp_flags x) (Z.lor (Z.lor REPLYPENDING IN_USE) ZOMBIE) =? Z.lor REPLYPENDING IN_USE.

Definition reply_one (i : Z) : pact E unit :=
  x <- rd i ;;
  pwhen (must_reply x) (
    k <- rd_kproc i ;;
    rcode <- pcalls (mnx_send (p_endpoint k) (mp_reply x)) ;;
    pwhen (failed_reply rcode) (
      g <- pget ;; oper <- unset U_OPER ;; pdo (pm_exit (mp_nr g) rcode oper)) ;;
    wr i (drop REPLYPENDING)).

Definition send_replies : pact E unit :=
  g <- pget ;; pfor (Z.to_nat (nr_procs g)) 0 reply_one.

(** A turn of the loop of [main]. *)
Definition pm_turn (m : pmess) : pact E unit :=
  go <- get_work m ;;
  pwhen go (
    pm_dispatch ;;
    g <- pget ;;
    pwhen (negb (result g =? SUSPEND)) (setreply (who_p g) (result g)) ;;
    send_replies).

Fixpoint pm_turns (l : list pmess) : pact E unit :=
  match l with
  | [] => pret tt
  | m :: l => pm_turn m ;; pm_turns l
  end.
End Calls.
