(* ===== verification/PmStart.v ===== *)
(** * The start of the process manager ([pm_init] of [src/servers/pm/pm.c])

    The process manager binds itself to its slot, or takes it over from another
    node, registers with the system task, allocates its tables and fills them. *)

From S2P Require Import Prelude Types Endpoint Timers Clock Slots Systask PmData SysLib Pm PmFork PmMain.
From S2P Require Bind.

(** The calls of the kernel that only the start makes, the pid and the name of the
    process, the buffer [dcu] that the system task fills in, and the memory that is
    allocated: the addresses of the tables and what is left in that of [mproc]. *)
Class PmKernel (E : Type) := {
  mnx_getdvsinfo : E -> Z * E;
  mnx_replbind : Z -> Z -> Z -> E -> Z * E;
  mnx_getprocinfo : Z -> Z -> E -> (Z * proc) * E;
  mnx_migr_start : Z -> Z -> E -> Z * E;
  mnx_migr_commit : Z -> Z -> Z -> Z -> E -> Z * E;
  pm_lpid : E -> Z;
  own_name : E -> list Z;
  dcu : E -> dc_t;
  new_tables : E -> option (playout * list mproc);
}.

Section Start.
Context {E : Type} `{!PmHost E} `{!AlarmService E} `{!PmKernel E}.

(** ** The slot *)

(** A slot in use is taken over if it is that of a remote process which is not a
    backup. *)
Definition take_over (dcid lpid node : Z) : pact E unit :=
  r <- pcalls (mnx_getprocinfo dcid PM_PROC_NR) ;;
  let '(rcode, rpm) := r in
  exit_if (negb (rcode =? 0)) rcode ;;
  if test_bit BIT_REMOTE (p_rts_flags rpm) && negb (test_bit MIS_BIT_RMTBACKUP (p_misc_flags rpm)) then
    rcode <- pcalls (mnx_migr_start dcid PM_PROC_NR) ;;
    exit_if (negb (rcode =? 0)) rcode ;;
    rcode <- pcalls (mnx_migr_commit lpid dcid PM_PROC_NR node) ;;
    exit_if (negb (rcode =? 0)) rcode
  else crash_ (C_EXIT EMOLSLOTUSED).

Definition bind_slot (dcid lpid node : Z) : pact E unit :=
  ep <- pcalls (mnx_replbind dcid lpid PM_PROC_NR) ;;
  if ep =? PM_PROC_NR then pret tt
  else if ep =? EMOLSLOTUSED then take_over dcid lpid node
  else exit_if (ep <? 0) ep ;; crash_ (C_EXIT EMOLBADPROC).

(** The result of [sys_getmachine] is not tested. *)
Definition register (lpid node : Z) : pact E Z :=
  ep <- sys_rbindproc PM_PROC_NR lpid Bind.REPLICA_BIND node ;;
  exit_if (ep <? 0) ep ;;
  name <- plook own_name ;;
  rcode <- sys_rsetpname ep name node ;;
  exit_if (negb (rcode =? 0)) rcode ;;
  g <- pget ;;
  rcode <- sys_getinfo GET_KINFO (a_pdvs (pm_lay g)) 0 0 ;;
  exit_if (negb (rcode =? 0)) rcode ;;
  pdo (sys_getinfo GET_MACHINE (a_pdcu (pm_lay g)) 0 0) ;;
  d <- plook dcu ;;
  pupd (fun g => g <| pm_dc := d |>) ;;
  pret ep.

Definition allocate : pact E unit :=
  t <- plook new_tables ;;
  match t with
  | Some (lay, mem) => pupd (fun g => g <| pm_lay := lay |> <| mproc_tab := mem |>)
  | None => crash_ (C_EXIT OK)
  end.

(** ** The tables *)

Definition init_pm_entry (x : mproc) : mproc :=
  x <| mp_nice := PRIO_SERVER |> <| mp_sig2mess := fold_left sigaddset mess_sigs 0 |> <| mp_sigmask := 0 |>
    <| mp_catch := 0 |> <| mp_pid := PM_PID |> <| mp_ignore := sigfillset |>
    <| mp_flags ::= fun f => Z.lor f (Z.lor (Z.lor IN_USE DONT_SWAP) PRIV_PROC) |>.

(** [ticks] is what [sysconf] gives; [boottime] is signed.  The table of the kernel is fetched after the
    entries were filled from it. *)
Definition pm_init_tables (ep ticks : Z) : pact E unit :=
  g <- pget ;;
  pfor (Z.to_nat (nr_procs g)) 0 mproc_init ;;
  pupd (fun g => g <| procs_in_use := 1 |> <| mp_nr := PM_PROC_NR |>) ;;
  wr PM_PROC_NR init_pm_entry ;;
  rcode <- sys_privctl ep SERVER_PRIV ;;
  exit_if (negb (rcode =? 0)) rcode ;;
  rcode <- sys_proctab (a_kproc (pm_lay g)) ((nr_tasks g + nr_procs g) * z_kproc (pm_lay g)) ;;
  exit_if (negb (rcode =? 0)) rcode ;;
  pupd (fun g => g <| clockTicks := ticks |>) ;;
  errno <- unset U_ERRNO ;;
  exit_if (ticks =? -1) errno ;;
  up <- uptime_or_exit ;;
  pupd (fun g => g <| boottime := Z.quot (to_int up) ticks |>).

Definition pm_init (dcid ticks : Z) : pact E unit :=
  node <- pcalls mnx_getdvsinfo ;;
  pupd (fun g => g <| pm_node := node |>) ;;
  exit_if (node <? 0) node ;;
  lpid <- plook pm_lpid ;;
  bind_slot dcid lpid node ;;
  ep <- register lpid node ;;
  allocate ;;
  pm_init_tables ep ticks.

(** [main], with the messages it takes. *)
Definition pm_main (dcid ticks : Z) (l : list pmess) : pact E unit :=
  exit_if ((dcid <? 0) || (dcid >=? NR_DCS)) EMOLRANGE ;;
  pm_init dcid ticks ;;
  pm_turns l.
End Start.
