(* ===== verification/PmLogic.v ===== *)
(** * Reasoning about the process manager

    Equations that run a handler step by step, and the rules of [keeps]: an action
    that keeps a property of every entry of the table, also when it stops. *)

From S2P Require Import Prelude Types Endpoint Timers Clock Systask PmData SysLib Pm.
From S2P Require PmFork.
#[local] Open Scope Z_scope.

(** ** Flags *)

Lemma has_spec f m : has f m = true <-> exists n, Z.testbit f n = true /\ Z.testbit m n = true.
Proof.
  unfold has. rewrite negb_true_iff, Z.eqb_neq. split.
  - intros Hne. destruct (decide (Z.land f m = 0)) as [?|_]; [done|].
    assert (~ forall n, Z.testbit (Z.land f m) n = false) as Hn.
    { intros H. apply Hne, Z.bits_inj'. intros n _. by rewrite H, Z.bits_0. }
    destruct (Z_le_gt_dec 0 (Z.land f m)) as [Hp|Hp].
    + exists (Z.log2 (Z.land f m)). rewrite <-andb_true_iff, <-Z.land_spec. apply Z.bit_log2. lia.
    + assert (Z.land f m < 0) as Hneg by lia.
      apply Z.bits_iff_neg_ex in Hneg as (k & Hk). exists (Z.succ (Z.max k 0)).
      rewrite <-andb_true_iff, <-Z.land_spec. apply Hk. lia.
  - intros (n & Hf & Hm) H. assert (Z.testbit (Z.land f m) n = true) as Hb by (by rewrite Z.land_spec, Hf, Hm).
    by rewrite H, Z.bits_0 in Hb.
Qed.

Lemma has_lor f a m : has (Z.lor f a) m = has f m || has a m.
Proof.
  unfold has. rewrite Z.land_lor_distr_l, <-negb_andb. f_equal. apply eq_true_iff_eq.
  rewrite andb_true_iff, !Z.eqb_eq. apply Z.lor_eq_0_iff.
Qed.

(** Dropping flags leaves the others. *)
Lemma has_drop f a m : Z.land m a = 0 -> has (Z.ldiff f a) m = has f m.
Proof.
  intros H. unfold has. replace (Z.land (Z.ldiff f a) m) with (Z.land f m); [done|].
  apply Z.bits_inj'. intros n _. rewrite !Z.land_spec, Z.ldiff_spec.
  assert (Z.testbit (Z.land m a) n = false) as Hb by (by rewrite H, Z.bits_0).
  rewrite Z.land_spec in Hb. destruct (Z.testbit f n), (Z.testbit m n), (Z.testbit a n); done.
Qed.

Lemma has_drop_self f a : has (Z.ldiff f a) a = false.
Proof.
  unfold has. replace (Z.land (Z.ldiff f a) a) with 0; [done|]. symmetry.
  apply Z.bits_inj'. intros n _. rewrite Z.land_spec, Z.ldiff_spec, Z.bits_0.
  by destruct (Z.testbit f n), (Z.testbit a n).
Qed.

Lemma has_le f a : has f a = false -> Z.ldiff f a = f.
Proof.
  intros H. apply Z.bits_inj'. intros n _. rewrite Z.ldiff_spec.
  destruct (Z.testbit a n) eqn:Ha; [|by destruct (Z.testbit f n)].
  destruct (Z.testbit f n) eqn:Hf; [|done].
  assert (has f a = true) by (apply has_spec; eauto). congruence.
Qed.

(** ** The entries *)

Definition set_entry (i : Z) (y : mproc) (g : pmg) : pmg := g <| mproc_tab ::= <[Z.to_nat i := y]> |>.

Lemma entry_set i j y g : entry g i <> None -> entry (set_entry i y g) j = if i =? j then Some y else entry g j.
Proof.
  unfold entry, set_entry. cbn. intros Hi. destruct (Z.ltb_spec i 0); [done|].
  destruct (Z.ltb_spec j 0).
  - by destruct (Z.eqb_spec i j); [lia|].
  - destruct (Z.eqb_spec i j) as [->|Hne].
    + apply list_lookup_insert_eq. by apply lookup_lt_is_Some, not_eq_None_Some.
    + apply list_lookup_insert_ne. lia.
Qed.

Lemma entry_set_eq i x y g : entry g i = Some x -> entry (set_entry i y g) i = Some y.
Proof. intros H. rewrite entry_set by congruence. by rewrite Z.eqb_refl. Qed.

Lemma entry_set_ne i j x y g : entry g i = Some x -> i <> j -> entry (set_entry i y g) j = entry g j.
Proof. intros H Hne. rewrite entry_set by congruence. by destruct (Z.eqb_spec i j). Qed.

Lemma entry_some g i x : entry g i = Some x -> 0 <= i /\ mproc_tab g !! Z.to_nat i = Some x.
Proof. unfold entry. destruct (Z.ltb_spec i 0); [done|]. done. Qed.

Lemma entry_lookup g (j : nat) : entry g (Z.of_nat j) = mproc_tab g !! j.
Proof. unfold entry. destruct (Z.ltb_spec (Z.of_nat j) 0); [lia|]. by rewrite Nat2Z.id. Qed.

(** ** Running a handler *)

Section Run.
Context {E : Type}.
Implicit Types (g : pmg) (e : E).

Lemma pbind_done {A B} (m : pact E A) (k : A -> pact E B) g e a g' e' :
  m g e = Done a g' e' -> pbind m k g e = k a g' e'.
Proof. unfold pbind. by intros ->. Qed.

Lemma pbind_crash {A B} (m : pact E A) (k : A -> pact E B) g e x g' e' :
  m g e = Crash x g' e' -> pbind m k g e = Crash x g' e'.
Proof. unfold pbind. by intros ->. Qed.

Lemma pbind_inv {A B} (m : pact E A) (k : A -> pact E B) g e b g' e' :
  pbind m k g e = Done b g' e' -> exists a g1 e1, m g e = Done a g1 e1 /\ k a g1 e1 = Done b g' e'.
Proof. unfold pbind. destruct (m g e); [by eauto|done]. Qed.

Lemma rd_done i g e x : entry g i = Some x -> rd i g e = Done x g e.
Proof. unfold rd. by intros ->. Qed.

Lemma wr_done i f g e x : entry g i = Some x -> wr i f g e = Done tt (set_entry i (f x) g) e.
Proof. intros H. unfold wr. by rewrite (pbind_done _ _ _ _ _ _ _ (rd_done _ _ _ _ H)). Qed.

Lemma rd_mp_done g e x : entry g (mp_nr g) = Some x -> rd_mp g e = Done x g e.
Proof. apply rd_done. Qed.

Lemma pwhen_true m g e : pwhen (E := E) true m g e = m g e.
Proof. done. Qed.

(** What is left when a loop does nothing. *)
Lemma pfor_id n i (body : Z -> pact E unit) g e :
  (forall j, i <= j < i + Z.of_nat n -> body j g e = Done tt g e) -> pfor n i body g e = Done tt g e.
Proof.
  revert i. induction n as [|n IH]; intros i H; [done|]. cbn [pfor].
  rewrite (pbind_done _ _ _ _ _ _ _ (H i ltac:(lia))). apply IH. intros j Hj. apply H. lia.
Qed.

(** A property that every round keeps holds after the loop. *)
Lemma pfor_inv (I : Z -> pmg -> E -> Prop) n i (body : Z -> pact E unit) g e g' e' :
  I i g e -> pfor n i body g e = Done tt g' e' ->
  (forall j g e g' e', i <= j < i + Z.of_nat n -> I j g e -> body j g e = Done tt g' e' -> I (j + 1) g' e') ->
  I (i + Z.of_nat n) g' e'.
Proof.
  revert i g e. induction n as [|n IH]; intros i g e HI Hrun Hb.
  - injection Hrun as -> ->. by replace (i + Z.of_nat 0) with i by lia.
  - cbn [pfor] in Hrun. apply pbind_inv in Hrun as ([] & g1 & e1 & H1 & H2).
    replace (i + Z.of_nat (S n)) with ((i + 1) + Z.of_nat n) by lia.
    apply (IH (i + 1) g1 e1); [by eapply Hb; [lia|..]|done|]. intros j g2 e2 g3 e3 Hj. apply Hb. lia.
Qed.
End Run.

(** ** Properties of every entry *)

Definition state_of {E A} (r : pout E A) : pmg := match r with Done _ g _ => g | Crash _ g _ => g end.

Section Keeps.
Context {E : Type} (P : Z -> mproc -> Prop).
Implicit Types (g : pmg) (e : E).

Definition tabled (g : pmg) : Prop := forall i x, entry g i = Some x -> P i x.
Definition keeps {A} (m : pact E A) : Prop := forall g e, tabled g ->
  tabled (state_of (m g e)) /\ pm_dc (state_of (m g e)) = pm_dc g.

Lemma keeps_done {A} (m : pact E A) g e a g' e' : keeps m -> m g e = Done a g' e' -> tabled g -> tabled g'.
Proof. intros H Hm Hg. destruct (H g e Hg) as [Ht _]. by rewrite Hm in Ht. Qed.

Lemma keeps_dc {A} (m : pact E A) g e a g' e' : keeps m -> m g e = Done a g' e' -> tabled g -> pm_dc g' = pm_dc g.
Proof. intros H Hm Hg. destruct (H g e Hg) as [_ Hd]. by rewrite Hm in Hd. Qed.

Lemma tabled_same g g' : mproc_tab g' = mproc_tab g -> tabled g -> tabled g'.
Proof. intros Ht Hg i x. unfold entry. rewrite Ht. apply Hg. Qed.

Lemma tabled_set i y g : (entry g i <> None -> P i y) -> tabled g -> entry g i <> None -> tabled (set_entry i y g).
Proof.
  intros Hy Hg Hi j x. rewrite entry_set by done. destruct (Z.eqb_spec i j) as [<-|_]; [|apply Hg].
  intros [= <-]. by apply Hy.
Qed.

Lemma pkeeps_ret {A} (a : A) : keeps (pret a).
Proof. by intros g e. Qed.
Lemma pkeeps_bind {A B} (m : pact E A) (k : A -> pact E B) : keeps m -> (forall a, keeps (k a)) -> keeps (pbind m k).
Proof.
  intros Hm Hk g e Hg. destruct (Hm g e Hg) as [Ht Hd]. unfold pbind.
  destruct (m g e) as [a g1 e1|x g1 e1]; [|done]. rewrite <-Hd. by apply Hk.
Qed.
Lemma pkeeps_get : keeps pget.
Proof. by intros g e. Qed.
Lemma keeps_upd f : (forall g, mproc_tab (f g) = mproc_tab g /\ pm_dc (f g) = pm_dc g) -> keeps (pupd f).
Proof. intros H g e Hg. destruct (H g) as [Ht Hd]. split; [|done]. exact (tabled_same _ _ Ht Hg). Qed.
Lemma keeps_crash {A} x : keeps (A := A) (crash_ x).
Proof. by intros g e. Qed.
Lemma pkeeps_when b m : keeps m -> keeps (pwhen b m).
Proof. destruct b; [done|intros _; apply pkeeps_ret]. Qed.
Lemma keeps_calls {A} (f : E -> A * E) : keeps (pcalls f).
Proof. intros g e Hg. unfold pcalls. by destruct (f e). Qed.
Lemma keeps_unset `{!PmHost E} u : keeps (unset u).
Proof. by intros g e H. Qed.
Lemma keeps_look {A} (f : E -> A) : keeps (plook f).
Proof. by intros g e. Qed.
Lemma pkeeps_rd i : keeps (rd i).
Proof. intros g e Hg. unfold rd. by destruct (entry g i). Qed.
Lemma keeps_rd_mp : keeps rd_mp.
Proof. intros g e Hg. by apply pkeeps_rd. Qed.
Lemma keeps_exit_if b x : keeps (exit_if b x).
Proof. apply pkeeps_when, keeps_crash. Qed.
Lemma keeps_do {A} (m : pact E A) : keeps m -> keeps (pdo m).
Proof. intros H. apply pkeeps_bind; [done|]. intros _. apply pkeeps_ret. Qed.

(** The value read satisfies the property. *)
Lemma keeps_rd_bind {B} i (k : mproc -> pact E B) : (forall x, P i x -> keeps (k x)) -> keeps (pbind (rd i) k).
Proof.
  intros Hk g e Hg. unfold pbind, rd. destruct (entry g i) as [x|] eqn:Hx; [|done].
  by apply Hk; [apply Hg|].
Qed.

Lemma keeps_wr i f : (forall x, P i x -> P i (f x)) -> keeps (wr i f).
Proof.
  intros Hf g e Hg. destruct (entry g i) as [x|] eqn:Hx.
  - rewrite (wr_done _ _ _ _ _ Hx). split; [|done]. apply tabled_set; [|done|congruence]. intros _. by apply Hf, Hg.
  - unfold wr, pbind, rd. by rewrite Hx.
Qed.
Lemma keeps_wr_mp f : (forall i x, P i x -> P i (f x)) -> keeps (wr_mp f).
Proof. intros Hf. apply pkeeps_bind; [apply pkeeps_get|]. intros g. apply keeps_wr. intros x. apply Hf. Qed.
Lemma keeps_timers {A} (f : tqueue -> E -> option (tqueue * E * A)) : keeps (on_timers f).
Proof. intros g e Hg. unfold on_timers. by destruct (f (pm_timers g) e) as [[[q e'] a]|]. Qed.
Lemma keeps_for n i body : (forall j, keeps (body j)) -> keeps (pfor n i body).
Proof.
  intros Hb. revert i. induction n as [|n IH]; intros i; [apply pkeeps_ret|].
  apply pkeeps_bind; [apply Hb|]. intros _. apply IH.
Qed.
Lemma keeps_loop {A} n i (body : Z -> pact E (option A)) : (forall j, keeps (body j)) -> keeps (ploop n i body).
Proof.
  intros Hb. revert i. induction n as [|n IH]; intros i; [apply pkeeps_ret|].
  apply pkeeps_bind; [apply Hb|]. intros [a|]; [apply pkeeps_ret|apply IH].
Qed.
End Keeps.

Create HintDb keeps discriminated.
#[export] Hint Resolve pkeeps_ret pkeeps_get keeps_crash keeps_calls keeps_look keeps_unset pkeeps_rd keeps_rd_mp keeps_exit_if
  keeps_timers : keeps.

(** Goes through an action, branch by branch; what is left are the changes of
    entries. *)
Ltac kept :=
  repeat first
    [ solve [auto 1 with keeps nocore]
    | progress cbn beta iota zeta
    | match goal with
      | |- keeps _ (pbind _ _) => apply pkeeps_bind; [|intros ?]
      | |- keeps _ (pwhen _ _) => apply pkeeps_when
      | |- keeps _ (pdo _) => apply keeps_do
      | |- keeps _ (pfor _ _ _) => apply keeps_for; intros ?
      | |- keeps _ (ploop _ _ _) => apply keeps_loop; intros ?
      | |- keeps _ (if ?b then _ else _) => destruct b
      | |- keeps _ (match ?x with _ => _ end) => destruct x eqn:?
      | |- keeps _ (pupd _) => apply keeps_upd; done
      end ].

(** ** What writes no entry *)

Section Reads.
Context {E : Type} `{!PmHost E} `{!AlarmService E} (P : Z -> mproc -> Prop).

Lemma keeps_taskcall who q : keeps P (_taskcall who q).
Proof. unfold _taskcall. kept. Qed.
#[local] Hint Resolve keeps_taskcall : keeps.
Lemma keeps_getinfo a b c d : keeps P (sys_getinfo a b c d).
Proof. unfold sys_getinfo. kept. Qed.
#[local] Hint Resolve keeps_getinfo : keeps.
Lemma keeps_procinfo nr : keeps P (sys_procinfo nr).
Proof. unfold sys_procinfo. kept. Qed.
Lemma keeps_rd_kproc nr : keeps (E := E) P (rd_kproc nr).
Proof. by intros g e. Qed.
#[local] Hint Resolve keeps_procinfo keeps_rd_kproc : keeps.
Lemma keeps_refresh nr : keeps P (PmFork.refresh nr).
Proof. unfold PmFork.refresh. kept. Qed.
Lemma keeps_uptime : keeps P sys_getuptime.
Proof. unfold sys_getuptime, sys_rtimes. kept. Qed.
Lemma keeps_isokendpt ep : keeps P (pm_isokendpt ep).
Proof. unfold pm_isokendpt, flags_of. kept. Qed.

Lemma keeps_free_pid n : keeps (E := E) P (free_pid n).
Proof. induction n as [|n IH]; cbn [free_pid]; kept. Qed.
#[local] Hint Resolve keeps_free_pid : keeps.
Lemma keeps_get_free_pid : keeps (E := E) P get_free_pid.
Proof. unfold get_free_pid. kept. Qed.

Lemma keeps_sig_scan n i pid s c err : keeps (E := E) P (sig_scan n i pid s c err).
Proof.
  revert i c err. induction n as [|n IH]; intros i c err; cbn [sig_scan]; kept; auto.
  unfold sig_proc. kept.
Qed.
#[local] Hint Resolve keeps_sig_scan : keeps.
Lemma keeps_check_sig pid s : keeps (E := E) P (check_sig pid s).
Proof. unfold check_sig. kept. Qed.
Lemma keeps_with_timers f : keeps (E := E) P (with_timers f).
Proof. unfold with_timers. kept. Qed.
Lemma keeps_timer_of t : keeps (E := E) P (timer_of t).
Proof. intros g e Hg. unfold timer_of. by destruct (theap (pm_timers g) !! t). Qed.
End Reads.

#[export] Hint Resolve keeps_taskcall keeps_getinfo keeps_procinfo keeps_rd_kproc keeps_refresh keeps_uptime
  keeps_isokendpt keeps_free_pid keeps_get_free_pid keeps_sig_scan keeps_check_sig keeps_with_timers
  keeps_timer_of : keeps.
