(* ===== verification/PmIds.v ===== *)
(** * The identities of the processes

    The entries start with no user and no group ([mproc_init] writes -1), and no
    call gives them one: a process may only become the user it is, or any user if
    it is the super user, which nobody is. *)

From S2P Require Import Prelude Types Endpoint Timers Clock Slots Systask PmData SysLib Pm PmFork PmMain PmStart PmLogic.
#[local] Open Scope Z_scope.

Definition NO_ID : Z := to_unsigned (-1).
Definition ids (x : mproc) : Z * Z * Z * Z := (mp_realuid x, mp_effuid x, mp_realgid x, mp_effgid x).
Definition nobody (x : mproc) : Prop := ids x = (NO_ID, NO_ID, NO_ID, NO_ID).

Section Ids.
Context {E : Type} `{!PmHost E} `{!AlarmService E}.
Abbreviation N := (fun (_ : Z) => nobody).

(** A change that leaves the identity. *)
Lemma wr_ids i (f : mproc -> mproc) : (forall x, ids (f x) = ids x) -> keeps (E := E) N (wr i f).
Proof. intros H. apply keeps_wr. intros x. unfold nobody. by rewrite H. Qed.

Lemma wr_mp_ids (f : mproc -> mproc) : (forall x, ids (f x) = ids x) -> keeps (E := E) N (wr_mp f).
Proof. intros H. apply keeps_wr_mp. intros _ x. unfold nobody. by rewrite H. Qed.
#[local] Hint Extern 1 (keeps _ (wr _ _)) => (apply wr_ids; intros ?; reflexivity) : keeps.
#[local] Hint Extern 1 (keeps _ (wr_mp _)) => (apply wr_mp_ids; intros ?; reflexivity) : keeps.
#[local] Hint Extern 1 (keeps _ (pupd _)) => (apply keeps_upd; intros ?; split; reflexivity) : keeps.

Lemma ids_set_reply i f v : keeps (E := E) N (set_reply i f v).
Proof. unfold set_reply. kept. Qed.
Lemma ids_setreply nr r : keeps (E := E) N (setreply nr r).
Proof. unfold setreply. kept. Qed.
#[local] Hint Resolve ids_set_reply ids_setreply : keeps.

(** The new entries have no identity, and copies have the one of their source. *)
Lemma ids_mproc_init nr : keeps N (mproc_init nr).
Proof.
  unfold mproc_init. kept. apply keeps_wr. by intros x.
Qed.
Lemma ids_copy_entry i j : keeps (E := E) N (copy_entry i j).
Proof. unfold copy_entry. apply keeps_rd_bind. intros x Hx. kept. by apply keeps_wr. Qed.
#[local] Hint Resolve ids_mproc_init ids_copy_entry : keeps.

(** Alarms. *)
Lemma ids_set_alarm ep sec : keeps N (set_alarm ep sec).
Proof. unfold set_alarm, change_alarm, start_alarm, stop_alarm, uptime_or_error. kept. Qed.
#[local] Hint Resolve ids_set_alarm : keeps.
Lemma ids_fire l : keeps N (fire l).
Proof. induction l as [|t l IH]; cbn [fire]; unfold cause_sigalrm; kept. Qed.
#[local] Hint Resolve ids_fire : keeps.
Lemma ids_expire now : keeps N (expire_timers now).
Proof. unfold expire_timers. kept. Qed.

(** Exits and waits. *)
Lemma ids_cleanup nr : keeps (E := E) N (cleanup nr).
Proof. unfold cleanup. kept. Qed.
#[local] Hint Resolve ids_expire ids_cleanup : keeps.
Lemma ids_exit nr status oper : keeps N (pm_exit nr status oper).
Proof. unfold pm_exit, exit_begin, exit_end, account, drop_reply, exit_entry, disinherit, sig_proc, _sys_exit. kept. Qed.
Lemma ids_wait_scan n i pid c : keeps (E := E) N (wait_scan n i pid c).
Proof. revert i c. induction n as [|n IH]; intros i c; cbn [wait_scan]; kept; auto. Qed.
#[local] Hint Resolve ids_exit ids_wait_scan : keeps.
Lemma ids_waitpid : keeps (E := E) N do_waitpid.
Proof. unfold do_waitpid. kept. Qed.
Lemma ids_fork_entry a b c : keeps N (fork_entry a b c).
Proof. unfold fork_entry. kept. Qed.
#[local] Hint Resolve ids_waitpid ids_fork_entry : keeps.
Lemma ids_fork : keeps N do_fork.
Proof. unfold do_fork, fork_remote, sys_rfork, sys_rbindproc, sys_rsetpname. kept. Qed.
Lemma ids_wait4fork : keeps N do_wait4fork.
Proof. unfold do_wait4fork. kept. Qed.
Lemma ids_pm_exit_call : keeps N do_pm_exit.
Proof. unfold do_pm_exit. kept. Qed.
Lemma ids_register nr pid : keeps (E := E) N (register_sysproc nr pid).
Proof. unfold register_sysproc. kept. Qed.
#[local] Hint Resolve ids_register : keeps.
Lemma ids_bindproc : keeps N do_bindproc.
Proof. unfold do_bindproc, bind_sysproc, sys_rbindproc. kept. Qed.
Lemma ids_freeproc : keeps (E := E) N do_freeproc.
Proof. unfold do_freeproc. kept. Qed.

(** The identity that a process may take is the one that it has. *)
Lemma may_become_nobody x id : nobody x -> may_become (mp_realuid x) id (mp_effuid x) = true -> id = NO_ID.
Proof. intros [= -> -> _ _]. unfold may_become. cbn. intros H. rewrite orb_false_r in H. by apply Z.eqb_eq in H. Qed.
Lemma may_group_nobody x id : nobody x -> may_become (mp_realgid x) id (mp_effuid x) = true -> id = NO_ID.
Proof. intros [= _ -> -> _]. unfold may_become. cbn. intros H. rewrite orb_false_r in H. by apply Z.eqb_eq in H. Qed.

Lemma keeps_rd_mp_bind {B} (k : mproc -> pact E B) : (forall x, nobody x -> keeps N (k x)) -> keeps N (pbind rd_mp k).
Proof.
  intros Hk g e Hg. unfold rd_mp, pbind, pget, rd. destruct (entry g (mp_nr g)) as [x|] eqn:Hx; [|done].
  apply (Hk x); [by eapply Hg|done].
Qed.

Lemma ids_set_uid id : keeps (E := E) N (set_uid id).
Proof.
  unfold set_uid. apply keeps_rd_mp_bind. intros x Hx. apply pkeeps_bind; [apply pkeeps_get|]. intros g.
  destruct (may_become _ _ _) eqn:Hm; cbn [negb]; [|apply pkeeps_ret].
  apply (may_become_nobody _ _ Hx) in Hm as ->. unfold tell_fs. kept; apply keeps_wr_mp; intros _ y [= H1 H2 H3 H4];
    unfold nobody, ids; cbn; by rewrite ?H1, ?H2, ?H3, ?H4.
Qed.
Lemma ids_set_gid id : keeps (E := E) N (set_gid id).
Proof.
  unfold set_gid. apply keeps_rd_mp_bind. intros x Hx. apply pkeeps_bind; [apply pkeeps_get|]. intros g.
  destruct (may_become _ _ _) eqn:Hm; cbn [negb]; [|apply pkeeps_ret].
  apply (may_group_nobody _ _ Hx) in Hm as ->. unfold tell_fs. kept; apply keeps_wr_mp; intros _ y [= H1 H2 H3 H4];
    unfold nobody, ids; cbn; by rewrite ?H1, ?H2, ?H3, ?H4.
Qed.
#[local] Hint Resolve ids_set_uid ids_set_gid : keeps.

(** The other calls. *)
Lemma ids_getset : keeps N do_getset.
Proof. unfold do_getset, answer2, get_pid, set_sid, get_pgrp, set_pname, sys_rsetpname, tell_fs. kept. Qed.
Lemma ids_getsysinfo : keeps N do_getsysinfo.
Proof. unfold do_getsysinfo, sysinfo_src, fetch_table, sys_proctab, sys_privtab, sys_slotstab, sys_vircopy. kept. Qed.
Lemma ids_getprocnr : keeps N do_getprocnr.
Proof. unfold do_getprocnr, find_pid, find_name, reply_found, own_numbers, sys_vircopy. kept. Qed.
Lemma ids_times : keeps N do_times.
Proof. unfold do_times, sys_rtimes. kept. Qed.
Lemma ids_rexec : keeps N do_rexec.
Proof. unfold do_rexec, rexec_entry, rexec_start, sys_rexec. kept. Qed.
#[local] Hint Resolve ids_fork ids_wait4fork ids_pm_exit_call ids_bindproc ids_freeproc
  ids_getset ids_getsysinfo ids_getprocnr ids_times ids_rexec : keeps.

Lemma ids_call c h : call_vec c = Some h -> keeps N h.
Proof.
  unfold call_vec. repeat case_match; intros [= <-]; auto with keeps.
  - unfold do_time, uptime_or_exit. kept.
  - unfold do_stime, uptime_or_exit. kept.
  - unfold do_alarm. kept.
  - unfold do_procstat. kept.
  - unfold do_migrproc. kept.
  - unfold no_sys. kept.
Qed.

(** ** The main loop *)

Lemma ids_get_work m : keeps N (get_work m).
Proof. unfold get_work. kept. Qed.
Lemma ids_dispatch : keeps N pm_dispatch.
Proof.
  unfold pm_dispatch, set_result. kept. by eapply ids_call.
Qed.
#[local] Hint Resolve ids_get_work ids_dispatch : keeps.
Lemma ids_turn m : keeps N (pm_turn m).
Proof. unfold pm_turn, send_replies, reply_one. kept. Qed.
#[local] Hint Resolve ids_turn : keeps.
Lemma ids_turns l : keeps N (pm_turns l).
Proof. induction l as [|m l IH]; cbn [pm_turns]; kept. Qed.

(** ** The tables at the start *)

(** The table has [n] entries at most, and the first [i] have no identity. *)
Definition cleared (n i : Z) : Z -> mproc -> Prop := fun j x => j < n /\ (j < i -> nobody x).

Lemma mproc_init_clears n i g e g' e' :
  tabled (cleared n i) g -> mproc_init i g e = Done tt g' e' -> tabled (cleared n (i + 1)) g'.
Proof.
  intros Hg. unfold mproc_init. rewrite (pbind_done _ _ _ _ tt (g <| mp_nr := i |>) e) by done.
  intros Hrun. apply pbind_inv in Hrun as ([] & g1 & e1 & H1 & H2).
  refine (keeps_done _ _ _ _ _ _ _ _ H2 _).
  - kept. apply keeps_wr. intros x [Hn Hx]. split; [done|]. intros Hj. exact (Hx Hj).
  - unfold wr, pbind, rd in H1. destruct (entry _ i) as [x|] eqn:Hx; [|done]. injection H1 as <- <-.
    intros j y. change (entry (set_entry i (init_entry x) g) j = Some y -> cleared n (i + 1) j y).
    rewrite entry_set by (unfold entry in *; cbn in *; congruence).
    destruct (Z.eqb_spec i j) as [->|Hne].
    + intros [= <-]. split; [by apply (Hg j x)|done].
    + intros Hy. destruct (Hg _ _ Hy) as [Hn Hb]. split; [done|]. intros Hj. apply Hb. lia.
Qed.

Lemma init_loop_nobody g e g' e' :
  length (mproc_tab g) = Z.to_nat (nr_procs g) ->
  pfor (Z.to_nat (nr_procs g)) 0 mproc_init g e = Done tt g' e' -> tabled N g'.
Proof.
  intros Hlen Hrun. set (n := Z.of_nat (length (mproc_tab g))).
  assert (tabled (cleared n (0 + Z.of_nat (Z.to_nat (nr_procs g)))) g') as Ht.
  { refine (pfor_inv (fun i g _ => tabled (cleared n i) g) _ _ _ _ _ _ _ _ Hrun _).
    - intros j x [Hj Hx]%entry_some. apply lookup_lt_Some in Hx. split; lia.
    - intros j g1 e1 g2 e2 _ H1. by apply mproc_init_clears. }
  intros j x Hx. destruct (Ht _ _ Hx) as [Hn Hb]. apply Hb. lia.
Qed.

Lemma tables_nobody ep ticks g e g' e' :
  length (mproc_tab g) = Z.to_nat (nr_procs g) ->
  pm_init_tables ep ticks g e = Done tt g' e' -> tabled N g'.
Proof.
  intros Hlen Hrun. unfold pm_init_tables in Hrun.
  rewrite (pbind_done _ _ _ _ g g e) in Hrun by done. apply pbind_inv in Hrun as ([] & g2 & e2 & H1 & H2).
  refine (keeps_done _ _ _ _ _ _ _ _ H2 (init_loop_nobody _ _ _ _ Hlen H1)).
  unfold sys_privctl, sys_proctab, uptime_or_exit. kept.
Qed.

Context `{!PmKernel E}.

(** The tables are allocated for the DC the system task has told. *)
Lemma register_dc lpid node g e ep g' e' : register lpid node g e = Done ep g' e' -> pm_dc g' = dcu e'.
Proof.
  unfold register. intros Hrun. do 9 apply pbind_inv in Hrun as (? & ? & ? & _ & Hrun).
  by injection Hrun as <- <- <-.
Qed.

(** C15. No process ever has an identity: after the start of the process manager and
    any sequence of messages, every entry of the table has the user and the group -1,
    real and effective, that the start gave it.  A call to change them is refused,
    nobody is the super user, and what a process inherits is the identity of nobody.
    The allocated table has an entry for each process of the DC. *)
Theorem nobody_forever dcid ticks l g e g' e' :
  (forall e lay mem, new_tables e = Some (lay, mem) -> length mem = Z.to_nat (dc_nr_procs (dcu e))) ->
  pm_main dcid ticks l g e = Done tt g' e' ->
  Forall (fun x => ids x = (NO_ID, NO_ID, NO_ID, NO_ID)) (mproc_tab g').
Proof.
  intros Hlen Hrun. apply list.Forall_lookup. intros i x Hx.
  assert (tabled N g') as Ht; [|apply (Ht (Z.of_nat i)); by rewrite entry_lookup].
  unfold pm_main, pm_init in Hrun. apply pbind_inv in Hrun as (_ & g1 & e1 & _ & Hrun).
  apply pbind_inv in Hrun as ([] & g2 & e2 & Hinit & Hrun).
  refine (keeps_done _ _ _ _ _ _ _ (ids_turns l) Hrun _).
  do 5 apply pbind_inv in Hinit as (? & ? & ? & _ & Hinit).
  apply pbind_inv in Hinit as (ep & g3 & e3 & Hreg & Hinit). apply register_dc in Hreg.
  apply pbind_inv in Hinit as ([] & g4 & e4 & Halloc & Hinit).
  refine (tables_nobody _ _ _ _ _ _ _ Hinit). revert Halloc. unfold allocate, plook, pbind.
  destruct (new_tables e3) as [[lay mem]|] eqn:Hmem; [|done].
  intros [= <- <-]. cbn. unfold nr_procs; cbn. rewrite Hreg. by eapply Hlen.
Qed.
End Ids.
