(* ===== verification/PmFlow.v ===== *)
(** * The process manager: pids, replies, parents

    The search of a pid ends with one that no process has; the replies that are
    pending are sent once; the children of a process that exits are given to
    INIT. *)

From S2P Require Import Prelude Types Endpoint Timers Clock Slots Systask PmData SysLib Pm PmFork PmMain PmLogic.
#[local] Open Scope Z_scope.

(** ** Pids *)

(** The pids that [fuel] turns of the search try. *)
Fixpoint candidates (fuel : nat) (p : Z) : list Z :=
  match fuel with
  | O => []
  | S fuel => pid_after p :: candidates fuel (pid_after p)
  end.

Definition PIDS : Z := NR_PIDS - INIT_PID.

Lemma pid_after_mod p : 1 <= p <= NR_PIDS -> pid_after p = 2 + (p - 1) mod PIDS.
Proof.
  unfold pid_after, PIDS, NR_PIDS, INIT_PID. intros Hp. destruct (Z.ltb_spec p 32760).
  - rewrite Z.mod_small; lia.
  - replace p with 32760 by lia. done.
Qed.

Lemma pid_after_range p : 1 <= p <= NR_PIDS -> INIT_PID < pid_after p <= NR_PIDS.
Proof. unfold pid_after, NR_PIDS, INIT_PID. destruct (Z.ltb_spec p 32760); lia. Qed.

Lemma candidates_spec fuel p x :
  1 <= p <= NR_PIDS -> x ∈ candidates fuel p -> exists k, 0 <= k < Z.of_nat fuel /\ x = 2 + (p - 1 + k) mod PIDS.
Proof.
  revert p. induction fuel as [|fuel IH]; intros p Hp Hx; [by apply not_elem_of_nil in Hx|].
  cbn [candidates] in Hx. apply elem_of_cons in Hx as [->|Hx].
  - exists 0. split; [lia|]. rewrite pid_after_mod by done. f_equal. f_equal. lia.
  - pose proof (pid_after_range p Hp) as Hr. unfold INIT_PID in Hr. destruct (IH (pid_after p) ltac:(lia) Hx) as (k & Hk & ->).
    exists (k + 1). split; [lia|]. f_equal. rewrite pid_after_mod by done.
    replace (2 + (p - 1) mod PIDS - 1 + k) with ((p - 1) mod PIDS + (k + 1)) by lia.
    by rewrite Zplus_mod_idemp_l.
Qed.

Lemma candidates_range fuel p x : 1 <= p <= NR_PIDS -> x ∈ candidates fuel p -> INIT_PID < x <= NR_PIDS.
Proof.
  intros Hp Hx. destruct (candidates_spec _ _ _ Hp Hx) as (k & _ & ->).
  pose proof (Z.mod_pos_bound (p - 1 + k) PIDS ltac:(done)). unfold PIDS, NR_PIDS, INIT_PID in *. lia.
Qed.

Lemma candidates_nodup fuel p : 1 <= p <= NR_PIDS -> Z.of_nat fuel <= PIDS -> NoDup (candidates fuel p).
Proof.
  revert p. induction fuel as [|fuel IH]; intros p Hp Hf; [constructor|]. cbn [candidates].
  pose proof (pid_after_range p Hp) as Hr. unfold INIT_PID in Hr. constructor; [|apply IH; lia].
  intros (k & Hk & Ek)%candidates_spec; [|lia].
  assert ((pid_after p - 1 + k) mod PIDS = (pid_after p - 2) mod PIDS) as Em.
  { rewrite (Z.mod_small (pid_after p - 2)); [lia|]. unfold PIDS, NR_PIDS, INIT_PID in *. lia. }
  assert ((k + 1) mod PIDS = 0) as E0.
  { replace (k + 1) with ((pid_after p - 1 + k) - (pid_after p - 2)) by lia.
    rewrite Zminus_mod, Em, Z.sub_diag. done. }
  rewrite Z.mod_small in E0; lia.
Qed.

(** The pids that are taken, two for each entry at most. *)
Definition taken_pids (tab : list mproc) : list Z := map mp_pid tab ++ map mp_procgrp tab.

Lemma pid_taken_spec tab n : pid_taken tab n = true <-> n ∈ taken_pids tab.
Proof.
  unfold pid_taken, taken_pids. rewrite existsb_exists, elem_of_app, !list_elem_of_In, !in_map_iff. split.
  - intros (x & Hx & [H|H]%orb_true_iff); apply Z.eqb_eq in H; [left|right]; by exists x.
  - intros [(x & <- & Hx)|(x & <- & Hx)]; exists x; by rewrite Z.eqb_refl, ?orb_true_r.
Qed.

Lemma free_pid_S {E} fuel g (e : E) :
  let n := pid_after (next_pid g) in
  free_pid (S fuel) g e =
    if pid_taken (mproc_tab g) n then free_pid fuel (g <| next_pid := n |>) e else Done n (g <| next_pid := n |>) e.
Proof.
  intros n. cbn [free_pid]. unfold pbind, pupd, pget. cbn -[pid_taken]. fold n.
  by destruct (pid_taken (mproc_tab g) n).
Qed.

(** The pid [k] places after [p] in turn. *)
Definition pid_in (k : nat) (p : Z) : Z := Nat.iter k pid_after p.

Lemma pid_in_S k p : pid_in (S k) p = pid_in k (pid_after p).
Proof. unfold pid_in. induction k as [|k IH]; [done|]. cbn in *. by rewrite IH. Qed.

(** The search gives the first pid in turn that is not taken. *)
Lemma free_pid_spec {E} fuel g (e : E) :
  (exists k, (k < fuel)%nat /\ let n := pid_in (S k) (next_pid g) in
     free_pid fuel g e = Done n (g <| next_pid := n |>) e /\
     n ∈ candidates fuel (next_pid g) /\ pid_taken (mproc_tab g) n = false /\
     forall j, (j < k)%nat -> pid_taken (mproc_tab g) (pid_in (S j) (next_pid g)) = true) \/
  (forall n, n ∈ candidates fuel (next_pid g) -> pid_taken (mproc_tab g) n = true).
Proof.
  revert g. induction fuel as [|fuel IH]; intros g.
  - right. intros n Hn. by apply not_elem_of_nil in Hn.
  - rewrite free_pid_S. cbn [candidates].
    destruct (pid_taken (mproc_tab g) (pid_after (next_pid g))) eqn:Ht.
    + destruct (IH (g <| next_pid := pid_after (next_pid g) |>)) as [(k & Hk & H1 & H2 & H3 & H4)|H].
      * left. exists (S k). split; [lia|]. cbn zeta. rewrite (pid_in_S (S k)). split; [exact H1|].
        split; [apply elem_of_cons; by right|]. split; [done|]. intros [|j] Hj; [done|].
        rewrite (pid_in_S (S j)). apply H4. lia.
      * right. intros n [->|Hn]%elem_of_cons; [done|]. by apply H.
    + left. exists 0%nat. split; [lia|]. split; [done|]. split; [apply elem_of_cons; by left|]. split; [done|]. lia.
Qed.

(** With fewer than half as many entries as there are pids there is one. *)
Lemma free_pid_first {E} g (e : E) :
  2 * Z.of_nat (length (mproc_tab g)) < NR_PIDS - INIT_PID -> 1 <= next_pid g <= NR_PIDS ->
  exists k, (k <= 2 * length (mproc_tab g))%nat /\ let n := pid_in (S k) (next_pid g) in
    get_free_pid g e = Done n (g <| next_pid := n |>) e /\
    INIT_PID < n <= NR_PIDS /\ pid_taken (mproc_tab g) n = false /\
    forall j, (j < k)%nat -> pid_taken (mproc_tab g) (pid_in (S j) (next_pid g)) = true.
Proof.
  intros Hlen Hp. unfold get_free_pid, pbind, pget.
  destruct (free_pid_spec (S (2 * length (mproc_tab g))) g e) as [(k & Hk & -> & Hn & Ht & Hj)|Hall].
  - exists k. split; [lia|]. split; [done|]. split; [by apply (candidates_range _ _ _ Hp Hn)|]. done.
  - exfalso. assert (length (candidates (S (2 * length (mproc_tab g))) (next_pid g)) <= length (taken_pids (mproc_tab g)))%nat as Hc.
    { apply submseteq_length, NoDup_submseteq; [apply candidates_nodup; unfold PIDS in *; lia|].
      intros n Hn. by apply pid_taken_spec, Hall. }
    assert (forall f p, length (candidates f p) = f) as Hlc by (induction f; cbn; congruence).
    rewrite Hlc in Hc. unfold taken_pids in Hc. rewrite length_app, !length_map in Hc. lia.
Qed.

Lemma not_taken tab n : pid_taken tab n = false -> Forall (fun x => mp_pid x <> n /\ mp_procgrp x <> n) tab.
Proof.
  intros Ht. apply list.Forall_forall. intros x Hx.
  split; intros <-; apply not_true_iff_false in Ht; apply Ht, existsb_exists; exists x;
    rewrite Z.eqb_refl, ?orb_true_r; split; done || by apply list_elem_of_In.
Qed.

Lemma get_free_pid_run {E} g (e : E) :
  2 * Z.of_nat (length (mproc_tab g)) < NR_PIDS - INIT_PID -> 1 <= next_pid g <= NR_PIDS ->
  exists n, get_free_pid g e = Done n (g <| next_pid := n |>) e /\
    INIT_PID < n <= NR_PIDS /\
    Forall (fun x => mp_pid x <> n /\ mp_procgrp x <> n) (mproc_tab g).
Proof.
  intros Hlen Hp. destruct (free_pid_first g e Hlen Hp) as (k & _ & H1 & H2 & H3 & _).
  eexists. split; [exact H1|]. split; [done|]. by apply not_taken.
Qed.

(** C19. The search of a pid ends, when the table has fewer than half as many entries
    as there are pids (twice its length is below [NR_PIDS - INIT_PID]) and the last pid
    given is one.  In at most one turn more than twice the length of the table it gives
    the first pid in turn after the last one, with [INIT_PID + 1] after [NR_PIDS], that
    is neither the pid nor the group of any entry, so that each that it passed by is
    one; and it changes nothing but the place where the next search goes on. *)
Theorem get_free_pid_fresh {E} g (e : E) :
  2 * Z.of_nat (length (mproc_tab g)) < NR_PIDS - INIT_PID -> 1 <= next_pid g <= NR_PIDS ->
  exists k, (k <= 2 * length (mproc_tab g))%nat /\ let n := pid_in (S k) (next_pid g) in
    get_free_pid g e = Done n (g <| next_pid := n |>) e /\
    INIT_PID < n <= NR_PIDS /\
    Forall (fun x => mp_pid x <> n /\ mp_procgrp x <> n) (mproc_tab g) /\
    forall j, (j < k)%nat -> pid_taken (mproc_tab g) (pid_in (S j) (next_pid g)) = true.
Proof.
  intros Hlen Hp. destruct (free_pid_first g e Hlen Hp) as (k & Hk & H1 & H2 & H3 & H4).
  exists k. split; [done|]. split; [done|]. split; [done|]. split; [by apply not_taken|done].
Qed.

(** ** Replies *)

(** An entry after the replies are sent. *)
Definition answered (x : mproc) : mproc := if must_reply x then drop REPLYPENDING x else x.

(** The entries that have a reply pending, with their numbers, from [i]. *)
Fixpoint replies_from (i : Z) (l : list mproc) : list (Z * mproc) :=
  match l with
  | [] => []
  | x :: l => (if must_reply x then [(i, x)] else []) ++ replies_from (i + 1) l
  end.

Lemma set_entry_id g i x : entry g i = Some x -> set_entry i x g = g.
Proof.
  intros [_ Hx]%entry_some. unfold set_entry. destruct g. cbn in *. by rewrite list_insert_id.
Qed.

Section Replies.
Context {E : Type} `{!PmHost E} `{!AlarmService E}.
Implicit Types (g : pmg) (e : E).

(** The message to the process of the entry, at the endpoint that the kernel's
    entry has. *)
Definition send_to (tasks : Z) (e : E) (r : Z * mproc) : E :=
  snd (mnx_send (p_endpoint (kproc e (r.1 + tasks))) (mp_reply r.2) e).

(** No send fails with an error for which a process is made to exit. *)
Definition no_failure : Prop := forall ep m e, failed_reply (fst (mnx_send ep m e)) = false.

Lemma reply_one_run i x g e : no_failure -> entry g i = Some x ->
  reply_one i g e = Done tt (set_entry i (answered x) g)
    (if must_reply x then send_to (nr_tasks g) e (i, x) else e).
Proof.
  intros no_fail Hx. unfold reply_one. rewrite (pbind_done _ _ _ _ _ _ _ (rd_done _ _ _ _ Hx)). unfold answered.
  destruct (must_reply x); cbn [pwhen]; [|by rewrite set_entry_id].
  rewrite (pbind_done _ _ _ _ (kproc e (i + nr_tasks g)) g e) by done. unfold send_to. cbn [fst snd].
  pose proof (no_fail (p_endpoint (kproc e (i + nr_tasks g))) (mp_reply x) e) as Hf.
  rewrite (pbind_done _ _ _ _ (fst (mnx_send (p_endpoint (kproc e (i + nr_tasks g))) (mp_reply x) e)) g
    (snd (mnx_send (p_endpoint (kproc e (i + nr_tasks g))) (mp_reply x) e)))
    by (unfold pcalls; by destruct (mnx_send _ _ _)).
  rewrite Hf. by apply wr_done.
Qed.

Lemma replies_run l2 l1 g e : no_failure -> mproc_tab g = l1 ++ l2 ->
  pfor (length l2) (Z.of_nat (length l1)) reply_one g e =
    Done tt (g <| mproc_tab := l1 ++ map answered l2 |>)
      (fold_left (send_to (nr_tasks g)) (replies_from (Z.of_nat (length l1)) l2) e).
Proof.
  intros no_fail. revert l1 g e. induction l2 as [|x l2 IH]; intros l1 g e Ht; cbn [length pfor map replies_from].
  - rewrite <-Ht. by destruct g.
  - assert (entry g (Z.of_nat (length l1)) = Some x) as Hx.
    { rewrite entry_lookup, Ht. by apply list_lookup_middle. }
    rewrite (pbind_done _ _ _ _ _ _ _ (reply_one_run _ _ _ e no_fail Hx)).
    assert (Z.of_nat (length l1) + 1 = Z.of_nat (length (l1 ++ [answered x]))) as ->
      by (rewrite length_app; cbn; lia).
    rewrite (IH (l1 ++ [answered x])).
    + f_equal.
      * unfold set_entry. destruct g. cbn. by rewrite <-app_assoc.
      * rewrite fold_left_app. by destruct (must_reply x).
    + unfold set_entry. cbn. rewrite Ht, Nat2Z.id, insert_app_r_alt, Nat.sub_diag by lia. cbn.
      by rewrite <-app_assoc.
Qed.

(** C18. At the end of a turn of the loop the process manager sends the replies that
    are pending, when no send returns one of the errors that [main] answers with an exit
    ([EMOLSRCDIED], [EMOLDSTDIED], [EMOLNOPROXY], [EMOLNOTCONN], [EMOLDEADSRCDST]): one
    message to each process in use, and no zombie, with the flag of a pending reply, in
    the order of the slots, and to no other process; the flag is then down and nothing
    else of the table is changed. *)
Theorem replies_sent_once g e : no_failure ->
  length (mproc_tab g) = Z.to_nat (nr_procs g) ->
  send_replies g e =
    Done tt (g <| mproc_tab ::= map answered |>)
      (fold_left (send_to (nr_tasks g)) (replies_from 0 (mproc_tab g)) e) /\
  Forall (fun x => must_reply x = false) (map answered (mproc_tab g)).
Proof.
  intros Hf Hlen. split.
  - unfold send_replies. rewrite (pbind_done _ _ _ _ g g e), <-Hlen by done. exact (replies_run _ [] g e Hf eq_refl).
  - apply List.Forall_map, list.Forall_true. intros x. unfold answered. destruct (must_reply x) eqn:Hm; [|done].
    unfold must_reply. apply Z.eqb_neq. intros Hz.
    assert (Z.testbit (Z.lor REPLYPENDING IN_USE) 9 = true) as Hb by done.
    rewrite <-Hz, Z.land_spec in Hb. cbn [drop mp_flags] in Hb.
    change (mp_flags (drop REPLYPENDING x)) with (Z.ldiff (mp_flags x) REPLYPENDING) in Hb.
    rewrite Z.ldiff_spec in Hb. cbn in Hb. rewrite andb_false_r in Hb. done.
Qed.
End Replies.

(** ** Exits *)

Section Exits.
Context {E : Type} `{!PmHost E} `{!AlarmService E}.
Implicit Types (g : pmg) (e : E).

(** The entries have the parents they had in [g0], or INIT instead of [nr], and of the
    first [k] those in use are no children of [nr]. *)
Definition disowned (g0 : pmg) (nr k : Z) : Z -> mproc -> Prop := fun j x =>
  exists y, entry g0 j = Some y /\
    (mp_parent x = mp_parent y \/ mp_parent y = nr /\ mp_parent x = INIT_PROC_NR) /\
    (0 <= j < k -> has (mp_flags x) IN_USE = true -> mp_parent x <> nr).

Lemma wr_disowned g0 nr k i (f : mproc -> mproc) :
  (forall x, mp_parent (f x) = mp_parent x /\ (has (mp_flags (f x)) IN_USE = true -> has (mp_flags x) IN_USE = true)) ->
  keeps (E := E) (disowned g0 nr k) (wr i f).
Proof.
  intros Hf. apply keeps_wr. intros x (y & Hy & Hpar & Hk). destruct (Hf x) as [Hfp Hd]. exists y.
  split; [done|]. rewrite Hfp. split; [done|]. intros Hi Hu. auto.
Qed.

(** Flags that are not [IN_USE] do not matter. *)
Lemma in_use_lor f m : has m IN_USE = false -> has (Z.lor f m) IN_USE = true -> has f IN_USE = true.
Proof. intros H. by rewrite has_lor, H, orb_false_r. Qed.
Lemma in_use_drop f m : Z.land IN_USE m = 0 -> has (Z.ldiff f m) IN_USE = true -> has f IN_USE = true.
Proof. intros H. by rewrite has_drop. Qed.

#[local] Hint Extern 1 (keeps _ (wr _ _)) =>
  (apply wr_disowned; intros ?; split; [reflexivity|cbn; first [done | by apply in_use_lor | by apply in_use_drop]]) : keeps.

Lemma disowned_cleanup g0 nr k i : keeps (E := E) (disowned g0 nr k) (cleanup i).
Proof. unfold cleanup, set_reply, setreply. kept. Qed.
#[local] Hint Resolve disowned_cleanup : keeps.

(** Before the loop the flags do not matter. *)
Lemma wr_disowned_none g0 nr i (f : mproc -> mproc) :
  (forall x, mp_parent (f x) = mp_parent x) -> keeps (E := E) (disowned g0 nr 0) (wr i f).
Proof.
  intros Hf. apply keeps_wr. intros x (y & Hy & Hpar & _). exists y. rewrite Hf. split; [done|]. split; [done|]. lia.
Qed.
#[local] Hint Extern 2 (keeps (disowned _ _ 0) (wr _ _)) => (apply wr_disowned_none; intros ?; reflexivity) : keeps.

(** What comes before the loop, and after it. *)
Lemma disowned_begin g0 nr i status oper : keeps (disowned g0 nr 0) (exit_begin i status oper).
Proof.
  unfold exit_begin, account, _sys_exit, drop_reply, exit_entry, sig_proc, set_alarm, change_alarm, start_alarm,
    stop_alarm, uptime_or_error. kept.
Qed.

Lemma disowned_end g0 nr k i procgrp : keeps (E := E) (disowned g0 nr k) (exit_end i procgrp).
Proof. unfold exit_end. kept. Qed.

Lemma disinherit_step g0 nr i g e g' e' :
  nr <> INIT_PROC_NR -> tabled (disowned g0 nr i) g -> disinherit nr i g e = Done tt g' e' ->
  tabled (disowned g0 nr (i + 1)) g'.
Proof.
  intros Hnr Hg. unfold disinherit, pbind at 1, rd at 1.
  destruct (entry g i) as [x|] eqn:Hx; [|done]. destruct (Hg _ _ Hx) as (y & Hy & Hpar & _).
  assert (forall z, (mp_parent z = mp_parent y \/ mp_parent y = nr /\ mp_parent z = INIT_PROC_NR) ->
            (has (mp_flags z) IN_USE = true -> mp_parent z <> nr) ->
            tabled (disowned g0 nr (i + 1)) (set_entry i z g)) as Hset.
  { intros z Hpz Hz j w. rewrite entry_set by congruence. destruct (Z.eqb_spec i j) as [->|Hne].
    - intros [= <-]. exists y. split; [done|]. split; [exact Hpz|]. intros _. exact Hz.
    - intros Hw. destruct (Hg _ _ Hw) as (v & Hv & Hpv & Hd). exists v. split; [done|]. split; [done|].
      intros Hj. apply Hd. lia. }
  destruct ((mp_parent x =? nr) && has (mp_flags x) IN_USE) eqn:Hb; cbn [pwhen].
  - apply andb_true_iff in Hb as [Hb%Z.eqb_eq _].
    rewrite (pbind_done _ _ _ _ _ _ _ (wr_done _ _ _ _ _ Hx)). intros Hrun.
    refine (keeps_done _ _ _ _ _ _ _ _ Hrun (Hset _ _ _)); [kept| |cbn; congruence].
    right. split; [|done]. by destruct Hpar as [<-|[? _]].
  - intros [= <- <-]. rewrite <-(set_entry_id _ _ _ Hx). apply Hset; [done|]. intros Hu He.
    by rewrite Hu, He, Z.eqb_refl in Hb.
Qed.

(** C17. A process that exits leaves its children to INIT.  When [pm_exit] returns for a
    process other than INIT, of every entry in use the parent is the one it had before,
    or INIT if that was the process that exits: no entry in use has it as its parent
    any more, whatever the system task did and whether the process became a zombie or
    its entry was freed. *)
Theorem exit_disinherits nr status oper g e r g' e' i x :
  length (mproc_tab g) = Z.to_nat (nr_procs g) -> nr <> INIT_PROC_NR ->
  pm_exit nr status oper g e = Done r g' e' ->
  entry g' i = Some x -> has (mp_flags x) IN_USE = true ->
  exists y, entry g i = Some y /\ mp_parent x = (if mp_parent y =? nr then INIT_PROC_NR else mp_parent y) /\
    mp_parent x <> nr.
Proof.
  intros Hlen Hnr Hrun Hx Hu.
  assert (tabled (disowned g nr 0) g) as H0 by (intros j y Hy; exists y; split; [done|split; [by left|lia]]).
  unfold pm_exit in Hrun. apply pbind_inv in Hrun as (procgrp & g1 & e1 & H1 & Hrun).
  assert (nr_procs g1 = nr_procs g) as Hn1.
  { unfold nr_procs. by rewrite (keeps_dc _ _ _ _ _ _ _ (disowned_begin _ _ _ _ _) H1 H0). }
  apply (keeps_done _ _ _ _ _ _ _ (disowned_begin _ _ _ _ _) H1) in H0 as Hg1.
  rewrite (pbind_done _ _ _ _ g1 g1 e1) in Hrun by done.
  apply pbind_inv in Hrun as ([] & g2 & e2 & H2 & H3).
  assert (tabled (disowned g nr (0 + Z.of_nat (Z.to_nat (nr_procs g1)))) g2) as Hg2.
  { refine (pfor_inv (fun k h _ => tabled (disowned g nr k) h) _ _ _ _ _ _ _ Hg1 H2 _).
    intros j g3 e3 g4 e4 _ H4. by apply disinherit_step. }
  apply (keeps_done _ _ _ _ _ _ _ (disowned_end _ _ _ _ _) H3) in Hg2.
  destruct (Hg2 _ _ Hx) as (y & Hy & Hpar & Hd). exists y. split; [done|].
  assert (mp_parent x <> nr) as Hne.
  { apply Hd; [|done]. apply entry_some in Hy as [Hi Hy]. apply lookup_lt_Some in Hy. lia. }
  split; [|done]. destruct (Z.eqb_spec (mp_parent y) nr) as [He|He]; destruct Hpar as [?|[? ?]]; congruence.
Qed.
End Exits.
