(* ===== verification/PmWait.v ===== *)
(** * The process manager: the end of a process and the wait of its parent

    A process that exits before its parent waits is a zombie until it does; a
    parent that waits first is woken up by the exit.  The two orders come to the
    same. *)

From S2P Require Import Prelude Types Endpoint Timers Clock Slots Systask PmData SysLib Pm PmFork PmMain PmLogic.
#[local] Open Scope Z_scope.

(** ** A run that changes two entries *)

Section Pair.
Context {E : Type} `{!PmHost E} `{!AlarmService E} (n : nat) (p c : Z).
Hypotheses (Hp : 0 <= p < Z.of_nat n) (Hc : 0 <= c < Z.of_nat n) (Hne : p <> c).
Implicit Types (g : pmg) (e : E) (x y : mproc).

(** The state with the entries [p] and [c] as given. *)
Definition two (y x : mproc) (g : pmg) : pmg :=
  g <| mproc_tab ::= fun t => <[Z.to_nat c := x]> (<[Z.to_nat p := y]> t) |>.

Lemma two_same g x y : entry g p = Some y -> entry g c = Some x -> two y x g = g.
Proof using.
  intros [_ Hy]%entry_some [_ Hx]%entry_some. unfold two. destruct g. cbn in *.
  rewrite (list_insert_id _ (Z.to_nat p)) by done. by rewrite list_insert_id.
Qed.

Lemma two_other g x y j : j <> p -> j <> c -> entry (two y x g) j = entry g j.
Proof using Hp Hc Hne.
  intros H1 H2. unfold entry, two. cbn. destruct (Z.ltb_spec j 0); [done|].
  rewrite !list_lookup_insert_ne by lia. done.
Qed.

Lemma two_p g x y : length (mproc_tab g) = n -> entry (two y x g) p = Some y.
Proof using Hp Hc Hne.
  intros Hl. unfold entry, two. cbn. destruct (Z.ltb_spec p 0); [lia|].
  rewrite list_lookup_insert_ne by lia. apply list_lookup_insert_eq. lia.
Qed.

Lemma two_c g x y : length (mproc_tab g) = n -> entry (two y x g) c = Some x.
Proof using Hp Hc Hne.
  intros Hl. unfold entry, two. cbn. destruct (Z.ltb_spec c 0); [lia|].
  apply list_lookup_insert_eq. rewrite length_insert. lia.
Qed.

Lemma two_length g x y : length (mproc_tab (two y x g)) = length (mproc_tab g).
Proof using. cbn. by rewrite !length_insert. Qed.

Lemma wr_p f g e x y : length (mproc_tab g) = n -> wr p f (two y x g) e = Done tt (two (f y) x g) e.
Proof using Hp Hc Hne.
  intros Hl. rewrite (wr_done _ _ _ _ y) by (by apply two_p). f_equal. unfold set_entry, two. destruct g. cbn in *.
  f_equal. rewrite list_insert_insert_ne by lia. by rewrite list_insert_insert_eq.
Qed.

Lemma wr_c f g e x y : length (mproc_tab g) = n -> wr c f (two y x g) e = Done tt (two y (f x) g) e.
Proof using Hp Hc Hne.
  intros Hl. rewrite (wr_done _ _ _ _ x) by (by apply two_c). f_equal. unfold set_entry, two. destruct g. cbn in *.
  f_equal. by rewrite list_insert_insert_eq.
Qed.

Lemma rd_p g e x y : length (mproc_tab g) = n -> rd p (two y x g) e = Done y (two y x g) e.
Proof using Hp Hc Hne. intros Hl. by apply rd_done, two_p. Qed.
Lemma rd_c g e x y : length (mproc_tab g) = n -> rd c (two y x g) e = Done x (two y x g) e.
Proof using Hp Hc Hne. intros Hl. by apply rd_done, two_c. Qed.

(** ** Waking the parent up *)

(** The parent after [cleanup] of the child. *)
Definition woken (y x : mproc) : mproc :=
  drop WAITING
    (y <| mp_reply ::= set_word reply_res2 (exit_word x) |>
       <| mp_reply ::= fun m => m <| pm_type := mp_pid x |> |>
       <| mp_flags ::= fun f => Z.lor f REPLYPENDING |>).

Lemma cleanup_run g e x y :
  length (mproc_tab g) = n -> nr_procs g = Z.of_nat n ->
  mp_parent x = p -> has (mp_flags x) RMT_PROC = false ->
  cleanup c (two y x g) e = Done tt (two (woken y x) (release_entry x) (g <| procs_in_use ::= Z.pred |>)) e.
Proof using Hp Hc Hne.
  intros Hl Hn Hpar Hr. unfold cleanup. rewrite (pbind_done _ _ _ _ _ _ _ (rd_c _ _ _ _ Hl)).
  rewrite Hr, Hpar. cbn [negb pwhen]. unfold set_reply, setreply, exit_if.
  rewrite (pbind_done _ _ _ _ tt (two (woken y x) x g) e).
  - rewrite (pbind_done _ _ _ _ _ _ _ (wr_c _ _ _ _ _ Hl)). done.
  - rewrite (pbind_done _ _ _ _ _ _ _ (wr_p _ _ _ _ _ Hl)).
    rewrite (pbind_done _ _ _ _ tt (two (y <| mp_reply ::= set_word reply_res2 (exit_word x) |>
       <| mp_reply ::= fun m => m <| pm_type := mp_pid x |> |>
       <| mp_flags ::= fun f => Z.lor f REPLYPENDING |>) x g) e); [by rewrite wr_p|].
    unfold pbind at 1, pget at 1.
    change (nr_procs (two (y <| mp_reply ::= set_word reply_res2 (exit_word x) |>) x g)) with (nr_procs g). rewrite Hn.
    replace ((p <? 0) || (p >=? Z.of_nat n)) with false by lia. cbn [pwhen].
    rewrite (pbind_done _ _ _ _ tt (two (y <| mp_reply ::= set_word reply_res2 (exit_word x) |>) x g) e) by done.
    by rewrite wr_p.
Qed.

(** ** The exit *)

(** Every request is answered, and without an error. *)
Hypothesis answers : forall who q e, fst (fst (sendrec who q e)) = 0 /\ fst (snd (fst (sendrec who q e))) = OK.

Definition asked (who : Z) (q : rqst) (e : E) : E := snd (sendrec who q e).

Lemma taskcall_run who q g e :
  _taskcall who q g e = Done (OK, snd (snd (fst (sendrec who q e)))) g (asked who q e).
Proof using answers.
  unfold _taskcall, pcalls, pbind, asked. destruct (answers who q e) as [H1 H2].
  destruct (sendrec who q e) as [[st [rc l]] e1]. cbn in *. by subst.
Qed.

Lemma sys_exit_run ep node g e : _sys_exit ep node g e = Done OK g (asked (SYSTASK node) (R_EXIT ep) e).
Proof using answers.
  unfold _sys_exit. by rewrite (pbind_done _ _ _ _ _ _ _ (taskcall_run _ _ _ _)).
Qed.

(** What tells the entry [i] again. *)
Definition told (g : pmg) (i : Z) : E -> E :=
  asked (SYSTASK (pm_node g))
    (R_GETINFO GET_PROC (a_kproc (pm_lay g) + z_kproc (pm_lay g) * (i + nr_tasks g)) (z_kproc (pm_lay g)) i).

Lemma refresh_run i g e : refresh i g e = Done tt g (told g i e).
Proof using answers.
  unfold refresh, sys_procinfo, sys_getinfo.
  rewrite (pbind_done _ _ _ _ OK g (told g i e)); [done|].
  rewrite (pbind_done _ _ _ _ g g e), (pbind_done _ _ _ _ g g e) by done.
  by rewrite (pbind_done _ _ _ _ _ _ _ (taskcall_run _ _ _ _)).
Qed.

(** The parent with the times of the child. *)
Definition accounted (g : pmg) (e : E) (x y : mproc) : mproc :=
  y <| mp_child_utime ::= fun t => to_unsigned (t + (junk U_T0 g e + mp_child_utime x)) |>
    <| mp_child_stime ::= fun t => to_unsigned (t + (junk U_T1 g e + mp_child_stime x)) |>.

Lemma account_run g e x y : length (mproc_tab g) = n ->
  account c p (two y x g) e = Done tt (two (accounted (two y x g) e x y) x g) e.
Proof using Hp Hc Hne.
  intros Hl. unfold account. rewrite (pbind_done _ _ _ _ _ _ _ (rd_c _ _ _ _ Hl)).
  rewrite (pbind_done _ _ _ _ (junk U_T0 (two y x g) e) (two y x g) e), (pbind_done _ _ _ _ (junk U_T1 (two y x g) e) (two y x g) e) by done.
  rewrite (pbind_done _ _ _ _ _ _ _ (wr_p _ _ _ _ _ Hl)).
  rewrite (pbind_done _ _ _ _ _ _ _ (rd_c _ _ _ _ Hl)). by rewrite wr_p.
Qed.

(** The requests of an exit: the unbinding, and the entry of the process again. *)
Definition exit_calls (g : pmg) (e : E) : E :=
  let k := kproc e (c + nr_tasks g) in
  told g c (asked (SYSTASK (p_nodeid k)) (R_EXIT (p_endpoint k)) e).

(** A process that exits on its own: it has no alarm, is of this node and leads no
    group. *)
Definition leaves (x : mproc) : Prop :=
  mp_parent x = p /\ has (mp_flags x) ALARM_ON = false /\ has (mp_flags x) RMT_PROC = false /\
  mp_pid x <> mp_procgrp x.

Lemma drop_reply_run g e x y : length (mproc_tab g) = n -> has (mp_flags x) RMT_PROC = false ->
  drop_reply c (two y x g) e = Done tt (two y (drop REPLYPENDING x) g) e.
Proof using Hp Hc Hne.
  intros Hl Hr. unfold drop_reply. rewrite (pbind_done _ _ _ _ (kproc e (c + nr_tasks g)) (two y x g) e) by done.
  rewrite (pbind_done _ _ _ _ _ _ _ (rd_c _ _ _ _ Hl)). rewrite Hr, orb_true_r. by apply wr_c.
Qed.

Lemma exit_begin_run status g e x y : length (mproc_tab g) = n -> mp_nr g = c -> leaves x ->
  exit_begin c status MOLEXIT (two y x g) e =
    (exit_entry c p status ;; pret 0)%pm (two (accounted (two y x g) e x y) (drop REPLYPENDING x) g) (exit_calls g e).
Proof using Hp Hc Hne answers.
  intros Hl Hmp (Hpar & Ha & Hr & Hg). unfold exit_begin.
  rewrite (pbind_done _ _ _ _ _ _ _ (rd_c _ _ _ _ Hl)).
  rewrite (pbind_done _ _ _ _ (kproc e (c + nr_tasks g)) (two y x g) e) by done.
  rewrite (pbind_done _ _ _ _ x (two y x g) e)
    by (apply rd_mp_done; change (mp_nr (two y x g)) with (mp_nr g); rewrite Hmp; by apply two_c).
  rewrite Ha, Hpar, (pbind_done _ _ _ _ tt (two y x g) e) by done.
  rewrite (pbind_done _ _ _ _ _ _ _ (account_run _ _ _ _ Hl)).
  rewrite (pbind_done _ _ _ _ (kproc e (c + nr_tasks g)) (two (accounted (two y x g) e x y) x g) e) by done.
  rewrite (pbind_done _ _ _ _ _ _ _ (sys_exit_run _ _ _ _)).
  rewrite (pbind_done _ _ _ _ tt (two (accounted (two y x g) e x y) x g)
    (asked (SYSTASK (p_nodeid (kproc e (c + nr_tasks g)))) (R_EXIT (p_endpoint (kproc e (c + nr_tasks g)))) e)) by done.
  rewrite (pbind_done _ _ _ _ _ _ _ (refresh_run _ _ _)).
  rewrite (pbind_done _ _ _ _ _ _ _ (drop_reply_run _ _ _ _ Hl Hr)).
  unfold led_group. apply Z.eqb_neq in Hg. by rewrite Hg.
Qed.

(** The process as it is left to its parent. *)
Definition ended (status : Z) (x : mproc) : mproc :=
  drop REPLYPENDING x <| mp_exitstatus := to_char status |>.
Definition zombie (x : mproc) : mproc := x <| mp_flags := Z.lor IN_USE ZOMBIE |>.

Lemma exit_entry_zombie status g e x y :
  length (mproc_tab g) = n -> has (mp_flags y) WAITING = false -> mp_endpoint y <> PM_PROC_NR ->
  has (mp_flags x) RMT_PROC = false ->
  exit_entry c p status (two y (drop REPLYPENDING x) g) e = Done tt (two y (zombie (ended status x)) g) e.
Proof using Hp Hc Hne.
  intros Hl Hw He Hr. unfold exit_entry. rewrite (pbind_done _ _ _ _ _ _ _ (wr_c _ _ _ _ _ Hl)).
  rewrite (pbind_done _ _ _ _ _ _ _ (rd_p _ _ _ _ Hl)), (pbind_done _ _ _ _ _ _ _ (rd_c _ _ _ _ Hl)).
  apply Z.eqb_neq in He. rewrite Hw, He. change (has _ RMT_PROC) with (has (Z.ldiff (mp_flags x) REPLYPENDING) RMT_PROC).
  rewrite has_drop, Hr by done. cbn [andb orb negb pwhen].
  by rewrite (pbind_done _ _ _ _ _ _ _ (wr_c _ _ _ _ _ Hl)).
Qed.

Lemma exit_entry_wakes status g e x y :
  length (mproc_tab g) = n -> nr_procs g = Z.of_nat n -> leaves x ->
  has (mp_flags y) WAITING = true -> mp_wpid y = mp_pid x ->
  exit_entry c p status (two y (drop REPLYPENDING x) g) e =
    Done tt (two (woken y (ended status x)) (release_entry (ended status x)) (g <| procs_in_use ::= Z.pred |>)) e.
Proof using Hp Hc Hne.
  intros Hl Hn (Hpar & _ & Hr & _) Hw Hpid. unfold exit_entry. rewrite (pbind_done _ _ _ _ _ _ _ (wr_c _ _ _ _ _ Hl)).
  rewrite (pbind_done _ _ _ _ _ _ _ (rd_p _ _ _ _ Hl)), (pbind_done _ _ _ _ _ _ _ (rd_c _ _ _ _ Hl)).
  rewrite Hw. unfold right_child. change (mp_pid (_ <| mp_exitstatus := _ |>)) with (mp_pid x).
  rewrite Hpid, Z.eqb_refl, orb_true_r. cbn [andb orb].
  apply (cleanup_run g e (ended status x) y); [done..|].
  change (has (Z.ldiff (mp_flags x) REPLYPENDING) RMT_PROC = false). by rewrite has_drop.
Qed.

(** The loop and what comes after it change nothing, when the process has no
    children and is no system process. *)
Lemma exit_rest g e : length (mproc_tab g) = n -> nr_procs g = Z.of_nat n -> sysprocs g <= c + nr_tasks g ->
  (forall i z, entry g i = Some z -> mp_parent z = c -> has (mp_flags z) IN_USE = false) ->
  (g <- pget ;; pfor (Z.to_nat (nr_procs g)) 0 (disinherit c) ;; exit_end c 0)%pm g e = Done OK g e.
Proof using Hp Hc Hne.
  intros Hl Hn Hs Hno. rewrite (pbind_done _ _ _ _ g g e) by done. rewrite (pbind_done _ _ _ _ tt g e).
  - unfold exit_end. cbn [negb]. rewrite (pbind_done _ _ _ _ tt g e), (pbind_done _ _ _ _ g g e) by done.
    by replace (c + nr_tasks g <? sysprocs g) with false by lia.
  - apply pfor_id. intros j Hj. unfold disinherit.
    assert (is_Some (mproc_tab g !! Z.to_nat j)) as [z Hz] by (apply lookup_lt_is_Some; lia).
    assert (entry g j = Some z) as He by (unfold entry; by destruct (Z.ltb_spec j 0); [lia|]).
    rewrite (pbind_done _ _ _ _ _ _ _ (rd_done _ _ _ _ He)).
    destruct (Z.eqb_spec (mp_parent z) c) as [Hc'|]; [|done]. by rewrite (Hno _ _ He Hc').
Qed.

(** What holds of the other entries and of [y] and [x] holds of the table. *)
Lemma two_all (P : mproc -> Prop) g x y : length (mproc_tab g) = n ->
  (forall i z, i <> p -> i <> c -> entry g i = Some z -> P z) -> P y -> P x ->
  forall i z, entry (two y x g) i = Some z -> P z.
Proof using Hp Hc Hne.
  intros Hl Hg Hy Hx i z. destruct (decide (i = p)) as [->|H1]; [rewrite two_p by done; congruence|].
  destruct (decide (i = c)) as [->|H2]; [rewrite two_c by done; congruence|].
  rewrite two_other by done. by apply Hg.
Qed.

Definition no_child (z : mproc) : Prop := mp_parent z = c -> has (mp_flags z) IN_USE = false.

(** The parent does not wait. *)
Lemma pm_exit_zombie status g e x y :
  length (mproc_tab g) = n -> nr_procs g = Z.of_nat n -> sysprocs g <= c + nr_tasks g -> mp_nr g = c ->
  leaves x -> has (mp_flags y) WAITING = false -> mp_endpoint y <> PM_PROC_NR ->
  no_child y -> (forall i z, i <> p -> i <> c -> entry g i = Some z -> no_child z) ->
  pm_exit c status MOLEXIT (two y x g) e =
    Done OK (two (accounted (two y x g) e x y) (zombie (ended status x)) g) (exit_calls g e).
Proof using Hp Hc Hne answers.
  intros Hl Hn Hs Hmp Hx Hw He Hy Hg. unfold pm_exit.
  rewrite (pbind_done _ _ _ _ 0 (two (accounted (two y x g) e x y) (zombie (ended status x)) g) (exit_calls g e)).
  - apply exit_rest; [by rewrite two_length|done..|].
    apply (two_all no_child); [done..|]. intros H. by destruct Hx as [Hx _]; cbn in H; congruence.
  - rewrite exit_begin_run by done. destruct Hx as (_ & _ & Hr & _).
    by rewrite (pbind_done _ _ _ _ _ _ _ (exit_entry_zombie status g (exit_calls g e) x (accounted (two y x g) e x y) Hl Hw He Hr)).
Qed.

(** The parent waits for the process. *)
Lemma pm_exit_wakes status g e x y :
  length (mproc_tab g) = n -> nr_procs g = Z.of_nat n -> sysprocs g <= c + nr_tasks g -> mp_nr g = c ->
  leaves x -> has (mp_flags y) WAITING = true -> mp_wpid y = mp_pid x ->
  no_child y -> (forall i z, i <> p -> i <> c -> entry g i = Some z -> no_child z) ->
  pm_exit c status MOLEXIT (two y x g) e =
    Done OK (two (woken (accounted (two y x g) e x y) (ended status x)) (release_entry (ended status x))
               (g <| procs_in_use ::= Z.pred |>)) (exit_calls g e).
Proof using Hp Hc Hne answers.
  intros Hl Hn Hs Hmp Hx Hw Hpid Hy Hg. unfold pm_exit.
  rewrite (pbind_done _ _ _ _ 0 (two (woken (accounted (two y x g) e x y) (ended status x)) (release_entry (ended status x))
               (g <| procs_in_use ::= Z.pred |>)) (exit_calls g e)).
  - apply exit_rest; [by rewrite two_length|done..|].
    apply (two_all no_child); [done|done| |done].
    intros H. change (has (Z.ldiff (Z.lor (mp_flags y) REPLYPENDING) WAITING) IN_USE = false).
    rewrite has_drop, has_lor, (Hy H) by done. done.
  - rewrite exit_begin_run by done.
    by rewrite (pbind_done _ _ _ _ _ _ _ (exit_entry_wakes status g (exit_calls g e) x (accounted (two y x g) e x y) Hl Hn Hx Hw Hpid)).
Qed.

(** ** The wait *)

(** Entries that do not qualify are passed by. *)
Lemma wait_scan_skip m k i pid cnt g e :
  0 <= i -> i + Z.of_nat k <= Z.of_nat (length (mproc_tab g)) ->
  (forall j z, i <= j < i + Z.of_nat k -> entry g j = Some z -> qualifies pid (who_p g) z = false) ->
  wait_scan (k + m) i pid cnt g e = wait_scan m (i + Z.of_nat k) pid cnt g e.
Proof using Hp Hc Hne.
  revert i. induction k as [|k IH]; intros i Hi Hl Hq; [by replace (i + Z.of_nat 0) with i by lia|].
  cbn [Nat.add wait_scan].
  assert (is_Some (mproc_tab g !! Z.to_nat i)) as [z Hz] by (apply lookup_lt_is_Some; lia).
  assert (entry g i = Some z) as He by (unfold entry; by destruct (Z.ltb_spec i 0); [lia|]).
  rewrite (pbind_done _ _ _ _ _ _ _ (rd_done _ _ _ _ He)), (pbind_done _ _ _ _ g g e) by done.
  rewrite (Hq i z) by (done || lia). cbn [negb]. rewrite IH; [f_equal; lia|lia|lia|].
  intros j w Hj. apply Hq. lia.
Qed.

(** The message, and that only the process [c] answers to it. *)
Definition awaits (pid : Z) (g : pmg) : Prop :=
  who_p g = p /\ mp_nr g = p /\ call_nr g = MOLWAITPID /\ m1_i1 (m_in g) = pid /\ m1_i2 (m_in g) = 0 /\ 0 < pid.

Lemma wait_scan_child pid g e x y :
  length (mproc_tab g) = n -> who_p g = p ->
  qualifies pid p y = false -> (forall i z, i <> p -> i <> c -> entry g i = Some z -> qualifies pid p z = false) ->
  exists m, wait_scan n 0 pid 0 (two y x g) e = wait_scan (S m) c pid 0 (two y x g) e /\
    (forall cnt, wait_scan m (c + 1) pid cnt (two y x g) e = Done (inr cnt) (two y x g) e).
Proof using Hp Hc Hne.
  intros Hl Hwho Hy Hq. exists (n - S (Z.to_nat c))%nat.
  assert (forall j z, j <> c -> entry (two y x g) j = Some z -> qualifies pid (who_p (two y x g)) z = false) as Hall.
  { intros j z Hj Hz. change (who_p (two y x g)) with (who_p g). rewrite Hwho.
    destruct (decide (j = p)) as [->|Hjp]; [rewrite two_p in Hz by done; congruence|].
    rewrite two_other in Hz by done. by eapply Hq. }
  split.
  - replace n with (Z.to_nat c + S (n - S (Z.to_nat c)))%nat at 1 by lia.
    rewrite wait_scan_skip; [f_equal; lia|lia|rewrite two_length; lia|]. intros j z Hj. apply Hall. lia.
  - intros cnt. replace (n - S (Z.to_nat c))%nat with ((n - S (Z.to_nat c)) + 0)%nat by lia.
    rewrite wait_scan_skip; [done|lia|rewrite two_length; lia|]. intros j z Hj. apply Hall. lia.
Qed.

Lemma waitpid_head pid g e x y : length (mproc_tab g) = n -> nr_procs g = Z.of_nat n -> awaits pid g ->
  do_waitpid (two y x g) e =
    (r <- wait_scan n 0 pid 0 ;;
     match r with
     | inl rcode => pret rcode
     | inr children =>
         if children >? 0 then
           wr_mp (fun m => m <| mp_flags ::= fun f => Z.lor f WAITING |> <| mp_wpid := pid |>) ;; pret SUSPEND
         else pret EMOLCHILD
     end)%pm (two y x g) e.
Proof using Hp Hc Hne.
  intros Hl Hn (Hwho & Hmp & Hcall & Hpid & Hopt & Hpos). unfold do_waitpid.
  rewrite (pbind_done _ _ _ _ (two y x g) (two y x g) e) by done.
  rewrite (pbind_done _ _ _ _ y (two y x g) e)
    by (apply rd_mp_done; change (mp_nr (two y x g)) with (mp_nr g); rewrite Hmp; by apply two_p).
  assert (wait_pid (two y x g) y = pid) as ->.
  { unfold wait_pid. change (call_nr (two y x g)) with (call_nr g). rewrite Hcall. cbn -[m1_i1].
    change (m_in (two y x g)) with (m_in g). rewrite Hpid. by destruct (Z.eqb_spec pid 0); [lia|]. }
  assert (wait_options (two y x g) = 0) as ->.
  { unfold wait_options. change (call_nr (two y x g)) with (call_nr g). rewrite Hcall. exact Hopt. }
  change (nr_procs (two y x g)) with (nr_procs g). by rewrite Hn, Nat2Z.id.
Qed.

Lemma waitpid_zombie pid g e x y :
  length (mproc_tab g) = n -> nr_procs g = Z.of_nat n -> awaits pid g ->
  qualifies pid p y = false -> (forall i z, i <> p -> i <> c -> entry g i = Some z -> qualifies pid p z = false) ->
  qualifies pid p x = true -> has (mp_flags x) ZOMBIE = true -> has (mp_flags x) RMT_PROC = false ->
  do_waitpid (two y x g) e =
    Done SUSPEND (two (woken y x) (release_entry x) (g <| procs_in_use ::= Z.pred |>)) e.
Proof using Hp Hc Hne.
  intros Hl Hn Hw Hy Hq Hx Hz Hr. rewrite (waitpid_head pid) by done. destruct Hw as (Hwho & _).
  destruct (wait_scan_child pid g e x y Hl Hwho Hy Hq) as (m & Hs & _).
  rewrite (pbind_done _ _ _ _ (inl SUSPEND) (two (woken y x) (release_entry x) (g <| procs_in_use ::= Z.pred |>)) e); [done|].
  rewrite Hs. cbn [wait_scan]. rewrite (pbind_done _ _ _ _ _ _ _ (rd_c _ _ _ _ Hl)).
  rewrite (pbind_done _ _ _ _ (two y x g) (two y x g) e) by done.
  change (who_p (two y x g)) with (who_p g). rewrite Hwho, Hx, Hz. cbn [negb].
  assert (mp_parent x = p) as Hpar.
  { unfold qualifies in Hx. rewrite !andb_true_iff, Z.eqb_eq in Hx. tauto. }
  by rewrite (pbind_done _ _ _ _ _ _ _ (cleanup_run g e x y Hl Hn Hpar Hr)).
Qed.

(** The parent with its wait. *)
Definition waiting (pid : Z) (y : mproc) : mproc :=
  y <| mp_flags ::= fun f => Z.lor f WAITING |> <| mp_wpid := pid |>.

Lemma waitpid_waits pid g e x y :
  length (mproc_tab g) = n -> nr_procs g = Z.of_nat n -> awaits pid g ->
  qualifies pid p y = false -> (forall i z, i <> p -> i <> c -> entry g i = Some z -> qualifies pid p z = false) ->
  qualifies pid p x = true -> has (mp_flags x) ZOMBIE = false -> has (mp_flags x) STOPPED = false ->
  do_waitpid (two y x g) e = Done SUSPEND (two (waiting pid y) x g) e.
Proof using Hp Hc Hne.
  intros Hl Hn Hw Hy Hq Hx Hz Hst. rewrite (waitpid_head pid) by done. destruct Hw as (Hwho & Hmp & _).
  destruct (wait_scan_child pid g e x y Hl Hwho Hy Hq) as (m & Hs & Hrest).
  rewrite (pbind_done _ _ _ _ (inr 1) (two y x g) e).
  - cbn [Z.gtb Z.compare]. unfold wr_mp. rewrite (pbind_done _ _ _ _ tt (two (waiting pid y) x g) e); [done|].
    rewrite (pbind_done _ _ _ _ (two y x g) (two y x g) e) by done.
    change (mp_nr (two y x g)) with (mp_nr g). rewrite Hmp. by apply wr_p.
  - rewrite Hs. cbn [wait_scan]. rewrite (pbind_done _ _ _ _ _ _ _ (rd_c _ _ _ _ Hl)).
    rewrite (pbind_done _ _ _ _ (two y x g) (two y x g) e) by done.
    change (who_p (two y x g)) with (who_p g). rewrite Hwho, Hx, Hz, Hst. apply Hrest.
Qed.
End Pair.

(** ** The two orders *)

Section Orders.
Context {E : Type} `{!PmHost E} `{!AlarmService E}.
Implicit Types (g : pmg) (e : E) (x y : mproc).

(** A call of the process [who] that is served: what [get_work] sets, and the
    handler of the table. *)
Definition call_as (who : Z) (m : pmess) : pact E Z :=
  pupd (fun g => g <| who_p := who |> <| mp_nr := who |> <| call_nr := pm_type m |> <| m_in := m |>) ;;
  match call_vec (pm_type m) with Some handler => handler | None => crash_ C_WILD end.

Definition exit_msg (src status : Z) : pmess := mk_pmess src MOLEXIT [status; -1].
Definition wait_msg (src pid : Z) : pmess := mk_pmess src MOLWAITPID [pid; 0].

(** The process [c] of [x] and its parent [p] of [y]: both run, the parent does not
    wait, the child is a user process of this node that has no children in use, leads
    no group, and is the only one with its pid among the children of [p]. *)
Record family (p c : Z) (g : pmg) (x y : mproc) : Prop := {
  f_two : p <> c;
  f_parent : entry g p = Some y;
  f_child : entry g c = Some x;
  f_table : nr_procs g = Z.of_nat (length (mproc_tab g));
  f_user : 0 < c /\ sysprocs g <= c + nr_tasks g;
  f_leaves : leaves p x;
  f_runs : Z.land (mp_flags x) (Z.lor (Z.lor IN_USE ZOMBIE) STOPPED) = IN_USE;
  f_pid : 0 < mp_pid x;
  f_parent_runs : Z.land (mp_flags y) (Z.lor (Z.lor IN_USE ZOMBIE) WAITING) = IN_USE;
  f_server : mp_endpoint y <> PM_PROC_NR;
  f_words : words (mp_reply y) <> [];
  f_no_child : forall i z, i <> c -> entry g i = Some z -> no_child c z;
  f_only : forall i z, i <> c -> entry g i = Some z -> qualifies (mp_pid x) p z = false;
}.

(** A flag of a mask, where the flags under the mask are known. *)
Lemma has_under f M v m : Z.land f M = v -> Z.land m M = m -> has f m = has v m.
Proof.
  intros <- Hm. unfold has. rewrite <-Hm at 1. by rewrite (Z.land_comm m M), Z.land_assoc.
Qed.

Lemma flags_woken f : Z.ldiff (Z.lor (Z.lor f WAITING) REPLYPENDING) WAITING = Z.ldiff (Z.lor f REPLYPENDING) WAITING.
Proof.
  apply Z.bits_inj'. intros k _. rewrite !Z.ldiff_spec, !Z.lor_spec.
  by destruct (Z.testbit f k), (Z.testbit WAITING k), (Z.testbit REPLYPENDING k).
Qed.

Lemma do_pm_exit_self c status src g e : 0 < c ->
  call_as c (exit_msg src status) g e =
    (rcode <- pm_exit c status MOLEXIT ;; pret (unless_error SUSPEND rcode))%pm
      (g <| who_p := c |> <| mp_nr := c |> <| call_nr := MOLEXIT |> <| m_in := exit_msg src status |>) e.
Proof.
  intros Hc. unfold call_as. unfold pbind at 1, pupd at 1. cbn -[pm_exit do_pm_exit].
  unfold do_pm_exit. unfold pbind at 1, pget at 1. cbn -[pm_exit].
  by replace (c <=? 0) with false by lia.
Qed.

Hypothesis answers : forall who q e, fst (fst (sendrec who q e)) = 0 /\ fst (snd (fst (sendrec who q e))) = OK.

(** The caller of a call. *)
Definition caller (who : Z) (m : pmess) (g : pmg) : pmg :=
  g <| who_p := who |> <| mp_nr := who |> <| call_nr := pm_type m |> <| m_in := m |>.

Lemma family_pair p c g x y : family p c g x y ->
  0 <= p < Z.of_nat (length (mproc_tab g)) /\ 0 <= c < Z.of_nat (length (mproc_tab g)).
Proof.
  intros F. pose proof (f_parent _ _ _ _ _ F) as [Hp1 Hp2]%entry_some. pose proof (f_child _ _ _ _ _ F) as [Hc1 Hc2]%entry_some.
  apply lookup_lt_Some in Hp2, Hc2. lia.
Qed.

Lemma family_flags p c g x y : family p c g x y ->
  has (mp_flags x) IN_USE = true /\ has (mp_flags x) ZOMBIE = false /\ has (mp_flags x) STOPPED = false /\
  has (mp_flags y) IN_USE = true /\ has (mp_flags y) WAITING = false.
Proof.
  intros F. pose proof (f_runs _ _ _ _ _ F) as Hx. pose proof (f_parent_runs _ _ _ _ _ F) as Hy.
  repeat split; by rewrite ?(has_under _ _ _ _ Hx), ?(has_under _ _ _ _ Hy) by done.
Qed.

(** The child qualifies for the wait, also as a zombie. *)
Lemma family_child p c g x y f : family p c g x y -> has f IN_USE = true ->
  qualifies (mp_pid x) p (x <| mp_flags := f |>) = true.
Proof.
  intros F Hf. unfold qualifies. cbn. pose proof (f_pid _ _ _ _ _ F). destruct (f_leaves _ _ _ _ _ F) as (-> & _).
  rewrite !Z.eqb_refl, Hf. destruct (Z.ltb_spec (mp_pid x) (-1)); [lia|]. by rewrite andb_false_r.
Qed.

Lemma run_exit_first p c g e x y status src src' : family p c g x y ->
  (call_as c (exit_msg src status) ;; call_as p (wait_msg src' (mp_pid x)))%pm g e =
    Done SUSPEND
      (two p c (woken (accounted (two p c y x (caller c (exit_msg src status) g)) e x y) (ended status x)) (release_entry (ended status x))
         (caller p (wait_msg src' (mp_pid x)) g <| procs_in_use ::= Z.pred |>))
      (exit_calls c (caller c (exit_msg src status) g) e).
Proof using answers.
  intros F. destruct (family_pair _ _ _ _ _ F) as [Hp Hc]. pose proof (f_two _ _ _ _ _ F) as Hne.
  pose proof (f_table _ _ _ _ _ F) as Hn. destruct (f_user _ _ _ _ _ F) as [Hc0 Hs].
  destruct (family_flags _ _ _ _ _ F) as (Hxu & Hxz & Hxs & Hyu & Hyw).
  set (z := zombie (ended status x)).
  rewrite (pbind_done _ _ _ _ SUSPEND (two p c (accounted (two p c y x (caller c (exit_msg src status) g)) e x y) z (caller c (exit_msg src status) g))
    (exit_calls c (caller c (exit_msg src status) g) e)).
  - unfold call_as. unfold pbind at 1, pupd at 1. cbn [pm_type wait_msg].
    change (do_waitpid (two p c (accounted (two p c y x (caller c (exit_msg src status) g)) e x y) z (caller p (wait_msg src' (mp_pid x)) g))
      (exit_calls c (caller c (exit_msg src status) g) e) = 
      Done SUSPEND (two p c (woken (accounted (two p c y x (caller c (exit_msg src status) g)) e x y) z) (release_entry z)
         (caller p (wait_msg src' (mp_pid x)) g <| procs_in_use ::= Z.pred |>))
        (exit_calls c (caller c (exit_msg src status) g) e)).
    apply (waitpid_zombie (length (mproc_tab g)) p c Hp Hc Hne (mp_pid x)); [done|done| | | | |done|done].
    + by repeat split; apply (f_pid _ _ _ _ _ F).
    + exact (f_only _ _ _ _ _ F p y Hne (f_parent _ _ _ _ _ F)).
    + intros i w _ Hi Hw. by apply (f_only _ _ _ _ _ F i).
    + by apply (family_child p c g x y).
  - rewrite do_pm_exit_self by done. rewrite (pbind_done _ _ _ _ OK (two p c (accounted (two p c y x (caller c (exit_msg src status) g)) e x y) z (caller c (exit_msg src status) g))
      (exit_calls c (caller c (exit_msg src status) g) e)); [done|].
    rewrite <-(two_same p c g x y (f_parent _ _ _ _ _ F) (f_child _ _ _ _ _ F)) at 1.
    apply (pm_exit_zombie (length (mproc_tab g)) p c Hp Hc Hne answers status (caller c (exit_msg src status) g));
      try done; try apply (f_leaves _ _ _ _ _ F).
    + apply (f_server _ _ _ _ _ F).
    + by apply (f_no_child _ _ _ _ _ F p), (f_parent _ _ _ _ _ F).
    + intros i w _ Hi Hw. by apply (f_no_child _ _ _ _ _ F i).
Qed.

Lemma run_wait_first p c g e x y status src src' : family p c g x y ->
  (call_as p (wait_msg src' (mp_pid x)) ;; call_as c (exit_msg src status))%pm g e =
    Done SUSPEND
      (two p c (woken (accounted (two p c (waiting (mp_pid x) y) x (caller c (exit_msg src status) g)) e x (waiting (mp_pid x) y)) (ended status x)) (release_entry (ended status x))
         (caller c (exit_msg src status) g <| procs_in_use ::= Z.pred |>))
      (exit_calls c (caller c (exit_msg src status) g) e).
Proof using answers.
  intros F. destruct (family_pair _ _ _ _ _ F) as [Hp Hc]. pose proof (f_two _ _ _ _ _ F) as Hne.
  pose proof (f_table _ _ _ _ _ F) as Hn. destruct (f_user _ _ _ _ _ F) as [Hc0 Hs].
  destruct (family_flags _ _ _ _ _ F) as (Hxu & Hxz & Hxs & Hyu & Hyw).
  set (w := waiting (mp_pid x) y).
  rewrite (pbind_done _ _ _ _ SUSPEND (two p c w x (caller p (wait_msg src' (mp_pid x)) g)) e).
  - rewrite do_pm_exit_self by done.
    rewrite (pbind_done _ _ _ _ OK (two p c (woken (accounted (two p c w x (caller c (exit_msg src status) g)) e x w) (ended status x)) (release_entry (ended status x))
         (caller c (exit_msg src status) g <| procs_in_use ::= Z.pred |>))
      (exit_calls c (caller c (exit_msg src status) g) e)); [done|].
    apply (pm_exit_wakes (length (mproc_tab g)) p c Hp Hc Hne answers status (caller c (exit_msg src status) g));
      try done; try apply (f_leaves _ _ _ _ _ F).
    + unfold w, waiting. cbn. by rewrite has_lor, orb_true_r.
    + intros H. change (has (Z.lor (mp_flags y) WAITING) IN_USE = false). rewrite has_lor.
      by rewrite (f_no_child _ _ _ _ _ F p y Hne (f_parent _ _ _ _ _ F) H).
    + intros i v _ Hi Hv. by apply (f_no_child _ _ _ _ _ F i).
  - unfold call_as. unfold pbind at 1, pupd at 1. cbn [pm_type wait_msg].
    rewrite <-(two_same p c g x y (f_parent _ _ _ _ _ F) (f_child _ _ _ _ _ F)) at 1.
    apply (waitpid_waits (length (mproc_tab g)) p c Hp Hc Hne (mp_pid x) (caller p (wait_msg src' (mp_pid x)) g)); try done.
    + by repeat split; apply (f_pid _ _ _ _ _ F).
    + exact (f_only _ _ _ _ _ F p y Hne (f_parent _ _ _ _ _ F)).
    + intros i v _ Hi Hv. by apply (f_only _ _ _ _ _ F i).
    + pose proof (family_child p c g x y (mp_flags x) F Hxu) as Hq. by destruct x.
Qed.

(** ** What the two runs leave *)

(** A parent that waited already: the pid it noted, and its own times. *)
Definition waited (pid ut st : Z) (y : mproc) : mproc :=
  y <| mp_wpid := pid |> <| mp_child_utime := ut |> <| mp_child_stime := st |>.

Lemma woken_waiting h h' e x y z pid : let a := accounted h' e x (waiting pid y) in
  woken a z = waited pid (mp_child_utime a) (mp_child_stime a) (woken (accounted h e x y) z).
Proof. destruct y. unfold woken, waited, accounted, waiting, drop. cbn. f_equal. apply flags_woken. Qed.

Lemma two_alter p c g x y f : 0 <= p < Z.of_nat (length (mproc_tab g)) -> 0 <= c -> p <> c ->
  mproc_tab (two p c (f y) x g) = alter f (Z.to_nat p) (mproc_tab (two p c y x g)).
Proof.
  intros Hp Hc Hne. cbn. apply list_eq. intros i.
  destruct (decide (i = Z.to_nat p)) as [->|Hi].
  - rewrite list_lookup_alter_eq, !(list_lookup_insert_ne _ (Z.to_nat c)) by lia.
    by rewrite !list_lookup_insert_eq by lia.
  - rewrite list_lookup_alter_ne by done. destruct (decide (i = Z.to_nat c)) as [->|Hj].
    + destruct (decide (Z.to_nat c < length (mproc_tab g))%nat).
      * by rewrite !list_lookup_insert_eq by (rewrite length_insert; lia).
      * by rewrite !lookup_ge_None_2 by (rewrite !length_insert; lia).
    + by rewrite !list_lookup_insert_ne by done.
Qed.

Lemma woken_must_reply y x : Z.land (mp_flags y) (Z.lor (Z.lor IN_USE ZOMBIE) WAITING) = IN_USE ->
  must_reply (woken y x) = true.
Proof.
  intros Hf. unfold must_reply. apply Z.eqb_eq.
  change (mp_flags (woken y x)) with (Z.ldiff (Z.lor (mp_flags y) REPLYPENDING) WAITING).
  transitivity (Z.lor REPLYPENDING (Z.land (Z.land (mp_flags y) (Z.lor (Z.lor IN_USE ZOMBIE) WAITING)) (Z.lor IN_USE ZOMBIE)));
    [|by rewrite Hf].
  apply Z.bits_inj'. intros k Hk.
  assert (Z.testbit REPLYPENDING k = true -> Z.testbit WAITING k = false /\ Z.testbit ZOMBIE k = false /\ Z.testbit IN_USE k = false) as H1.
  { unfold REPLYPENDING. change 512 with (2 ^ 9). rewrite Z.pow2_bits_eqb by lia. by intros <-%Z.eqb_eq. }
  assert (Z.testbit WAITING k = true -> Z.testbit ZOMBIE k = false /\ Z.testbit IN_USE k = false) as H2.
  { unfold WAITING. change 2 with (2 ^ 1) at 1. rewrite Z.pow2_bits_eqb by lia. by intros <-%Z.eqb_eq. }
  rewrite !Z.lor_spec, !Z.land_spec, !Z.ldiff_spec, !Z.lor_spec.
  destruct (Z.testbit REPLYPENDING k), (Z.testbit WAITING k), (Z.testbit ZOMBIE k), (Z.testbit IN_USE k), (Z.testbit (mp_flags y) k);
    try done; exfalso; (destruct (H1 eq_refl) as (? & ? & ?) || destruct (H2 eq_refl) as (? & ?)); done.
Qed.

Lemma woken_reply y x : words (mp_reply y) <> [] ->
  pm_type (mp_reply (woken y x)) = mp_pid x /\ word reply_res2 (mp_reply (woken y x)) = exit_word x.
Proof.
  intros Hw. split; [done|]. unfold word, woken, drop, set_word. cbn. by destruct (words (mp_reply y)).
Qed.

(** C16. An exit and the wait for it come to the same in either order, when every
    request to the system task is granted.  When the child exits first it stays as a
    zombie until its parent waits; when the parent waits first the exit wakes it up.
    Both times neither call is answered on its own: the entry of the child is freed, the
    reply to the parent has the pid of the child and its status, and it is sent with the
    replies of the turn; the system task is asked the same, and the two tables differ
    in the entry of the parent only, in the pid that it noted to wait for and in the
    times of its children, to which [pm_exit] adds two variables that it never set. *)
Theorem exit_wait_commute p c g e x y status src src' : family p c g x y ->
  exists gA gB e' ut st,
    (call_as c (exit_msg src status) ;; call_as p (wait_msg src' (mp_pid x)))%pm g e = Done SUSPEND gA e' /\
    (call_as p (wait_msg src' (mp_pid x)) ;; call_as c (exit_msg src status))%pm g e = Done SUSPEND gB e' /\
    mproc_tab gB = alter (waited (mp_pid x) ut st) (Z.to_nat p) (mproc_tab gA) /\
    procs_in_use gA = procs_in_use g - 1 /\ procs_in_use gB = procs_in_use g - 1 /\
    (exists z, entry gA c = Some z /\ mp_flags z = 0 /\ mp_pid z = 0 /\ mp_endpoint z = NONE) /\
    (exists z, entry gA p = Some z /\ must_reply z = true /\ has (mp_flags z) WAITING = false /\
       pm_type (mp_reply z) = mp_pid x /\
       word reply_res2 (mp_reply z) = Z.lor (Z.shiftl (to_char status) 8) (Z.land (mp_sigstatus x) 255)).
Proof using answers.
  intros F. destruct (family_pair _ _ _ _ _ F) as [Hp Hc]. pose proof (f_two _ _ _ _ _ F) as Hne.
  eexists _, _, _, _, _. split; [by apply run_exit_first|]. split; [by apply run_wait_first|].
  split; [|split; [done|split; [done|split]]].
  - rewrite (woken_waiting (two p c y x (caller c (exit_msg src status) g))).
    rewrite <-(two_alter p c _ _ _ (waited (mp_pid x) _ _)) by (done || apply Hc). done.
  - eexists. split; [by apply (two_c (length (mproc_tab g)))|]. done.
  - eexists. split; [by apply (two_p (length (mproc_tab g)))|].
    split; [apply woken_must_reply, (f_parent_runs _ _ _ _ _ F)|]. split; [apply has_drop_self|].
    apply (woken_reply (accounted _ e x y) (ended status x)), (f_words _ _ _ _ _ F).
Qed.
End Orders.
