(* ===== verification/PmErrors.v ===== *)
(** * Where the process manager stops or does not answer

    Turns of the main loop and calls that end in another way than their callers
    expect: a notice that makes the process manager exit, an alarm that is never
    answered, a slot that is always the one of the process manager, and the call
    without a handler. *)

From S2P Require Import Prelude Types Endpoint Timers Clock Slots Systask PmData SysLib Pm PmFork PmMain PmLogic.
#[local] Open Scope Z_scope.

Section Errors.
Context {E : Type} `{!PmHost E} `{!AlarmService E}.
Implicit Types (g : pmg) (e : E).

(** A request does not change the globals. *)
Lemma taskcall_pure who q g e : exists r e', _taskcall who q g e = Done r g e'.
Proof.
  unfold _taskcall, pcalls, pbind. destruct (sendrec who q e) as [[st l] e']. by eexists _, e'.
Qed.

Lemma procinfo_pure nr g e : exists r e', sys_procinfo nr g e = Done r g e'.
Proof.
  unfold sys_procinfo, sys_getinfo. rewrite (pbind_done _ _ _ _ g g e), (pbind_done _ _ _ _ g g e) by done.
  destruct (taskcall_pure (SYSTASK (pm_node g)) (R_GETINFO GET_PROC (a_kproc (pm_lay g) + z_kproc (pm_lay g) * (nr + nr_tasks g))
    (z_kproc (pm_lay g)) nr) g e) as (r & e' & Hr).
  rewrite (pbind_done _ _ _ _ _ _ _ Hr). by eexists _, e'.
Qed.

(** ** Notices *)

(** A task has no entry to reply to. *)
Lemma setreply_task nr r g e : nr < 0 -> setreply nr r g e = Crash (C_EXIT EMOLBADPROC) g e.
Proof.
  intros Hn. unfold setreply. rewrite (pbind_done _ _ _ _ g g e) by done. apply pbind_crash.
  unfold exit_if. by replace (nr <? 0) with true by lia.
Qed.

(** C35. The notice of the task of the slots, which asks the process manager to read an
    entry again, makes it exit.  The branch for the notice is the only one that does
    not set the result, which is the one of the turn before; unless that was a call
    without a reply, it is sent to the caller, and a task is no process that can have a
    reply pending. *)
Theorem slots_notice_exits m g e g1 e1 :
  get_work m g e = Done true g1 e1 -> who_p g1 < 0 ->
  call_nr g1 = NOTIFY_FROM (SYSTEM - dvs_nr_nodes e1) ->
  call_nr g1 <> SYN_ALARM -> call_nr g1 <> NOTIFY_FROM (SYSTEM - pm_node g1) ->
  result g1 <> SUSPEND ->
  exists e2, pm_turn m g e = Crash (C_EXIT EMOLBADPROC) g1 e2.
Proof.
  intros Hw Hwho Hc Hn1%Z.eqb_neq Hn2%Z.eqb_neq Hr%Z.eqb_neq. unfold pm_turn.
  rewrite (pbind_done _ _ _ _ _ _ _ Hw). cbn [pwhen].
  destruct (procinfo_pure (m9_l1 (m_in g1)) g1 e1) as (r & e2 & Hp). exists e2.
  rewrite (pbind_done _ _ _ _ tt g1 e2).
  - rewrite (pbind_done _ _ _ _ g1 g1 e2) by done. rewrite Hr. apply pbind_crash, setreply_task, Hwho.
  - unfold pm_dispatch. rewrite (pbind_done _ _ _ _ g1 g1 e1), (pbind_done _ _ _ _ (dvs_nr_nodes e1) g1 e1) by done.
    rewrite Hn1, Hn2, Hc, Z.eqb_refl. unfold pdo. by rewrite (pbind_done _ _ _ _ _ _ _ Hp).
Qed.

(** ** Alarms *)

(** The replies that are pending were so before. *)
Definition no_new_reply g : Z -> mproc -> Prop := fun i x =>
  must_reply x = true -> exists x0, entry g i = Some x0 /\ must_reply x0 = true.

Lemma reply_flags f a : Z.land a (Z.lor (Z.lor REPLYPENDING IN_USE) ZOMBIE) = 0 ->
  Z.land (Z.lor f a) (Z.lor (Z.lor REPLYPENDING IN_USE) ZOMBIE) = Z.land f (Z.lor (Z.lor REPLYPENDING IN_USE) ZOMBIE) /\
  Z.land (Z.ldiff f a) (Z.lor (Z.lor REPLYPENDING IN_USE) ZOMBIE) = Z.land f (Z.lor (Z.lor REPLYPENDING IN_USE) ZOMBIE).
Proof.
  set (M := Z.lor _ ZOMBIE). intros H. rewrite Z.land_lor_distr_l, H, Z.lor_0_r. split; [done|].
  apply Z.bits_inj'. intros n _. assert (Z.testbit (Z.land a M) n = false) as Hb by (by rewrite H, Z.bits_0).
  rewrite !Z.land_spec, Z.ldiff_spec in *. destruct (Z.testbit f n), (Z.testbit M n), (Z.testbit a n); done.
Qed.

Lemma wr_alarm_flag g i (f : Z -> Z) : (forall x, f x = Z.lor x ALARM_ON \/ f x = Z.ldiff x ALARM_ON) ->
  keeps (E := E) (no_new_reply g) (wr i (fun x => x <| mp_flags ::= f |>)).
Proof.
  intros Hf. apply keeps_wr. intros x Hx Hm. apply Hx. revert Hm. unfold must_reply. cbn.
  destruct (reply_flags (mp_flags x) ALARM_ON eq_refl) as [H1 H2].
  by destruct (Hf (mp_flags x)) as [-> | ->]; rewrite ?H1, ?H2.
Qed.

Lemma change_alarm_quiet g nr ep sec left : keeps (no_new_reply g) (change_alarm nr ep sec left).
Proof.
  unfold change_alarm, start_alarm, stop_alarm, uptime_or_error. kept; apply wr_alarm_flag; intros x; auto.
Qed.

(** C36. The first alarm of a process is not answered.  The seconds left of an alarm
    before are the result of the call, and they are 0 when there is none; [do_alarm] takes
    0 for a call without a reply.  The alarm is set, no reply is pending that was not
    before, and the process that called waits for one. *)
Theorem first_alarm_unanswered nr x g e r g' e' :
  pm_isokendpt (who_e g) g e = Done (OK, nr) g e ->
  entry g nr = Some x -> has (mp_flags x) ALARM_ON = false ->
  do_alarm g e = Done r g' e' ->
  r = SUSPEND /\
  (forall i y, entry g' i = Some y -> must_reply y = true -> exists y0, entry g i = Some y0 /\ must_reply y0 = true).
Proof.
  intros Hok Hx Ha Hrun. unfold do_alarm in Hrun. rewrite (pbind_done _ _ _ _ g g e) in Hrun by done.
  apply pbind_inv in Hrun as (left & g1 & e1 & Hset & [= <- <- <-]).
  unfold set_alarm in Hset. rewrite (pbind_done _ _ _ _ _ _ _ Hok) in Hset. cbn [negb Z.eqb OK] in Hset.
  rewrite (pbind_done _ _ _ _ _ _ _ (rd_done _ _ _ _ Hx)), Ha in Hset.
  assert (left = 0) as ->.
  { unfold change_alarm in Hset. apply pbind_inv in Hset as (g2 & g3 & e3 & _ & Hset).
    cbv zeta in Hset. apply pbind_inv in Hset as (y & g4 & e4 & _ & Hset).
    apply pbind_inv in Hset as (u & g5 & e5 & _ & Hset). by injection Hset. }
  split; [done|]. apply (keeps_done _ _ _ _ _ _ _ (change_alarm_quiet g _ _ _ _) Hset).
  intros i y Hi Hm. by exists y.
Qed.

(** ** Slots and calls *)

(** The entry that a process asks for before it forks is the one of the process manager,
    which gets the identity, the pid and the endpoint of the caller. *)
Theorem freeproc_overwrites_pm p y tm g e :
  mp_nr g = p -> who_p g = p -> entry g p = Some y -> 0 < p -> theap (pm_timers g) !! p = Some tm ->
  procs_in_use g < nr_procs g - LAST_FEW ->
  exists g', do_freeproc g e = Done 0 g' e /\
    exists z, entry g' 0 = Some z /\ mp_pid z = mp_pid y /\ mp_endpoint z = mp_endpoint y /\ mp_parent z = p.
Proof.
  intros Hmp Hwho Hy Hp Htm Huse. unfold do_freeproc. rewrite (pbind_done _ _ _ _ g g e) by done.
  rewrite (pbind_done _ _ _ _ y g e) by (apply rd_mp_done; by rewrite Hmp).
  replace (procs_in_use g =? nr_procs g) with false by (unfold LAST_FEW in Huse; lia).
  replace (procs_in_use g >=? nr_procs g - LAST_FEW) with false by lia. cbn [orb andb].
  set (g1 := g <| procs_in_use ::= Z.succ |>). rewrite (pbind_done _ _ _ _ tt g1 e) by done.
  rewrite Hmp, Hwho. destruct (entry_some _ _ _ Hy) as [_ Hl]. apply lookup_lt_Some in Hl.
  assert (is_Some (entry g1 0)) as [z0 Hz0] by (change (is_Some (mproc_tab g !! 0%nat)); apply lookup_lt_is_Some; lia).
  assert (entry g1 p = Some y) as Hy1 by done.
  set (g2 := set_entry 0 y g1 <| pm_timers ::= fun q => q <| theap ::= <[0 := tm]> |> |>).
  rewrite (pbind_done _ _ _ _ tt g2 e).
  2:{ unfold copy_entry. rewrite (pbind_done _ _ _ _ _ _ _ (rd_done _ _ _ _ Hy1)).
      rewrite (pbind_done _ _ _ _ _ _ _ (wr_done _ _ _ _ _ Hz0)). unfold on_timers.
      change (pm_timers (set_entry 0 y g1)) with (pm_timers g). by rewrite Htm. }
  assert (entry g2 0 = Some y) as Hz2 by exact (entry_set_eq 0 z0 y g1 Hz0).
  rewrite (pbind_done _ _ _ _ _ _ _ (wr_done _ _ _ _ _ Hz2)).
  set (z := y <| mp_parent := p |> <| mp_flags ::= fun f => Z.land f (Z.lor (Z.lor IN_USE PRIV_PROC) FORKWAIT) |>).
  pose proof (entry_set_eq 0 y z g2 Hz2) as Hz3.
  assert (entry (set_entry 0 z g2) p = Some y) as Hy3.
  { rewrite (entry_set_ne 0 p y) by (done || lia). change (entry (set_entry 0 y g1) p = Some y).
    by rewrite (entry_set_ne 0 p z0) by (done || lia). }
  unfold set_reply. rewrite (pbind_done _ _ _ _ _ _ _ (wr_done _ _ _ _ _ Hy3)).
  eexists. split; [reflexivity|]. exists z. split; [|done]. by rewrite (entry_set_ne p 0 y) by (done || lia).
Qed.

(** Of the calls that are taken for valid one has no handler: the table has a row
    less than calls, and [do_unbind] is in none. *)
Theorem unbind_has_no_handler c : 0 <= c < NCALLS -> (call_vec (E := E) c = None <-> c = MOLUNBIND).
Proof.
  unfold NCALLS, MOLUNBIND. intros Hc. split.
  - unfold call_vec, MOLWAIT4FORK. repeat case_match; try discriminate. lia.
  - by intros ->.
Qed.
End Errors.
