(* ===== verification/PmSystask.v ===== *)
(** * The process manager over the system task of its node

    The interface [PmHost] of the process manager is implemented by the system task:
    a request is served by [Systask.serve] on the globals of the task and its host,
    the type and the fields of its reply are what the process manager gets, and the
    descriptor that a request for a process copies lands in [kproc].  What the
    process manager and the system task then know of a new process is the same. *)

From S2P Require Import Prelude Types Endpoint Timers Clock Systask PmData SysLib Pm PmFork PmLogic PmFlow PmWait.
From S2P Require Import Slots SlotsLogic SystaskLogic SlotsFlow SystaskFlow.
#[local] Open Scope Z_scope.
#[local] Open Scope pm_scope.

Section World.
Context {T : Type} `{!Host T} `{!TaskHost T} (f : frame).

(** The globals of the task, its host, and the copy of the process table in the
    memory of the process manager: its entries, its address and the size of one. *)
Record world := mk_world { w_sys : sys; w_task : T; w_copy : Z -> proc; w_addr : Z; w_size : Z }.

Definition set_copy (i : Z) (x : proc) (c : Z -> proc) : Z -> proc := fun j => if j =? i then x else c j.

(** Where the descriptor of a request lands. *)
Definition landed (q : rqst) (rc : Z) (s : sys) (t : T) (w : world) : Z -> proc :=
  match q with
  | R_GETINFO request addr _ ep =>
      if (request =? GET_PROC) && (rc =? OK)
      then set_copy ((addr - w_addr w) / w_size w) (proc_mapped t (ENDPOINT_P ep + dc_nr_tasks (s_dc s))) (w_copy w)
      else w_copy w
  | _ => w_copy w
  end.

(** The task of another node, or one that stopped, does not answer. *)
Definition request (who : Z) (q : rqst) (w : world) : (Z * (Z * list Z)) * world :=
  if who =? SYSTASK (local_nodeid (w_sys w)) then
    match serve f PM_PROC_NR q (w_sys w) (w_task w) with
    | Ok (rc, l) s t => ((0, (rc, l)), mk_world s t (landed q rc (w_sys w) (w_task w) w) (w_addr w) (w_size w))
    | Stop _ s t => ((EMOLDSTDIED, (0, [])), mk_world s t (w_copy w) (w_addr w) (w_size w))
    end
  else ((EMOLDSTDIED, (0, [])), w).


(** ** What the copies keep *)

(** Memory is there, and copies are made; the process table stays as it is. *)
Class CopyLaws := {
  cl_alloc n t : exists a, fst (posix_memalign n t) = Some a /\ proc_mapped (snd (posix_memalign n t)) = proc_mapped t;
  cl_fill a i t : proc_mapped (memcpy_proc a i t) = proc_mapped t;
  cl_free a t : proc_mapped (free_mem a t) = proc_mapped t;
  cl_copy src sa dst da n t : fst (mnx_vcopy src sa dst da n t) = OK /\
    proc_mapped (snd (mnx_vcopy src sa dst da n t)) = proc_mapped t;
}.
Context {CL : CopyLaws}.



(** ** A new process in both tables *)

Context (D : dc_t) {HL : HostLaws T} {TL : TaskLaws T D} {BL : BindLaws (E := T) D}.














End World.
