(* ===== verification/PmScenario.v ===== *)
(** * A process manager at work

    A DC of twenty processes: the process manager in the slot 0, INIT in 14, a shell
    in 15 and a child of it in 16.  The theorems of the process manager on it; then
    a process manager over the system task of node 0 of [SystaskScenario]. *)

From S2P Require Import Prelude Types Endpoint Scenario Timers Clock Slots Systask.
From S2P Require Import SlotsLogic SystaskLogic SlotsFlow SystaskFlow SlotsScenario SystaskScenario.
From S2P Require Import PmData SysLib Pm PmFork PmMain PmStart PmLogic PmIds PmFlow PmWait PmErrors PmSystask.
#[local] Open Scope Z_scope.

(** ** The host *)

(** The process table, what was sent, and the alarm.  Every request is granted. *)
Record office := mk_office { o_table : Z -> proc; o_sent : list (Z * pmess); o_alarm : option Z }.

#[export] Instance office_host : PmHost office := {|
  sendrec who q e := ((0, (0, match q with R_TIMES => [5; 3; 1000] | _ => [] end)), e);
  kproc := o_table;
  kname e i := [];
  search_key e := [];
  dvs_nr_nodes e := 3;
  mnx_send ep m e := (0, mk_office (o_table e) (o_sent e ++ [(ep, m)]) (o_alarm e));
  mnx_notify ep e := (0, e);
  junk u g e := match u with U_T0 => procs_in_use g | U_T1 => who_p g | _ => 0 end;
|}.

#[export] Instance office_alarm : AlarmService office.
Proof.
  refine {| sys_setalarm t e := Some (mk_office (o_table e) (o_sent e) (if t =? 0 then None else Some t), 0);
            alarm e a := o_alarm e = a |}.
  - intros e a t _ Ht. eexists. split; [reflexivity|]. cbn. by destruct (Z.eqb_spec t 0); [lia|].
  - intros e a _. by eexists.
Defined.

(** ** The table *)

Definition Dpm : dc_t := mk_dc 0 0 20 35 41 7 1 3 [112; 109] NONE 0.
Definition lay0 : playout := mk_playout 0 64 4096 65536 131072 262144 400000 64 64 256 128 32 16.

Definition no_msg : pmess := mk_pmess 0 0 [0; 0; 0; 0; 0; 0; 0].
Definition blank : mproc :=
  init_entry (mk_mproc 0 0 0 0 0 0 0 0 0 0 0 0 0 0 0 0 0 0 0 0 no_msg 0).

(** A process in use. *)
Definition running (nr pid grp parent : Z) : mproc :=
  blank <| mp_endpoint := nr |> <| mp_pid := pid |> <| mp_procgrp := grp |> <| mp_parent := parent |> <| mp_flags := IN_USE |>.

Definition table0 : list mproc :=
  <[0%nat := running 0 0 0 0]> (<[14%nat := running 14 1 1 0]>
    (<[15%nat := running 15 7 1 14]> (<[16%nat := running 16 8 1 15]> (replicate 20 blank)))).

Definition timers0 : tqueue :=
  mk_tqueue None (list_to_map (map (fun i => (i, mk_timer None 0 0 0)) [0; 14; 15; 16])).

Definition pm0 : pmg := mk_pmg Dpm 0 lay0 table0 timers0 4 2 0 0 0 no_msg 0 0 1000 100 OK.

Definition kernel0 : Z -> proc := fun i =>
  let nr := i - 35 in
  if (nr <? 6) || existsb (Z.eqb nr) [14; 15; 16] then desc nr nr 0 (100 + nr) 0 0 None
  else desc nr nr 0 0 SLOT_FREE 0 None.

Definition office0 : office := mk_office kernel0 [] None.

(** ** Pids, replies, exits *)

Lemma get_free_pid_fresh_witness :
  exists k, (k <= 2 * length (mproc_tab pm0))%nat /\ let n := pid_in (S k) (next_pid pm0) in
    get_free_pid pm0 office0 = Done n (pm0 <| next_pid := n |>) office0 /\
    INIT_PID < n <= NR_PIDS /\ Forall (fun x => mp_pid x <> n /\ mp_procgrp x <> n) (mproc_tab pm0) /\
    forall j, (j < k)%nat -> pid_taken (mproc_tab pm0) (pid_in (S j) (next_pid pm0)) = true.
Proof. apply (get_free_pid_fresh pm0 office0); [vm_compute; reflexivity|split; vm_compute; congruence]. Defined.

(** The replies to INIT and to the child are pending. *)
Definition pending0 : pmg := pm0 <| mproc_tab ::= fun t =>
  <[14%nat := (running 14 1 1 0) <| mp_flags := Z.lor IN_USE REPLYPENDING |>]>
    (<[16%nat := (running 16 8 1 15) <| mp_flags := Z.lor IN_USE REPLYPENDING |>]> t) |>.

Lemma replies_sent_once_witness :
  send_replies pending0 office0 =
    Done tt (pending0 <| mproc_tab ::= map answered |>)
      (fold_left (send_to (nr_tasks pending0)) (replies_from 0 (mproc_tab pending0)) office0) /\
  Forall (fun x => must_reply x = false) (map answered (mproc_tab pending0)).
Proof. apply (replies_sent_once (E := office)); [intros ???; reflexivity|reflexivity]. Defined.

Lemma two_replies_sent : 
  match send_replies pending0 office0 with
  | Done _ _ e => map fst (o_sent e) = [14; 16]
  | Crash _ _ _ => False
  end.
Proof. vm_compute. reflexivity. Qed.

(** The shell exits; its child goes to INIT. *)
Definition shell_turn : pmg := pm0 <| mp_nr := 15 |> <| who_p := 15 |>.
Definition after_shell : pmg := state_of (pm_exit 15 3 MOLEXIT shell_turn office0).

Lemma exit_disinherits_witness :
  entry after_shell 16 = Some (running 16 8 1 14) /\
  exists y, entry shell_turn 16 = Some y /\
    mp_parent (running 16 8 1 14) = (if mp_parent y =? 15 then INIT_PROC_NR else mp_parent y) /\
    mp_parent (running 16 8 1 14) <> 15.
Proof.
  split; [vm_compute; reflexivity|].
  apply (exit_disinherits (E := office) 15 3 MOLEXIT shell_turn office0 OK after_shell office0 16);
    [reflexivity|discriminate|vm_compute; reflexivity..].
Defined.

(** ** The exit and the wait *)

(** A condition on every entry, checked entry by entry. *)
Lemma table_all (P : Z -> mproc -> bool) g :
  forallb (fun i => match mproc_tab g !! i with Some z => P (Z.of_nat i) z | None => true end)
    (seq 0 (length (mproc_tab g))) = true ->
  forall i z, entry g i = Some z -> P i z = true.
Proof.
  rewrite forallb_forall. intros H i z [Hi Hz]%entry_some.
  specialize (H (Z.to_nat i)). rewrite Hz, Z2Nat.id in H by done. apply H, in_seq.
  apply lookup_lt_Some in Hz. lia.
Qed.

Definition childless (c : Z) (i : Z) (z : mproc) : bool :=
  (i =? c) || negb (mp_parent z =? c) || negb (has (mp_flags z) IN_USE).
Definition not_waited (c pid who : Z) (i : Z) (z : mproc) : bool := (i =? c) || negb (qualifies pid who z).

Lemma family0 : family 15 16 pm0 (running 16 8 1 15) (running 15 7 1 14).
Proof.
  split; try (vm_compute; done).
  - intros i z Hi Hz Hp. pose proof (table_all (childless 16) pm0 eq_refl i z Hz) as H. unfold childless in H.
    apply Z.eqb_neq in Hi. rewrite Hi, Hp in H. cbn in H. by apply negb_true_iff in H.
  - intros i z Hi Hz. pose proof (table_all (not_waited 16 8 15) pm0 eq_refl i z Hz) as H. unfold not_waited in H.
    apply Z.eqb_neq in Hi. rewrite Hi in H. by apply negb_true_iff in H.
Qed.

Lemma office_answers who q (e : office) : fst (fst (sendrec who q e)) = 0 /\ fst (snd (fst (sendrec who q e))) = OK.
Proof. done. Qed.

Lemma exit_wait_commute_witness :
  exists gA gB e' ut st,
    (call_as 16 (exit_msg 16 5) ;; call_as 15 (wait_msg 15 8))%pm pm0 office0 = Done SUSPEND gA e' /\
    (call_as 15 (wait_msg 15 8) ;; call_as 16 (exit_msg 16 5))%pm pm0 office0 = Done SUSPEND gB e' /\
    mproc_tab gB = alter (waited 8 ut st) 15%nat (mproc_tab gA) /\
    procs_in_use gA = 3 /\ procs_in_use gB = 3 /\
    (exists z, entry gA 16 = Some z /\ mp_flags z = 0 /\ mp_pid z = 0 /\ mp_endpoint z = NONE) /\
    (exists z, entry gA 15 = Some z /\ must_reply z = true /\ has (mp_flags z) WAITING = false /\
       pm_type (mp_reply z) = 8 /\ word reply_res2 (mp_reply z) = 1280).
Proof.
  apply (exit_wait_commute office_answers 15 16 pm0 office0 _ _ 5 16 15 family0).
Defined.

(** ** Identities *)

Definition env_of {A} (r : pout office A) : office := match r with Done _ _ e => e | Crash _ _ e => e end.

(** The shell asks to be the super user, and who it is. *)
Definition session : list pmess := [mk_pmess 15 MOLSETUID [0; 0]; mk_pmess 15 MOLGETUID []].

(** The process manager starts for the DC 0, in the slot of one that runs on another
    node; the memory of its table is not clear. *)
#[export] Instance office_kernel : PmKernel office := {|
  mnx_getdvsinfo e := (0, e);
  mnx_replbind dcid lpid ep e := (EMOLSLOTUSED, e);
  mnx_getprocinfo dcid nr e := ((0, desc 0 0 1 0 (Z.shiftl 1 BIT_REMOTE) 0 None), e);
  mnx_migr_start dcid ep e := (0, e);
  mnx_migr_commit lpid dcid ep node e := (0, e);
  pm_lpid e := 500;
  own_name e := [112; 109];
  dcu e := Dpm;
  new_tables e := Some (lay0, replicate 20 (running 1 2 3 4));
|}.

Definition session_run : pout office unit := pm_main 0 100 session pm0 office0.

Lemma nobody_forever_witness :
  Forall (fun x => ids x = (NO_ID, NO_ID, NO_ID, NO_ID)) (mproc_tab (state_of session_run)).
Proof.
  apply (nobody_forever (E := office) 0 100 session pm0 office0 (state_of session_run) (env_of session_run)).
  - intros e lay mem [= <- <-]. reflexivity.
  - vm_compute. reflexivity.
Defined.

(** It is told that it may not, and that it is user -1. *)
Lemma session_replies : map (fun r => pm_type r.2) (o_sent (env_of session_run)) = [EMOLPERM; -1].
Proof. vm_compute. reflexivity. Qed.

(** ** Notices and alarms *)

(** The notice of the task of the slots, after the call that was served before. *)
Definition slots_notice : pmess := mk_pmess (-5) (NOTIFY_FROM (-5)) [0; 16; 0; 0].

Lemma slots_notice_exits_witness :
  exists g e, pm_turn slots_notice pm0 office0 = Crash (C_EXIT EMOLBADPROC) g e.
Proof.
  eexists _. apply (slots_notice_exits (E := office) slots_notice pm0 office0 (state_of (get_work slots_notice pm0 office0)) office0);
    vm_compute; congruence || reflexivity.
Defined.

(** The shell asks for a signal in 10 seconds. *)
Definition alarm_call : pmg :=
  pm0 <| who_p := 15 |> <| who_e := 15 |> <| mp_nr := 15 |> <| call_nr := MOLALARM |> <| m_in := mk_pmess 15 MOLALARM [10] |>.
Definition alarm_run : pout office Z := do_alarm alarm_call office0.

Lemma first_alarm_unanswered_witness :
  do_alarm alarm_call office0 = Done SUSPEND (state_of alarm_run) (env_of alarm_run) /\
  (forall i y, entry (state_of alarm_run) i = Some y -> must_reply y = true ->
     exists y0, entry alarm_call i = Some y0 /\ must_reply y0 = true).
Proof.
  assert (do_alarm alarm_call office0 = Done SUSPEND (state_of alarm_run) (env_of alarm_run)) as Hrun
    by (vm_compute; reflexivity).
  split; [exact Hrun|].
  apply (first_alarm_unanswered (E := office) 15 (running 15 7 1 14) alarm_call office0 SUSPEND (state_of alarm_run) (env_of alarm_run));
    [vm_compute; reflexivity..|exact Hrun].
Defined.

(** The alarm of the process manager is set for it. *)
Lemma alarm_set : o_alarm (env_of alarm_run) = Some 2000.
Proof. vm_compute. reflexivity. Qed.

(** ** Over a system task

    The shell 2 forks, the child exits and the shell waits for it. *)

#[export] Instance ptable_copies : CopyLaws (T := ptable).
Proof. split; try done. intros n t. by exists 4096. Qed.








