(* ===== verification/TcpProxy.v ===== *)
(** * A pair of proxies over TCP ([src/proxy/tcp_proxy.c])

    The program of a pair of proxies has two processes.  The sender takes the
    commands for a node from the kernel of this node, with [mnx_get2rmt], and writes
    each to a connection: a header, and a payload of [c_len] bytes if that is not 0.
    The receiver reads them from the connection of the sender of the other node, and
    hands them to the kernel with [mnx_put2lcl].  TCP carries a stream of bytes: a
    [send] may take a part of what it is given, and a [recv] gives what has come.

    A loop that goes on for ever has a fuel, and when it is used up the process is
    still running ([X_MORE]). *)

From S2P Require Import Prelude Types Endpoint.
From S2P Require Bind.

(** ** Headers

    A header is the 88 bytes of a [cmd_t] of the 32-bit target. *)

Definition HEADER_SIZE : Z := 88.
Definition BASE_PORT : Z := 3000.

(** Of Linux. *)
Definition EALREADY : Z := 114.

(** The bytes [bs] at the offset [off] of a buffer. *)
Definition put_at (off : nat) (bs buf : list Z) : list Z := take off buf ++ bs ++ drop (off + length bs) buf.
Definition zero (n : nat) (buf : list Z) : list Z := put_at 0 (replicate n 0) buf.

(** An [int], the lowest byte first. *)
Definition byte_at (off : nat) (buf : list Z) : Z := default 0 (buf !! off).
Definition get_int (off : nat) (buf : list Z) : Z :=
  to_int (byte_at off buf + 256 * (byte_at (off + 1) buf + 256 * (byte_at (off + 2) buf + 256 * byte_at (off + 3) buf))).
Definition int_bytes (v : Z) : list Z := [v mod 256; (v / 256) mod 256; (v / 65536) mod 256; (v / 16777216) mod 256].

Definition OFF_CMD : nat := 0.
Definition OFF_RCODE : nat := 24.
Definition OFF_LEN : nat := 28.
Definition h_cmd (h : list Z) : Z := get_int OFF_CMD h.
Definition h_len (h : list Z) : Z := get_int OFF_LEN h.

(** ** The program *)

Record proxy := mk_proxy {
  x_node : Z; x_id : Z; x_name : list Z;
  p_header : list Z; p_payload : list Z;
  rmsg_ok : Z; rmsg_fail : Z; smsg_ok : Z; smsg_fail : Z;
  rlisten_sd : Z; rconn_sd : Z; sproxy_sd : Z;
}.
#[export] Instance eta_proxy : Eta proxy := fun r =>
  mk_proxy (x_node r) (x_id r) (x_name r) (p_header r) (p_payload r) (rmsg_ok r) (rmsg_fail r) (smsg_ok r) (smsg_fail r)
    (rlisten_sd r) (rconn_sd r) (sproxy_sd r).

(** The calls of Linux and of the module.  [None] is a call that does not return; a
    call that fails gives no value, and [errno] may have any.  [recv] gives the bytes
    that it stored, none at the end of the connection.  [get2rmt] gives its result and
    what it stored in the two buffers. *)
Class Net (E : Type) := {
  recv : Z -> Z -> E -> option (option (list Z) * E);
  send : Z -> list Z -> E -> option (option Z * E);
  accept : Z -> E -> option (Z * E);
  socket : E -> option Z * E;
  setsockopt : Z -> E -> bool * E;
  bind_port : Z -> Z -> E -> bool * E;
  listen : Z -> E -> bool * E;
  gethostbyname : list Z -> E -> option Z * E;
  connect : Z -> Z -> Z -> E -> option (bool * E);
  close : Z -> E -> E;
  errno : E -> Z;
  get2rmt : E -> option (Z * list Z * list Z * E);
  put2lcl : list Z -> list Z -> E -> option (Z * E);
  wait4bind : E -> option (Z * E);
  proxy_conn : Z -> Z -> E -> Z * E;
  buffers : E -> option (list Z * list Z);
  getdvsinfo : E -> Z * E;
  fork : E -> Z * E;
  proxies_bind : list Z -> Z -> Z -> Z -> E -> Z * E;
  node_up : list Z -> Z -> Z -> E -> Z * E;
  wait_child : E -> option (Z * E);
}.

(** The process exits, memory outside of the buffers is used, a call does not return,
    or the fuel is used up. *)
Inductive xstop := X_EXIT (rcode : Z) | X_WILD | X_WAITS | X_MORE.

Inductive xout (E A : Type) :=
| XDone (a : A) (g : proxy) (e : E)
| XStop (x : xstop) (g : proxy) (e : E).
Arguments XDone {E A} a g e.
Arguments XStop {E A} x g e.

Definition xact (E A : Type) : Type := proxy -> E -> xout E A.

Definition xret {E A} (a : A) : xact E A := fun g e => XDone a g e.
Definition xbind {E A B} (m : xact E A) (k : A -> xact E B) : xact E B := fun g e =>
  match m g e with
  | XDone a g e => k a g e
  | XStop x g e => XStop x g e
  end.

Declare Scope proxy_scope.
Delimit Scope proxy_scope with proxy.
Notation "x <- m ;; k" := (xbind m (fun x => k))
  (at level 100, m at next level, right associativity) : proxy_scope.
Notation "m ;; k" := (xbind m (fun _ => k)) (at level 100, right associativity) : proxy_scope.
#[local] Open Scope proxy_scope.

Section Program.
Context {E : Type} `{!Net E}.
Implicit Types (g : proxy) (e : E).

Definition xget : xact E proxy := fun g e => XDone g g e.
Definition xupd (f : proxy -> proxy) : xact E unit := fun g e => XDone tt (f g) e.
Definition xstops {A} (x : xstop) : xact E A := fun g e => XStop x g e.
Definition xexit_if (b : bool) (rcode : Z) : xact E unit := if b then xstops (X_EXIT rcode) else xret tt.
Definition xcalls {A} (f : E -> A * E) : xact E A := fun g e => let (a, e) := f e in XDone a g e.
Definition xwaits {A} (f : E -> option (A * E)) : xact E A := fun g e =>
  match f e with Some (a, e) => XDone a g e | None => XStop X_WAITS g e end.
Definition xlook {A} (f : E -> A) : xact E A := fun g e => XDone (f e) g e.
Definition get_errno : xact E Z := xlook errno.

(** [if(ret < 0) ERROR_EXIT(errno)]. *)
Definition must (b : bool) : xact E unit := err <- get_errno ;; xexit_if (negb b) err.

(** ** The receiver *)

Definition pr_setup_connection : xact E unit :=
  s <- xcalls socket ;;
  must (bool_decide (is_Some s)) ;;
  xupd (fun g => g <| rlisten_sd := default 0 s |>) ;;
  g <- xget ;;
  ok <- xcalls (setsockopt (rlisten_sd g)) ;;
  must ok ;;
  ok <- xcalls (bind_port (rlisten_sd g) (BASE_PORT + x_id g)) ;;
  must ok ;;
  ok <- xcalls (listen (rlisten_sd g)) ;;
  must ok.

(** How a loop over [recv] ends: with all the bytes, at the end of the connection, or
    with an error. *)
Inductive rx := RX_FULL | RX_END | RX_ERROR.

(** The buffer of the header, or of the payload. *)
Definition stored (header : bool) (off : nat) (bs : list Z) (g : proxy) : proxy :=
  if header then g <| p_header ::= put_at off bs |> else g <| p_payload ::= put_at off bs |>.

(** A turn that goes on has received a byte, so that the number of bytes and one more
    turns are enough. *)
Fixpoint recv_loop (n : nat) (header : bool) (total received : Z) : xact E rx :=
  match n with
  | O => xstops X_MORE
  | S n =>
      g <- xget ;;
      r <- xwaits (recv (rconn_sd g) (total - received)) ;;
      match r with
      | None => xret RX_ERROR
      | Some [] => xret RX_END
      | Some bs =>
          xupd (stored header (Z.to_nat received) bs) ;;
          let received := received + Z.of_nat (length bs) in
          if received >=? total then xret RX_FULL else recv_loop n header total received
      end
  end.

Definition pr_receive_payload (payload_size : Z) : xact E Z :=
  r <- recv_loop (S (Z.to_nat payload_size)) false payload_size 0 ;;
  match r with RX_ERROR => get_errno | _ => xret OK end.

Definition pr_receive_header : xact E Z :=
  r <- recv_loop (S (Z.to_nat HEADER_SIZE)) true HEADER_SIZE 0 ;;
  match r with RX_FULL => xret OK | _ => get_errno end.

(** The headers with no command are skipped. *)
Fixpoint next_header (fuel : nat) : xact E Z :=
  match fuel with
  | O => xstops X_MORE
  | S fuel =>
      xupd (fun g => g <| p_header ::= zero (Z.to_nat HEADER_SIZE) |>) ;;
      rcode <- pr_receive_header ;;
      if negb (rcode =? 0) then xret rcode
      else
        g <- xget ;;
        if h_cmd (p_header g) =? CMD_NONE then next_header fuel else xret OK
  end.

(** The length comes from the network, and is not compared with that of the buffer.
    The result of [pr_receive_payload] is only traced. *)
Definition receive_payload (payload_size : Z) : xact E unit :=
  if payload_size =? 0 then xret tt
  else
    g <- xget ;;
    if (payload_size <? 0) || (payload_size >? Z.of_nat (length (p_payload g))) then xstops X_WILD
    else
      xupd (fun g => g <| p_payload ::= zero (Z.to_nat payload_size) |>) ;;
      pr_receive_payload payload_size ;;
      xret tt.

(** [RMT_CLIENT_BIND] is not defined in the build. *)
Definition pr_process_message (fuel : nat) : xact E Z :=
  rcode <- next_header fuel ;;
  if negb (rcode =? 0) then xret rcode
  else
    g <- xget ;;
    receive_payload (h_len (p_header g)) ;;
    g <- xget ;;
    xwaits (put2lcl (p_header g) (p_payload g)).

(** The messages of a connection. *)
Fixpoint pr_session (fuel : nat) : xact E unit :=
  match fuel with
  | O => xstops X_MORE
  | S fuel =>
      rcode <- pr_process_message (S fuel) ;;
      if rcode =? OK then xupd (fun g => g <| rmsg_ok ::= Z.succ |>) ;; pr_session fuel
      else
        xupd (fun g => g <| rmsg_fail ::= Z.succ |>) ;;
        if rcode =? EMOLNOTCONN then xret tt else pr_session fuel
  end.

Fixpoint accept_loop (fuel : nat) : xact E unit :=
  match fuel with
  | O => xstops X_MORE
  | S fuel =>
      g <- xget ;;
      sd <- xwaits (accept (rlisten_sd g)) ;;
      xupd (fun g => g <| rconn_sd := sd |>) ;;
      if sd <? 0 then accept_loop fuel else xret tt
  end.

Fixpoint pr_start_serving (fuel : nat) : xact E unit :=
  match fuel with
  | O => xstops X_MORE
  | S fuel =>
      accept_loop fuel ;;
      g <- xget ;;
      xcalls (proxy_conn (x_id g) Bind.CONNECT_RPROXY) ;;
      pr_session fuel ;;
      xcalls (proxy_conn (x_id g) Bind.DISCONNECT_RPROXY) ;;
      g <- xget ;;
      xcalls (fun e => (tt, close (rconn_sd g) e)) ;;
      pr_start_serving fuel
  end.

(** The wait for the parent to bind the process, in turns of [RETRY_US]. *)
Fixpoint wait_bound (fuel : nat) : xact E Z :=
  match fuel with
  | O => xstops X_MORE
  | S fuel =>
      rcode <- xwaits wait4bind ;;
      if rcode =? EMOLTIMEDOUT then wait_bound fuel
      else if rcode =? NONE then xret rcode
      else xexit_if (rcode <? 0) 1 ;; xret rcode
  end.

Definition allocate_buffers : xact E unit :=
  b <- xlook buffers ;;
  match b with
  | Some (h, p) => xupd (fun g => g <| p_header := h |> <| p_payload := p |>)
  | None => xstops (X_EXIT 1)
  end.

Definition pr_init (fuel : nat) : xact E unit :=
  wait_bound fuel ;; allocate_buffers ;; pr_setup_connection ;; pr_start_serving fuel.

(** ** The sender *)

(** The bytes of the header, or of the payload, that are left to send. *)
Definition unsent (header : bool) (total sent : Z) (g : proxy) : list Z :=
  take (Z.to_nat (total - sent)) (drop (Z.to_nat sent) (if header then p_header g else p_payload g)).

Fixpoint send_loop (fuel : nat) (header : bool) (total sent : Z) : xact E Z :=
  if negb (sent <? total) then xret OK
  else
    match fuel with
    | O => xstops X_MORE
    | S fuel =>
        g <- xget ;;
        n <- xwaits (send (sproxy_sd g) (unsent header total sent g)) ;;
        match n with
        | None => err <- get_errno ;; if err =? EALREADY then send_loop fuel header total sent else get_errno
        | Some n => send_loop fuel header total (sent + n)
        end
    end.

Definition ps_send_header (fuel : nat) : xact E Z := send_loop fuel true HEADER_SIZE 0.

Definition ps_send_payload (fuel : nat) : xact E Z :=
  g <- xget ;;
  let len := h_len (p_header g) in
  xexit_if (len <=? 0) EMOLINVAL ;;
  if len >? Z.of_nat (length (p_payload g)) then xstops X_WILD else send_loop fuel false len 0.

Definition ps_send_remote (fuel : nat) : xact E Z :=
  rcode <- ps_send_header fuel ;;
  if negb (rcode =? OK) then xret rcode
  else
    g <- xget ;;
    if h_len (p_header g) >? 0 then ps_send_payload fuel else xret OK.

(** The HELLO that is sent when there has been no command for [HELLO_PERIOD]. *)
Definition hello (h : list Z) : list Z :=
  put_at OFF_RCODE (int_bytes 0) (put_at OFF_LEN (int_bytes 0) (put_at OFF_CMD (int_bytes CMD_NONE) h)).

Definition count_sent (rcode : Z) (g : proxy) : proxy :=
  if rcode =? 0 then g <| smsg_ok ::= Z.succ |> else g <| smsg_fail ::= Z.succ |>.

Definition fetch : xact E Z := fun g e =>
  match get2rmt e with
  | Some (rcode, h, p, e) => XDone rcode (g <| p_header ::= put_at 0 h |> <| p_payload ::= put_at 0 p |>) e
  | None => XStop X_WAITS g e
  end.

Fixpoint ps_start_serving (fuel : nat) : xact E Z :=
  match fuel with
  | O => xstops X_MORE
  | S fuel =>
      rcode <- fetch ;;
      if rcode =? EMOLNOTCONN then xret EMOLNOTCONN
      else if negb (rcode =? OK) && negb (rcode =? EMOLTIMEDOUT) then ps_start_serving fuel
      else
        (if rcode =? EMOLTIMEDOUT then xupd (fun g => g <| p_header ::= hello |>) else xret tt) ;;
        rcode <- ps_send_remote fuel ;;
        xupd (count_sent rcode) ;;
        ps_start_serving fuel
  end.

(** An address keeps its value when it is written as text and read back. *)
Definition ps_connect_to_remote : xact E Z :=
  g <- xget ;;
  host <- xcalls (gethostbyname (x_name g)) ;;
  match host with
  | None => err <- get_errno ;; xstops (X_EXIT err)
  | Some addr =>
      ok <- xwaits (connect (sproxy_sd g) addr (BASE_PORT + x_node g)) ;;
      if negb ok then get_errno else xret OK
  end.

Fixpoint connect_loop (fuel : nat) : xact E unit :=
  match fuel with
  | O => xstops X_MORE
  | S fuel =>
      rcode <- ps_connect_to_remote ;;
      if negb (rcode =? 0) then connect_loop fuel else xret tt
  end.

Fixpoint ps_connections (fuel : nat) : xact E unit :=
  match fuel with
  | O => xstops X_MORE
  | S fuel =>
      connect_loop fuel ;;
      g <- xget ;;
      rcode <- xcalls (proxy_conn (x_id g) Bind.CONNECT_SPROXY) ;;
      xexit_if (negb (rcode =? 0)) rcode ;;
      ps_start_serving fuel ;;
      rcode <- xcalls (proxy_conn (x_id g) Bind.DISCONNECT_SPROXY) ;;
      xexit_if (negb (rcode =? 0)) rcode ;;
      xcalls (fun e => (tt, close (sproxy_sd g) e)) ;;
      ps_connections fuel
  end.

Definition ps_init (fuel : nat) : xact E unit :=
  wait_bound fuel ;;
  allocate_buffers ;;
  s <- xcalls socket ;;
  must (bool_decide (is_Some s)) ;;
  xupd (fun g => g <| sproxy_sd := default 0 s |>) ;;
  ps_connections fuel.

(** ** [main]

    [fork] gives 0 in the child. *)
Definition px_main (fuel : nat) (name : list Z) (id : Z) : xact E unit :=
  xupd (fun g => g <| x_name := take 16 name |> <| x_id := id |>) ;;
  node <- xcalls getdvsinfo ;;
  xupd (fun g => g <| x_node := node |>) ;;
  spid <- xcalls fork ;;
  (if spid =? 0 then ps_init fuel else xret tt) ;;
  rpid <- xcalls fork ;;
  (if rpid =? 0 then pr_init fuel else xret tt) ;;
  ret <- xcalls (proxies_bind (take 16 name) id spid rpid) ;;
  xexit_if (ret <? 0) ret ;;
  xcalls (node_up (take 16 name) id id) ;;
  xwaits wait_child ;;
  xwaits wait_child ;;
  xstops (X_EXIT 0).
End Program.
