(* ===== verification/TcpFlow.v ===== *)
(** * Commands through a pair of proxies

    What the sender of one node writes to a connection, and what the receiver of the
    other node makes of it. *)

From S2P Require Import Prelude Types Endpoint TcpProxy.
#[local] Open Scope Z_scope.
#[local] Open Scope proxy_scope.

Arguments put_at : simpl never.

(** ** Buffers *)

Lemma length_put_at off bs buf :
  (off + length bs <= length buf)%nat -> length (put_at off bs buf) = length buf.
Proof. intros H. unfold put_at. rewrite !length_app, length_take, length_drop. lia. Qed.

Lemma put_at_app off bs bs' buf :
  (off <= length buf)%nat -> put_at (off + length bs) bs' (put_at off bs buf) = put_at off (bs ++ bs') buf.
Proof.
  intros H. unfold put_at. rewrite !(app_assoc (take off buf) bs).
  assert (length (take off buf ++ bs) = (off + length bs)%nat) as Hl by (rewrite length_app, length_take; lia).
  rewrite (take_app_length' _ _ _ (eq_sym Hl)), <-drop_drop, (drop_app_length' _ _ _ (eq_sym Hl)), drop_drop.
  by rewrite length_app, <-!app_assoc, Nat.add_assoc.
Qed.

Lemma put_at_all bs buf : length bs = length buf -> put_at 0 bs buf = bs.
Proof. intros H. unfold put_at. by rewrite take_0, Nat.add_0_l, H, drop_all, app_nil_r. Qed.

Lemma take_put_at bs buf : take (length bs) (put_at 0 bs buf) = bs.
Proof. unfold put_at. rewrite take_0, app_nil_l. apply take_app_length. Qed.

Lemma byte_at_put off bs buf i :
  (off + length bs <= length buf)%nat -> (off <= i < off + length bs)%nat ->
  byte_at i (put_at off bs buf) = byte_at (i - off) bs.
Proof.
  intros H Hi. unfold byte_at, put_at.
  rewrite lookup_app_r by (rewrite length_take; lia). rewrite length_take, lookup_app_l by lia.
  do 2 f_equal. lia.
Qed.

Lemma byte_at_put_ne off bs buf i :
  (off + length bs <= length buf)%nat -> (i < off \/ off + length bs <= i)%nat ->
  byte_at i (put_at off bs buf) = byte_at i buf.
Proof.
  intros H Hi. unfold byte_at, put_at. f_equal. destruct Hi as [Hi|Hi].
  - rewrite lookup_app_l by (rewrite length_take; lia). by rewrite lookup_take_lt.
  - rewrite !lookup_app_r by (rewrite ?length_take; lia). rewrite length_take, lookup_drop. f_equal. lia.
Qed.

Lemma get_int_put off buf : (off + 4 <= length buf)%nat -> get_int off (put_at off (int_bytes 0) buf) = 0.
Proof.
  intros H. unfold get_int. rewrite !byte_at_put by (cbn; lia).
  rewrite Nat.sub_diag. replace (off + 1 - off)%nat with 1%nat by lia.
  replace (off + 2 - off)%nat with 2%nat by lia. by replace (off + 3 - off)%nat with 3%nat by lia.
Qed.

Lemma get_int_put_ne off bs buf i :
  (off + length bs <= length buf)%nat -> (i + 4 <= off \/ off + length bs <= i)%nat ->
  get_int i (put_at off bs buf) = get_int i buf.
Proof. intros H Hi. unfold get_int. by rewrite !byte_at_put_ne by lia. Qed.

(** A HELLO has no command and no payload. *)
Lemma hello_spec h : length h = 88%nat ->
  length (hello h) = 88%nat /\ h_cmd (hello h) = CMD_NONE /\ h_len (hello h) = 0.
Proof.
  intros H. unfold hello, h_cmd, h_len, OFF_CMD, OFF_LEN, OFF_RCODE, CMD_NONE.
  set (h1 := put_at 0 _ h). assert (length h1 = 88%nat) as H1 by (subst h1; rewrite length_put_at; cbn; lia).
  set (h2 := put_at 28 _ h1). assert (length h2 = 88%nat) as H2 by (subst h2; rewrite length_put_at; cbn; lia).
  rewrite length_put_at, !(get_int_put_ne 24) by (cbn; lia). split_and!; [done| |].
  - subst h2. rewrite get_int_put_ne by (cbn; lia). apply get_int_put. lia.
  - apply get_int_put. lia.
Qed.

(** ** Frames *)

(** A command that fits the buffers: its header, and a payload of the length in it. *)
Record fits (room : nat) (c : list Z * list Z) : Prop := {
  fi_header : length c.1 = 88%nat;
  fi_payload : Z.of_nat (length c.2) = h_len c.1;
  fi_room : (length c.2 <= room)%nat;
}.

Definition frame (c : list Z * list Z) : list Z := c.1 ++ c.2.
Definition real (c : list Z * list Z) : Prop := h_cmd c.1 <> CMD_NONE.
#[export] Instance real_dec c : Decision (real c).
Proof. unfold real. apply _. Defined.

(** What a sender writes: commands, and headers without one. *)
Definition legal (room : nat) (c : list Z * list Z) : Prop := fits room c /\ (~ real c -> c.2 = []).

(** The receiver hands over the buffer of the payload, of which the command is the
    beginning. *)
Definition handed (c d : list Z * list Z) : Prop := d.1 = c.1 /\ take (length c.2) d.2 = c.2.

(** The buffers of a process. *)
Definition with_room (room : nat) (g : proxy) : Prop :=
  length (p_header g) = 88%nat /\ length (p_payload g) = room.

(** ** What the proxies rely on *)

(** The connection of the receiver has the bytes [pending] left; a [recv] gives some of
    them, and waits when there are none.  [given] is what the kernel was handed. *)
Class RecvLaws (E : Type) `{!Net E} := {
  pending : E -> list Z;
  given : E -> list (list Z * list Z);
  recv_some sd len e : pending e <> [] -> 0 < len ->
    exists bs e', recv sd len e = Some (Some bs, e') /\ bs <> [] /\ Z.of_nat (length bs) <= len /\
      pending e = bs ++ pending e' /\ given e' = given e;
  recv_waits sd len e : pending e = [] -> recv sd len e = None;
  put2lcl_given h p e :
    exists rcode e', put2lcl h p e = Some (rcode, e') /\ rcode <> EMOLNOTCONN /\
      pending e' = pending e /\ given e' = given e ++ [(h, p)];
}.

(** The kernel has the commands [queue] for the sender, or times out ([None]) before
    one; a [send] takes some of the bytes, which are then on the [wire]. *)
Class SendLaws (E : Type) `{!Net E} := {
  queue : E -> list (option (list Z * list Z));
  wire : E -> list Z;
  get2rmt_next e c q : queue e = c :: q ->
    exists e', get2rmt e = Some (match c with Some (h, p) => (OK, h, p) | None => (EMOLTIMEDOUT, [], []) end, e') /\
      queue e' = q /\ wire e' = wire e;
  get2rmt_waits e : queue e = [] -> get2rmt e = None;
  send_some sd bs e : bs <> [] ->
    exists n e', send sd bs e = Some (Some n, e') /\ 0 < n <= Z.of_nat (length bs) /\
      wire e' = wire e ++ take (Z.to_nat n) bs /\ queue e' = queue e;
}.

(** ** Running *)

Lemma xbind_done {E A B} (m : xact E A) (k : A -> xact E B) g e a g' e' :
  m g e = XDone a g' e' -> xbind m k g e = k a g' e'.
Proof. intros H. unfold xbind. by rewrite H. Qed.

Lemma xbind_stop {E A B} (m : xact E A) (k : A -> xact E B) g e x g' e' :
  m g e = XStop x g' e' -> xbind m k g e = XStop x g' e'.
Proof. intros H. unfold xbind. by rewrite H. Qed.

Lemma xbind_assoc {E A B C} (m : xact E A) (k : A -> xact E B) (k' : B -> xact E C) g e :
  xbind m (fun a => xbind (k a) k') g e = xbind (xbind m k) k' g e.
Proof. unfold xbind. by destruct (m g e). Qed.

(** ** The receiver *)

Section Receiver.
Context {E : Type} `{!Net E} `{!RecvLaws E}.
Implicit Types (g : proxy) (e : E).

Definition buffer (header : bool) (g : proxy) : list Z := if header then p_header g else p_payload g.

Lemma stored_app header off bs bs' g : (off <= length (buffer header g))%nat ->
  stored header (off + length bs) bs' (stored header off bs g) = stored header off (bs ++ bs') g.
Proof. destruct g, header; cbn; intros H; by rewrite put_at_app. Qed.

Lemma length_stored header off bs g : (off + length bs <= length (buffer header g))%nat ->
  length (buffer header (stored header off bs g)) = length (buffer header g).
Proof. destruct g, header; cbn; apply length_put_at. Qed.

(** The loop takes the bytes it was asked for, in whatever pieces they come. *)
Lemma recv_loop_run n header off bs rest g e :
  pending e = bs ++ rest -> bs <> [] -> (length bs < n)%nat -> (off + length bs <= length (buffer header g))%nat ->
  exists e', recv_loop n header (Z.of_nat (off + length bs)) (Z.of_nat off) g e = XDone RX_FULL (stored header off bs g) e' /\
    pending e' = rest /\ given e' = given e.
Proof.
  revert off bs g e. induction n as [|n IH]; intros off bs g e Hp Hbs Hn Hb; [lia|].
  cbn [recv_loop]. rewrite (xbind_done _ _ _ _ g g e) by done.
  destruct (recv_some (rconn_sd g) (Z.of_nat (off + length bs) - Z.of_nat off) e) as (b & e1 & Hr & Hb1 & Hlen & Hp1 & Hg1).
  { rewrite Hp. by destruct bs. }
  { destruct bs; [done|]. cbn. lia. }
  rewrite (xbind_done _ _ _ _ (Some b) g e1) by (unfold xwaits; by rewrite Hr).
  assert (exists bs', bs = b ++ bs') as [bs' ->].
  { exists (drop (length b) bs). rewrite Hp in Hp1. apply (f_equal (take (length b))) in Hp1.
    rewrite take_app_length, take_app_le in Hp1 by lia. rewrite <-Hp1 at 1. by rewrite take_drop. }
  rewrite <-app_assoc in Hp. rewrite Hp in Hp1. apply app_inv_head in Hp1. rewrite length_app in *.
  destruct b as [|c b]; [done|]. set (b' := c :: b) in *. assert (length b' <> 0)%nat by (subst b'; cbn; lia).
  rewrite (xbind_done _ _ _ _ tt (stored header off b' g) e1) by (unfold xupd; by rewrite Nat2Z.id).
  destruct bs' as [|c' bs'].
  - rewrite (proj2 (Z.geb_le _ _)) by (cbn [length]; lia). rewrite app_nil_r. by exists e1.
  - set (bs1 := c' :: bs') in *. assert (length bs1 <> 0)%nat by (subst bs1; cbn; lia).
    rewrite Z.geb_leb, (proj2 (Z.leb_gt _ _)) by lia.
    destruct (IH (off + length b')%nat bs1 (stored header off b' g) e1) as (e' & Hrun & Hp' & Hg');
      [done|done|lia|rewrite length_stored; lia|].
    exists e'. split_and!; [|done|congruence]. rewrite <-stored_app by lia.
    replace (Z.of_nat (off + (length b' + length bs1))) with (Z.of_nat (off + length b' + length bs1)) by lia.
    by replace (Z.of_nat off + Z.of_nat (length b')) with (Z.of_nat (off + length b')) by lia.
Qed.

Lemma recv_loop_start n header bs rest g e :
  pending e = bs ++ rest -> bs <> [] -> (length bs < n)%nat -> (length bs <= length (buffer header g))%nat ->
  exists e', recv_loop n header (Z.of_nat (length bs)) 0 g e = XDone RX_FULL (stored header 0 bs g) e' /\
    pending e' = rest /\ given e' = given e.
Proof. apply (recv_loop_run n header 0). Qed.

Definition read_header (h : list Z) (g : proxy) : proxy := g <| p_header := h |>.

(** A header is read whole. *)
Lemma receive_header_run h rest room g e :
  pending e = h ++ rest -> length h = 88%nat -> with_room room g ->
  exists e', (xupd (fun g => g <| p_header ::= zero (Z.to_nat HEADER_SIZE) |>) ;; pr_receive_header) g e =
    XDone OK (read_header h g) e' /\ pending e' = rest /\ given e' = given e.
Proof.
  intros Hp Hh [Hl Hr]. rewrite (xbind_done _ _ _ _ tt (g <| p_header ::= zero 88 |>) e) by done.
  assert (length (zero 88 (p_header g)) = 88%nat) as Hz by (unfold zero; rewrite length_put_at; cbn; lia).
  destruct (recv_loop_start 89 true h rest (g <| p_header ::= zero 88 |>) e) as (e' & Hrun & Hp' & Hg');
    [done|by destruct h|lia|cbn; lia|].
  exists e'. split_and!; [|done|done]. unfold pr_receive_header. rewrite Hh in Hrun.
  rewrite (xbind_done _ _ _ _ _ _ _ Hrun). destruct g. unfold read_header, xret. cbn in *.
  do 2 f_equal. apply put_at_all. lia.
Qed.

Lemma with_room_header room h g : with_room room g -> length h = 88%nat -> with_room room (read_header h g).
Proof. by intros []; split. Qed.

Lemma next_header_S fuel g e : next_header (S fuel) g e =
  xbind (xupd (fun g => g <| p_header ::= zero (Z.to_nat HEADER_SIZE) |>) ;; pr_receive_header)
    (fun rcode => if negb (rcode =? 0) then xret rcode
      else g <- xget ;; if h_cmd (p_header g) =? CMD_NONE then next_header fuel else xret OK) g e.
Proof. cbn [next_header]. apply xbind_assoc. Qed.

(** The headers without a command are skipped, up to one with a command, or until
    nothing is left. *)
Lemma next_header_run room evs fuel g e :
  pending e = concat (map frame evs) -> Forall (legal room) evs -> with_room room g -> (length evs < fuel)%nat ->
  (Forall (fun c => ~ real c) evs /\
     exists g' e', next_header fuel g e = XStop X_WAITS g' e' /\ given e' = given e /\
       rmsg_ok g' = rmsg_ok g /\ rmsg_fail g' = rmsg_fail g) \/
  (exists pre c post e', evs = pre ++ c :: post /\ Forall (fun c => ~ real c) pre /\ real c /\
     next_header fuel g e = XDone OK (read_header c.1 g) e' /\
     pending e' = c.2 ++ concat (map frame post) /\ given e' = given e).
Proof.
  revert fuel g e. induction evs as [|c evs IH]; intros [|fuel] g e Hp Hl Hg Hf; try (cbn in Hf; lia).
  - left. split; [done|]. rewrite next_header_S.
    eexists _, e. split; [|split; [done|]].
    + apply xbind_stop. rewrite (xbind_done _ _ _ _ tt _ e) by reflexivity. apply xbind_stop.
      cbn [recv_loop Z.to_nat HEADER_SIZE Pos.to_nat]. rewrite (xbind_done _ _ _ _ _ _ e) by reflexivity.
      apply xbind_stop. unfold xwaits. by rewrite recv_waits.
    + done.
  - apply list.Forall_cons in Hl as [[[Hh Hpay Hroom] Hnone] Hl].
    cbn [map concat] in Hp. unfold frame at 1 in Hp. rewrite <-app_assoc in Hp.
    destruct (receive_header_run c.1 _ room g e Hp Hh Hg) as (e1 & H1 & Hp1 & Hg1).
    rewrite next_header_S, (xbind_done _ _ _ _ _ _ _ H1). cbn [negb Z.eqb OK].
    rewrite (xbind_done xget _ _ _ (read_header c.1 g) (read_header c.1 g) e1) by done.
    destruct (decide (real c)) as [Hr|Hr].
    + right. exists [], c, evs, e1. split_and!; [done..| |done|done].
      unfold real in Hr. apply Z.eqb_neq in Hr. cbn. by rewrite Hr.
    + assert (h_cmd c.1 = CMD_NONE) as Hc by (unfold real in Hr; destruct (decide (h_cmd c.1 = CMD_NONE)); tauto).
      rewrite (Hnone Hr) in Hp1. replace (h_cmd _ =? CMD_NONE) with true by (symmetry; apply Z.eqb_eq, Hc).
      destruct (IH fuel (read_header c.1 g) e1) as [(Hall & g' & e' & Hrun & Hg' & Ho & Hfl)|
        (pre & c' & post & e' & -> & Hpre & Hr' & Hrun & Hp' & Hg')];
        [done|done|by apply with_room_header|cbn in Hf; lia|left|right].
      * split; [by constructor|]. exists g', e'. split_and!; [done|congruence|by destruct g..].
      * exists (c :: pre), c', post, e'. split_and!; [done|by constructor|done| |done|congruence].
        rewrite Hrun. by destruct g.
Qed.

(** The payload is at the beginning of its buffer. *)
Lemma receive_payload_run room c rest g e :
  fits room c -> pending e = c.2 ++ rest -> with_room room g -> p_header g = c.1 ->
  exists p e', receive_payload (h_len c.1) g e = XDone tt (g <| p_payload := p |>) e' /\
    length p = room /\ take (length c.2) p = c.2 /\ pending e' = rest /\ given e' = given e.
Proof.
  intros [Hh Hlen Hroom] Hp [Hg Hr] Hhdr. unfold receive_payload. rewrite <-Hlen.
  destruct (decide (c.2 = [])) as [Hnil|Hne].
  - rewrite Hnil in *. exists (p_payload g), e. by destruct g.
  - assert (length c.2 <> 0)%nat as H0 by (by destruct c.2).
    destruct (Z.eqb_spec (Z.of_nat (length c.2)) 0) as [?|_]; [lia|].
    rewrite (xbind_done xget _ g e g g e) by done. rewrite Hr.
    destruct (Z.ltb_spec (Z.of_nat (length c.2)) 0) as [?|_]; [lia|].
    rewrite Z.gtb_ltb, (proj2 (Z.ltb_ge _ _)) by lia. cbn [orb].
    set (g1 := g <| p_payload ::= zero (Z.to_nat (Z.of_nat (length c.2))) |>).
    rewrite (xbind_done _ _ _ _ tt g1 e) by done.
    assert (length (p_payload g1) = room) as Hr1.
    { subst g1. cbn. unfold zero. rewrite length_put_at; rewrite ?length_replicate; lia. }
    destruct (recv_loop_start (S (Z.to_nat (Z.of_nat (length c.2)))) false c.2 rest g1 e) as (e' & Hrun & Hp' & Hg');
      [done|done|lia|cbn [buffer]; lia|].
    exists (put_at 0 c.2 (p_payload g1)), e'. split_and!; [|rewrite length_put_at; lia|apply take_put_at|done|done].
    unfold pr_receive_payload. rewrite (xbind_done _ _ _ _ OK (stored false 0 c.2 g1) e'); [by destruct g|].
    by rewrite (xbind_done _ _ _ _ _ _ _ Hrun).
Qed.

Lemma skip_idle evs : Forall (fun c => ~ real c) evs -> filter real evs = [].
Proof. induction 1 as [|c l Hc _ IH]; [done|]. by rewrite filter_cons_False. Qed.

(** One message: it is handed to the kernel, or the receiver waits for more. *)
Lemma process_message_run room evs fuel g e :
  pending e = concat (map frame evs) -> Forall (legal room) evs -> with_room room g -> (length evs < fuel)%nat ->
  (filter real evs = [] /\
     exists g' e', pr_process_message fuel g e = XStop X_WAITS g' e' /\ given e' = given e /\
       rmsg_ok g' = rmsg_ok g /\ rmsg_fail g' = rmsg_fail g) \/
  (exists c post d rcode g' e', filter real evs = c :: filter real post /\ (length post < length evs)%nat /\
     Forall (legal room) post /\ pr_process_message fuel g e = XDone rcode g' e' /\ rcode <> EMOLNOTCONN /\
     pending e' = concat (map frame post) /\ given e' = given e ++ [d] /\ handed c d /\ with_room room g' /\
     rmsg_ok g' = rmsg_ok g /\ rmsg_fail g' = rmsg_fail g).
Proof.
  intros Hp Hl Hg Hf. unfold pr_process_message.
  destruct (next_header_run room evs fuel g e Hp Hl Hg Hf) as
    [(Hall & g' & e' & Hrun & H)|(pre & c & post & e1 & -> & Hpre & Hr & Hrun & Hp1 & Hg1)].
  - left. split; [by apply skip_idle|]. exists g', e'. split; [|done]. by apply xbind_stop.
  - right. apply list.Forall_app in Hl as [_ Hl]. apply list.Forall_cons in Hl as [[Hfit _] Hl].
    rewrite (xbind_done _ _ _ _ _ _ _ Hrun). cbn [negb Z.eqb OK].
    rewrite (xbind_done xget _ _ _ (read_header c.1 g) (read_header c.1 g) e1) by done.
    assert (with_room room (read_header c.1 g)) as Hg2 by (apply with_room_header; [done|by destruct Hfit]).
    destruct (receive_payload_run room c _ _ e1 Hfit Hp1 Hg2) as (p & e2 & Hpay & Hlp & Htk & Hp2 & Hgv2); [by destruct g|].
    set (g2 := read_header c.1 g <| p_payload := p |>) in *.
    assert (p_header g2 = c.1 /\ p_payload g2 = p) as [Hgh Hgp] by (by destruct g).
    replace (h_len (p_header (read_header c.1 g))) with (h_len c.1) by (by destruct g).
    destruct (put2lcl_given c.1 p e2) as (rcode & e3 & Hput & Hrc & Hp3 & Hgv3).
    exists c, post, (c.1, p), rcode, g2, e3. rewrite list.filter_app, (skip_idle pre), filter_cons_True by done.
    split_and!; [done|rewrite length_app; cbn; lia|done| |done|congruence|congruence|done| |by destruct g..].
    + rewrite (xbind_done _ _ _ _ _ _ _ Hpay), (xbind_done xget _ g2 e2 g2 g2 e2) by done.
      rewrite Hgh, Hgp. unfold xwaits. by rewrite Hput.
    + split; [rewrite Hgh; by destruct Hfit|by rewrite Hgp].
Qed.

(** All the messages of a connection. *)
Lemma session_run room fuel evs g e :
  pending e = concat (map frame evs) -> Forall (legal room) evs -> with_room room g -> (length evs < fuel)%nat ->
  exists g' e' D, pr_session fuel g e = XStop X_WAITS g' e' /\ given e' = given e ++ D /\
    Forall2 handed (filter real evs) D /\
    rmsg_ok g' + rmsg_fail g' = rmsg_ok g + rmsg_fail g + Z.of_nat (length D).
Proof.
  revert evs g e. induction fuel as [|fuel IH]; intros evs g e Hp Hl Hg Hf; [lia|]. cbn [pr_session].
  destruct (process_message_run room evs (S fuel) g e Hp Hl Hg Hf) as
    [(Hall & g' & e' & Hrun & Hgv & Ho & Hb)|
     (c & post & d & rcode & g1 & e1 & Hfil & Hlen & Hpost & Hrun & Hrc & Hp1 & Hgv1 & Hd & Hg1 & Ho & Hb)].
  - exists g', e', []. rewrite (xbind_stop _ _ _ _ _ _ _ Hrun), app_nil_r, Hall. split_and!; [done|done|done|cbn; lia].
  - rewrite (xbind_done _ _ _ _ _ _ _ Hrun).
    assert (exists g2, with_room room g2 /\ rmsg_ok g2 + rmsg_fail g2 = rmsg_ok g1 + rmsg_fail g1 + 1 /\
      (if rcode =? OK then xupd (fun g => g <| rmsg_ok ::= Z.succ |>) ;; pr_session fuel
       else xupd (fun g => g <| rmsg_fail ::= Z.succ |>) ;;
            if rcode =? EMOLNOTCONN then xret tt else pr_session fuel) g1 e1 = pr_session fuel g2 e1) as (g2 & Hg2 & Hc & ->).
    { apply Z.eqb_neq in Hrc. destruct (rcode =? OK); [exists (g1 <| rmsg_ok ::= Z.succ |>)|exists (g1 <| rmsg_fail ::= Z.succ |>)];
        (split_and!; [by destruct g1|destruct g1; cbn; lia|]).
      - by rewrite (xbind_done _ _ _ _ tt (g1 <| rmsg_ok ::= Z.succ |>) e1).
      - rewrite (xbind_done _ _ _ _ tt (g1 <| rmsg_fail ::= Z.succ |>) e1) by done. by rewrite Hrc. }
    destruct (IH post g2 e1) as (g' & e' & D & Hrun' & Hgv' & HD & Hcount); [done|done|done|lia|].
    exists g', e', (d :: D). split_and!; [done| |rewrite Hfil; by constructor|cbn [length]; lia].
    by rewrite Hgv', Hgv1, <-app_assoc.
Qed.
End Receiver.

(** ** The sender *)

Section Sender.
Context {E : Type} `{!Net E} `{!SendLaws E}.
Implicit Types (g : proxy) (e : E).

(** The loop sends the bytes, in whatever pieces they are taken. *)
Lemma send_loop_run fuel header n sent g e :
  (sent <= n)%nat -> (n <= length (buffer header g))%nat -> (n - sent <= fuel)%nat ->
  exists e', send_loop fuel header (Z.of_nat n) (Z.of_nat sent) g e = XDone OK g e' /\
    wire e' = wire e ++ take (n - sent) (drop sent (buffer header g)) /\ queue e' = queue e.
Proof.
  revert sent e. induction fuel as [|fuel IH]; intros sent e Hs Hn Hf; cbn [send_loop].
  - assert (sent = n) as -> by lia. rewrite Z.ltb_irrefl, Nat.sub_diag, take_0, app_nil_r. by exists e.
  - destruct (Z.ltb_spec (Z.of_nat sent) (Z.of_nat n)) as [Hlt|Hge]; cbn [negb].
    + rewrite (xbind_done xget _ g e g g e) by done.
      assert (unsent header (Z.of_nat n) (Z.of_nat sent) g = take (n - sent) (drop sent (buffer header g))) as Hu.
      { unfold unsent. rewrite Nat2Z.id. by replace (Z.to_nat (Z.of_nat n - Z.of_nat sent)) with (n - sent)%nat by lia. }
      rewrite Hu. set (bs := take _ _) in *.
      assert (length bs = (n - sent)%nat) as Hlen by (subst bs; rewrite length_take, length_drop; lia).
      destruct (send_some (sproxy_sd g) bs e) as (k & e1 & Hr & Hk & Hw & Hq).
      { intros H. rewrite H in Hlen. cbn in Hlen. lia. }
      rewrite (xbind_done _ _ _ _ (Some k) g e1) by (unfold xwaits; by rewrite Hr).
      replace (Z.of_nat sent + k) with (Z.of_nat (sent + Z.to_nat k)) by lia.
      destruct (IH (sent + Z.to_nat k)%nat e1) as (e' & Hrun & Hw' & Hq'); [lia..|].
      exists e'. split_and!; [done| |congruence]. rewrite Hw', Hw, <-app_assoc. f_equal.
      rewrite <-(take_drop (Z.to_nat k) bs) at 2. f_equal. subst bs.
      rewrite skipn_firstn_comm, drop_drop. f_equal. lia.
    + assert (sent = n) as -> by lia. rewrite Nat.sub_diag, take_0, app_nil_r. by exists e.
Qed.

(** A command is written as its frame. *)
Lemma send_remote_run room c fuel g e :
  fits room c -> with_room room g -> p_header g = c.1 -> take (length c.2) (p_payload g) = c.2 ->
  (88 + room <= fuel)%nat ->
  exists e', ps_send_remote fuel g e = XDone OK g e' /\ wire e' = wire e ++ frame c /\ queue e' = queue e.
Proof.
  intros [Hh Hlen Hroom] [Hg Hr] Hhdr Hpay Hf. unfold ps_send_remote, ps_send_header.
  destruct (send_loop_run fuel true 88 0 g e) as (e1 & H1 & Hw1 & Hq1); [lia|cbn; lia|lia|].
  cbn [Z.of_nat] in H1. unfold HEADER_SIZE. rewrite (xbind_done _ _ _ _ _ _ _ H1). cbn [negb Z.eqb OK].
  rewrite (xbind_done xget _ g e1 g g e1), Hhdr, <-Hlen by done.
  assert (wire e1 = wire e ++ c.1) as Hw.
  { rewrite Hw1. cbn [buffer]. by rewrite drop_0, Nat.sub_0_r, take_ge, Hhdr by lia. }
  rewrite Z.gtb_ltb. destruct (Z.ltb_spec 0 (Z.of_nat (length c.2))) as [Hpos|Hz].
  - unfold ps_send_payload. rewrite (xbind_done xget _ g e1 g g e1), Hhdr, <-Hlen by done.
    rewrite (proj2 (Z.leb_gt _ _)) by lia. rewrite (xbind_done _ _ _ _ tt g e1) by done.
    rewrite Z.gtb_ltb, (proj2 (Z.ltb_ge _ _)) by lia.
    destruct (send_loop_run fuel false (length c.2) 0 g e1) as (e2 & H2 & Hw2 & Hq2); [lia|cbn; lia|lia|].
    exists e2. split_and!; [done| |congruence]. rewrite Hw2, Hw. cbn [buffer].
    by rewrite drop_0, Nat.sub_0_r, Hpay, <-app_assoc.
  - exists e1. split_and!; [done| |congruence]. rewrite Hw. unfold frame.
    destruct c.2; [by rewrite app_nil_r|cbn in Hz; lia].
Qed.

(** What is to be sent in a turn: the command that the kernel gave, or a HELLO. *)
Lemma fetch_run {A} room ev evs (k k1 k2 : xact E A) g e :
  queue e = ev :: evs -> Forall (fun c => fits room c /\ real c) (omap id (ev :: evs)) -> with_room room g ->
  exists c g1 e1, legal room c /\ with_room room g1 /\ p_header g1 = c.1 /\
    take (length c.2) (p_payload g1) = c.2 /\ smsg_ok g1 = smsg_ok g /\
    Forall (fun c => fits room c /\ real c) (omap id evs) /\
    filter real [c] = match ev with Some c => [c] | None => [] end /\
    queue e1 = evs /\ wire e1 = wire e /\
    (rcode <- fetch ;;
     if rcode =? EMOLNOTCONN then k1
     else if negb (rcode =? OK) && negb (rcode =? EMOLTIMEDOUT) then k2
     else (if rcode =? EMOLTIMEDOUT then xupd (fun g => g <| p_header ::= hello |>) else xret tt) ;; k)
    g e = k g1 e1.
Proof.
  intros Hq Hall [Hgh Hgp]. destruct (get2rmt_next e ev evs Hq) as (e1 & Hget & Hq1 & Hw1).
  destruct ev as [[h p]|].
  - cbn in Hall. apply list.Forall_cons in Hall as [[[Hh Hlen Hroom] Hr] Hall].
    exists (h, p), (g <| p_header ::= put_at 0 h |> <| p_payload ::= put_at 0 p |>), e1. cbn in Hh, Hlen, Hroom.
    assert (with_room room (g <| p_header ::= put_at 0 h |> <| p_payload ::= put_at 0 p |>)) as Hg1.
    { destruct g. split; cbn in *; rewrite length_put_at; lia. }
    split_and!; [by split|done| | |done|done|by rewrite filter_cons_True|done|done|].
    + cbn. apply put_at_all. lia.
    + apply take_put_at.
    + rewrite (xbind_done fetch _ g e OK _ e1) by (unfold fetch; by rewrite Hget). done.
  - set (h := put_at 0 [] (p_header g)). assert (length h = 88%nat) as Hl by (subst h; rewrite length_put_at; cbn; lia).
    destruct (hello_spec h Hl) as (H1 & H2 & H3).
    exists (hello h, []), (g <| p_header := hello h |> <| p_payload ::= put_at 0 [] |>), e1.
    split_and!; [|split; [done|]; change (length (put_at 0 [] (p_payload g)) = room); rewrite length_put_at; cbn; lia|done|done|done|done| |done|done|].
    + split; [split; cbn; [done|by rewrite H3|lia]|done].
    + rewrite filter_cons_False; [done|]. intros Hr. by apply Hr.
    + rewrite (xbind_done fetch _ g e EMOLTIMEDOUT (g <| p_header := h |> <| p_payload ::= put_at 0 [] |>) e1)
        by (unfold fetch; rewrite Hget; by destruct g). by destruct g.
Qed.

(** The commands of the kernel, and a HELLO for each time out. *)
Lemma serving_run room evs fuel g e :
  queue e = evs -> Forall (fun c => fits room c /\ real c) (omap id evs) -> with_room room g ->
  (length evs + 88 + room < fuel)%nat ->
  exists g' e' cs, ps_start_serving fuel g e = XStop X_WAITS g' e' /\ wire e' = wire e ++ concat (map frame cs) /\
    Forall (legal room) cs /\ filter real cs = omap id evs /\ length cs = length evs /\
    smsg_ok g' = smsg_ok g + Z.of_nat (length evs).
Proof.
  revert fuel g e. induction evs as [|ev evs IH]; intros [|fuel] g e Hq Hall Hg Hf; try (cbn in Hf; lia); cbn [ps_start_serving].
  - exists g, e, []. rewrite app_nil_r. split_and!; [|done..|cbn; lia].
    apply xbind_stop. unfold fetch. by rewrite get2rmt_waits.
  - destruct (fetch_run room ev evs (rcode <- ps_send_remote fuel ;; xupd (count_sent rcode) ;; ps_start_serving fuel)
      (xret EMOLNOTCONN) (ps_start_serving fuel) g e Hq Hall Hg)
      as (c & g1 & e1 & Hc & Hg1 & Hh1 & Hp1 & Ho1 & Hall' & Hfil & Hq1 & Hw1 & ->).
    destruct (send_remote_run room c fuel g1 e1) as (e2 & Hrun & Hw2 & Hq2);
      [by destruct Hc|done|done|done|cbn in Hf; lia|].
    rewrite (xbind_done _ _ _ _ _ _ _ Hrun).
    rewrite (xbind_done _ _ _ _ tt (g1 <| smsg_ok ::= Z.succ |>) e2) by done.
    destruct (IH fuel (g1 <| smsg_ok ::= Z.succ |>) e2) as (g' & e' & cs & Hrun' & Hw' & Hl & Hf' & Hn & Hk);
      [congruence|done|by destruct g1|cbn in Hf; lia|].
    exists g', e', (c :: cs). split_and!; [done| |by constructor| |cbn; lia|].
    + rewrite Hw', Hw2, Hw1. cbn. by rewrite <-app_assoc.
    + change (c :: cs) with ([c] ++ cs). rewrite list.filter_app, Hfil, Hf'. by destruct ev.
    + rewrite Hk. destruct g1. cbn in *. lia.
Qed.
End Sender.

(** ** Through the connection *)

(** C4. The proxies of two nodes carry every command of the kernel of one to the kernel
    of the other, exactly, in order, and nothing else.  The sender writes all the
    commands of its kernel, whatever parts of them a [send] takes, and a HELLO for each
    time out, and waits for more; the receiver, whose connection has what was written, in
    whatever pieces it comes, hands over the headers that have a command with their
    payloads at the beginning of the buffer, and waits for more.  A command has a header
    of 88 bytes and a payload of the length in it, which fits the buffer. *)
Theorem tunnel_delivers {E1 E2} `{!Net E1} `{!SendLaws E1} `{!Net E2} `{!RecvLaws E2}
    room (cmds : list (option (list Z * list Z))) fuel1 fuel2 g1 (e1 : E1) g2 (e2 : E2) :
  with_room room g1 -> with_room room g2 ->
  queue e1 = cmds -> Forall (fun c => fits room c /\ real c) (omap id cmds) -> wire e1 = [] ->
  (length cmds + 88 + room < fuel1)%nat -> (length cmds < fuel2)%nat ->
  exists g1' e1', ps_start_serving fuel1 g1 e1 = XStop X_WAITS g1' e1' /\
    smsg_ok g1' = smsg_ok g1 + Z.of_nat (length cmds) /\
    (pending e2 = wire e1' ->
     exists g2' e2' D, pr_session fuel2 g2 e2 = XStop X_WAITS g2' e2' /\
       given e2' = given e2 ++ D /\ Forall2 handed (omap id cmds) D /\
       rmsg_ok g2' + rmsg_fail g2' = rmsg_ok g2 + rmsg_fail g2 + Z.of_nat (length (omap id cmds))).
Proof.
  intros Hg1 Hg2 Hq Hc Hw Hf1 Hf2.
  destruct (serving_run room cmds fuel1 g1 e1 Hq Hc Hg1 Hf1) as (g1' & e1' & cs & Hrun & Hw' & Hl & Hfil & Hn & Hok).
  exists g1', e1'. split_and!; [done|done|]. intros Hp. rewrite Hw', Hw in Hp.
  destruct (session_run room fuel2 cs g2 e2 Hp Hl Hg2) as (g2' & e2' & D & Hrun2 & Hgv & HD & Hcount); [lia|].
  rewrite Hfil in HD. exists g2', e2', D. split_and!; [done..|]. by rewrite (list.Forall2_length _ _ _ HD).
Qed.

(** ** The end of a connection *)

(** Once the peer has closed the connection each [recv] gives nothing, or fails; the
    value of [errno] is never that of [EMOLNOTCONN], which is negative. *)
Class ClosedLaws (E : Type) `{!Net E} := {
  closed : E -> Prop;
  recv_closed sd len e : closed e ->
    exists r e', recv sd len e = Some (r, e') /\ (r = None \/ r = Some []) /\ closed e';
  errno_positive e : 0 <= errno e;
}.

(** A socket that was closed cannot be connected. *)
Class DeadLaws (E : Type) `{!Net E} := {
  dead : Z -> E -> Prop;
  dead_close sd e : dead sd (close sd e);
  dead_host sd name e : dead sd e -> dead sd (snd (gethostbyname name e));
  dead_connect sd addr port e : dead sd e ->
    match connect sd addr port e with Some (ok, e') => ok = false /\ dead sd e' /\ errno e' <> 0 | None => True end;
}.

Section Ends.
Context {E : Type} `{!Net E}.
Implicit Types (g : proxy) (e : E).

Section Closed.
Context `{!ClosedLaws E}.

Lemma recv_loop_closed n header total g e : closed e ->
  exists r e', recv_loop (S n) header total 0 g e = XDone r g e' /\ r <> RX_FULL /\ closed e'.
Proof.
  intros He. cbn [recv_loop]. rewrite (xbind_done xget _ g e g g e) by done.
  destruct (recv_closed (rconn_sd g) (total - 0) e He) as (r & e' & Hr & [-> | ->] & He');
    rewrite (xbind_done (xwaits (recv (rconn_sd g) (total - 0))) _ g e _ g e' ltac:(unfold xwaits; rewrite Hr; reflexivity));
    [exists RX_ERROR, e'|exists RX_END, e']; done.
Qed.

Lemma h_cmd_zero g : length (p_header g) = 88%nat -> h_cmd (zero 88 (p_header g)) = CMD_NONE.
Proof.
  intros H. unfold zero. rewrite put_at_all by (cbn; lia). reflexivity.
Qed.

(** No message is found: the header is cleared and read again without end, or an error
    other than [EMOLNOTCONN] is returned. *)
Lemma next_header_closed fuel g e : length (p_header g) = 88%nat -> closed e ->
  (exists g' e', next_header fuel g e = XStop X_MORE g' e' /\ closed e' /\ length (p_header g') = 88%nat) \/
  (exists rcode g' e', next_header fuel g e = XDone rcode g' e' /\ 0 < rcode /\ closed e' /\ length (p_header g') = 88%nat).
Proof.
  revert g e. induction fuel as [|fuel IH]; intros g e Hl He; cbn [next_header].
  - left. by exists g, e.
  - set (g1 := g <| p_header ::= zero 88 |>). rewrite (xbind_done _ _ _ _ tt g1 e) by done.
    assert (length (p_header g1) = 88%nat) as Hl1 by (subst g1; destruct g; cbn; unfold zero; rewrite length_put_at; cbn in *; lia).
    destruct (recv_loop_closed 88 true HEADER_SIZE g1 e He) as (r & e1 & Hr & Hne & He1).
    rewrite (xbind_done pr_receive_header _ g1 e (errno e1) g1 e1).
    2: { unfold pr_receive_header. change (S (Z.to_nat HEADER_SIZE)) with 89%nat. rewrite (xbind_done _ _ _ _ _ _ _ Hr). by destruct r. }
    pose proof (errno_positive e1) as Hp. destruct (Z.eqb_spec (errno e1) 0) as [Hz|Hz]; cbn [negb].
    + rewrite (xbind_done xget _ g1 e1 g1 g1 e1) by done.
      replace (h_cmd (p_header g1)) with CMD_NONE by (subst g1; destruct g; symmetry; by apply (h_cmd_zero (mk_proxy 0 0 [] _ [] 0 0 0 0 0 0 0))).
      exact (IH g1 e1 Hl1 He1).
    + right. exists (errno e1), g1, e1. split_and!; [done|lia|done|done].
Qed.

(** C37. When the sender of the other node has closed the connection, the receiver never
    notices it.  It reads for ever from the connection that has ended, and does not leave
    the loop over its messages, whatever number of turns it is given: so it never accepts
    the next connection.  The loop is left for the error [EMOLNOTCONN] only, and the end
    of a connection gives the [errno] of some call before. *)
Theorem receiver_never_leaves fuel g e :
  length (p_header g) = 88%nat -> closed e ->
  exists g' e', pr_session fuel g e = XStop X_MORE g' e' /\ closed e'.
Proof.
  revert g e. induction fuel as [|fuel IH]; intros g e Hl He; cbn [pr_session]; [by exists g, e|].
  unfold pr_process_message.
  destruct (next_header_closed (S fuel) g e Hl He) as [(g' & e' & Hrun & He' & _)|(rcode & g' & e' & Hrun & Hrc & He' & Hl')].
  - exists g', e'. split; [|done]. do 2 apply xbind_stop. done.
  - rewrite (xbind_done _ _ g e rcode g' e').
    2: { rewrite (xbind_done _ _ _ _ _ _ _ Hrun). by destruct (Z.eqb_spec rcode 0); [lia|]. }
    destruct (Z.eqb_spec rcode OK) as [->|_]; [unfold OK in Hrc; lia|].
    rewrite (xbind_done _ _ _ _ tt (g' <| rmsg_fail ::= Z.succ |>) e') by done.
    destruct (Z.eqb_spec rcode EMOLNOTCONN) as [->|_]; [unfold EMOLNOTCONN in Hrc; lia|].
    apply IH; [by destruct g'|done].
Qed.
End Closed.

Lemma dead_never `{!DeadLaws E} fuel g e g' e' :
  dead (sproxy_sd g) e -> connect_loop fuel g e <> XDone tt g' e'.
Proof.
  revert e. induction fuel as [|fuel IH]; intros e He; cbn [connect_loop]; [done|].
  unfold ps_connect_to_remote, xbind, xget, xcalls, xwaits.
  pose proof (dead_host (sproxy_sd g) (x_name g) e He) as Hh.
  destruct (gethostbyname (x_name g) e) as [[addr|] e1]; [|done]. cbn in Hh.
  pose proof (dead_connect (sproxy_sd g) addr (BASE_PORT + x_node g) e1 Hh) as Hc.
  destruct (connect _ _ _ e1) as [[ok e2]|]; [|done]. destruct Hc as (-> & He2 & Hz). cbn.
  apply Z.eqb_neq in Hz. rewrite Hz. cbn. by apply IH.
Qed.

(** The sender connects once only.  When the kernel tells it that its connection is
    over it closes the socket, and opens no other: from there on the program never gets
    to serve again, whatever number of attempts it makes. *)
Theorem sender_never_reconnects `{!DeadLaws E} fuel g e a g' e' :
  ps_connections fuel g (close (sproxy_sd g) e) <> XDone a g' e' /\
  connect_loop fuel g (close (sproxy_sd g) e) <> XDone tt g' e'.
Proof.
  pose proof (dead_close (sproxy_sd g) e) as He. split; [|by apply dead_never].
  destruct fuel as [|fuel]; cbn [ps_connections]; [done|]. unfold xbind at 1.
  destruct (connect_loop fuel g _) as [[] g1 e1|] eqn:Hc; [|done]. by apply dead_never in Hc.
Qed.
End Ends.
