(* ===== verification/TcpScenario.v ===== *)
(** * A connection between two nodes

    A network that takes five bytes at a time and gives seven, a connection that is
    closed, and the theorems of [TcpFlow] on them. *)

From S2P Require Import Prelude Types Endpoint TcpProxy TcpFlow.
#[local] Open Scope Z_scope.

(** ** A line that is slow *)

Record line := mk_line {
  l_queue : list (option (list Z * list Z)); l_wire : list Z;
  l_pending : list Z; l_given : list (list Z * list Z);
}.

#[export] Instance line_net : Net line := {|
  recv sd len e :=
    match l_pending e with
    | [] => None
    | bs => let n := Z.to_nat (Z.min 7 len) in
        Some (Some (take n bs), mk_line (l_queue e) (l_wire e) (drop n bs) (l_given e))
    end;
  send sd bs e :=
    Some (Some (Z.min 5 (Z.of_nat (length bs))), mk_line (l_queue e) (l_wire e ++ take 5 bs) (l_pending e) (l_given e));
  accept sd e := Some (4, e);
  socket e := (Some 3, e);
  setsockopt sd e := (true, e);
  bind_port sd port e := (true, e);
  listen sd e := (true, e);
  gethostbyname name e := (Some 1, e);
  connect sd addr port e := Some (true, e);
  close sd e := e;
  errno e := 0;
  get2rmt e :=
    match l_queue e with
    | [] => None
    | c :: q => Some (match c with Some (h, p) => (OK, h, p) | None => (EMOLTIMEDOUT, [], []) end,
                      mk_line q (l_wire e) (l_pending e) (l_given e))
    end;
  put2lcl h p e := Some (OK, mk_line (l_queue e) (l_wire e) (l_pending e) (l_given e ++ [(h, p)]));
  wait4bind e := Some (NONE, e);
  proxy_conn id status e := (OK, e);
  buffers e := Some (replicate 88 1, replicate 16 2);
  getdvsinfo e := (0, e);
  fork e := (0, e);
  proxies_bind name id spid rpid e := (OK, e);
  node_up name id nr e := (OK, e);
  wait_child e := None;
|}.

#[export] Instance line_recv : RecvLaws line.
Proof.
  refine {| pending := l_pending; given := l_given |}.
  - intros sd len e Hp Hl. cbn. destruct (l_pending e) as [|b bs] eqn:Hb; [done|].
    eexists _, _. split; [reflexivity|]. cbn [l_pending l_given]. rewrite take_drop.
    split_and!; [|rewrite length_take; lia|done|done].
    by destruct (Z.to_nat (Z.min 7 len)) eqn:Hn; [lia|].
  - intros sd len e Hp. cbn. by rewrite Hp.
  - intros h p e. eexists _, _. split; [reflexivity|]. done.
Defined.

#[export] Instance line_send : SendLaws line.
Proof.
  refine {| queue := l_queue; wire := l_wire |}.
  - intros e c q Hq. cbn. rewrite Hq. by eexists.
  - intros e Hq. cbn. by rewrite Hq.
  - intros sd bs e Hbs. eexists _, _. split; [reflexivity|]. cbn [l_wire l_queue].
    assert (length bs <> 0)%nat by (by destruct bs). split_and!; [lia|lia| |done]. f_equal.
    destruct (decide (length bs <= 5)%nat).
    + by rewrite !take_ge by lia.
    + by replace (Z.to_nat (Z.min 5 (Z.of_nat (length bs)))) with 5%nat by lia.
Defined.

(** ** Two commands and a HELLO *)

Definition px0 : proxy := mk_proxy 0 1 [110] (replicate 88 1) (replicate 16 2) 0 0 0 0 (-1) 4 3.

Definition header_of (cmd len : Z) : list Z :=
  put_at OFF_LEN (int_bytes len) (put_at OFF_CMD (int_bytes cmd) (replicate 88 5)).

Definition cmds0 : list (option (list Z * list Z)) :=
  [Some (header_of CMD_SEND_MSG 0, []); None; Some (header_of CMD_COPYIN_DATA 9, [11; 12; 13; 14; 15; 16; 17; 18; 19])].

Definition sender0 : line := mk_line cmds0 [] [] [].

Lemma cmds0_fit : Forall (fun c => fits 16 c /\ real c) (omap id cmds0).
Proof.
  repeat apply List.Forall_cons; [..|apply List.Forall_nil]; (split; [split; vm_compute; done || lia|by vm_compute]).
Qed.

Definition wire0 : list Z :=
  match ps_start_serving 200 px0 sender0 with XStop _ _ e => l_wire e | XDone _ _ e => l_wire e end.
Definition receiver0 : line := mk_line [] [] wire0 [].

(** All arrives: the second command with its payload at the beginning of the buffer. *)
Lemma all_given :
  match pr_session 9 px0 receiver0 with
  | XStop X_WAITS g e => l_given e = [(header_of CMD_SEND_MSG 0, replicate 16 2);
      (header_of CMD_COPYIN_DATA 9, [11; 12; 13; 14; 15; 16; 17; 18; 19; 2; 2; 2; 2; 2; 2; 2])] /\ rmsg_ok g = 2
  | _ => False
  end.
Proof. vm_compute. done. Qed.

Lemma tunnel_delivers_witness :
  exists g1' e1', ps_start_serving 200 px0 sender0 = XStop X_WAITS g1' e1' /\
    smsg_ok g1' = smsg_ok px0 + Z.of_nat (length cmds0) /\
    (pending receiver0 = wire e1' ->
     exists g2' e2' D, pr_session 9 px0 receiver0 = XStop X_WAITS g2' e2' /\
       given e2' = given receiver0 ++ D /\ Forall2 handed (omap id cmds0) D /\
       rmsg_ok g2' + rmsg_fail g2' = rmsg_ok px0 + rmsg_fail px0 + Z.of_nat (length (omap id cmds0))).
Proof.
  apply (tunnel_delivers (E1 := line) (E2 := line) 16 cmds0 200 9 px0 sender0 px0 receiver0);
    [by split|by split|reflexivity|exact cmds0_fit|reflexivity|cbn; lia|cbn; lia].
Defined.

(** ** A connection that is closed *)

(** The connection of the receiver has ended; no socket can be connected. *)
Inductive hung_up := HUNG_UP.

#[export] Instance hung_up_net : Net hung_up := {|
  recv sd len e := Some (Some [], e);
  send sd bs e := Some (None, e);
  accept sd e := Some (4, e);
  socket e := (Some 3, e);
  setsockopt sd e := (true, e);
  bind_port sd port e := (true, e);
  listen sd e := (true, e);
  gethostbyname name e := (Some 1, e);
  connect sd addr port e := Some (false, e);
  close sd e := e;
  errno e := 9;
  get2rmt e := Some (EMOLNOTCONN, [], [], e);
  put2lcl h p e := Some (OK, e);
  wait4bind e := Some (NONE, e);
  proxy_conn id status e := (OK, e);
  buffers e := Some (replicate 88 1, replicate 16 2);
  getdvsinfo e := (0, e);
  fork e := (0, e);
  proxies_bind name id spid rpid e := (OK, e);
  node_up name id nr e := (OK, e);
  wait_child e := None;
|}.

#[export] Instance hung_up_closed : ClosedLaws hung_up.
Proof.
  refine {| closed := fun _ => True |}; [|done]. intros sd len e _. eexists _, e. split; [reflexivity|]. auto.
Defined.

#[export] Instance hung_up_dead : DeadLaws hung_up.
Proof. by refine {| dead := fun _ _ => True |}. Defined.

Lemma receiver_never_leaves_witness :
  exists g' e', pr_session 50 px0 HUNG_UP = XStop X_MORE g' e' /\ closed e'.
Proof. apply (receiver_never_leaves (E := hung_up) 50 px0 HUNG_UP); [reflexivity|exact I]. Defined.

(** The failures are counted, and nothing else happens. *)
Lemma failures_counted :
  match pr_session 50 px0 HUNG_UP with XStop X_MORE g _ => rmsg_fail g = 50 | _ => False end.
Proof. vm_compute. reflexivity. Qed.

Lemma hung_up_never_connects g' e' :
  connect_loop 50 px0 HUNG_UP <> XDone tt g' e'.
Proof. exact (proj2 (sender_never_reconnects (E := hung_up) 50 px0 HUNG_UP tt g' e')). Qed.

(** The whole program of the sender, in the child of [main]: it is told that its
    connection is over, and tries to connect for ever. *)
Lemma child_tries_for_ever :
  match px_main 30 [110] 1 px0 HUNG_UP with XStop X_MORE g _ => sproxy_sd g = 3 | _ => False end.
Proof. vm_compute. reflexivity. Qed.
